(* ===== verification/_CoqProject ===== *)
-Q . S2P
Prelude.v
Bytes.v
Utf8.v
RpcMsg.v
RpcEncode.v
RpcDecode.v
RpcStream.v
AgentClient.v
RpcTests.v
Mvex.v
MvexDis.v
MvexCalls.v
Encoder.v
MvexTests.v
IsaAudit.v
AuditProofs.v
Reads.v
AuditTests.v
AuditMain.v
AgentTests.v
Codegen.v
CodegenFls.v
CodegenProbe.v
Layout.v
Fpu.v
Vpu.v
VpuCalls.v
Symbolic.v
Kernels.v
KernelsPack.v
Roundtrip.v
Files.v
Blocks.v
Knc.v
Libknc.v
Demo.v
KncCalls.v
BuildScript.v
HelloRs.v
Probe.v
RegFile.v
Mandel.v
Fls.v
Abi.v
Ordering.v
LibkncAudit.v
Committed.v
