(* ===== verification/Prelude.v ===== *)
(** * The Rust core of the Knights Corner stack, modelled and verified

    This library models the Rust programs that run a Xeon Phi 3120A from its
    host: the protocol crate, the vector instruction encoder, the generator of
    the card's vector kernels, the instruction audit, and the card-side crate
    that calls the kernels.  Every definition is translated from the sources
    under [src/]; paths below are relative to it.

    ** The program and the files that model it

    - [Prelude] (this file): integers at their width ([uint], [sint], [wrap],
      [signed]), [len], [result], tactics and shared lemmas.
    - [Bytes], [Utf8]: little-endian integers ([to_le_bytes]) and the UTF-8
      validity test of [String::from_utf8].
    - The protocol, host/crates/phi-rpc/src/lib.rs.  [RpcMsg]: the messages
      ([Msg], [Stat] and its records), limits and tags.  [RpcEncode]: the
      [put_*] functions, [encode_body], [encode].  [RpcDecode]: [Reader] as a
      state and error monad, the [r_*] readers, [decode_body].  [RpcStream]:
      the [Decoder] (push, next_frame, pending) and the receive loop of its
      users ([drain], [receive]).  [RpcTests]: the crate's unit tests.
      [AgentClient]: the client of tests/agent.rs ([Agent], [session],
      [streams]).  [AgentTests]: the tests of tests/agent.rs as programs over
      that client, against whatever the agent answers ([accepts]).
    - The encoder, host/crates/knc-mvex/src/lib.rs, conv.rs, transc.rs.
      [Mvex]: operands, the prefix assembly [mvex], one definition per
      instruction function; a panic is [None].  [MvexDis]: the documented
      MVEX layout and opcode table as a decoder, [disasm].  [MvexCalls]: a call
      that assembles a vector instruction as data ([Call], [run_call]).
      [Encoder]: a call of any encoder function ([encode_call]), and what holds
      of all of them.  [MvexTests]: the unit tests of the three files.
    - The audit, host/crates/phi-isa-audit/src/lib.rs and main.rs.
      [IsaAudit]: [scan_bytes_counting], [audit_one], [audit_archive],
      [audit_elf], [exit_code].  [AuditProofs]: what holds of them.
      [AuditMain]: everything the program prints and its exit status
      ([audit_main]).  The x86 decoder and the object file reader are
      parameters ([Iced]).  [Reads]: what is relied on of the decoder,
      instruction by instruction.  [AuditTests]: the crate's unit tests.
    - The generator, host/crates/knc-mvex/src/main.rs.  [Codegen]: the lines it
      writes ([Line]) and their text ([render]); [unpack_kernel],
      [transform_kernel], [pack_kernel], thunks, tables, constants, [codec],
      [bitunpack], [memcpy_kernel].  [CodegenFls]: the FastLanes kernels,
      their dispatch and constants ([fastlanes]).  [CodegenProbe]: the probes,
      [vpu_set] and [vpu_get], the Mandelbrot kernel, the kernel header and
      [main].  [Files]: every file of [main] as text.  [Committed]: the
      files committed to the repository and the tests that compare them.
    - What the kernels compute.  [Layout]: the packed layout, the scalar model
      of card/lib/knc-rs/src/main.rs ([scalar_unpack]), bits and residues.
      [Fpu]: the float64 operations as a class.  [Vpu]: the machine, that is
      registers, mask registers, memory words, flags, the documented
      effect of the decoded vector instructions ([sem]) behind the class
      [Vpu], the scalar instructions, numeric labels, runs ([run], [ends]).
      [VpuCalls]: the effect of each encoder call the generator makes.
      [Symbolic]: symbolic execution of straight-line code and its simulation.
      [Kernels], [KernelsPack]: the codec kernels.  [Roundtrip]: the codec as a
      whole.  [Blocks]: the copy and clear loops.  [Fls]: the FastLanes
      kernels.  [Probe]: the integer and float64 probes.  [RegFile]: saving
      and restoring the vector unit.  [Mandel]: the Mandelbrot loop.
      [Abi]: the registers every function gives back.  [Ordering]: the order
      in which other cores see the stores of the clears.
    - The card crate, card/lib/knc-rs/src/lib.rs and main.rs.  [Knc]: the
      entry points through thunks and tables in a linked image, [Codec],
      [memcpy64].  [Libknc]: the foreign functions as a class with laws
      ([LibkncLaws]), the methods of [Codec] over it, and a reference
      implementation.  [KncCalls]: the machine code behind the class.  [Demo]:
      the program knc-demo as a client of the class.  [BuildScript]: build.rs.
    - [LibkncAudit]: libknc.a as card/lib/knc/build.sh makes and audits it.
    - [HelloRs]: the toolchain's smoke test, toolchain/check/hello_rs.

    The parts meet as the code's do: the audit measures what the encoder
    emits; the generator is a client of the encoder, and its kernels are
    executed from the bytes the encoder returns, decoded by the same layout
    the disassembly theorem uses; the card crate calls the kernels through
    the tables the generator wrote, and its demo is checked against the laws
    of the library alone, which the machine code is shown to implement; the
    audit is run on the archive of the generator's files; the tests of the
    card agent send with the protocol's encoder and hear with its decoder.

    ** What the theorems show

    - Protocol: what is sent is received, in any chunking ([receive_messages],
      [receive_frames]); bodies round trip up to the documented clipping
      ([decode_encode], [reencode]); truncated and ill-formed input is an
      error, and which one ([decode_truncated], [decode_error],
      [next_frame_length]); decoded messages are within the limits
      ([decode_wellformed]); buffering is bounded and the loop ends
      ([pending_bounded], [drain_done]); the size the clipping does not bound
      ([unclipped_rejected]); the unit tests pass ([protocol_tests_pass]).
      The agent's client is a queue of what the agent sends
      ([session_refines]), and a command's output arrives in order
      ([output_relayed]).  Each test of tests/agent.rs passes exactly on the
      answers that are right for what it sends ([put_and_get_verdict],
      [exec_relays_verdict], [stray_verdict], [fixture_verdict] and the
      others of [AgentTests]).
    - Encoder: for every function and all operands, what the bytes
      disassemble to and when that is the text beside them
      ([disasm_call_text]), and when a function panics ([panics_exactly]);
      decoding is unique ([unique_decoding]); agreement with Intel's macros
      and the card's runs ([intel_macros], [card_bytes],
      [encoder_tests_pass]), equal forms ([equal_forms]) and the conversions
      that are dropped ([conversion_dropped]).
    - Audit: lengths are exact on encoder output ([encoder_lengths],
      [encoder_output_clean]); the scan stays in step with the instructions
      and terminates ([scan_in_sync], [scan_total]); verdicts, symbols,
      ordering, grouping and exit status ([judge_worst],
      [find_symbol_outermost], [audit_one_exact], [by_reason_spec],
      [exit_code_spec]); the program's output accounts for every hit
      ([audit_accounts]); the displacement it misses
      ([sib_displacement_missed]); the unit tests pass with every decoder that
      reads their instructions ([audit_tests_pass]); the audit of libknc.a
      comes back clean, with exact counts ([libknc_audit_clean]).
    - Codec kernels: at every width from 1 to 32 and in every mode the
      generated code runs to its return without a fault and computes the
      layout, leaving other memory alone ([unpack_correct], [pack_correct],
      [transform_correct]); it agrees with the scalar model ([model_agrees]);
      packing and unpacking round trip ([pack_unpack], [framed_roundtrip]); the
      loops copy and clear any count of blocks ([memcpy_correct],
      [memset_correct]); the fence of [knc_memset64] publishes its unordered
      stores before anything its caller stores later ([memset_published]).
    - Other generated code: the FastLanes kernels at every width and from
      unaligned input ([fls_correct]); the probes, slot by slot
      ([int_probe_correct], [probe_correct]); the vector unit is restored as
      it was saved ([vpu_state_kept]); the Mandelbrot loop always returns, with
      the counts of the scalar loop ([mandel_correct]); the generator prints
      every file it knows ([main_total]), and what it prints is what is
      committed, byte for byte ([committed_files_are_current]).
    - Safety of the generated code: the theorems above are about a machine
      with an address space, in which an access outside what is mapped or off
      its alignment faults, so a kernel that returns has touched nothing but
      its buffers, its constants and, for the fence, the top of the stack; and
      every call gives back the registers it must save
      ([calling_convention]).
    - Card crate: the entry points behave as the kernel of a checked width
      and write nothing otherwise ([codec_entry]); the machine code refines
      the interface ([libknc_refines]), whose laws give the codec's round trip
      ([codec_roundtrip]) and the demo's success, with everything that can
      stop it, in both builds ([demo_passes]); [memcpy64] is safe for counts
      whose size is a [usize] ([memcpy64_safe]), and what it does beyond them
      is exact ([memcpy64_overruns]).

    ** Interfaces and assumptions

    The vector unit is hardware.  [Vpu.Vpu] is the class of machines that, on
    bytes that decode to an instruction whose effect the sources document,
    have that effect; [reference_vpu] shows that it can be implemented, and the
    witnesses run on it.  Memory is a function from addresses that are
    multiples of 4 to 32-bit words, with the class [Space] of the addresses
    that are mapped: an access to one that is not faults, as does a full-vector
    access to an address that is not a multiple of 64.  The machine is one
    core, which sees its own stores in program order; what other cores see of
    them, the unordered stores of [knc_memset64] included, is [Ordering].

    The float64 operations are the class [Fpu.Fpu], whose only law is that
    results are 64-bit patterns ([binary64] is an instance): theorems about
    float code say that the kernels make the same operations in the same
    order as the scalar description.

    Kernel theorems ask that buffers are aligned, inside the address space and
    mapped ([buffer_at]), that what is written does not overlap what is read
    ([area_ok]), and that the constants of [mask_constants] are loaded
    ([constants_loaded]); nothing else need be mapped.

    The card agent is a program in assembly.  Nothing is assumed of it: the
    client's theorems are about any reads of the socket whose bytes are frames
    within the limit, and the verdicts say which of them a test accepts.

    What knc-demo needs of its system is a parameter of [measure]: which
    threads it is granted, with their memory, and the size of a thread handle.

    The x86 decoder behind the audit is a parameter.  The scan of sections
    that hold scalar instructions is proved for decoders that read those
    instructions' bytes as themselves ([Reads.reads]), with mnemonics and
    CPUID features as iced-x86 names them; [Reads.table] is such a decoder.

    ** Bounds and fuel

    [drain] and [scan_loop] take fuel; theorems give enough of it (the bytes
    buffered, the bytes of the section) and prove the result, so no statement
    holds by running out.  [run] takes fuel too; [ends] says that some amount
    gives the outcome, and the kernel theorems prove that it exists, for loops
    by induction on the blocks left ([memcpy_correct]) or the iterations left
    ([mandel_correct]).  Checks by evaluation ([groups_ok], [pack_groups_ok],
    [transforms_ok], [copy_ok], [clear_ok] and those of [Fls]) cover all
    widths and all groups, on symbolic inputs.

    ** Not modelled

    Outside the model: writing to standard output and the time it takes
    (printed text is a value), the parsing of the audit's command line (clap)
    and the reading of files; the clock and the threads' scheduling of
    knc-demo (the measured time is a parameter); the text of a float; the code
    of the agent, which is assembly, with the building, the fixtures and the
    audit of it in agent.rs; the audit's test on the /usr/bin/ls of the
    machine it runs on; the assembler and the archiver between the generator
    and the audit (their output is a parameter); the assembly tools, the C,
    C++, Python and JavaScript code, the kernel and its drivers, the toolchain
    patches and the scripts. *)

From stdpp Require Export base tactics numbers list option strings gmap.
From Stdlib Require Export ZArith Lia ZifyBool.

Local Open Scope Z_scope.

(** * Machine integers

    An integer of the source is a [Z] together with the width it is kept
    at.  [uint w] and [sint w] are the ranges of the unsigned and signed
    [w]-bit types, [wrap w] is the [as u<w>] cast and [signed w] the
    [as i<w>] cast of an unsigned value. *)

Definition uint (w x : Z) : Prop := 0 <= x < 2 ^ w.

Definition sint (w x : Z) : Prop := - 2 ^ (w - 1) <= x < 2 ^ (w - 1).

Definition wrap (w x : Z) : Z := x mod 2 ^ w.

Definition signed (w x : Z) : Z :=
  if wrap w x <? 2 ^ (w - 1) then wrap w x else wrap w x - 2 ^ w.

#[export] Instance uint_dec w x : Decision (uint w x).
Proof. unfold uint; apply _. Defined.

#[export] Instance sint_dec w x : Decision (sint w x).
Proof. unfold sint; apply _. Defined.

(** [len] is Rust's [.len()] as an integer. *)
Definition len {A} (l : list A) : Z := Z.of_nat (length l).

(** * Results

    Fallible code returns [Ok] or [Err], as the source's [Result] does. *)

Inductive result (E A : Type) : Type :=
| Ok (a : A)
| Err (e : E).
Arguments Ok {E A} a.
Arguments Err {E A} e.

#[export] Instance result_eq_dec E A `{EqDecision E, EqDecision A} :
  EqDecision (result E A).
Proof. solve_decision. Defined.

(** * Notations of the development *)

Declare Scope phi_scope.
Delimit Scope phi_scope with phi.

(** The source's [&] and [|] on integers; [<<] and [>>] are stdpp's [≪] and
    [≫].  As in the source, [&] binds tighter than [|] and both bind looser
    than the shifts and [+]. *)
Infix ".&" := Z.land (at level 51, left associativity) : phi_scope.
Infix ".|" := Z.lor (at level 53, left associativity) : phi_scope.

(** * Tactics *)

Create HintDb phi.
Create Rewrite HintDb phi.

(** Splits conjunctions and existentials in the hypotheses. *)
Ltac split_hyps :=
  repeat match goal with
  | H : _ /\ _ |- _ => destruct H
  | H : exists _, _ |- _ => destruct H
  | p : _ * _ |- _ => destruct p
  end.

(** Turns boolean comparisons in hypotheses and goal into propositions. *)
Ltac bool_to_prop :=
  repeat match goal with
  | H : andb _ _ = true |- _ => apply andb_prop in H; destruct H
  | H : (_ || _)%bool = false |- _ => apply orb_false_elim in H; destruct H
  | H : (_ <? _) = true |- _ => apply Z.ltb_lt in H
  | H : (_ <? _) = false |- _ => apply Z.ltb_ge in H
  | H : (_ <=? _) = true |- _ => apply Z.leb_le in H
  | H : (_ <=? _) = false |- _ => apply Z.leb_gt in H
  | H : (_ =? _) = true |- _ => apply Z.eqb_eq in H
  | H : (_ =? _) = false |- _ => apply Z.eqb_neq in H
  end.

(** Case analysis on the comparison a conditional of the goal makes. *)
Ltac case_bool :=
  match goal with
  | |- context [if ?b then _ else _] =>
      let E := fresh "E" in destruct b eqn:E; bool_to_prop
  end.

(** Decides a closed proposition by evaluation. *)
Ltac concrete := apply (bool_decide_unpack _); vm_compute; exact I.

(** * Integer lemmas *)

Lemma wrap_small w x : uint w x -> wrap w x = x.
Proof. intros [??]. apply Z.mod_small; lia. Qed.

Lemma wrap_uint w x : 0 <= w -> uint w (wrap w x).
Proof. intros. apply Z.mod_pos_bound, Z.pow_pos_nonneg; lia. Qed.

Lemma pow2_half w : 1 <= w -> 2 ^ w = 2 * 2 ^ (w - 1).
Proof.
  intros. replace w with (1 + (w - 1)) at 1 by lia.
  rewrite Z.pow_add_r by lia. reflexivity.
Qed.

Lemma signed_sint w x : 1 <= w -> sint w (signed w x).
Proof.
  intros Hw. unfold sint, signed.
  pose proof (wrap_uint w x ltac:(lia)) as [??].
  pose proof (pow2_half w Hw). case_bool; lia.
Qed.

(** Casting a signed value to unsigned and back is the identity. *)
Lemma signed_wrap w x : 1 <= w -> sint w x -> signed w (wrap w x) = x.
Proof.
  intros Hw [??]. pose proof (pow2_half w Hw) as Hp.
  assert (Hww : wrap w (wrap w x) = wrap w x).
  { apply wrap_small, wrap_uint; lia. }
  unfold signed. rewrite Hww. unfold wrap.
  destruct (Z.le_gt_cases 0 x).
  - rewrite Z.mod_small by lia. case_bool; lia.
  - assert (Hm : x mod 2 ^ w = x + 2 ^ w).
    { rewrite <- (Z.mod_add _ 1), Z.mod_small by lia. lia. }
    rewrite Hm. case_bool; lia.
Qed.

(** A value that fits is not changed. *)
Lemma signed_small w x : 1 <= w -> 0 <= x < 2 ^ (w - 1) -> signed w x = x.
Proof.
  intros Hw Hx. assert (2 ^ w = 2 * 2 ^ (w - 1)) as E by (rewrite <- Z.pow_succ_r by lia; f_equal; lia).
  unfold signed. rewrite wrap_small by (unfold uint; lia). by rewrite (proj2 (Z.ltb_lt _ _)) by lia.
Qed.

Lemma wrap_signed w x : 1 <= w -> uint w x -> wrap w (signed w x) = x.
Proof.
  intros Hw [??]. unfold signed. rewrite (wrap_small w x) by (split; lia).
  case_bool; [apply wrap_small; split; lia|]. unfold wrap.
  rewrite <- (Z.mod_add _ 1), Z.mod_small by lia. lia.
Qed.

(** * List lemmas *)

Lemma len_nonneg {A} (l : list A) : 0 <= len l.
Proof. unfold len; lia. Qed.

Lemma len_app {A} (l k : list A) : len (l ++ k) = len l + len k.
Proof. unfold len. rewrite length_app. lia. Qed.

Lemma len_cons {A} (x : A) l : len (x :: l) = 1 + len l.
Proof. unfold len. cbn. lia. Qed.

Lemma len_nil {A} : len (@nil A) = 0.
Proof. reflexivity. Qed.

#[export] Hint Rewrite @len_app @len_cons @len_nil : phi.

Lemma take_len_app {A} (l k : list A) : take (length l) (l ++ k) = l.
Proof. apply take_app_length. Qed.

(** A loop over the items of a list that appends to a buffer is the buffer
    followed by what the loop appends to the empty one. *)
Class Appends {A} (put : list Z -> A -> list Z) : Prop :=
  appends out a : put out a = out ++ put [] a.

Lemma appends_foldl {A} (put : list Z -> A -> list Z) `{!Appends put} l out :
  foldl put out l = out ++ concat (put [] <$> l).
Proof.
  revert out. induction l as [|a l IH]; intros out; cbn.
  - by rewrite app_nil_r.
  - rewrite IH, (appends out a), <- app_assoc. reflexivity.
Qed.

#[export] Instance foldl_appends {A} (put : list Z -> A -> list Z) `{!Appends put} :
  Appends (foldl put).
Proof. intros out l. rewrite !(appends_foldl put). reflexivity. Qed.

(** * Finite checks

    A property of all integers below a bound, by evaluation. *)

Definition all_below (n : Z) (P : Z -> bool) : bool := forallb P (seqZ 0 n).

Lemma all_below_spec n (P : Z -> bool) x :
  all_below n P = true -> 0 <= x < n -> P x = true.
Proof.
  unfold all_below. intros H Hx. rewrite forallb_forall in H. apply H.
  apply list_elem_of_In, elem_of_seqZ. lia.
Qed.
