(* ===== verification/Bytes.v ===== *)
(** Bytes and the little-endian integer encodings of the Rust standard
    library ([to_le_bytes], [from_le_bytes]) that both the frame codec of
    phi-rpc and the instruction encoder of knc-mvex use. *)

From S2P Require Import Prelude.

Local Open Scope Z_scope.

(** A byte of the source ([u8]). *)
Abbreviation u8 := (uint 8).

(** [to_le_bytes n v] is [v.to_le_bytes()] of an [n]-byte integer; a negative
    [v] is encoded in two's complement. *)
Fixpoint to_le_bytes (n : nat) (v : Z) : list Z :=
  match n with
  | O => []
  | S n => v mod 256 :: to_le_bytes n (v / 256)
  end.

Fixpoint from_le_bytes (bs : list Z) : Z :=
  match bs with
  | [] => 0
  | b :: bs => b + 256 * from_le_bytes bs
  end.

Lemma length_to_le_bytes n v : length (to_le_bytes n v) = n.
Proof. revert v. induction n; intros; cbn; auto. Qed.

Lemma to_le_bytes_u8 n v : Forall u8 (to_le_bytes n v).
Proof.
  revert v. induction n; intros v; cbn; constructor; auto.
  apply Z.mod_pos_bound; lia.
Qed.

Lemma pow256_S n : 2 ^ (8 * Z.of_nat (S n)) = 256 * 2 ^ (8 * Z.of_nat n).
Proof.
  replace (8 * Z.of_nat (S n)) with (8 + 8 * Z.of_nat n) by lia.
  rewrite Z.pow_add_r by lia. reflexivity.
Qed.

Lemma from_to_le_bytes n v :
  from_le_bytes (to_le_bytes n v) = wrap (8 * Z.of_nat n) v.
Proof.
  revert v. unfold wrap. induction n as [|n IH]; intros v.
  - rewrite Z.mod_1_r. reflexivity.
  - cbn [to_le_bytes from_le_bytes]. rewrite IH, pow256_S.
    pose proof (Z.pow_pos_nonneg 2 (8 * Z.of_nat n)).
    rewrite Z.rem_mul_r by lia. lia.
Qed.

Lemma from_le_bytes_uint bs :
  Forall u8 bs -> uint (8 * len bs) (from_le_bytes bs).
Proof.
  unfold uint, len. induction 1 as [|b bs [??] H IH]; [cbn; lia|].
  cbn [length from_le_bytes]. rewrite pow256_S.
  change (2 ^ 8) with 256 in *. lia.
Qed.

Lemma to_from_le_bytes bs :
  Forall u8 bs -> to_le_bytes (length bs) (from_le_bytes bs) = bs.
Proof.
  induction 1 as [|b bs [??] H IH]; [done|].
  cbn. change (2 ^ 8) with 256 in *.
  rewrite (Z.mul_comm 256), Z.mod_add, Z.mod_small by lia.
  rewrite Z.div_add, Z.div_small, Z.add_0_l by lia. by rewrite IH.
Qed.

Lemma to_le_bytes_wrap n v :
  to_le_bytes n (wrap (8 * Z.of_nat n) v) = to_le_bytes n v.
Proof.
  rewrite <- from_to_le_bytes.
  rewrite <- (length_to_le_bytes n v) at 1.
  apply to_from_le_bytes, to_le_bytes_u8.
Qed.

#[export] Hint Resolve to_le_bytes_u8 : phi.
#[export] Hint Rewrite length_to_le_bytes : phi.
