(* ===== verification/Utf8.v ===== *)
(** UTF-8 strings of the Rust standard library, as phi-rpc uses them: a
    [String] is a byte list that [utf8_valid] accepts.  [utf8_valid] is the
    test [String::from_utf8] makes (the well-formed sequences of the Unicode
    standard, table 3-7), [is_char_boundary] the method of [str]. *)

From S2P Require Import Prelude Bytes.

Local Open Scope Z_scope.

(** The bytes of a [str]. *)
Abbreviation str := (list Z).

Definition between (lo hi b : Z) : bool := (lo <=? b) && (b <=? hi).

(** A continuation byte. *)
Definition is_cont (b : Z) : bool := between 128 191 b.

(** The allowed second bytes after a three or four byte lead. *)
Definition second_ok (b0 b1 : Z) : bool :=
  if b0 =? 224 then between 160 191 b1
  else if b0 =? 237 then between 128 159 b1
  else if b0 =? 240 then between 144 191 b1
  else if b0 =? 244 then between 128 143 b1
  else is_cont b1.

(** One well-formed character. *)
Definition is_char (c : list Z) : bool :=
  match c with
  | [b0] => between 0 127 b0
  | [b0; b1] => between 194 223 b0 && is_cont b1
  | [b0; b1; b2] => between 224 239 b0 && second_ok b0 b1 && is_cont b2
  | [b0; b1; b2; b3] =>
      between 240 244 b0 && second_ok b0 b1 && is_cont b2 && is_cont b3
  | _ => false
  end.

(** [String::from_utf8] accepts the bytes. *)
Fixpoint utf8_valid (s : list Z) : bool :=
  match s with
  | [] => true
  | b0 :: s1 =>
      if is_char [b0] then utf8_valid s1 else
      match s1 with
      | [] => false
      | b1 :: s2 =>
          if is_char [b0; b1] then utf8_valid s2 else
          match s2 with
          | [] => false
          | b2 :: s3 =>
              if is_char [b0; b1; b2] then utf8_valid s3 else
              match s3 with
              | [] => false
              | b3 :: s4 => is_char [b0; b1; b2; b3] && utf8_valid s4
              end
          end
      end
  end.

(** [str::is_char_boundary]: the start, the end, or a byte that does not
    continue a character. *)
Definition is_char_boundary (s : str) (i : nat) : bool :=
  (i =? 0)%nat ||
  match s !! i with
  | None => (i =? length s)%nat
  | Some b => negb (is_cont b)
  end.

(** ** Characters *)

Ltac char_cases :=
  unfold is_char, second_ok, is_cont, between in *;
  repeat case_match; bool_to_prop; try lia; try discriminate.

(** A character starts with a byte that is no continuation, and all its other
    bytes are continuations. *)
Lemma is_char_inv c :
  is_char c = true ->
  exists b t, c = b :: t /\ is_cont b = false /\ Forall (fun x => is_cont x = true) t /\
    (length t <= 3)%nat /\ Forall u8 c.
Proof.
  intros H. unfold u8, uint. change (2 ^ 8) with 256.
  destruct c as [|b0 [|b1 [|b2 [|b3 [|]]]]]; try done; do 2 eexists; split_and!; try done;
    repeat constructor; revert H; unfold is_char, second_ok, is_cont, between;
    intros; repeat case_match; lia.
Qed.

(** No character is a proper prefix of another byte sequence starting with a
    character: a leading byte fixes the length. *)
Lemma utf8_valid_char c s :
  is_char c = true -> utf8_valid (c ++ s) = utf8_valid s.
Proof.
  intros H.
  destruct c as [|b0 [|b1 [|b2 [|b3 [|]]]]]; try done; cbn -[is_char];
    repeat (rewrite H; cbn -[is_char]); try done;
    repeat match goal with
    | |- context [if is_char ?c then _ else _] =>
        let E := fresh in destruct (is_char c) eqn:E;
        [exfalso; revert H E; unfold is_char, second_ok, is_cont, between;
         intros; repeat case_match; lia|]
    end; try done; rewrite H; done.
Qed.

(** A valid string is a sequence of characters. *)
Lemma utf8_valid_chars s :
  utf8_valid s = true <->
  exists cs, Forall (fun c => is_char c = true) cs /\ s = concat cs.
Proof.
  split.
  - induction s as [s IH] using (induction_ltof1 _ (@length Z)). unfold ltof in IH.
    intros Hs.
    assert (Hc : s = [] \/ exists c t, is_char c = true /\ s = c ++ t /\ utf8_valid t = true).
    { destruct s as [|b0 s1]; [by left|]. right. cbn -[is_char] in Hs.
      case_match; [by exists [b0], s1|]. destruct s1 as [|b1 s2]; [done|].
      case_match; [by exists [b0; b1], s2|]. destruct s2 as [|b2 s3]; [done|].
      case_match; [by exists [b0; b1; b2], s3|]. destruct s3 as [|b3 s4]; [done|].
      apply andb_prop in Hs as [??]. by exists [b0; b1; b2; b3], s4. }
    destruct Hc as [->|(c & t & Hc & -> & Ht)]; [by exists []|].
    destruct (IH t) as (cs & ? & ->); [|done|].
    + destruct (is_char_inv c Hc) as (b & t' & -> & _). rewrite length_app. cbn. lia.
    + exists (c :: cs). split; [by constructor|done].
  - intros (cs & Hcs & ->). induction Hcs; cbn; [done|].
    rewrite utf8_valid_char by done. done.
Qed.

Lemma utf8_valid_app s t :
  utf8_valid s = true -> utf8_valid (s ++ t) = utf8_valid t.
Proof.
  intros (cs & Hcs & ->)%utf8_valid_chars. induction Hcs as [|c cs Hc Hcs IH]; [done|].
  cbn. rewrite <- app_assoc, utf8_valid_char by done. done.
Qed.

Lemma utf8_valid_u8 s : utf8_valid s = true -> Forall u8 s.
Proof.
  intros (cs & Hcs & ->)%utf8_valid_chars. induction Hcs as [|c cs Hc Hcs IH]; cbn; [done|].
  apply Forall_app. split; [|done].
  by destruct (is_char_inv c Hc) as (? & ? & ? & ? & ? & ? & ?).
Qed.

Lemma utf8_valid_head s b :
  utf8_valid s = true -> s !! 0%nat = Some b -> is_cont b = false.
Proof.
  intros (cs & Hcs & ->)%utf8_valid_chars Hb.
  destruct Hcs as [|c cs Hc _]; [done|].
  destruct (is_char_inv c Hc) as (b' & t & -> & ? & _). cbn in Hb. by simplify_eq.
Qed.

(** ** Boundaries *)

(** [is_char_boundary] is exactly the test that the prefix is a string. *)
Lemma boundary_take s i :
  utf8_valid s = true -> (i <= length s)%nat ->
  is_char_boundary s i = utf8_valid (take i s).
Proof.
  intros Hs Hi. apply eq_true_iff_eq. split.
  - revert Hs i Hi. intros (cs & Hcs & ->)%utf8_valid_chars.
    induction Hcs as [|c cs Hc Hcs IH]; intros i Hi Hb; [by destruct i|].
    cbn in *. destruct (is_char_inv c Hc) as (b & t & -> & _ & Ht & _ & _).
    destruct (decide (i = 0%nat)) as [->|Hi0]; [done|].
    destruct (decide (i < length (b :: t))%nat) as [Hlt|Hge].
    + exfalso. unfold is_char_boundary in Hb.
      rewrite lookup_app_l in Hb by done.
      destruct i as [|i]; [done|]. change ((b :: t) !! S i) with (t !! i) in Hb.
      destruct (lookup_lt_is_Some_2 t i) as [x Hx]; [cbn in Hlt; lia|].
      rewrite Hx in Hb. rewrite (Forall_lookup_1 _ _ _ _ Ht Hx) in Hb. done.
    + rewrite take_app_ge by lia. rewrite utf8_valid_app.
      2:{ rewrite <- (app_nil_r (b :: t)), utf8_valid_char; done. }
      apply IH; [rewrite length_app in Hi; lia|].
      unfold is_char_boundary in Hb |- *. rewrite lookup_app_r in Hb by lia.
      rewrite length_app in Hb. destruct (Nat.eqb_spec i 0); [lia|].
      destruct (i - length (b :: t) =? 0)%nat; [done|]. cbn [orb] in Hb |- *.
      case_match; [done|]. apply Nat.eqb_eq in Hb. apply Nat.eqb_eq. lia.
  - intros Ht. unfold is_char_boundary.
    destruct (s !! i) as [b|] eqn:Hb.
    + rewrite (utf8_valid_head (drop i s) b); [by destruct (i =? 0)%nat| |].
      * rewrite <- (utf8_valid_app (take i s)), take_drop; done.
      * by rewrite lookup_drop, Nat.add_0_r.
    + apply lookup_ge_None in Hb. destruct (i =? 0)%nat; [done|cbn]. apply Nat.eqb_eq. lia.
Qed.

(** Within any four consecutive positions of a string there is a boundary. *)
Lemma boundary_near s i :
  utf8_valid s = true -> (i <= length s)%nat ->
  exists j, (j <= i <= j + 3)%nat /\ is_char_boundary s j = true.
Proof.
  intros (cs & Hcs & ->)%utf8_valid_chars. revert i.
  induction Hcs as [|c cs Hc Hcs IH]; intros i Hi; cbn in *.
  - exists 0%nat. split; [lia|done].
  - destruct (is_char_inv c Hc) as (b & t & -> & _ & Ht & Hl & _).
    destruct (decide (i < length (b :: t))%nat) as [Hlt|Hge].
    + exists 0%nat. cbn in Hlt. split; [lia|done].
    + rewrite length_app in Hi.
      destruct (IH (i - length (b :: t))%nat ltac:(lia)) as (j & Hj & Hb).
      exists (j + length (b :: t))%nat. split; [lia|].
      unfold is_char_boundary in Hb |- *. rewrite lookup_app_r by lia.
      replace (j + length (b :: t) - length (b :: t))%nat with j by lia.
      rewrite length_app.
      destruct (j + length (b :: t) =? 0)%nat; [done|cbn [orb]].
      destruct (Nat.eqb_spec j 0) as [->|Hj0]; cbn [orb] in Hb.
      * destruct (concat cs !! 0%nat) as [x|] eqn:Hx.
        -- rewrite (utf8_valid_head (concat cs) x); [done| |done].
           apply utf8_valid_chars. by exists cs.
        -- apply lookup_ge_None in Hx. lia.
      * case_match; [done|]. apply Nat.eqb_eq in Hb. apply Nat.eqb_eq. lia.
Qed.
