(* ===== verification/RpcMsg.v ===== *)
(** The messages of phi-rpc (host/crates/phi-rpc/src/lib.rs): the wire
    limits, the message type and its records, the tags, the decode errors,
    the clipping of strings, and what makes a message value well formed
    (every integer in the range of its Rust type, every string UTF-8). *)

From S2P Require Import Prelude Bytes Utf8.

Local Open Scope Z_scope.

(** Largest frame either side accepts. *)
Definition MAX_FRAME : Z := 1 ≪ 20.
(** Longest string, in bytes: [u16::MAX]. *)
Definition MAX_STRING : Z := 65535.
(** Longest list: [u16::MAX]. *)
Definition MAX_LIST : Z := 65535.

Record CpuStat := mkCpuStat { core : Z; busy : Z; idle : Z }.

Record MemStat := mkMemStat {
  total_kb : Z; avail_kb : Z; buffers_kb : Z; cached_kb : Z;
  swap_total_kb : Z; swap_free_kb : Z
}.

Record DevStat := mkDevStat { dev_name : str; dev_read : Z; dev_written : Z }.

Record ProcStat := mkProcStat {
  pid : Z; state : Z; kthread : bool; ticks : Z; rss_kb : Z; threads : Z; comm : str
}.

(** One sample of the card's state; the array [load] is a triple. *)
Record Stat := mkStat {
  uptime_ms : Z; cpus : list CpuStat; mem : MemStat; load : Z * Z * Z;
  running : Z; tasks : Z; temps : list Z; temp_peak : Z; vcore_mv : Z; core_mhz : Z;
  disks : list DevStat; nets : list DevStat; procs : list ProcStat;
  nprocs : Z; nkthreads : Z
}.

Record Traffic := mkTraffic {
  dma_to_card : Z; dma_from_card : Z; aperture_to_card : Z; aperture_from_card : Z;
  dma_copies_to_card : Z; dma_copies_from_card : Z
}.

(** A message on the rpc channel. *)
Inductive Msg : Type :=
| Exec (argv : list str) (env : list (str * str)) (cwd : option str)
| Stdin (d : list Z)
| StdinEof
| Stdout (d : list Z)
| Stderr (d : list Z)
| Exit (code : Z)
| PutOpen (path : str) (mode : Z)
| PutData (d : list Z)
| PutClose
| Get (path : str)
| GetData (d : list Z)
| GetEnd (size : Z)
| Error (s : str)
| Ping
| Pong (version : str)
| Sensors
| SensorsReply (text : str)
| StatReq
| StatReply (s : Stat)
| TrafficReq
| TrafficReply (t : Traffic).

Inductive DecodeError : Type :=
| Length (n : Z)
| Tag (t : Z)
| Malformed.

#[export] Instance CpuStat_eq_dec : EqDecision CpuStat.
Proof. solve_decision. Defined.
#[export] Instance MemStat_eq_dec : EqDecision MemStat.
Proof. solve_decision. Defined.
#[export] Instance DevStat_eq_dec : EqDecision DevStat.
Proof. solve_decision. Defined.
#[export] Instance ProcStat_eq_dec : EqDecision ProcStat.
Proof. solve_decision. Defined.
#[export] Instance Stat_eq_dec : EqDecision Stat.
Proof. solve_decision. Defined.
#[export] Instance Traffic_eq_dec : EqDecision Traffic.
Proof. solve_decision. Defined.
#[export] Instance Msg_eq_dec : EqDecision Msg.
Proof. solve_decision. Defined.
#[export] Instance DecodeError_eq_dec : EqDecision DecodeError.
Proof. solve_decision. Defined.

Definition TAG_EXEC := 1.
Definition TAG_STDIN := 2.
Definition TAG_STDIN_EOF := 3.
Definition TAG_STDOUT := 4.
Definition TAG_STDERR := 5.
Definition TAG_EXIT := 6.
Definition TAG_PUT_OPEN := 7.
Definition TAG_PUT_DATA := 8.
Definition TAG_PUT_CLOSE := 9.
Definition TAG_GET := 10.
Definition TAG_GET_DATA := 11.
Definition TAG_GET_END := 12.
Definition TAG_ERROR := 13.
Definition TAG_PING := 14.
Definition TAG_PONG := 15.
Definition TAG_SENSORS := 16.
Definition TAG_SENSORS_REPLY := 17.
Definition TAG_STAT := 18.
Definition TAG_STAT_REPLY := 19.
Definition TAG_TRAFFIC := 20.
Definition TAG_TRAFFIC_REPLY := 21.

(** [Msg::name]. *)
Definition name (m : Msg) : string :=
  match m with
  | Exec _ _ _ => "Exec"
  | Stdin _ => "Stdin"
  | StdinEof => "StdinEof"
  | Stdout _ => "Stdout"
  | Stderr _ => "Stderr"
  | Exit _ => "Exit"
  | PutOpen _ _ => "PutOpen"
  | PutData _ => "PutData"
  | PutClose => "PutClose"
  | Get _ => "Get"
  | GetData _ => "GetData"
  | GetEnd _ => "GetEnd"
  | Error _ => "Error"
  | Ping => "Ping"
  | Pong _ => "Pong"
  | Sensors => "Sensors"
  | SensorsReply _ => "SensorsReply"
  | StatReq => "Stat"
  | StatReply _ => "StatReply"
  | TrafficReq => "Traffic"
  | TrafficReply _ => "TrafficReply"
  end.

(** ** Clipping *)

(** The loop of [clip]: step back from [e] to a character boundary. *)
Fixpoint clip_end (s : str) (e : nat) : nat :=
  if is_char_boundary s e then e
  else match e with
       | O => O
       | S e => clip_end s e
       end.

(** [clip]: the longest prefix of at most [max] bytes on a boundary. *)
Definition clip (s : str) (max : Z) : str :=
  if len s <=? max then s
  else take (clip_end s (Z.to_nat max)) s.

(** ** Well-formed values

    What the Rust types guarantee of a value: the range of each integer and
    the UTF-8 invariant of [String]. *)

Definition str_ok (s : str) : Prop := utf8_valid s = true.

Definition cpu_ok (c : CpuStat) : Prop :=
  uint 16 (core c) /\ uint 32 (busy c) /\ uint 32 (idle c).

Definition mem_ok (m : MemStat) : Prop :=
  uint 64 (total_kb m) /\ uint 64 (avail_kb m) /\ uint 64 (buffers_kb m) /\
  uint 64 (cached_kb m) /\ uint 64 (swap_total_kb m) /\ uint 64 (swap_free_kb m).

Definition dev_ok (d : DevStat) : Prop :=
  str_ok (dev_name d) /\ uint 64 (dev_read d) /\ uint 64 (dev_written d).

Definition proc_ok (p : ProcStat) : Prop :=
  uint 32 (pid p) /\ uint 8 (state p) /\ uint 64 (ticks p) /\ uint 64 (rss_kb p) /\
  uint 32 (threads p) /\ str_ok (comm p).

Definition load_ok (l : Z * Z * Z) : Prop :=
  uint 16 l.1.1 /\ uint 16 l.1.2 /\ uint 16 l.2.

Definition stat_ok (s : Stat) : Prop :=
  uint 64 (uptime_ms s) /\ Forall cpu_ok (cpus s) /\ mem_ok (mem s) /\ load_ok (load s) /\
  uint 32 (running s) /\ uint 32 (tasks s) /\ Forall (sint 16) (temps s) /\
  sint 16 (temp_peak s) /\ uint 32 (vcore_mv s) /\ uint 32 (core_mhz s) /\
  Forall dev_ok (disks s) /\ Forall dev_ok (nets s) /\ Forall proc_ok (procs s) /\
  uint 32 (nprocs s) /\ uint 32 (nkthreads s).

Definition traffic_ok (t : Traffic) : Prop :=
  uint 64 (dma_to_card t) /\ uint 64 (dma_from_card t) /\ uint 64 (aperture_to_card t) /\
  uint 64 (aperture_from_card t) /\ uint 64 (dma_copies_to_card t) /\
  uint 64 (dma_copies_from_card t).

Definition env_ok (kv : str * str) : Prop := str_ok kv.1 /\ str_ok kv.2.

Definition msg_ok (m : Msg) : Prop :=
  match m with
  | Exec argv env cwd => Forall str_ok argv /\ Forall env_ok env /\ from_option str_ok True cwd
  | Stdin d | Stdout d | Stderr d | PutData d | GetData d => Forall u8 d
  | Exit code => sint 32 code
  | PutOpen path mode => str_ok path /\ uint 32 mode
  | Get s | Error s | Pong s | SensorsReply s => str_ok s
  | GetEnd size => uint 64 size
  | StatReply s => stat_ok s
  | TrafficReply t => traffic_ok t
  | StdinEof | PutClose | Ping | Sensors | StatReq | TrafficReq => True
  end.

#[export] Instance str_ok_dec s : Decision (str_ok s).
Proof. unfold str_ok; apply _. Defined.
#[export] Instance cpu_ok_dec c : Decision (cpu_ok c).
Proof. unfold cpu_ok; apply _. Defined.
#[export] Instance mem_ok_dec m : Decision (mem_ok m).
Proof. unfold mem_ok; apply _. Defined.
#[export] Instance dev_ok_dec d : Decision (dev_ok d).
Proof. unfold dev_ok; apply _. Defined.
#[export] Instance proc_ok_dec p : Decision (proc_ok p).
Proof. unfold proc_ok; apply _. Defined.
#[export] Instance load_ok_dec l : Decision (load_ok l).
Proof. unfold load_ok; apply _. Defined.
#[export] Instance stat_ok_dec s : Decision (stat_ok s).
Proof. unfold stat_ok; apply _. Defined.
#[export] Instance traffic_ok_dec t : Decision (traffic_ok t).
Proof. unfold traffic_ok; apply _. Defined.
#[export] Instance env_ok_dec kv : Decision (env_ok kv).
Proof. unfold env_ok; apply _. Defined.
#[export] Instance msg_ok_dec m : Decision (msg_ok m).
Proof. destruct m as [??[]| | | | | | | | | | | | | | | | | | | |]; cbn; apply _. Defined.

(** ** What the receiver sees

    The specification of the encoder's clipping: strings cut to
    [MAX_STRING], lists to [MAX_LIST], an empty working directory absent. *)

Definition clip_str (s : str) : str := clip s MAX_STRING.

Definition clip_list {A} (l : list A) : list A := take (Z.to_nat MAX_LIST) l.

Definition clip_dev (d : DevStat) : DevStat :=
  mkDevStat (clip_str (dev_name d)) (dev_read d) (dev_written d).

Definition clip_proc (p : ProcStat) : ProcStat :=
  mkProcStat (pid p) (state p) (kthread p) (ticks p) (rss_kb p) (threads p) (clip_str (comm p)).

Definition clip_stat (s : Stat) : Stat :=
  mkStat (uptime_ms s) (clip_list (cpus s)) (mem s) (load s) (running s) (tasks s)
    (clip_list (temps s)) (temp_peak s) (vcore_mv s) (core_mhz s)
    (clip_dev <$> clip_list (disks s)) (clip_dev <$> clip_list (nets s))
    (clip_proc <$> clip_list (procs s)) (nprocs s) (nkthreads s).

Definition clip_cwd (cwd : option str) : option str :=
  match cwd with
  | None | Some [] => None
  | Some s => Some (clip_str s)
  end.

Definition clip_msg (m : Msg) : Msg :=
  match m with
  | Exec argv env cwd =>
      Exec (clip_str <$> clip_list argv)
        ((fun kv => (clip_str kv.1, clip_str kv.2)) <$> clip_list env) (clip_cwd cwd)
  | PutOpen path mode => PutOpen (clip_str path) mode
  | Get s => Get (clip_str s)
  | Error s => Error (clip_str s)
  | Pong s => Pong (clip_str s)
  | SensorsReply s => SensorsReply (clip_str s)
  | StatReply s => StatReply (clip_stat s)
  | m => m
  end.

(** A message whose body is raw bytes to the end of the frame. *)
Definition is_bytes (m : Msg) : bool :=
  match m with
  | Stdin _ | Stdout _ | Stderr _ | PutData _ | GetData _ => true
  | _ => false
  end.

(** ** Lemmas on clipping *)

Lemma clip_end_le s e : (clip_end s e <= e)%nat.
Proof. induction e; cbn -[is_char_boundary]; case_match; lia. Qed.

Lemma clip_end_boundary s e : is_char_boundary s (clip_end s e) = true.
Proof. induction e; cbn -[is_char_boundary]; case_match; done. Qed.

Lemma clip_end_greatest s e j :
  (j <= e)%nat -> is_char_boundary s j = true -> (j <= clip_end s e)%nat.
Proof.
  induction e; intros Hj Hb; cbn -[is_char_boundary]; case_match; [lia..|].
  apply IHe; [|done]. destruct (decide (j = S e)) as [->|]; [congruence|lia].
Qed.

Lemma clip_small s max : len s <= max -> clip s max = s.
Proof. intros. unfold clip. case_bool; [done|lia]. Qed.

Lemma clip_len s max : 0 <= max -> len (clip s max) <= max.
Proof.
  intros. unfold clip. case_bool; [done|].
  pose proof (clip_end_le s (Z.to_nat max)). unfold len. rewrite length_take. lia.
Qed.

Lemma clip_valid s max : str_ok s -> 0 <= max -> str_ok (clip s max).
Proof.
  intros Hs Hm. unfold clip. case_bool; [done|].
  unfold str_ok. rewrite <- boundary_take; [apply clip_end_boundary|done|].
  pose proof (clip_end_le s (Z.to_nat max)). unfold len in *. lia.
Qed.

Lemma clip_prefix s max : clip s max `prefix_of` s.
Proof. unfold clip. case_bool; [done|]. apply prefix_take. Qed.

Lemma clip_near s max : str_ok s -> 0 <= max < len s -> max - 3 <= len (clip s max).
Proof.
  intros Hs Hm. unfold clip. case_bool; [lia|]. unfold len in *.
  destruct (boundary_near s (Z.to_nat max) Hs) as (j & Hj & Hb); [lia|].
  pose proof (clip_end_greatest s (Z.to_nat max) j ltac:(lia) Hb).
  pose proof (clip_end_le s (Z.to_nat max)). rewrite length_take. lia.
Qed.

Lemma clip_nonempty s max : str_ok s -> 4 <= max -> s <> [] -> clip s max <> [].
Proof.
  intros Hs Hm Hne. destruct (Z.le_gt_cases (len s) max).
  - by rewrite clip_small.
  - pose proof (clip_near s max Hs ltac:(lia)) as Hn. intros He. rewrite He in Hn.
    rewrite len_nil in Hn. lia.
Qed.

Lemma clip_str_len s : len (clip_str s) <= MAX_STRING.
Proof. by apply clip_len. Qed.

Lemma clip_str_ok s : str_ok s -> str_ok (clip_str s).
Proof. intros. by apply clip_valid. Qed.

Lemma len_clip_list {A} (l : list A) : len (clip_list l) = Z.min (len l) MAX_LIST.
Proof. unfold len, clip_list. rewrite length_take. unfold MAX_LIST. lia. Qed.

Lemma clip_list_small {A} (l : list A) : len l <= MAX_LIST -> clip_list l = l.
Proof. intros. apply take_ge. unfold len in *. lia. Qed.

#[export] Hint Resolve clip_str_ok clip_str_len : phi.

(** A string's clip is the longest string within the limit that starts it. *)
Lemma clip_longest s max p :
  str_ok s -> 0 <= max -> str_ok p -> p `prefix_of` s -> len p <= max ->
  p `prefix_of` clip s max.
Proof.
  intros Hs Hm Hp [t ->] Hl. unfold clip. case_bool; [by apply prefix_app_r|].
  assert (Hb : is_char_boundary (p ++ t) (length p) = true).
  { rewrite boundary_take; [|done|rewrite length_app; lia]. by rewrite take_len_app. }
  pose proof (clip_end_greatest (p ++ t) (Z.to_nat max) (length p)
                ltac:(unfold len in *; lia) Hb).
  rewrite take_app_ge by done. by apply prefix_app_r.
Qed.
