(* ===== verification/RpcEncode.v ===== *)
(** The encoder of phi-rpc (host/crates/phi-rpc/src/lib.rs): [put_u16] to
    [put_stat] and [Msg::encode].  Each [put_*] takes the output buffer and
    returns it with the field appended, as the source's [&mut Vec<u8>] does. *)

From S2P Require Import Prelude Bytes Utf8 RpcMsg.

Local Open Scope Z_scope.

Definition put_u16 (out : list Z) (v : Z) : list Z := out ++ to_le_bytes 2 v.
Definition put_u32 (out : list Z) (v : Z) : list Z := out ++ to_le_bytes 4 v.
Definition put_u64 (out : list Z) (v : Z) : list Z := out ++ to_le_bytes 8 v.

(** [out.push(b)]. *)
Definition push_u8 (out : list Z) (b : Z) : list Z := out ++ [b].

(** The count as written, and how many items the caller then writes. *)
Definition put_count (out : list Z) (n : Z) : list Z * nat :=
  let n := Z.min n MAX_LIST in
  (put_u16 out (wrap 16 n), Z.to_nat n).

Definition put_str (out : list Z) (s : str) : list Z :=
  let b := clip s MAX_STRING in
  put_u16 out (wrap 16 (len b)) ++ b.

Definition put_dev (out : list Z) (d : DevStat) : list Z :=
  let out := put_str out (dev_name d) in
  let out := put_u64 out (dev_read d) in
  put_u64 out (dev_written d).

Definition put_devs (out : list Z) (list : list DevStat) : Datatypes.list Z :=
  let '(out, n) := put_count out (len list) in
  foldl put_dev out (take n list).

Definition put_cpu (out : list Z) (c : CpuStat) : list Z :=
  let out := put_u16 out (core c) in
  let out := put_u32 out (busy c) in
  put_u32 out (idle c).

(** [*t as u16] of a signed temperature. *)
Definition put_temp (out : list Z) (t : Z) : list Z := put_u16 out (wrap 16 t).

Definition put_proc (out : list Z) (p : ProcStat) : list Z :=
  let out := put_u32 out (pid p) in
  let out := push_u8 out (state p) in
  let out := push_u8 out (if kthread p then 1 else 0) in
  let out := put_u64 out (ticks p) in
  let out := put_u64 out (rss_kb p) in
  let out := put_u32 out (threads p) in
  put_str out (comm p).

Definition put_stat (out : list Z) (s : Stat) : list Z :=
  let out := put_u64 out (uptime_ms s) in
  let '(out, n) := put_count out (len (cpus s)) in
  let out := foldl put_cpu out (take n (cpus s)) in
  let out := foldl put_u64 out
    [total_kb (mem s); avail_kb (mem s); buffers_kb (mem s); cached_kb (mem s);
     swap_total_kb (mem s); swap_free_kb (mem s)] in
  let out := foldl put_u16 out [(load s).1.1; (load s).1.2; (load s).2] in
  let out := put_u32 out (running s) in
  let out := put_u32 out (tasks s) in
  let '(out, n) := put_count out (len (temps s)) in
  let out := foldl put_temp out (take n (temps s)) in
  let out := put_u16 out (wrap 16 (temp_peak s)) in
  let out := put_u32 out (vcore_mv s) in
  let out := put_u32 out (core_mhz s) in
  let out := put_devs out (disks s) in
  let out := put_devs out (nets s) in
  let '(out, n) := put_count out (len (procs s)) in
  let out := foldl put_proc out (take n (procs s)) in
  let out := put_u32 out (nprocs s) in
  put_u32 out (nkthreads s).

Definition put_env (out : list Z) (kv : str * str) : list Z :=
  put_str (put_str out kv.1) kv.2.

(** The [match] of [Msg::encode]: the tag and the body of a message. *)
Definition encode_body (m : Msg) : Z * list Z :=
  let body := [] in
  match m with
  | Exec argv env cwd =>
      let '(body, n) := put_count body (len argv) in
      let body := foldl put_str body (take n argv) in
      let '(body, n) := put_count body (len env) in
      let body := foldl put_env body (take n env) in
      (TAG_EXEC, put_str body (default [] cwd))
  | Stdin d => (TAG_STDIN, body ++ d)
  | StdinEof => (TAG_STDIN_EOF, body)
  | Stdout d => (TAG_STDOUT, body ++ d)
  | Stderr d => (TAG_STDERR, body ++ d)
  | Exit code => (TAG_EXIT, put_u32 body code)
  | PutOpen path mode => (TAG_PUT_OPEN, put_u32 (put_str body path) mode)
  | PutData d => (TAG_PUT_DATA, body ++ d)
  | PutClose => (TAG_PUT_CLOSE, body)
  | Get path => (TAG_GET, put_str body path)
  | GetData d => (TAG_GET_DATA, body ++ d)
  | GetEnd size => (TAG_GET_END, put_u64 body size)
  | Error s => (TAG_ERROR, put_str body s)
  | Ping => (TAG_PING, body)
  | Pong version => (TAG_PONG, put_str body version)
  | Sensors => (TAG_SENSORS, body)
  | SensorsReply text => (TAG_SENSORS_REPLY, put_str body text)
  | StatReq => (TAG_STAT, body)
  | StatReply s => (TAG_STAT_REPLY, put_stat body s)
  | TrafficReq => (TAG_TRAFFIC, body)
  | TrafficReply t =>
      (TAG_TRAFFIC_REPLY,
       foldl put_u64 body
         [dma_to_card t; dma_from_card t; aperture_to_card t; aperture_from_card t;
          dma_copies_to_card t; dma_copies_from_card t])
  end.

(** [Msg::encode]: length, tag, body. *)
Definition encode (m : Msg) : list Z :=
  let '(tag, body) := encode_body m in
  let out := to_le_bytes 4 (wrap 32 (1 + len body)) in
  let out := push_u8 out tag in
  out ++ body.

(** [Msg::encode] with debug assertions: [None] is the panic. *)
Definition encode_debug (m : Msg) : option (list Z) :=
  if len (encode_body m).2 <? MAX_FRAME then Some (encode m) else None.

(** The message's frame is one the receiver accepts. *)
Definition fits (m : Msg) : Prop := len (encode_body m).2 < MAX_FRAME.

#[export] Instance fits_dec m : Decision (fits m).
Proof. unfold fits; apply _. Defined.

(** ** Every [put] appends *)

Ltac solve_appends :=
  intros ??; unfold put_u16, put_u32, put_u64, push_u8, put_str, put_dev, put_cpu,
    put_temp, put_proc, put_env, put_u16, put_u32, put_u64, push_u8, put_str, put_u16;
  rewrite <- ?app_assoc; reflexivity.

#[export] Instance put_u16_appends : Appends put_u16.
Proof. solve_appends. Qed.
#[export] Instance put_u32_appends : Appends put_u32.
Proof. solve_appends. Qed.
#[export] Instance put_u64_appends : Appends put_u64.
Proof. solve_appends. Qed.
#[export] Instance push_u8_appends : Appends push_u8.
Proof. solve_appends. Qed.
#[export] Instance put_str_appends : Appends put_str.
Proof. solve_appends. Qed.
#[export] Instance put_dev_appends : Appends put_dev.
Proof. solve_appends. Qed.
#[export] Instance put_cpu_appends : Appends put_cpu.
Proof. solve_appends. Qed.
#[export] Instance put_temp_appends : Appends put_temp.
Proof. solve_appends. Qed.
#[export] Instance put_proc_appends : Appends put_proc.
Proof. solve_appends. Qed.
#[export] Instance put_env_appends : Appends put_env.
Proof. solve_appends. Qed.

(** A counted list on the wire. *)
Definition wire_list {A} (put : list Z -> A -> list Z) (l : list A) : list Z :=
  put_u16 [] (len (clip_list l)) ++ concat (put [] <$> clip_list l).

Lemma put_count_list {A} (put : list Z -> A -> list Z) `{!Appends put} (l : list A) out :
  (let '(out, n) := put_count out (len l) in foldl put out (take n l)) =
  out ++ wire_list put l.
Proof.
  unfold put_count, wire_list. rewrite (appends_foldl put), (appends (put:=put_u16) out), <- app_assoc.
  f_equal. rewrite len_clip_list. f_equal.
  - f_equal. apply wrap_small. unfold uint, MAX_LIST. pose proof (len_nonneg l).
    change (2 ^ 16) with 65536. lia.
  - f_equal. f_equal. unfold clip_list, len.
    destruct (Z.le_gt_cases (Z.of_nat (length l)) MAX_LIST).
    + rewrite Z.min_l by done. rewrite !take_ge by lia. done.
    + rewrite Z.min_r by lia. done.
Qed.

#[export] Instance put_devs_appends : Appends put_devs.
Proof. intros out l. unfold put_devs. rewrite !(put_count_list put_dev). done. Qed.

Lemma put_devs_wire l : put_devs [] l = wire_list put_dev l.
Proof. exact (put_count_list put_dev l []). Qed.

Lemma put_str_wire s :
  put_str [] s = to_le_bytes 2 (len (clip_str s)) ++ clip_str s.
Proof.
  unfold put_str. fold (clip_str s). unfold put_u16. rewrite app_nil_l. f_equal. f_equal.
  apply wrap_small. pose proof (clip_str_len s). pose proof (len_nonneg (clip_str s)).
  unfold uint, MAX_STRING in *. change (2 ^ 16) with 65536. lia.
Qed.

(** ** The wire form of each record *)

(** Rewrites a sequence of appends to the concatenation of its fields. *)
Ltac flatten_put put :=
  match goal with
  | |- context [put ?out ?a] =>
      lazymatch out with [] => fail | _ => rewrite (appends (put:=put) out a) end
  end.
Ltac flatten_puts :=
  repeat first
    [ flatten_put put_u16 | flatten_put put_u32 | flatten_put put_u64 | flatten_put push_u8
    | flatten_put put_str | flatten_put put_devs | flatten_put (foldl put_u64)
    | flatten_put (foldl put_u16) ];
  rewrite <- ?app_assoc.

Lemma put_cpu_wire c :
  put_cpu [] c = put_u16 [] (core c) ++ put_u32 [] (busy c) ++ put_u32 [] (idle c).
Proof. reflexivity. Qed.

Lemma put_dev_wire d :
  put_dev [] d = put_str [] (dev_name d) ++ put_u64 [] (dev_read d) ++ put_u64 [] (dev_written d).
Proof. unfold put_dev. by flatten_puts. Qed.

Lemma put_env_wire kv : put_env [] kv = put_str [] kv.1 ++ put_str [] kv.2.
Proof. unfold put_env. by flatten_puts. Qed.

Lemma put_proc_wire p :
  put_proc [] p =
  put_u32 [] (pid p) ++ [state p] ++ [if kthread p then 1 else 0] ++ put_u64 [] (ticks p) ++
  put_u64 [] (rss_kb p) ++ put_u32 [] (threads p) ++ put_str [] (comm p).
Proof. unfold put_proc. by flatten_puts. Qed.

Definition mem_fields (m : MemStat) : list Z :=
  [total_kb m; avail_kb m; buffers_kb m; cached_kb m; swap_total_kb m; swap_free_kb m].

Definition load_fields (l : Z * Z * Z) : list Z := [l.1.1; l.1.2; l.2].

Definition traffic_fields (t : Traffic) : list Z :=
  [dma_to_card t; dma_from_card t; aperture_to_card t; aperture_from_card t;
   dma_copies_to_card t; dma_copies_from_card t].

Lemma put_stat_wire s :
  put_stat [] s =
  put_u64 [] (uptime_ms s) ++ wire_list put_cpu (cpus s) ++
  foldl put_u64 [] (mem_fields (mem s)) ++ foldl put_u16 [] (load_fields (load s)) ++
  put_u32 [] (running s) ++ put_u32 [] (tasks s) ++ wire_list put_temp (temps s) ++
  put_u16 [] (wrap 16 (temp_peak s)) ++ put_u32 [] (vcore_mv s) ++ put_u32 [] (core_mhz s) ++
  wire_list put_dev (disks s) ++ wire_list put_dev (nets s) ++ wire_list put_proc (procs s) ++
  put_u32 [] (nprocs s) ++ put_u32 [] (nkthreads s).
Proof.
  unfold put_stat, put_count. cbv beta iota zeta.
  fold (mem_fields (mem s)) (load_fields (load s)).
  pose proof (put_count_list put_proc (procs s)) as Hp.
  pose proof (put_count_list put_temp (temps s)) as Ht.
  pose proof (put_count_list put_cpu (cpus s)) as Hc.
  unfold put_count in Hp, Ht, Hc. cbv beta iota zeta in Hp, Ht, Hc.
  rewrite Hp, Ht, Hc. flatten_puts. by rewrite !put_devs_wire.
Qed.

Lemma exec_wire argv env cwd :
  (encode_body (Exec argv env cwd)).2 =
  wire_list put_str argv ++ wire_list put_env env ++ put_str [] (default [] cwd).
Proof.
  cbn [encode_body]. unfold put_count. cbv beta iota zeta.
  pose proof (put_count_list put_str argv) as Ha. pose proof (put_count_list put_env env) as He.
  unfold put_count in Ha, He. cbv beta iota zeta in Ha, He.
  cbn [snd]. rewrite Ha, He. by flatten_puts.
Qed.
