(* ===== verification/RpcDecode.v ===== *)
(** The decoder of one frame body of phi-rpc
    (host/crates/phi-rpc/src/lib.rs): the cursor [Reader], its methods in a
    reader monad whose failure is the source's [?], and [Msg::decode_body];
    then what it does on the encoder's output, on a cut body and on any
    bytes at all. *)

From S2P Require Import Prelude Bytes Utf8 RpcMsg RpcEncode.

Local Open Scope Z_scope.

(** A cursor over one frame body. *)
Record Reader := mkReader { buf : list Z; pos : nat }.

(** A method of [Reader]: [&mut self] in and out, [Result] around the value. *)
Definition R (A : Type) : Type := Reader -> result DecodeError (A * Reader).

#[export] Instance R_ret : MRet R := fun A a r => Ok (a, r).
#[export] Instance R_bind : MBind R := fun A B k m r =>
  match m r with
  | Ok (a, r) => k a r
  | Err e => Err e
  end.

(** ** The methods *)

(** [Reader::take]. *)
Definition r_take (n : nat) : R (list Z) := fun r =>
  if (length (buf r) - pos r <? n)%nat then Err Malformed
  else Ok (take n (drop (pos r) (buf r)), mkReader (buf r) (pos r + n)).

Definition r_u16 : R Z := b ← r_take 2; mret (from_le_bytes b).
Definition r_u32 : R Z := b ← r_take 4; mret (from_le_bytes b).
Definition r_u64 : R Z := b ← r_take 8; mret (from_le_bytes b).

(** [String::from_utf8(..).map_err(..)]. *)
Definition from_utf8 (b : list Z) : R str := fun r =>
  if utf8_valid b then Ok (b, r) else Err Malformed.

Definition r_str : R str :=
  n ← r_u16; b ← r_take (Z.to_nat n); from_utf8 b.

(** [Ok(self.take(1)?[0])]. *)
Definition r_u8 : R Z := b ← r_take 1; mret (default 0 (b !! 0%nat)).

Definition r_i16 : R Z := x ← r_u16; mret (signed 16 x).

(** [for _ in 0..n { v.push(item?) }]. *)
Fixpoint read_n {A} (n : nat) (item : R A) : R (list A) :=
  match n with
  | O => mret []
  | S n => x ← item; l ← read_n n item; mret (x :: l)
  end.

(** A count and its items. *)
Definition r_list {A} (item : R A) : R (list A) :=
  n ← r_u16; read_n (Z.to_nat n) item.

Definition r_dev : R DevStat :=
  name ← r_str; read ← r_u64; written ← r_u64; mret (mkDevStat name read written).

Definition r_devs : R (list DevStat) := r_list r_dev.

Definition r_cpu : R CpuStat :=
  core ← r_u16; busy ← r_u32; idle ← r_u32; mret (mkCpuStat core busy idle).

Definition r_mem : R MemStat :=
  total ← r_u64; avail ← r_u64; buffers ← r_u64; cached ← r_u64;
  swap_total ← r_u64; swap_free ← r_u64;
  mret (mkMemStat total avail buffers cached swap_total swap_free).

Definition r_load : R (Z * Z * Z) :=
  a ← r_u16; b ← r_u16; c ← r_u16; mret (a, b, c).

Definition r_proc : R ProcStat :=
  pid ← r_u32; state ← r_u8; kthread ← r_u8; ticks ← r_u64; rss ← r_u64;
  threads ← r_u32; comm ← r_str;
  mret (mkProcStat pid state (negb (kthread =? 0)) ticks rss threads comm).

(** [Reader::stat]. *)
Definition r_stat : R Stat :=
  uptime ← r_u64; cpus ← r_list r_cpu; mem ← r_mem; load ← r_load;
  running ← r_u32; tasks ← r_u32; temps ← r_list r_i16; peak ← r_i16;
  vcore ← r_u32; mhz ← r_u32; disks ← r_devs; nets ← r_devs;
  procs ← r_list r_proc; nprocs ← r_u32; nkthreads ← r_u32;
  mret (mkStat uptime cpus mem load running tasks temps peak vcore mhz disks nets procs
          nprocs nkthreads).

Definition r_traffic : R Traffic :=
  a ← r_u64; b ← r_u64; c ← r_u64; d ← r_u64; e ← r_u64; f ← r_u64;
  mret (mkTraffic a b c d e f).

(** [Reader::rest]. *)
Definition r_rest : R (list Z) := fun r =>
  Ok (drop (pos r) (buf r), mkReader (buf r) (length (buf r))).

Definition r_env : R (str * str) := k ← r_str; v ← r_str; mret (k, v).

Definition r_exec : R Msg :=
  argv ← r_list r_str; env ← r_list r_env; cwd ← r_str;
  mret (Exec argv env (if bool_decide (cwd = []) then None else Some cwd)).

(** An error from any state. *)
Definition r_fail {A} (e : DecodeError) : R A := fun _ => Err e.

(** The [match] of [Msg::decode_body]. *)
Definition r_msg (tag : Z) : R Msg :=
  if tag =? TAG_EXEC then r_exec
  else if tag =? TAG_STDIN then d ← r_rest; mret (Stdin d)
  else if tag =? TAG_STDIN_EOF then mret StdinEof
  else if tag =? TAG_STDOUT then d ← r_rest; mret (Stdout d)
  else if tag =? TAG_STDERR then d ← r_rest; mret (Stderr d)
  else if tag =? TAG_EXIT then c ← r_u32; mret (Exit (signed 32 c))
  else if tag =? TAG_PUT_OPEN then path ← r_str; mode ← r_u32; mret (PutOpen path mode)
  else if tag =? TAG_PUT_DATA then d ← r_rest; mret (PutData d)
  else if tag =? TAG_PUT_CLOSE then mret PutClose
  else if tag =? TAG_GET then path ← r_str; mret (Get path)
  else if tag =? TAG_GET_DATA then d ← r_rest; mret (GetData d)
  else if tag =? TAG_GET_END then size ← r_u64; mret (GetEnd size)
  else if tag =? TAG_ERROR then s ← r_str; mret (Error s)
  else if tag =? TAG_PING then mret Ping
  else if tag =? TAG_PONG then version ← r_str; mret (Pong version)
  else if tag =? TAG_SENSORS then mret Sensors
  else if tag =? TAG_SENSORS_REPLY then text ← r_str; mret (SensorsReply text)
  else if tag =? TAG_STAT then mret StatReq
  else if tag =? TAG_STAT_REPLY then s ← r_stat; mret (StatReply s)
  else if tag =? TAG_TRAFFIC then mret TrafficReq
  else if tag =? TAG_TRAFFIC_REPLY then t ← r_traffic; mret (TrafficReply t)
  else r_fail (Tag tag).

(** [Msg::decode_body]. *)
Definition decode_body (tag : Z) (body : list Z) : result DecodeError Msg :=
  match r_msg tag (mkReader body 0) with
  | Ok (m, _) => Ok m
  | Err e => Err e
  end.

(** ** What a method reads

    [Parses m bs a]: wherever the cursor stands before [bs], [m] yields [a]
    and leaves the cursor behind [bs].  The classes below are closed under
    the monad's operations, so that a method's behaviour is found from its
    definition by [apply _]. *)

Class Parses {A} (m : R A) (bs : list Z) (a : A) : Prop :=
  parses pre rest :
    m (mkReader (pre ++ bs ++ rest) (length pre)) =
    Ok (a, mkReader (pre ++ bs ++ rest) (length (pre ++ bs))).

Lemma parses_ret {A} (a : A) : Parses (mret a) [] a.
Proof. intros pre rest. by rewrite app_nil_r. Qed.

Lemma parses_bind {A B} (m : R A) (k : A -> R B) bs cs a b :
  Parses m bs a -> Parses (k a) cs b -> Parses (m ≫= k) (bs ++ cs) b.
Proof.
  intros Hm Hk pre rest. unfold mbind, R_bind.
  rewrite <- (app_assoc bs cs rest), Hm, (app_assoc pre bs), Hk.
  by rewrite <- !app_assoc.
Qed.

(** The last step of a method, which may compute on what was read. *)
Lemma parses_bind_ret {A B} (m : R A) (f : A -> B) bs a :
  Parses m bs a -> Parses (x ← m; mret (f x)) bs (f a).
Proof. intros H. rewrite <- (app_nil_r bs). by eapply parses_bind, parses_ret. Qed.

Lemma parses_take bs : Parses (r_take (length bs)) bs bs.
Proof.
  intros pre rest. unfold r_take. cbn. rewrite !length_app.
  case_bool; [apply Nat.ltb_lt in E; lia|].
  by rewrite drop_app_length, take_len_app.
Qed.

Lemma parses_take_le n v : Parses (r_take n) (to_le_bytes n v) (to_le_bytes n v).
Proof. rewrite <- (length_to_le_bytes n v) at 1. apply parses_take. Qed.

Lemma parses_le n v w :
  w = 8 * Z.of_nat n ->
  Parses (b ← r_take n; mret (from_le_bytes b)) (to_le_bytes n v) (wrap w v).
Proof.
  intros ->. rewrite <- from_to_le_bytes. by apply parses_bind_ret, parses_take_le.
Qed.

Lemma parses_u16 v : uint 16 v -> Parses r_u16 (put_u16 [] v) v.
Proof. intros H. rewrite <- (wrap_small 16 v H) at 2. by apply parses_le. Qed.

Lemma parses_u32 v : uint 32 v -> Parses r_u32 (put_u32 [] v) v.
Proof. intros H. rewrite <- (wrap_small 32 v H) at 2. by apply parses_le. Qed.

Lemma parses_u64 v : uint 64 v -> Parses r_u64 (put_u64 [] v) v.
Proof. intros H. rewrite <- (wrap_small 64 v H) at 2. by apply parses_le. Qed.

Lemma parses_u8 v : Parses r_u8 [v] v.
Proof.
  exact (parses_bind_ret (r_take 1) (fun b => default 0 (b !! 0%nat)) [v] [v] (parses_take [v])).
Qed.

Lemma parses_i16 v : sint 16 v -> Parses r_i16 (put_temp [] v) v.
Proof.
  intros H. rewrite <- (signed_wrap 16 v ltac:(lia) H) at 2.
  apply parses_bind_ret, parses_u16, wrap_uint; lia.
Qed.

Lemma parses_str s : str_ok s -> Parses r_str (put_str [] s) (clip_str s).
Proof.
  intros Hs. rewrite put_str_wire. eapply parses_bind.
  - apply parses_u16. pose proof (clip_str_len s). pose proof (len_nonneg (clip_str s)).
    unfold uint, MAX_STRING in *. change (2 ^ 16) with 65536. lia.
  - unfold len. rewrite Nat2Z.id. rewrite <- (app_nil_r (clip_str s)) at 2.
    eapply parses_bind; [apply parses_take|]. intros pre rest. unfold from_utf8.
    rewrite (clip_str_ok s Hs). by rewrite app_nil_r.
Qed.

Lemma parses_read_n {A} (m : R A) (put : list Z -> A -> list Z) (f : A -> A) l :
  Forall (fun a => Parses m (put [] a) (f a)) l ->
  Parses (read_n (length l) m) (concat (put [] <$> l)) (f <$> l).
Proof.
  induction 1 as [|a l Ha Hl IH]; [apply parses_ret|].
  cbn. eapply parses_bind; [done|]. by apply (parses_bind_ret _ (cons (f a))).
Qed.

Lemma parses_list {A} (m : R A) (put : list Z -> A -> list Z) (f : A -> A) l :
  Forall (fun a => Parses m (put [] a) (f a)) l ->
  Parses (r_list m) (wire_list put l) (f <$> clip_list l).
Proof.
  intros H. eapply parses_bind.
  - apply parses_u16. rewrite len_clip_list. pose proof (len_nonneg l).
    unfold uint, MAX_LIST. change (2 ^ 16) with 65536. lia.
  - unfold len. rewrite Nat2Z.id. apply parses_read_n. by apply Forall_take.
Qed.

Lemma parses_bind_last {A B} (m : R A) (k : A -> R B) bs a b :
  Parses m bs a -> Parses (k a) [] b -> Parses (m ≫= k) bs b.
Proof. intros. rewrite <- (app_nil_r bs). by eapply parses_bind. Qed.

Create HintDb parse.
#[local] Hint Resolve parses_u16 parses_u32 parses_u64 parses_u8 parses_i16 parses_str
  parses_list : parse.
#[local] Hint Extern 2 (uint 16 (wrap 16 _)) => (apply wrap_uint; lia) : parse.

(** Follows a method field by field. *)
Ltac parse :=
  repeat (cbv beta; lazymatch goal with
  | |- Parses (mret _) _ _ => apply parses_ret
  | |- Parses (_ ≫= _) (_ ++ _) _ => eapply parses_bind; [solve [eauto with parse]|]
  | |- Parses (_ ≫= _) _ _ => eapply parses_bind_last; [solve [eauto with parse]|]
  end).

Lemma parses_cpu c : cpu_ok c -> Parses r_cpu (put_cpu [] c) c.
Proof. intros (?&?&?). destruct c. rewrite put_cpu_wire. unfold r_cpu. parse. Qed.

Lemma parses_dev d : dev_ok d -> Parses r_dev (put_dev [] d) (clip_dev d).
Proof. intros (?&?&?). destruct d. rewrite put_dev_wire. unfold r_dev. parse. Qed.

Lemma parses_env kv : env_ok kv -> Parses r_env (put_env [] kv) (clip_str kv.1, clip_str kv.2).
Proof. intros (?&?). rewrite put_env_wire. unfold r_env. parse. Qed.

Lemma parses_proc p : proc_ok p -> Parses r_proc (put_proc [] p) (clip_proc p).
Proof.
  intros (?&?&?&?&?&?). destruct p as [? ? k ????]. rewrite put_proc_wire. unfold r_proc.
  destruct k; parse.
Qed.

Lemma parses_mem m : mem_ok m -> Parses r_mem (foldl put_u64 [] (mem_fields m)) m.
Proof.
  intros (?&?&?&?&?&?). destruct m. rewrite (appends_foldl put_u64). unfold r_mem.
  cbn [mem_fields fmap list_fmap concat app]. parse.
Qed.

Lemma parses_load l : load_ok l -> Parses r_load (foldl put_u16 [] (load_fields l)) l.
Proof.
  intros (?&?&?). destruct l as [[??]?]. rewrite (appends_foldl put_u16). unfold r_load.
  cbn [load_fields fmap list_fmap concat app fst snd]. parse.
Qed.

Lemma parses_traffic t :
  traffic_ok t -> Parses r_traffic (foldl put_u64 [] (traffic_fields t)) t.
Proof.
  intros (?&?&?&?&?&?). destruct t. rewrite (appends_foldl put_u64). unfold r_traffic.
  cbn [traffic_fields fmap list_fmap concat app]. parse.
Qed.

Lemma parses_list_ok {A} (m : R A) (put : list Z -> A -> list Z) (f : A -> A) (P : A -> Prop) l :
  (forall a, P a -> Parses m (put [] a) (f a)) -> Forall P l ->
  Parses (r_list m) (wire_list put l) (f <$> clip_list l).
Proof. intros H Hl. apply parses_list. eapply Forall_impl; eauto. Qed.

Lemma parses_list_id {A} (m : R A) (put : list Z -> A -> list Z) (P : A -> Prop) l :
  (forall a, P a -> Parses m (put [] a) a) -> Forall P l ->
  Parses (r_list m) (wire_list put l) (clip_list l).
Proof.
  intros H Hl. rewrite <- (list_fmap_id (clip_list l)). by eapply parses_list_ok.
Qed.

#[local] Hint Resolve parses_cpu parses_dev parses_env parses_proc parses_mem parses_load
  parses_list_ok parses_list_id : parse.

Lemma parses_stat s : stat_ok s -> Parses r_stat (put_stat [] s) (clip_stat s).
Proof.
  intros (?&?&?&?&?&?&?&?&?&?&?&?&?&?&?). rewrite put_stat_wire.
  unfold r_stat, r_devs. parse.
Qed.

Lemma parses_exec argv env cwd :
  msg_ok (Exec argv env cwd) ->
  Parses r_exec (encode_body (Exec argv env cwd)).2 (clip_msg (Exec argv env cwd)).
Proof.
  intros (?&?&Hc). rewrite exec_wire. unfold r_exec, clip_msg.
  eapply parses_bind; [by eauto with parse|].
  eapply parses_bind; [exact (parses_list_ok _ _ _ _ _ parses_env ltac:(done))|].
  replace (clip_cwd cwd) with
    (if bool_decide (clip_str (default [] cwd) = []) then None
     else Some (clip_str (default [] cwd))).
  - eapply parses_bind_last; [|apply parses_ret]. apply parses_str. by destruct cwd.
  - destruct cwd as [[|b s]|]; [done| |done]. cbn [default clip_cwd].
    rewrite bool_decide_false; [done|]. by apply clip_nonempty.
Qed.

Lemma parses_msg m :
  is_bytes m = false -> msg_ok m ->
  Parses (r_msg (encode_body m).1) (encode_body m).2 (clip_msg m).
Proof.
  intros Hb Hm. destruct m; try discriminate Hb; try apply parses_ret;
    try (eapply parses_bind_last;
         [first [ exact (parses_str _ Hm) | exact (parses_u64 _ Hm)
                | exact (parses_stat _ Hm)
                | exact (parses_traffic _ Hm) ] | apply parses_ret]).
  - by apply parses_exec.
  - eapply parses_bind_last; [by apply (parses_le 4)|].
    rewrite <- (signed_wrap 32 code ltac:(lia) Hm) at 2. apply parses_ret.
  - destruct Hm. cbn [encode_body snd fst]. flatten_puts.
    change (Parses (path ← r_str; mode ← r_u32; mret (PutOpen path mode))
      (put_str [] path ++ put_u32 [] mode) (PutOpen (clip_str path) mode)).
    parse.
Qed.

Lemma decode_parsed tag body rest m :
  Parses (r_msg tag) body m -> decode_body tag (body ++ rest) = Ok m.
Proof. intros H. unfold decode_body. rewrite (H [] rest : r_msg tag (mkReader (body ++ rest) 0) = _). done. Qed.

(** ** Regular methods

    A regular method leaves the buffer alone, moves the cursor forward and
    within the buffer, fails only with [Malformed], and when it succeeds
    does so whatever bytes follow. *)

Class Regular {A} (m : R A) : Prop := {
  regular_pos r a r' : (pos r <= length (buf r))%nat -> m r = Ok (a, r') ->
    buf r' = buf r /\ (pos r <= pos r' <= length (buf r))%nat;
  regular_ext b c p a r' : (p <= length b)%nat -> m (mkReader b p) = Ok (a, r') ->
    m (mkReader (b ++ c) p) = Ok (a, mkReader (b ++ c) (pos r'));
  regular_err r e : m r = Err e -> e = Malformed
}.

#[export] Instance regular_ret {A} (a : A) : Regular (mret a).
Proof.
  split; unfold mret, R_ret; intros; simplify_eq; try done; repeat split; try done; lia.
Qed.

#[export] Instance regular_bind {A B} (m : R A) (k : A -> R B) :
  Regular m -> (forall a, Regular (k a)) -> Regular (m ≫= k).
Proof.
  intros Hm Hk. split.
  - intros r b r'' Hp H. unfold mbind, R_bind in H.
    destruct (m r) as [[a r']|] eqn:E; [|done].
    destruct (regular_pos r a r' Hp E) as [Hb ?].
    destruct (regular_pos (m:=k a) r' b r'') as [Hb' ?]; [rewrite Hb; lia|done|].
    rewrite Hb in *. split; [done|lia].
  - intros b c p x r'' Hp H. unfold mbind, R_bind in *.
    destruct (m (mkReader b p)) as [[a r']|] eqn:E; [|done].
    rewrite (regular_ext b c p a r' Hp E).
    destruct (regular_pos (mkReader b p) a r' Hp E) as [Hb ?]. destruct r' as [b' p'].
    cbn in *. subst b'. by apply (regular_ext (m:=k a)); [lia|].
  - intros r e H. unfold mbind, R_bind in H. destruct (m r) as [[a r']|] eqn:E.
    + by apply (regular_err (m:=k a)) in H.
    + apply (regular_err (m:=m) r e). congruence.
Qed.

#[export] Instance regular_take n : Regular (r_take n).
Proof.
  split; unfold r_take; intros *; cbn [buf pos].
  - intros ? H. case_match eqn:E; [done|]. apply Nat.ltb_ge in E. simplify_eq. cbn.
    split; [done|lia].
  - intros ? H. case_match eqn:E; [done|]. apply Nat.ltb_ge in E. simplify_eq.
    rewrite length_app. case_bool; [apply Nat.ltb_lt in E0; lia|].
    cbn [pos]. do 2 f_equal. rewrite drop_app_le by done.
    apply take_app_le. rewrite length_drop. lia.
  - case_match; congruence.
Qed.

#[export] Instance regular_from_utf8 b : Regular (from_utf8 b).
Proof.
  split; unfold from_utf8; intros *; case_match; intros; simplify_eq; try done; repeat split; try done; lia.
Qed.

#[export] Instance regular_read_n {A} n (m : R A) : Regular m -> Regular (read_n n m).
Proof. intros. induction n; apply _. Qed.

#[export] Instance regular_fail {A} : Regular (A:=A) (r_fail Malformed).
Proof. split; unfold r_fail; intros *; congruence. Qed.

#[export] Instance regular_if {A} (b : bool) (m n : R A) :
  Regular m -> Regular n -> Regular (if b then m else n).
Proof. by destruct b. Qed.

Ltac regular := intros; repeat progress
  (unfold r_u16, r_u32, r_u64, r_u8, r_i16, r_list, r_dev, r_devs, r_cpu, r_mem,
     r_load, r_proc, r_traffic, r_env, r_str); apply _.

#[export] Instance regular_str : Regular r_str.
Proof. regular. Qed.
#[export] Instance regular_stat : Regular r_stat.
Proof. unfold r_stat. regular. Qed.
#[export] Instance regular_exec : Regular r_exec.
Proof. unfold r_exec. regular. Qed.

(** The tags of the messages whose body is the raw payload. *)
Definition bytes_tag (tag : Z) : bool :=
  bool_decide (tag ∈ [TAG_STDIN; TAG_STDOUT; TAG_STDERR; TAG_PUT_DATA; TAG_GET_DATA]).

Lemma regular_msg tag :
  1 <= tag <= 21 -> bytes_tag tag = false -> Regular (r_msg tag).
Proof.
  intros Ht Hb. unfold r_msg.
  repeat (case_bool; [first [discriminate Hb | subst tag; discriminate Hb | regular]|]).
  unfold TAG_EXEC, TAG_STDIN, TAG_STDIN_EOF, TAG_STDOUT, TAG_STDERR, TAG_EXIT, TAG_PUT_OPEN,
    TAG_PUT_DATA, TAG_PUT_CLOSE, TAG_GET, TAG_GET_DATA, TAG_GET_END, TAG_ERROR, TAG_PING,
    TAG_PONG, TAG_SENSORS, TAG_SENSORS_REPLY, TAG_STAT, TAG_STAT_REPLY, TAG_TRAFFIC,
    TAG_TRAFFIC_REPLY in *. lia.
Qed.

(** ** What any bytes decode to

    [Yields P m]: on a buffer of bytes, [m] keeps the buffer and a value it
    returns has [P]. *)

Class Yields {A} (P : A -> Prop) (m : R A) : Prop :=
  yields r a r' : Forall u8 (buf r) -> m r = Ok (a, r') -> buf r' = buf r /\ P a.

Lemma yields_ret {A} (P : A -> Prop) a : P a -> Yields P (mret a).
Proof. intros ? r x r' _ [= <- <-]. done. Qed.

Lemma yields_bind {A B} (P : A -> Prop) (Q : B -> Prop) (m : R A) (k : A -> R B) :
  Yields P m -> (forall a, P a -> Yields Q (k a)) -> Yields Q (m ≫= k).
Proof.
  intros Hm Hk r b r'' Hr H. unfold mbind, R_bind in H.
  destruct (m r) as [[a r']|] eqn:E; [|done].
  destruct (yields r a r' Hr E) as [Hb Ha].
  destruct (Hk a Ha r' b r'') as [Hb' ?]; [by rewrite Hb|done|]. by rewrite Hb', Hb.
Qed.

Lemma yields_weaken {A} (P Q : A -> Prop) (m : R A) :
  (forall a, P a -> Q a) -> Yields P m -> Yields Q m.
Proof. intros H Hm r a r' Hr E. destruct (yields r a r' Hr E). auto. Qed.

Lemma yields_take n : Yields (fun b => Forall u8 b /\ length b = n) (r_take n).
Proof.
  intros r a r' Hr. unfold r_take. case_match eqn:E; [done|]. intros [= <- <-].
  apply Nat.ltb_ge in E. split_and!; [done|by apply Forall_take, Forall_drop|].
  rewrite length_take, length_drop. lia.
Qed.

Lemma yields_le n w :
  w = 8 * Z.of_nat n -> Yields (uint w) (b ← r_take n; mret (from_le_bytes b)).
Proof.
  intros ->. eapply yields_bind; [apply yields_take|]. intros b [Hb <-].
  by apply yields_ret, from_le_bytes_uint.
Qed.

Lemma yields_u16 : Yields (uint 16) r_u16.
Proof. by apply yields_le. Qed.
Lemma yields_u32 : Yields (uint 32) r_u32.
Proof. by apply yields_le. Qed.
Lemma yields_u64 : Yields (uint 64) r_u64.
Proof. by apply yields_le. Qed.

Lemma yields_u8 : Yields u8 r_u8.
Proof.
  eapply yields_bind; [apply yields_take|]. intros b [Hb Hl]. apply yields_ret.
  destruct Hb; [done|]. done.
Qed.

Lemma yields_i16 : Yields (sint 16) r_i16.
Proof. eapply yields_bind; [apply yields_u16|]. intros. by apply yields_ret, signed_sint. Qed.

Definition str_received (s : str) : Prop := str_ok s /\ clip_str s = s.

Lemma yields_str : Yields str_received r_str.
Proof.
  eapply yields_bind; [apply yields_u16|]. intros n Hn.
  eapply yields_bind; [apply yields_take|]. intros b [Hb Hl] r a r' _.
  unfold from_utf8. case_match; [|done]. intros [= <- <-]. split; [done|]. split; [done|].
  apply clip_small. unfold uint, len, MAX_STRING in *. change (2 ^ 16) with 65536 in Hn. lia.
Qed.

Lemma yields_read_n {A} (P : A -> Prop) n m :
  Yields P m -> Yields (fun l => Forall P l /\ length l = n) (read_n n m).
Proof.
  intros Hm. induction n as [|n IH]; [by apply yields_ret|].
  cbn. eapply yields_bind; [done|]. intros a Ha.
  eapply yields_bind; [done|]. intros l [Hl <-]. by apply yields_ret; split; [constructor|].
Qed.

Definition list_received {A} (P : A -> Prop) (l : list A) : Prop :=
  Forall P l /\ clip_list l = l.

Lemma yields_list {A} (P : A -> Prop) m : Yields P m -> Yields (list_received P) (r_list m).
Proof.
  intros Hm. eapply yields_bind; [apply yields_u16|]. intros n Hn.
  eapply yields_weaken; [|by apply yields_read_n]. intros l [Hl Hn']. split; [done|].
  apply take_ge. unfold uint, MAX_LIST in *. change (2 ^ 16) with 65536 in Hn. lia.
Qed.

Create HintDb yields.
#[local] Hint Resolve yields_u16 yields_u32 yields_u64 yields_u8 yields_i16 yields_str
  yields_list : yields.

(** Follows a method read by read. *)
Ltac yields :=
  repeat lazymatch goal with
  | |- Yields _ (mret _) => apply yields_ret
  | |- Yields _ (_ ≫= _) => eapply yields_bind; [solve [eauto with yields]|intros; cbv beta]
  end.

Lemma yields_cpu : Yields cpu_ok r_cpu.
Proof. unfold r_cpu. yields. done. Qed.

Definition dev_received (d : DevStat) : Prop := dev_ok d /\ clip_dev d = d.
Definition proc_received (p : ProcStat) : Prop := proc_ok p /\ clip_proc p = p.
Definition env_received (kv : str * str) : Prop := str_received kv.1 /\ str_received kv.2.

Lemma yields_dev : Yields dev_received r_dev.
Proof.
  unfold r_dev. yields. destruct H. split; [done|]. unfold clip_dev. cbn. by f_equal.
Qed.

Lemma yields_proc : Yields proc_received r_proc.
Proof.
  unfold r_proc. yields. destruct H5. split; [done|]. unfold clip_proc. cbn. by f_equal.
Qed.

Lemma yields_env : Yields env_received r_env.
Proof. unfold r_env. yields. done. Qed.

Lemma yields_mem : Yields mem_ok r_mem.
Proof. unfold r_mem. yields. done. Qed.
Lemma yields_load : Yields load_ok r_load.
Proof. unfold r_load. yields. done. Qed.
Lemma yields_traffic : Yields traffic_ok r_traffic.
Proof. unfold r_traffic. yields. done. Qed.

#[local] Hint Resolve yields_cpu yields_dev yields_proc yields_env yields_mem yields_load
  yields_traffic : yields.

Lemma received_map {A} (f : A -> A) (P Q : A -> Prop) l :
  (forall a, P a -> Q a /\ f a = a) -> list_received P l ->
  Forall Q l /\ f <$> clip_list l = l.
Proof.
  intros HP [Hl Hc]. rewrite Hc. split; [by eapply Forall_impl; [|apply HP]|].
  clear Hc. induction Hl as [|a l Ha _ IH]; cbn; [done|]. f_equal; [|done]. by apply HP.
Qed.

Definition received (m : Msg) : Prop := msg_ok m /\ clip_msg m = m.

Lemma yields_stat : Yields (fun s => stat_ok s /\ clip_stat s = s) r_stat.
Proof.
  unfold r_stat, r_devs. yields.
  repeat match goal with
  | H : list_received dev_received _ |- _ =>
      apply (received_map clip_dev _ dev_ok) in H as [? ?]; [|done]
  | H : list_received proc_received _ |- _ =>
      apply (received_map clip_proc _ proc_ok) in H as [? ?]; [|done]
  | H : list_received _ _ |- _ => destruct H
  end.
  split; [done|]. unfold clip_stat. cbn. by f_equal.
Qed.

Lemma yields_exec : Yields received r_exec.
Proof.
  unfold r_exec. yields. destruct H1 as [Hc1 Hc2].
  apply (received_map clip_str _ str_ok) in H as [Ha Ha']; [|done].
  apply (received_map (fun kv => (clip_str kv.1, clip_str kv.2)) _ env_ok) in H0 as [He He'].
  2:{ intros [k v] [[??] [??]]. split; [done|]. by f_equal. }
  case_bool_decide; (split; [done|]); cbn; rewrite Ha', He'; [done|].
  f_equal. unfold clip_cwd. by case_match; [|f_equal].
Qed.

Lemma yields_rest : Yields (Forall u8) r_rest.
Proof. intros r a r' Hr [= <- <-]. split; [done|]. by apply Forall_drop. Qed.

#[local] Hint Resolve yields_exec yields_stat yields_rest : yields.

Lemma received_str_msg (f : str -> Msg) s :
  (forall s, msg_ok (f s) = str_ok s) -> (forall s, clip_msg (f s) = f (clip_str s)) ->
  str_received s -> received (f s).
Proof. intros Hf Hc [Hs Hs']. unfold received. by rewrite Hf, Hc, Hs'. Qed.

Lemma yields_msg tag : Yields received (r_msg tag).
Proof.
  unfold r_msg.
  repeat (case_bool; [first [solve [eauto with yields] | yields]; try done|]);
    try by apply received_str_msg.
  - split; [by apply signed_sint|done].
  - destruct H. split; [done|]. cbn. by f_equal.
  - destruct H. split; [done|]. cbn. by f_equal.
  - done.
Qed.

(** ** The decoder against the encoder *)

Lemma decode_bytes_msg m :
  is_bytes m = true -> decode_body (encode_body m).1 (encode_body m).2 = Ok m.
Proof. by destruct m. Qed.

Lemma clip_bytes m : is_bytes m = true -> clip_msg m = m.
Proof. by destruct m. Qed.

Lemma encode_tag m : 1 <= (encode_body m).1 <= 21.
Proof. destruct m; unfold encode_body, put_count; cbv beta iota zeta; cbn [fst]; by split. Qed.

Lemma encode_bytes_tag m : bytes_tag (encode_body m).1 = is_bytes m.
Proof. by destruct m. Qed.

Lemma decode_encode_aux m :
  msg_ok m -> decode_body (encode_body m).1 (encode_body m).2 = Ok (clip_msg m).
Proof.
  intros Hm. destruct (is_bytes m) eqn:Hb.
  - by rewrite clip_bytes, decode_bytes_msg.
  - rewrite <- (app_nil_r (encode_body m).2). by apply decode_parsed, parses_msg.
Qed.

(** C4: the round trip.  For every message value the Rust types allow, the
    body [encode] writes is decoded by [decode_body], under the tag written
    with it, to the same message with its strings and lists clipped to the
    wire limits (and an empty working directory absent); no field is lost,
    reordered or misread, negative temperatures and exit codes included. *)
Theorem decode_encode m :
  msg_ok m -> decode_body (encode_body m).1 (encode_body m).2 = Ok (clip_msg m).
Proof. apply decode_encode_aux. Qed.

Lemma decode_encode_trailing_aux m rest :
  is_bytes m = false -> msg_ok m ->
  decode_body (encode_body m).1 ((encode_body m).2 ++ rest) = Ok (clip_msg m).
Proof. intros. by apply decode_parsed, parses_msg. Qed.

(** Bytes after the last field are ignored, as the documentation of
    [Reader] says: an extended body of a message with fields decodes to the
    same message, so a newer sender may append fields. *)
Theorem decode_ignores_trailing m rest :
  is_bytes m = false -> msg_ok m ->
  decode_body (encode_body m).1 ((encode_body m).2 ++ rest) =
  decode_body (encode_body m).1 (encode_body m).2.
Proof.
  intros Hb Hm. rewrite decode_encode_trailing_aux by done.
  rewrite <- (app_nil_r (encode_body m).2). by rewrite decode_encode_trailing_aux.
Qed.

Lemma decode_truncated_aux m p :
  is_bytes m = false -> msg_ok m -> p `prefix_of` (encode_body m).2 ->
  p <> (encode_body m).2 ->
  decode_body (encode_body m).1 p = Err Malformed.
Proof.
  intros Hb Hm [c Hc] Hne. pose proof (encode_tag m) as Ht.
  assert (Hr : Regular (r_msg (encode_body m).1)).
  { apply regular_msg; [done|by rewrite encode_bytes_tag]. }
  pose proof (parses_msg m Hb Hm [] []) as Hp. cbn [app] in Hp. rewrite app_nil_r in Hp.
  unfold decode_body. destruct (r_msg _ (mkReader p 0)) as [[a r']|e] eqn:E.
  - exfalso. destruct (regular_pos (mkReader p 0) a r' (Nat.le_0_l _) E) as [_ Hpos].
    pose proof (regular_ext p c 0%nat a r' (Nat.le_0_l _) E) as Hx. rewrite <- Hc in Hx.
    change (length (@nil Z)) with 0%nat in Hp. rewrite Hp in Hx. injection Hx as _ Hx.
    rewrite Hc, length_app in Hx. cbn in Hpos. destruct c; [|cbn in Hx; lia].
    by rewrite app_nil_r in Hc.
  - by rewrite (regular_err _ _ E).
Qed.

(** C18: a truncated body is never mistaken for a message: every strict prefix
    of the body of a message with fields is [Malformed] (whichever field the
    cut falls into, counts, strings and list items included). *)
Theorem decode_truncated m p :
  is_bytes m = false -> msg_ok m -> p `prefix_of` (encode_body m).2 ->
  p <> (encode_body m).2 ->
  decode_body (encode_body m).1 p = Err Malformed.
Proof. apply decode_truncated_aux. Qed.

(** C19: whatever bytes arrive, a body that decodes gives a well-formed
    message: every integer in its range, every string UTF-8, and every
    string and list within the wire limits (so that encoding it again clips
    nothing). *)
Theorem decode_wellformed tag body m :
  Forall u8 body -> decode_body tag body = Ok m -> msg_ok m /\ clip_msg m = m.
Proof.
  intros Hu. unfold decode_body. destruct (r_msg _ _) as [[a r']|] eqn:E; [|done].
  intros [= ->]. by apply (yields_msg tag (mkReader body 0) m r' Hu) in E as [_ ?].
Qed.

(** Relaying is faithful: a message decoded from any bytes, encoded and
    decoded again, is the same message. *)
Theorem reencode tag body m :
  Forall u8 body -> decode_body tag body = Ok m ->
  decode_body (encode_body m).1 (encode_body m).2 = Ok m.
Proof.
  intros Hu Hd. unfold decode_body in Hd. destruct (r_msg tag _) as [[a r']|] eqn:E; [|done].
  injection Hd as ->. apply (yields_msg tag (mkReader body 0) m r' Hu) in E as [_ [Hm Hc]].
  destruct (is_bytes m) eqn:Hb; [by apply decode_bytes_msg|]. rewrite <- Hc at 3.
  rewrite <- (app_nil_r (encode_body m).2). by apply decode_encode_trailing_aux.
Qed.

Lemma decode_unknown_tag tag body : ~ 1 <= tag <= 21 -> decode_body tag body = Err (Tag tag).
Proof.
  intros Ht. unfold decode_body, r_msg.
  repeat (case_bool; [subst; exfalso; apply Ht; vm_compute; split; discriminate|]). done.
Qed.

Lemma decode_known_tag tag body e :
  1 <= tag <= 21 -> decode_body tag body = Err e -> e = Malformed.
Proof.
  intros Ht. unfold decode_body.
  destruct (r_msg tag (mkReader body 0)) as [[m r]|e'] eqn:E; [done|]. intros [= <-].
  destruct (bytes_tag tag) eqn:Hb.
  - apply bool_decide_eq_true in Hb.
    repeat (apply elem_of_cons in Hb as [->|Hb]; [discriminate E|]). by apply elem_of_nil in Hb.
  - destruct (regular_msg tag Ht Hb) as [_ _ He]. by apply (He _ _ E).
Qed.

(** C20: the errors of [decode_body]: a tag outside the 21 known ones is
    reported as [Tag] with that tag, whatever the body; under a known tag the
    only error is [Malformed]; [Length] is never reported for a body. *)
Theorem decode_error tag body e :
  decode_body tag body = Err e <->
  (e = Tag tag /\ ~ 1 <= tag <= 21) \/
  (e = Malformed /\ 1 <= tag <= 21 /\ forall m, decode_body tag body <> Ok m).
Proof.
  destruct (decide (1 <= tag <= 21)) as [Ht|Ht].
  - split.
    + intros He. right. split; [by apply (decode_known_tag tag body)|]. split; [done|].
      intros m. congruence.
    + intros [[_ ?]|(-> & _ & Hn)]; [done|].
      destruct (decode_body tag body) as [m|e'] eqn:E; [by destruct (Hn m)|].
      by rewrite (decode_known_tag tag body e').
  - rewrite decode_unknown_tag by done. split; [intros [= <-]; by left|].
    by intros [[-> _]|(_ & ? & _)].
Qed.

(** ** Concrete instances *)

(** One sample of every kind of field: a negative temperature, a kernel
    thread, a two-byte character. *)
Definition sample_stat : Stat :=
  mkStat 86400000 [mkCpuStat 0 12 988; mkCpuStat 227 1000 0]
    (mkMemStat 5902336 5000000 1 2 3 4) (150, 75, 9) 3 412 [45; -7] (-1) 1030 1100
    [mkDevStat [118; 98; 48] 4096 18446744073709551615] [mkDevStat [195; 169] 1 2]
    [mkProcStat 1 83 false 10 640 1 [105; 110; 105; 116]; mkProcStat 2 73 true 0 0 1 []] 2 1.

Definition sample_exec : Msg :=
  Exec [[108; 115]; [45; 108]] [([72], [47])] (Some [47; 116; 109; 112]).

Lemma decode_encode_witness :
  msg_ok (StatReply sample_stat) /\
  decode_body (encode_body (StatReply sample_stat)).1 (encode_body (StatReply sample_stat)).2 =
    Ok (clip_msg (StatReply sample_stat)).
Proof.
  assert (H : msg_ok (StatReply sample_stat)) by concrete.
  split; [exact H|exact (decode_encode _ H)].
Defined.

Lemma decode_ignores_trailing_witness :
  decode_body TAG_EXEC ((encode_body sample_exec).2 ++ [1; 2; 3]) =
  decode_body TAG_EXEC (encode_body sample_exec).2.
Proof. apply (decode_ignores_trailing sample_exec); [reflexivity|concrete]. Defined.

Lemma decode_truncated_witness :
  decode_body TAG_EXEC (take 21 (encode_body sample_exec).2) = Err Malformed.
Proof.
  apply (decode_truncated sample_exec); [reflexivity|concrete|apply prefix_take|discriminate].
Defined.

Lemma decode_wellformed_witness :
  decode_body TAG_PUT_OPEN [2; 0; 195; 169; 164; 1; 0; 0; 255] = Ok (PutOpen [195; 169] 420) /\
  msg_ok (PutOpen [195; 169] 420) /\ clip_msg (PutOpen [195; 169] 420) = PutOpen [195; 169] 420.
Proof.
  split; [reflexivity|].
  apply (decode_wellformed TAG_PUT_OPEN [2; 0; 195; 169; 164; 1; 0; 0; 255]); [concrete|reflexivity].
Defined.

Lemma reencode_witness :
  decode_body (encode_body (Exit (-2))).1 (encode_body (Exit (-2))).2 = Ok (Exit (-2)).
Proof. apply (reencode TAG_EXIT [254; 255; 255; 255; 9]); [concrete|reflexivity]. Defined.
