(* ===== verification/RpcStream.v ===== *)
(** The incremental frame decoder of phi-rpc
    (host/crates/phi-rpc/src/lib.rs): [Decoder] with [push], [pending] and
    [next_frame], the receive loop its users run, and the contract between
    the two ends of the channel: whatever way the transport cuts the byte
    stream, the receiver gets the frames that were sent, in order. *)

From S2P Require Import Prelude Bytes Utf8 RpcMsg RpcEncode RpcDecode.

Local Open Scope Z_scope.

Record Decoder := mkDecoder { dbuf : list Z }.

(** [Decoder::new]. *)
Definition new : Decoder := mkDecoder [].

(** [Decoder::push]. *)
Definition push (d : Decoder) (data : list Z) : Decoder := mkDecoder (dbuf d ++ data).

(** [Decoder::pending]. *)
Definition pending (d : Decoder) : Z := len (dbuf d).

(** The length field: the first four bytes of the buffer. *)
Definition frame_len (b : list Z) : Z := from_le_bytes (take 4 b).

(** [Decoder::next_frame].  The byte at index 4 exists where it is read
    ([frame_tag_in_range]). *)
Definition next_frame (d : Decoder) : result DecodeError (option Msg) * Decoder :=
  if len (dbuf d) <? 4 then (Ok None, d)
  else
    let n := frame_len (dbuf d) in
    if (n =? 0) || (MAX_FRAME <? n) then (Err (Length n), mkDecoder [])
    else
      let total := Z.to_nat (4 + n) in
      if (length (dbuf d) <? total)%nat then (Ok None, d)
      else
        let r := decode_body (default 0 (dbuf d !! 4%nat)) (drop 5 (take total (dbuf d))) in
        (match r with Ok m => Ok (Some m) | Err e => Err e end,
         mkDecoder (drop total (dbuf d))).

(** The receive loop, [next_frame] until it returns [Ok(None)]: the results
    in order and the decoder that is left. *)
Fixpoint drain (fuel : nat) (d : Decoder) : list (result DecodeError Msg) * Decoder :=
  match fuel with
  | O => ([], d)
  | S fuel =>
      match next_frame d with
      | (Ok None, d) => ([], d)
      | (Ok (Some m), d) => let '(rs, d) := drain fuel d in (Ok m :: rs, d)
      | (Err e, d) => let '(rs, d) := drain fuel d in (Err e :: rs, d)
      end
  end.

(** Fuel for the loop; [drain_enough] proves it is enough. *)
Definition drain_fuel (d : Decoder) : nat := S (length (dbuf d)).

(** One read of the transport: the bytes are pushed, the loop is run. *)
Definition receive (st : list (result DecodeError Msg) * Decoder) (chunk : list Z)
  : list (result DecodeError Msg) * Decoder :=
  let d := push st.2 chunk in
  let '(rs, d) := drain (drain_fuel d) d in
  (st.1 ++ rs, d).

(** ** Frames *)

(** A frame: its length field, tag and body. *)
Definition frame (f : Z * list Z) : list Z :=
  to_le_bytes 4 (1 + len f.2) ++ f.1 :: f.2.

Definition frame_ok (f : Z * list Z) : Prop := 1 + len f.2 <= MAX_FRAME.

(** What the receiver makes of a frame. *)
Definition frame_result (f : Z * list Z) : result DecodeError Msg := decode_body f.1 f.2.

(** The beginning of a frame: nothing to take yet. *)
Definition incomplete (b : list Z) : Prop :=
  next_frame (mkDecoder b) = (Ok None, mkDecoder b).

Lemma max_frame_val : MAX_FRAME = 1048576.
Proof. reflexivity. Qed.

Lemma length_frame f : length (frame f) = (5 + length f.2)%nat.
Proof. unfold frame. rewrite length_app, length_to_le_bytes. cbn. lia. Qed.

Lemma frame_len_frame f rest : frame_ok f -> frame_len (frame f ++ rest) = 1 + len f.2.
Proof.
  intros Hf. unfold frame_len, frame. rewrite <- app_assoc, take_app_le by (rewrite length_to_le_bytes; lia).
  rewrite take_ge by (rewrite length_to_le_bytes; lia).
  rewrite from_to_le_bytes. apply wrap_small. unfold uint, frame_ok in *.
  pose proof (len_nonneg f.2). pose proof max_frame_val.
  change (2 ^ (8 * Z.of_nat 4)) with 4294967296. lia.
Qed.

(** The tag is read inside the buffer. *)
Lemma frame_tag_in_range b :
  0 < frame_len b -> (Z.to_nat (4 + frame_len b) <= length b)%nat -> is_Some (b !! 4%nat).
Proof. intros. apply lookup_lt_is_Some_2. lia. Qed.

Lemma next_frame_frame f rest :
  frame_ok f ->
  next_frame (mkDecoder (frame f ++ rest)) =
  (match frame_result f with Ok m => Ok (Some m) | Err e => Err e end, mkDecoder rest).
Proof.
  intros Hf. unfold next_frame. cbn [dbuf]. rewrite frame_len_frame by done.
  pose proof (len_nonneg f.2) as Hn. pose proof (length_frame f) as Hl. unfold frame_ok in Hf.
  case_bool; [unfold len in E; rewrite length_app in E; lia|].
  case_bool; [lia|].
  assert (Ht : Z.to_nat (4 + (1 + len f.2)) = length (frame f)) by (unfold len; lia).
  rewrite Ht, length_app. case_bool; [lia|].
  by rewrite take_len_app, drop_app_length.
Qed.

Lemma incomplete_nil : incomplete [].
Proof. done. Qed.

(** What makes a buffer incomplete. *)
Lemma incomplete_iff b :
  incomplete b <->
  len b < 4 \/ (1 <= frame_len b <= MAX_FRAME /\ len b < 4 + frame_len b) \/
    (frame_len b < 0 /\ len b < 4 + frame_len b).
Proof.
  unfold incomplete, next_frame, len. cbn [dbuf]. pose proof max_frame_val.
  case_bool; [split; [lia|done]|].
  case_bool; [split; [discriminate|lia]|].
  case_bool; [split; [intros _; lia|done]|].
  split; [|lia]. by destruct (decode_body _ _).
Qed.

Lemma frame_len_app b c : 4 <= len b -> frame_len (b ++ c) = frame_len b.
Proof. intros. unfold frame_len, len in *. rewrite take_app_le by lia. done. Qed.

Lemma incomplete_prefix b c : incomplete (b ++ c) -> incomplete b.
Proof.
  rewrite !incomplete_iff, len_app. pose proof (len_nonneg c).
  destruct (decide (len b < 4)); [by left|]. rewrite frame_len_app by lia. lia.
Qed.

Lemma incomplete_frame_prefix f b c :
  frame_ok f -> frame f = b ++ c -> c <> [] -> incomplete b.
Proof.
  intros Hf Hb Hc. apply incomplete_iff. pose proof (frame_len_frame f [] Hf) as Hl.
  pose proof (f_equal len Hb) as Hlen. rewrite app_nil_r in Hl. unfold len in Hlen at 1.
  rewrite length_frame, len_app in Hlen. rewrite Hb in Hl.
  assert (0 < len c) by (destruct c; [done|rewrite len_cons; pose proof (len_nonneg c); lia]).
  destruct (decide (len b < 4)); [by left|]. right. left. rewrite frame_len_app in Hl by lia.
  pose proof (len_nonneg f.2). unfold frame_ok, len in *. lia.
Qed.

(** ** The loop *)

Lemma frame_len_u8 b : Forall u8 b -> 0 <= frame_len b.
Proof. intros. by apply from_le_bytes_uint, Forall_take. Qed.

(** Taking a frame, or reporting an error, consumes bytes; only [Ok(None)]
    leaves the buffer as it is. *)
Lemma next_frame_progress d r d' :
  Forall u8 (dbuf d) -> next_frame d = (r, d') ->
  (r = Ok None /\ d' = d) \/
  (r <> Ok None /\ Forall u8 (dbuf d') /\ (length (dbuf d') < length (dbuf d))%nat).
Proof.
  intros Hu. pose proof (frame_len_u8 (dbuf d) Hu).
  unfold next_frame, len. case_bool; [intros [= <- <-]; by left|].
  case_bool; [intros [= <- <-]; right; split_and!; [done..|]; cbn; lia|].
  case_bool; [intros [= <- <-]; by left|]. intros Hn. right. split_and!.
  - destruct (decode_body _ _); congruence.
  - injection Hn as <- <-. by apply Forall_drop.
  - injection Hn as <- <-. cbn. rewrite length_drop. lia.
Qed.

Lemma drain_enough d fuel :
  Forall u8 (dbuf d) -> (length (dbuf d) < fuel)%nat ->
  drain fuel d = drain (drain_fuel d) d /\
  incomplete (dbuf (drain fuel d).2).
Proof.
  unfold drain_fuel. revert d.
  assert (H : forall n m d, Forall u8 (dbuf d) -> (length (dbuf d) < n)%nat ->
    (length (dbuf d) < m)%nat -> drain n d = drain m d /\ incomplete (dbuf (drain n d).2)).
  { induction n as [|n IH]; intros m d Hu Hn Hm; [lia|]. destruct m as [|m]; [lia|].
    cbn. destruct (next_frame d) as [r d'] eqn:E.
    destruct (next_frame_progress d r d' Hu E) as [[-> ->]|(Hr & Hu' & Hl)].
    - split; [done|]. unfold incomplete. destruct d. done.
    - destruct (IH m d' Hu' ltac:(lia) ltac:(lia)) as [He Hi].
      rewrite <- He. destruct (drain n d'). destruct r as [[]|]; done. }
  intros d Hu Hf. apply H; [done..|lia].
Qed.

(** C21: the receive loop terminates with everything taken: with fuel for the
    buffered bytes it ends because [next_frame] has nothing more to give,
    and more fuel changes nothing. *)
Theorem drain_done d fuel :
  Forall u8 (dbuf d) -> (length (dbuf d) < fuel)%nat ->
  drain fuel d = drain (drain_fuel d) d /\
  incomplete (dbuf (drain fuel d).2).
Proof. apply drain_enough. Qed.

(** ** Reception *)

Lemma drain_frames fs tail fuel :
  Forall frame_ok fs -> incomplete tail -> (length fs < fuel)%nat ->
  drain fuel (mkDecoder (concat (frame <$> fs) ++ tail)) = (frame_result <$> fs, mkDecoder tail).
Proof.
  intros Hfs Ht. revert fuel. induction Hfs as [|f fs Hf _ IH]; intros fuel Hl.
  - destruct fuel; [cbn in Hl; lia|]. cbn -[next_frame]. by rewrite Ht.
  - destruct fuel; [cbn in Hl; lia|]. cbn -[next_frame frame].
    rewrite <- app_assoc, next_frame_frame by done.
    cbn in Hl. rewrite (IH fuel) by lia. by destruct (frame_result f).
Qed.

Lemma length_frames fs : (length fs <= length (concat (frame <$> fs)))%nat.
Proof.
  induction fs; cbn -[frame]; [lia|]. rewrite length_app, length_frame. lia.
Qed.

(** However the stream is cut, each part is whole frames and the beginning
    of one. *)
Lemma split_frames fs tail b c :
  Forall frame_ok fs -> incomplete tail -> b ++ c = concat (frame <$> fs) ++ tail ->
  exists fs1 fs2 t, fs = fs1 ++ fs2 /\ b = concat (frame <$> fs1) ++ t /\ incomplete t /\
    t ++ c = concat (frame <$> fs2) ++ tail.
Proof.
  intros Hfs Ht. revert b. induction Hfs as [|f fs Hf _ IH]; intros b Hb; cbn -[frame] in Hb.
  - exists [], [], b. split_and!; [done..| |done]. apply (incomplete_prefix b c).
    cbn in Hb. by rewrite Hb.
  - rewrite <- app_assoc in Hb. apply app_eq_inv in Hb as [(k & -> & Hc)|(k & Hk & Hc)].
    + destruct (IH k) as (fs1 & fs2 & t & -> & -> & Hi & He); [by rewrite Hc|].
      exists (f :: fs1), fs2, t. split_and!; [done| |done..]. cbn -[frame]. by rewrite app_assoc.
    + destruct (decide (k = [])) as [->|Hne].
      * rewrite app_nil_r in Hk. exists [f], fs, []. cbn -[frame].
        rewrite !app_nil_r. cbn in Hc. by split_and!.
      * exists [], (f :: fs), b. split_and!; [done..| |].
        -- by eapply incomplete_frame_prefix.
        -- cbn -[frame]. by rewrite Hk, <- !app_assoc, <- Hc.
Qed.

Lemma receive_framed fs tail chunks :
  Forall frame_ok fs -> incomplete tail -> concat chunks = concat (frame <$> fs) ++ tail ->
  foldl receive ([], new) chunks = (frame_result <$> fs, mkDecoder tail).
Proof.
  assert (H : forall chunks fs acc b, Forall frame_ok fs -> incomplete tail -> incomplete b ->
    b ++ concat chunks = concat (frame <$> fs) ++ tail ->
    foldl receive (acc, mkDecoder b) chunks = (acc ++ (frame_result <$> fs), mkDecoder tail)).
  { clear. intros chunks. induction chunks as [|ch chunks IH]; intros fs acc b Hfs Ht Hb He.
    - cbn in He. rewrite app_nil_r in He. subst b.
      destruct fs as [|f fs]; [by rewrite app_nil_r|]. exfalso.
      apply Forall_cons in Hfs as [Hf _]. cbn -[frame] in Hb.
      rewrite <- app_assoc in Hb. unfold incomplete in Hb. rewrite next_frame_frame in Hb by done.
      injection Hb as Hb. destruct (frame_result f); done.
    - cbn in He. rewrite app_assoc in He.
      destruct (split_frames fs tail (b ++ ch) (concat chunks)) as (fs1 & fs2 & t & -> & Hbc & Hi & He2);
        [done..|].
      apply Forall_app in Hfs as [Hfs1 Hfs2]. cbn -[receive].
      unfold receive at 2. unfold push, drain_fuel. cbn [snd fst dbuf]. rewrite Hbc.
      rewrite drain_frames; [|done..|rewrite length_app; pose proof (length_frames fs1); lia].
      rewrite (IH fs2) by done. by rewrite fmap_app, app_assoc. }
  intros. by apply (H chunks fs []).
Qed.

(** C14: the framing contract.  A stream of frames (any tags, any bodies, each
    within [MAX_FRAME]) followed by the beginning of one more, cut into
    chunks in any way, gives exactly the decode results of the frames, in
    order, with the unfinished frame left pending.  In particular a frame
    that does not decode costs exactly itself. *)
Theorem receive_frames fs tail chunks :
  Forall frame_ok fs -> incomplete tail -> concat chunks = concat (frame <$> fs) ++ tail ->
  foldl receive ([], new) chunks = (frame_result <$> fs, mkDecoder tail).
Proof. apply receive_framed. Qed.

(** ** Messages over the stream *)

Lemma encode_frame m : fits m -> encode m = frame (encode_body m).
Proof.
  unfold fits, encode, frame. destruct (encode_body m) as [tag body]. cbn [fst snd].
  intros Hf. unfold push_u8. rewrite <- app_assoc. f_equal.
  rewrite wrap_small; [done|]. pose proof (len_nonneg body). pose proof max_frame_val.
  unfold uint. change (2 ^ 32) with 4294967296. lia.
Qed.

Lemma fits_frame_ok m : fits m -> frame_ok (encode_body m).
Proof. unfold fits, frame_ok. lia. Qed.

Lemma encodes_frames ms :
  Forall fits ms -> encode <$> ms = frame <$> (encode_body <$> ms).
Proof. induction 1; cbn -[frame]; [done|]. by rewrite encode_frame, IHForall. Qed.

(** C1: the channel's contract.  Messages that fit a frame, encoded one after
    the other and cut into chunks in any way, arrive in order and complete,
    each as the sender gave it up to the documented clipping, and no byte is
    left pending. *)
Theorem receive_messages ms chunks :
  Forall msg_ok ms -> Forall fits ms -> concat chunks = concat (encode <$> ms) ->
  (foldl receive ([], new) chunks).1 = Ok ∘ clip_msg <$> ms /\
  pending (foldl receive ([], new) chunks).2 = 0.
Proof.
  intros Hok Hfit Hc.
  rewrite (receive_framed (encode_body <$> ms) []); [|by apply Forall_fmap, (Forall_impl fits);
    [|apply fits_frame_ok] | done | by rewrite app_nil_r, <- encodes_frames].
  split; [|done]. cbn [fst]. rewrite <- list_fmap_compose. apply list_fmap_ext.
  intros i m Hm. apply decode_encode_aux. by eapply Forall_lookup_1.
Qed.

(** A length field of zero or above [MAX_FRAME] is reported and clears
    the buffer, whatever follows it; it is the only case that does. *)
Theorem next_frame_length d n :
  (next_frame d).1 = Err (Length n) <->
  4 <= len (dbuf d) /\ n = frame_len (dbuf d) /\ (n = 0 \/ MAX_FRAME < n) /\
  next_frame d = (Err (Length n), new).
Proof.
  split; [|by intros (_ & _ & _ & ->)]. unfold next_frame.
  case_bool; [done|]. case_bool.
  - intros [= <-]. split_and!; [done|done| |done]. lia.
  - case_bool; [done|]. cbn [fst]. destruct (decode_body _ _) as [|e] eqn:E'; [done|].
    intros [= ->]. destruct (decide (1 <= default 0 (dbuf d !! 4%nat) <= 21)).
    + by apply decode_known_tag in E'.
    + by rewrite decode_unknown_tag in E'.
Qed.

(** C22: bounded buffering: once the loop has taken what there is, fewer bytes
    are pending than one frame of the largest size has. *)
Theorem pending_bounded st chunk :
  Forall u8 (dbuf st.2) -> Forall u8 chunk ->
  pending (receive st chunk).2 < 4 + MAX_FRAME.
Proof.
  intros Hd Hc. unfold receive, pending.
  assert (Hu : Forall u8 (dbuf (push st.2 chunk))) by by apply Forall_app.
  destruct (drain_enough (push st.2 chunk) (drain_fuel (push st.2 chunk)) Hu
              ltac:(unfold drain_fuel; lia)) as [_ Hi].
  destruct (drain _ _) as [rs d]. cbn [snd] in *. apply incomplete_iff in Hi.
  pose proof max_frame_val. lia.
Qed.

(** ** Frames over the limit *)

Lemma next_frame_oversize m rest :
  MAX_FRAME <= len (encode_body m).2 < 2 ^ 32 - 1 ->
  next_frame (mkDecoder (encode m ++ rest)) = (Err (Length (1 + len (encode_body m).2)), new).
Proof.
  intros Hs. unfold encode. destruct (encode_body m) as [tag body]. cbn [fst snd] in *.
  assert (Hw : wrap 32 (1 + len body) = 1 + len body).
  { apply wrap_small. unfold uint. pose proof (len_nonneg body). lia. }
  rewrite Hw. unfold push_u8. rewrite <- !app_assoc.
  assert (Hl : frame_len (to_le_bytes 4 (1 + len body) ++ [tag] ++ body ++ rest) = 1 + len body).
  { unfold frame_len. rewrite take_app_le, take_ge by (rewrite length_to_le_bytes; lia).
    by rewrite from_to_le_bytes. }
  unfold next_frame. cbn [dbuf]. rewrite Hl. pose proof max_frame_val.
  pose proof (len_nonneg ([tag] ++ body ++ rest)).
  case_bool; [|case_bool; [done|lia]].
  rewrite len_app in E. unfold len in E at 1. rewrite length_to_le_bytes in E. lia.
Qed.

(** An argument of [MAX_STRING] bytes and an argument vector of seventeen. *)
Definition long_arg : str := repeat 97 (Z.to_nat MAX_STRING).
Definition long_exec : Msg := Exec (replicate 17 long_arg) [] None.

Lemma ascii_ok n : str_ok (repeat 97 n).
Proof. unfold str_ok. by induction n. Qed.

Lemma len_long_arg : len long_arg = MAX_STRING.
Proof. unfold len, long_arg. rewrite repeat_length. by rewrite Z2Nat.id. Qed.

Lemma clip_long_arg : clip_str long_arg = long_arg.
Proof. apply clip_small. by rewrite len_long_arg. Qed.

Lemma len_put_long : len (put_str [] long_arg) = 65537.
Proof.
  rewrite put_str_wire, clip_long_arg, len_app, len_long_arg.
  unfold len. by rewrite length_to_le_bytes.
Qed.

Lemma len_long_exec : len (encode_body long_exec).2 = 1114135.
Proof.
  unfold long_exec. rewrite exec_wire. unfold wire_list at 1. rewrite clip_list_small by done.
  rewrite fmap_replicate. cbn [replicate concat]. rewrite !len_app, len_put_long.
  unfold put_u16. rewrite len_app. unfold len. rewrite length_to_le_bytes. done.
Qed.

(** The wire limits do not bound the frame.  An [Exec] all of whose
    strings and lists are within [MAX_STRING] and [MAX_LIST], which the
    encoder therefore does not clip, can exceed [MAX_FRAME], and the
    receiver rejects it with [Length] and drops its buffer. *)
Theorem unclipped_rejected :
  msg_ok long_exec /\ clip_msg long_exec = long_exec /\ ~ fits long_exec /\
  forall rest, next_frame (push new (encode long_exec ++ rest)) = (Err (Length 1114136), new).
Proof.
  split; [|split; [|split]].
  - split; [|done]. apply Forall_replicate, ascii_ok.
  - unfold long_exec. cbn [clip_msg clip_cwd]. rewrite clip_list_small by done.
    by rewrite fmap_replicate, clip_long_arg.
  - unfold fits. rewrite len_long_exec. pose proof max_frame_val. lia.
  - intros rest. unfold push, new. cbn [dbuf app]. rewrite next_frame_oversize; rewrite len_long_exec;
      [done|]. pose proof max_frame_val. lia.
Qed.

(** ** Concrete instances *)

Lemma drain_done_witness :
  drain 20 (push new [1; 0; 0; 0; 14; 1; 0; 0; 0; 99; 9; 0]) =
    ([Ok Ping; Err (Tag 99)], mkDecoder [9; 0]) /\
  incomplete (dbuf (drain 20 (push new [1; 0; 0; 0; 14; 1; 0; 0; 0; 99; 9; 0])).2).
Proof.
  split; [reflexivity|].
  exact (proj2 (drain_done (push new [1; 0; 0; 0; 14; 1; 0; 0; 0; 99; 9; 0]) 20
                  ltac:(concrete) ltac:(cbn; lia))).
Defined.

(** A frame with a body cut short costs itself; its neighbours arrive. *)
Lemma receive_frames_witness :
  foldl receive ([], new) [[1; 0; 0]; [0; 14; 2; 0; 0; 0; 6]; [7; 1; 0; 0; 0; 16; 5]] =
  ([Ok Ping; Err Malformed; Ok Sensors], mkDecoder [5]).
Proof.
  apply (receive_frames [(14, []); (6, [7]); (16, [])] [5]); [|reflexivity|reflexivity].
  repeat constructor; vm_compute; discriminate.
Defined.

Lemma receive_messages_witness :
  (foldl receive ([], new) (list_fmap _ _ (fun b => [b]) (encode sample_exec ++ encode (Exit (-1))))).1
    = [Ok (clip_msg sample_exec); Ok (Exit (-1))].
Proof.
  refine (proj1 (receive_messages [sample_exec; Exit (-1)] _ _ _ _)); [concrete| |vm_compute; reflexivity].
  repeat constructor; vm_compute; reflexivity.
Defined.

Lemma pending_bounded_witness :
  pending (receive ([], new) [255; 255; 15; 0; 1]).2 < 4 + MAX_FRAME.
Proof. apply pending_bounded; concrete. Defined.
