(* ===== verification/AgentClient.v ===== *)
(** The client of the card agent (host/crates/phi-rpc/tests/agent.rs): the
    harness that drives the agent over a socket, [Agent::recv] with its reads
    and [Agent::session] with its end, [streams] and [ping].  The agent at
    the other end is a program in assembly; what it sends is an argument.
    The client is a queue of the frames it was sent, however the socket cuts
    them; a frame that does not decode and an end of the stream are panics. *)

From S2P Require Import Prelude Bytes Utf8 RpcMsg RpcEncode RpcDecode RpcStream.

Local Open Scope Z_scope.
Local Open Scope phi_scope.

(** ** The client *)

(** The socket, as the bytes each [read] to come will give (an empty read is
    the end of the stream, no read left a timeout), the bytes written to it,
    and the decoder.  The child process and its log are the operating
    system's. *)
Record Agent := mkAgent { sock : list (list Z); sent : list Z; dec : Decoder }.

(** [Agent::send] and [Agent::send_raw]. *)
Definition send_raw (a : Agent) (b : list Z) : Agent := mkAgent (sock a) (sent a ++ b) (dec a).
Definition send (a : Agent) (m : Msg) : Agent := send_raw a (encode m).

(** The loop of [Agent::recv]; a panic is [None]. *)
Fixpoint recv_loop (reads : list (list Z)) (d : Decoder) : option (Msg * list (list Z) * Decoder) :=
  match next_frame d with
  | (Err _, _) => None
  | (Ok (Some m), d) => Some (m, reads, d)
  | (Ok None, d) =>
      match reads with
      | [] => None
      | buf :: reads => if 0 <? len buf then recv_loop reads (push d buf) else None
      end
  end.

Definition recv (a : Agent) : option (Msg * Agent) :=
  '(m, reads, d) ← recv_loop (sock a) (dec a); Some (m, mkAgent reads (sent a) d).

(** [matches!(m, Msg::Exit(_) | Msg::Error(_) | Msg::GetEnd { .. })]. *)
Definition ends_session (m : Msg) : bool :=
  match m with Exit _ | Error _ | GetEnd _ => true | _ => false end.

(** The loop of [Agent::session], for at most [fuel] messages. *)
Fixpoint session (fuel : nat) (a : Agent) : option (list Msg * Agent) :=
  match fuel with
  | O => None
  | S fuel =>
      '(m, a) ← recv a;
      if ends_session m then Some ([m], a)
      else '(v, a) ← session fuel a; Some (m :: v, a)
  end.

(** [streams]: standard output, standard error and the final frame. *)
Definition streams_step (s : list Z * list Z * option Msg) (m : Msg) : list Z * list Z * option Msg :=
  let '(out, err, last) := s in
  match m with
  | Stdout d => (out ++ d, err, last)
  | Stderr d => (out, err ++ d, last)
  | other => (out, err, Some other)
  end.

Definition streams (frames : list Msg) : option (list Z * list Z * Msg) :=
  let '(out, err, last) := foldl streams_step ([], [], None) frames in
  m ← last; Some (out, err, m).

(** [Agent::ping]: the agent's version is the one expected; anything else is
    a failed assertion. *)
Definition pong : Msg := Pong [48; 46; 50; 46; 48].

Definition ping (a : Agent) : option Agent :=
  '(m, a) ← recv (send a Ping);
  if bool_decide (m = pong) then Some a else None.

(** ** The queue it is *)

(** What is still to come is these frames, each within [MAX_FRAME], and the
    beginning of one more; every read gives at least a byte. *)
Record pends (a : Agent) (fs : list (Z * list Z)) (tail : list Z) : Prop := {
  pends_reads : Forall (fun buf => 0 < len buf) (sock a);
  pends_frames : Forall frame_ok fs;
  pends_tail : incomplete tail;
  pends_bytes : dbuf (dec a) ++ concat (sock a) = concat (frame <$> fs) ++ tail
}.

(** What ends a session: the exit status of a command, an error, the end of a
    file that was read. *)
Definition final (m : Msg) : Prop :=
  (exists code, m = Exit code) \/ (exists text, m = Error text) \/ (exists size, m = GetEnd size).

#[export] Instance final_dec m : Decision (final m).
Proof.
  refine (match m with Exit _ | Error _ | GetEnd _ => left _ | _ => right _ end);
    abstract (unfold final; naive_solver).
Defined.

Lemma ends_session_final m : ends_session m = bool_decide (final m).
Proof. by destruct m. Qed.

(** A session of the queue: the messages up to the first that ends it, and
    the results that stay. *)
Fixpoint session_spec (rs : list (result DecodeError Msg))
  : option (list Msg * list (result DecodeError Msg)) :=
  match rs with
  | [] | Err _ :: _ => None
  | Ok m :: rs =>
      if decide (final m) then Some ([m], rs)
      else '(v, rs) ← session_spec rs; Some (m :: v, rs)
  end.

Lemma recv_loop_empty reads b :
  Forall (fun buf => 0 < len buf) reads -> incomplete (b ++ concat reads) -> recv_loop reads (mkDecoder b) = None.
Proof.
  intros Hr. revert b. induction Hr as [|buf reads Hb Hr IH]; intros b Hi; cbn [recv_loop];
    rewrite (incomplete_prefix _ _ Hi); [done|].
  rewrite (proj2 (Z.ltb_lt _ _) Hb). apply IH. cbn [dbuf push]. by rewrite <- app_assoc.
Qed.

(** The first frame, whatever the reads are. *)
Lemma recv_loop_frame reads b f rest :
  Forall (fun buf => 0 < len buf) reads -> frame_ok f -> b ++ concat reads = frame f ++ rest ->
  match frame_result f with
  | Err _ => recv_loop reads (mkDecoder b) = None
  | Ok m => exists reads' b', recv_loop reads (mkDecoder b) = Some (m, reads', mkDecoder b') /\
      Forall (fun buf => 0 < len buf) reads' /\ b' ++ concat reads' = rest
  end.
Proof.
  intros Hr Hf. revert b. induction Hr as [|buf reads Hb Hr IH]; intros b He.
  - cbn [concat] in He. rewrite app_nil_r in He. subst b. cbn [recv_loop].
    rewrite next_frame_frame by done. destruct (frame_result f); [|done].
    exists [], rest. by rewrite app_nil_r.
  - cbn [recv_loop]. apply app_eq_inv in He as [(k & -> & Hk)|(k & Hk & Hrest)].
    + rewrite next_frame_frame by done. destruct (frame_result f); [|done].
      exists (buf :: reads), k. by split_and!; [|constructor|].
    + destruct (decide (k = [])) as [->|Hne].
      * rewrite app_nil_r in Hk. rewrite <- Hk, <- (app_nil_r (frame f)), next_frame_frame by done.
        destruct (frame_result f); [|done]. exists (buf :: reads), [].
        split_and!; [done|by constructor|done].
      * rewrite (incomplete_frame_prefix f b k Hf Hk Hne), (proj2 (Z.ltb_lt _ _) Hb).
        apply IH. cbn [dbuf push]. rewrite <- app_assoc. cbn [concat] in Hrest. by rewrite Hrest, app_assoc, <- Hk.
Qed.

(** [recv] takes the first frame of the queue. *)
Lemma recv_pops a fs tail :
  pends a fs tail ->
  match frame_result <$> fs with
  | Ok m :: _ => exists a', recv a = Some (m, a') /\ sent a' = sent a /\ pends a' (drop 1 fs) tail
  | _ => recv a = None
  end.
Proof.
  intros [Hr Hf Ht Hb]. unfold recv. destruct a as [reads s [b]]. cbn [sock dec dbuf sent] in *.
  destruct Hf as [|f fs Hf Hfs]; cbn [fmap list_fmap].
  - rewrite recv_loop_empty; [done..|]. by rewrite Hb.
  - cbn [fmap list_fmap concat] in Hb. rewrite <- app_assoc in Hb.
    pose proof (recv_loop_frame reads b f _ Hr Hf Hb) as Hrecv.
    destruct (frame_result f) as [m|e]; [|by rewrite Hrecv].
    destruct Hrecv as (reads' & b' & -> & Hr' & Hb'). exists (mkAgent reads' s (mkDecoder b')). by split_and!.
Qed.

Lemma session_queue fuel a fs tail :
  pends a fs tail -> (length fs < fuel)%nat ->
  match session_spec (frame_result <$> fs) with
  | None => session fuel a = None
  | Some (v, rs) => exists a' fs', session fuel a = Some (v, a') /\ sent a' = sent a /\
      pends a' fs' tail /\ frame_result <$> fs' = rs
  end.
Proof.
  revert a fs. induction fuel as [|fuel IH]; intros a fs Hp Hl; [lia|].
  pose proof (recv_pops a fs tail Hp) as Hrecv. cbn [session].
  destruct fs as [|f fs]; cbn [fmap list_fmap session_spec] in *; [by rewrite Hrecv|].
  destruct (frame_result f) as [m|e]; [|by rewrite Hrecv]. destruct Hrecv as (a1 & -> & Hs1 & Hp1).
  cbn [mbind option_bind drop] in *. rewrite ends_session_final, (bool_decide_decide (final m)).
  destruct (decide (final m)); [by exists a1, fs|].
  specialize (IH a1 fs Hp1 ltac:(cbn in Hl; lia)).
  fold (frame_result <$> fs). destruct (session_spec (frame_result <$> fs)) as [[v rs]|]; cbn [mbind option_bind].
  - destruct IH as (a' & fs' & -> & Hs' & Hp' & Hrs). exists a', fs'. by rewrite Hs', Hs1.
  - by rewrite IH.
Qed.

(** C15: the client is a queue.  Whatever frames the agent sent, and however the
    socket cuts their bytes, [session] takes exactly the messages up to and
    including the first [Exit], [Error] or [GetEnd] and leaves the rest for
    the next session; it panics exactly when a frame before that does not
    decode or the stream ends first.  The fuel is the number of frames. *)
Theorem session_refines fuel a fs tail :
  pends a fs tail -> (length fs < fuel)%nat ->
  match session_spec (frame_result <$> fs) with
  | None => session fuel a = None
  | Some (v, rs) => exists a' fs', session fuel a = Some (v, a') /\ sent a' = sent a /\
      pends a' fs' tail /\ frame_result <$> fs' = rs
  end.
Proof. apply session_queue. Qed.

(** ** The output of a command *)

(** What a relay sends before the end of the session. *)
Definition is_output (m : Msg) : bool := match m with Stdout _ | Stderr _ => true | _ => false end.
Definition out_bytes (m : Msg) : list Z := match m with Stdout d => d | _ => [] end.
Definition err_bytes (m : Msg) : list Z := match m with Stderr d => d | _ => [] end.

Lemma session_spec_outputs ms e rest :
  forallb is_output ms = true -> final e ->
  session_spec ((Ok <$> ms) ++ Ok e :: rest) = Some (ms ++ [e], rest).
Proof.
  intros Hms He. induction ms as [|m ms IH]; cbn [fmap list_fmap app session_spec].
  { by rewrite decide_True by done. }
  cbn [forallb] in Hms. apply andb_true_iff in Hms as [Hm Hms].
  fold (Ok (E:=DecodeError) <$> ms). rewrite (IH Hms), decide_False; [done|]. destruct m; try discriminate Hm; unfold final; naive_solver.
Qed.

Lemma streams_outputs ms out err last :
  forallb is_output ms = true ->
  foldl streams_step (out, err, last) ms =
  (out ++ concat (out_bytes <$> ms), err ++ concat (err_bytes <$> ms), last).
Proof.
  revert out err. induction ms as [|m ms IH]; intros out err Hms; cbn [foldl fmap list_fmap concat].
  - by rewrite !app_nil_r.
  - cbn [forallb] in Hms. apply andb_true_iff in Hms as [Hm Hms].
    fold (out_bytes <$> ms) (err_bytes <$> ms).
    destruct m; try discriminate Hm; cbn [streams_step out_bytes err_bytes app]; rewrite (IH _ _ Hms);
      by rewrite ?app_assoc.
Qed.

Lemma output_clip m : is_output m = true -> clip_msg m = m.
Proof. by destruct m. Qed.

(** A command's output arrives: when the agent relays standard output and
    standard error in pieces, interleaved in any way, and ends with the exit
    status, [streams] of the session is each stream's bytes in order and the
    status, and the client is ready for the next session. *)
Theorem output_relayed a ms code :
  Forall msg_ok (ms ++ [Exit code]) -> Forall fits (ms ++ [Exit code]) -> forallb is_output ms = true ->
  Forall (fun buf => 0 < len buf) (sock a) ->
  dbuf (dec a) ++ concat (sock a) = concat (encode <$> ms ++ [Exit code]) ->
  exists v a', session (S (S (length ms))) a = Some (v, a') /\ pends a' [] [] /\
    streams v = Some (concat (out_bytes <$> ms), concat (err_bytes <$> ms), Exit code).
Proof.
  intros Hok Hfit Hout Hr Hb.
  assert (pends a (encode_body <$> ms ++ [Exit code]) []) as Hp.
  { split; [done| |done|by rewrite app_nil_r, Hb, encodes_frames].
    apply Forall_fmap, (Forall_impl fits); [done|apply fits_frame_ok]. }
  assert (frame_result <$> (encode_body <$> ms ++ [Exit code]) = (Ok <$> ms) ++ [Ok (Exit code)]) as Hres.
  { apply Forall_app in Hok as [Hok He]. rewrite Forall_singleton in He.
    rewrite !fmap_app. f_equal; [|exact (f_equal (fun r => [r]) (decode_encode_aux (Exit code) He))].
    rewrite <- list_fmap_compose.
    apply list_fmap_ext. intros i m Hm. unfold compose, frame_result.
    rewrite decode_encode_aux by (by eapply Forall_lookup_1). f_equal. apply output_clip.
    rewrite forallb_forall in Hout. apply Hout, list_elem_of_In. by apply list_elem_of_lookup_2 in Hm. }
  pose proof (session_queue (S (S (length ms))) a _ [] Hp) as Hs.
  rewrite Hres, (session_spec_outputs ms (Exit code) [] Hout (or_introl (ex_intro _ code eq_refl))) in Hs.
  destruct Hs as (a' & fs' & Hs & _ & Hp' & Hfs'); [rewrite length_fmap, length_app; cbn; lia|].
  apply fmap_nil_inv in Hfs' as ->. exists (ms ++ [Exit code]), a'. split; [done|]. split; [done|].
  unfold streams. rewrite foldl_app, streams_outputs by done. reflexivity.
Qed.

(** [ping] answered. *)
Theorem ping_answered a fs tail :
  frame_result <$> take 1 fs = [Ok pong] -> pends a fs tail ->
  exists a', ping a = Some a' /\ sent a' = sent a ++ encode Ping /\ pends a' (drop 1 fs) tail.
Proof.
  intros Hf Hp. assert (pends (send a Ping) fs tail) as Hp' by (by destruct Hp; split).
  pose proof (recv_pops (send a Ping) fs tail Hp') as Hrecv. unfold ping.
  destruct fs as [|f fs]; [done|]. cbn [fmap list_fmap take] in Hf, Hrecv. injection Hf as Hf.
  rewrite Hf in Hrecv. destruct Hrecv as (a' & -> & Hs & Hpa). cbn [mbind option_bind].
  rewrite bool_decide_true by done. by exists a'.
Qed.

(** ** Concrete instances *)

(** [echo out; echo err >&2; exit 3], cut in the middle of both frames, with
    the answer to a ping behind it. *)
Definition relayed : Agent :=
  mkAgent [[5; 0]; [0; 0; 4; 111; 117; 116; 10; 5; 0; 0; 0; 5]; [101; 114; 114; 10; 5]; [0; 0; 0; 6; 3; 0; 0; 0; 8; 0; 0; 0; 15]]
    [] new.

Lemma session_refines_witness :
  exists a', session 4 relayed = Some ([Stdout [111; 117; 116; 10]; Stderr [101; 114; 114; 10]; Exit 3], a') /\
    pends a' [] [8; 0; 0; 0; 15].
Proof.
  pose proof (session_refines 4 relayed [(4, [111; 117; 116; 10]); (5, [101; 114; 114; 10]); (6, [3; 0; 0; 0])]
    [8; 0; 0; 0; 15]) as Hs.
  destruct Hs as (a' & fs' & Hs & _ & Hp & Hf).
  - split; [repeat constructor|repeat constructor; vm_compute; discriminate|reflexivity|reflexivity].
  - cbn. lia.
  - apply fmap_nil_inv in Hf as ->. by exists a'.
Defined.

Lemma output_relayed_witness :
  exists v a', session 4 (mkAgent [encode (Stdout [111; 117; 116; 10]); encode (Stderr [101; 114; 114; 10]) ++ encode (Exit 3)] [] new)
      = Some (v, a') /\ streams v = Some ([111; 117; 116; 10], [101; 114; 114; 10], Exit 3).
Proof.
  destruct (output_relayed
    (mkAgent [encode (Stdout [111; 117; 116; 10]); encode (Stderr [101; 114; 114; 10]) ++ encode (Exit 3)] [] new)
    [Stdout [111; 117; 116; 10]; Stderr [101; 114; 114; 10]] 3) as (v & a' & Hs & _ & Hst).
  - concrete.
  - repeat constructor; vm_compute; reflexivity.
  - reflexivity.
  - repeat constructor.
  - reflexivity.
  - exists v, a'. split; [exact Hs|exact Hst].
Defined.

Lemma ping_answered_witness :
  exists a', ping (mkAgent [[8; 0; 0; 0]; [15; 5; 0]; [48; 46; 50; 46; 48]] [] new) = Some a' /\ sent a' = encode Ping.
Proof.
  destruct (ping_answered (mkAgent [[8; 0; 0; 0]; [15; 5; 0]; [48; 46; 50; 46; 48]] [] new)
    [(15, [5; 0; 48; 46; 50; 46; 48])] []) as (a' & Hp & Hs & _).
  - reflexivity.
  - split; [repeat constructor| |reflexivity|reflexivity]. repeat constructor; vm_compute; discriminate.
  - exists a'. split; [exact Hp|exact Hs].
Defined.
