(* ===== verification/RpcTests.v ===== *)
(** The unit tests of the protocol crate (the [tests] module of
    host/crates/phi-rpc/src/lib.rs) on the model: one message of every kind,
    the hand-built bad frames, and the inputs at the wire limits.  Each test
    is a definition, what the test asserts; the small ones are evaluated, the
    ones at the limits (a frame of a mebibyte, lists of 65535 items) follow
    from the lemmas of [RpcDecode] and [RpcStream]. *)

From S2P Require Import Prelude Bytes Utf8 RpcMsg RpcEncode RpcDecode RpcStream.

Local Open Scope Z_scope.

(** An ASCII string literal. *)
Definition ascii_str (s : string) : str :=
  (fun c => Z.of_N (Ascii.N_of_ascii c)) <$> String.list_ascii_of_string s.

(** ** The tests' helpers *)

(** [frame]: a frame built by hand, so that it can be wrong. *)
Definition raw_frame (n tag : Z) (body : list Z) : list Z := to_le_bytes 4 n ++ tag :: body.

(** [decode_all]: everything a fresh decoder makes of the bytes. *)
Definition decode_all (bytes : list Z) : list (result DecodeError Msg) :=
  let d := push new bytes in (drain (drain_fuel d) d).1.

Definition sample_stat : Stat :=
  mkStat 123456
    ((fun i => mkCpuStat (wrap 16 (i / 4)) (i * 7) (1000000 - i)) <$> seqZ 0 228)
    (mkMemStat 5805088 5424336 8612 18808 4194300 4194300)
    (133, 39, 14) 2 1507
    [54; 53; 50; 46; 51; 46; 51; -1; -1; -1; -1; -1; -1; 0; -1] 66 1100 1100
    [mkDevStat (ascii_str "phiblk0") (1 ≪ 40) 512]
    [mkDevStat (ascii_str "phi0") 866 0]
    [mkProcStat 1 83 false 145 556 1 (ascii_str "init");
     mkProcStat 12 82 true 3 0 1 (ascii_str "ksoftirqd/1")]
    1507 1490.

Definition every_message : list Msg :=
  [Exec [ascii_str "/bin/sh"; ascii_str "-c"; ascii_str "echo hi"]
     [(ascii_str "PATH", ascii_str "/bin")] (Some (ascii_str "/tmp"));
   Exec [] [] None;
   Stdin (ascii_str "abc");
   StdinEof;
   Stdout [0; 255; 7];
   Stderr [];
   Exit (-1);
   PutOpen (ascii_str "/opt/x") 493;
   PutData (replicate 1000 1);
   PutClose;
   Get (ascii_str "/etc/passwd");
   GetData (replicate 10 2);
   GetEnd (1 ≪ 40);
   Error (ascii_str "no such file");
   Ping;
   Pong (ascii_str "0.1");
   Sensors;
   SensorsReply (ascii_str "die temperatures: 54 C" ++ [10]);
   StatReq;
   StatReply sample_stat;
   TrafficReq;
   TrafficReply (mkTraffic 1 2 3 (2 ^ 64 - 1) 4 5)].

(** Rust's [chunks]: pieces of [n] bytes, the last may be shorter. *)
Fixpoint chunks_fuel (fuel n : nat) (l : list Z) : list (list Z) :=
  match fuel, l with
  | S fuel, _ :: _ => take n l :: chunks_fuel fuel n (drop n l)
  | _, _ => []
  end.
Definition chunks (n : nat) (l : list Z) : list (list Z) := chunks_fuel (length l) n l.

(** ** The tests *)

Definition round_trip_every_message : Prop :=
  let stream := foldl (fun s m => s ++ encode m) [] every_message in
  Forall (fun n => foldl receive ([], new) (chunks n stream) = (Ok <$> every_message, new))
    [1; 5; 7; 4096]%nat.

(** The tags and names, in the order of the messages. *)
Definition expected_tags : list (Z * string) :=
  [(1, "Exec"); (2, "Stdin"); (3, "StdinEof"); (4, "Stdout"); (5, "Stderr"); (6, "Exit");
   (7, "PutOpen"); (8, "PutData"); (9, "PutClose"); (10, "Get"); (11, "GetData");
   (12, "GetEnd"); (13, "Error"); (14, "Ping"); (15, "Pong"); (16, "Sensors");
   (17, "SensorsReply"); (18, "Stat"); (19, "StatReply"); (20, "Traffic");
   (21, "TrafficReply")]%string.

Definition tags_are_stable : Prop :=
  let msgs := delete 1%nat every_message in
  length msgs = length expected_tags /\
  Forall2 (fun m e => encode m !! 4%nat = Some e.1 /\ name m = e.2) msgs expected_tags.

Definition rejects_bad_frames : Prop :=
  (next_frame (push new [0; 0; 0; 0])).1 = Err (Length 0) /\
  (next_frame (push new [1; 0; 0; 0; 200])).1 = Err (Tag 200) /\
  (next_frame (push new [2; 0; 0; 0; TAG_GET; 5])).1 = Err Malformed /\
  (next_frame (push new (raw_frame 4 TAG_ERROR [1; 0; 255]))).1 = Err Malformed.

Definition every_truncated_body_is_malformed : Prop :=
  Forall (fun m =>
    let full := encode m in
    let body := drop 5 full in
    forall cut, (cut < length body)%nat ->
    exists got,
      decode_all (raw_frame (1 + Z.of_nat cut) (default 0 (full !! 4%nat)) (take cut body)) = [got] /\
      if is_bytes m then exists m', got = Ok m' else got = Err Malformed) every_message.

Definition trailing_bytes_are_ignored : Prop :=
  let f := encode (Exit 3) ++ [9; 9; 9] in
  decode_all (alter (fun b => b + 3) 0%nat f) = [Ok (Exit 3)].

Definition bad_frame_keeps_sync_and_bad_length_resets : Prop :=
  decode_all (encode Ping ++ raw_frame 3 200 [1; 2] ++ encode (Exit 1) ++ raw_frame 2 TAG_GET [5]
              ++ encode StdinEof)
    = [Ok Ping; Err (Tag 200); Ok (Exit 1); Err Malformed; Ok StdinEof] /\
  let d := push new (raw_frame (2 ^ 32 - 1) TAG_PING [] ++ encode Ping) in
  let '(r1, d) := next_frame d in
  let '(r2, d2) := next_frame d in
  r1 = Err (Length (2 ^ 32 - 1)) /\ pending d = 0 /\ r2 = Ok None /\
  (next_frame (push d2 (encode (Exit 0)))).1 = Ok (Some (Exit 0)).

Definition frame_at_the_limit : Prop :=
  let m := Stdin (replicate (Z.to_nat (MAX_FRAME - 1)) 171) in
  let f := encode m in
  len f = 4 + MAX_FRAME /\ frame_len f = MAX_FRAME /\
  (let r := next_frame (push new (take 1000 f)) in
   r.1 = Ok None /\ (next_frame (push r.2 (drop 1000 f))).1 = Ok (Some m)) /\
  (next_frame (push new (to_le_bytes 4 (MAX_FRAME + 1)))).1 = Err (Length (MAX_FRAME + 1)).

(** The texts of the test: [a]s, with a two-byte e acute. *)
Definition a_text (n : Z) : str := replicate (Z.to_nat n) 97.
Definition e_acute : str := [195; 169].

(** [(i % 10).to_string()]: one digit. *)
Definition digit_args : list str := (fun i => [48 + i mod 10]) <$> seqZ 0 (MAX_LIST + 1).

Definition strings_and_lists_are_clipped_at_their_limits : Prop :=
  decode_all (encode (Error (a_text MAX_STRING))) = [Ok (Error (a_text MAX_STRING))] /\
  len (a_text (MAX_STRING - 1) ++ e_acute) = MAX_STRING + 1 /\
  decode_all (encode (Error (a_text (MAX_STRING - 1) ++ e_acute)))
    = [Ok (Error (a_text (MAX_STRING - 1)))] /\
  clip ([104] ++ e_acute ++ [108; 108; 111]) 2 = [104] /\
  clip ([104] ++ e_acute ++ [108; 108; 111]) 3 = [104] ++ e_acute /\
  clip [] 0 = [] /\
  exists env cwd, head (decode_all (encode (Exec digit_args [] None)))
    = Some (Ok (Exec (take (Z.to_nat MAX_LIST) digit_args) env cwd)).

Definition empty_cwd_is_none : Prop :=
  exists argv env, head (decode_all (encode (Exec [ascii_str "x"] [] (Some []))))
    = Some (Ok (Exec argv env None)).

(** [sample_stat] with more processors and temperatures than a list holds. *)
Definition long_stat : Stat :=
  let s := sample_stat in
  mkStat (uptime_ms s)
    ((fun i => mkCpuStat (wrap 16 (i / 4)) i 0) <$> seqZ 0 (MAX_LIST + 5))
    (mem s) (load s) (running s) (tasks s) (replicate (Z.to_nat (MAX_LIST + 1)) (-1))
    (temp_peak s) (vcore_mv s) (core_mhz s) (disks s) (nets s) (procs s) (nprocs s) (nkthreads s).

Definition stat_lists_at_their_limits : Prop :=
  exists got, head (decode_all (encode (StatReply long_stat))) = Some (Ok (StatReply got)) /\
    len (cpus got) = MAX_LIST /\
    busy <$> (cpus got !! Z.to_nat (MAX_LIST - 1)) = Some (MAX_LIST - 1) /\
    len (temps got) = MAX_LIST /\ nprocs got = 1507 /\ len (procs got) = 2.

(** ** Lemmas *)

Lemma concat_chunks n l : (0 < n)%nat -> concat (chunks n l) = l.
Proof.
  intros Hn. unfold chunks.
  assert (H : forall fuel l, (length l <= fuel)%nat -> concat (chunks_fuel fuel n l) = l).
  { clear l. intros fuel. induction fuel as [|fuel IH]; intros [|x l] Hl; cbn in *; [done|lia|done|].
    rewrite IH; [apply (take_drop n (x :: l))|].
    rewrite length_drop. cbn. lia. }
  by apply H.
Qed.

Lemma foldl_encode ms : foldl (fun s m => s ++ encode m) [] ms = concat (encode <$> ms).
Proof.
  change (concat (encode <$> ms)) with ([] ++ concat (encode <$> ms)). generalize (@nil Z).
  induction ms as [|m ms IH]; intros s; cbn -[encode]; [by rewrite app_nil_r|].
  by rewrite IH, app_assoc.
Qed.

Lemma raw_frame_frame tag body : raw_frame (1 + len body) tag body = frame (tag, body).
Proof. done. Qed.

(** A fresh decoder, given frames, makes of them what they decode to. *)
Lemma decode_all_frames fs :
  Forall frame_ok fs -> decode_all (concat (frame <$> fs)) = frame_result <$> fs.
Proof.
  intros Hf. unfold decode_all, push, new, drain_fuel. cbn [dbuf app].
  pose proof (drain_frames fs [] (S (length (concat (frame <$> fs)))) Hf incomplete_nil) as Hd.
  rewrite app_nil_r in Hd. rewrite Hd; [done|]. pose proof (length_frames fs). lia.
Qed.

Lemma decode_all_frame f : frame_ok f -> decode_all (frame f) = [frame_result f].
Proof.
  intros Hf. pose proof (decode_all_frames [f] ltac:(by constructor)) as H.
  cbn -[frame frame_result decode_all] in H. by rewrite app_nil_r in H.
Qed.

Lemma decode_all_encode m : msg_ok m -> fits m -> decode_all (encode m) = [Ok (clip_msg m)].
Proof.
  intros Hm Hf. rewrite encode_frame by done. rewrite decode_all_frame by by apply fits_frame_ok.
  unfold frame_result. by rewrite decode_encode_aux.
Qed.

Lemma every_message_ok : Forall (fun m => msg_ok m /\ fits m /\ clip_msg m = m) every_message.
Proof. concrete. Qed.

(** Bodies of the tests at the limits: their sizes on the wire. *)
Lemma len_concat_const {A} (f : A -> list Z) n l :
  (forall a, a ∈ l -> len (f a) = n) -> len (concat (f <$> l)) = n * len l.
Proof.
  induction l as [|a l IH]; intros Hf; cbn; [unfold len; cbn; lia|].
  rewrite len_app, len_cons, IH, Hf by set_solver. lia.
Qed.

Lemma len_wire_list {A} (put : list Z -> A -> list Z) n l :
  (forall a, a ∈ clip_list l -> len (put [] a) = n) ->
  len (wire_list put l) = 2 + n * Z.min (len l) MAX_LIST.
Proof. intros Hf. unfold wire_list. by rewrite len_app, (len_concat_const _ n), len_clip_list. Qed.

Lemma len_wire_nil {A} (put : list Z -> A -> list Z) : len (wire_list put []) = 2.
Proof. unfold wire_list. by rewrite clip_list_small. Qed.

Lemma elem_of_clip_list {A} (a : A) l : a ∈ clip_list l -> a ∈ l.
Proof. apply subseteq_take. Qed.

Lemma len_a_text n : 0 <= n -> len (a_text n) = n.
Proof. intros. unfold len, a_text. rewrite length_replicate. lia. Qed.

Lemma a_text_ok n : str_ok (a_text n).
Proof. unfold str_ok, a_text. by induction (Z.to_nat n). Qed.

Lemma a_text_app_ok n s : str_ok s -> str_ok (a_text n ++ s).
Proof. unfold str_ok, a_text. intros Hs. by induction (Z.to_nat n). Qed.

Lemma error_fits s : fits (Error s).
Proof.
  unfold fits. cbn [encode_body snd]. rewrite put_str_wire, len_app.
  pose proof (clip_str_len s). unfold len at 1. rewrite length_to_le_bytes.
  pose proof max_frame_val. unfold MAX_STRING in *. lia.
Qed.

Lemma len_seqZ m n : 0 <= n -> len (seqZ m n) = n.
Proof. intros. unfold len. rewrite length_seqZ. lia. Qed.

Lemma len_fmap {A B} (f : A -> B) l : len (f <$> l) = len l.
Proof. unfold len. by rewrite length_fmap. Qed.

(** ** The tests pass *)

Lemma round_trip_every_message_passes : round_trip_every_message.
Proof.
  assert (Hs : foldl (fun s m => s ++ encode m) [] every_message
    = concat (frame <$> (encode_body <$> every_message)) ++ []).
  { rewrite app_nil_r, <- encodes_frames; [apply foldl_encode|].
    eapply Forall_impl; [apply every_message_ok|]. by intros m (_ & ? & _). }
  assert (Hr : frame_result <$> (encode_body <$> every_message) = Ok <$> every_message).
  { rewrite <- list_fmap_compose. apply list_fmap_ext. intros i m Hm.
    destruct (Forall_lookup_1 _ _ _ _ every_message_ok Hm) as (? & _ & He).
    trans (Ok (E:=DecodeError) (clip_msg m)); [by apply decode_encode_aux|cbn; by rewrite He]. }
  assert (Hf : Forall frame_ok (encode_body <$> every_message)).
  { apply Forall_fmap. eapply Forall_impl; [apply every_message_ok|].
    intros m (_ & ? & _). by apply fits_frame_ok. }
  unfold round_trip_every_message. cbv zeta. rewrite Hs, <- Hr. clear Hs Hr.
  revert Hf. generalize (encode_body <$> every_message). intros fs Hf.
  assert (Hn : forall n, (0 < n)%nat ->
    foldl receive ([], new) (chunks n (concat (frame <$> fs) ++ [])) = (frame_result <$> fs, new)).
  { intros n Hn. rewrite (receive_framed fs [] _ Hf incomplete_nil); [done|by apply concat_chunks]. }
  repeat (apply Forall_cons; split; [apply Hn; lia|]). apply Forall_nil_2.
Qed.

Lemma tags_are_stable_passes : tags_are_stable.
Proof. split; [reflexivity|]. repeat constructor. Qed.

Lemma rejects_bad_frames_passes : rejects_bad_frames.
Proof. repeat split. Qed.

Lemma encode_parts m :
  default 0 (encode m !! 4%nat) = (encode_body m).1 /\ drop 5 (encode m) = (encode_body m).2.
Proof. unfold encode. by destruct (encode_body m). Qed.

(** Any bytes are the body of a message that is raw bytes. *)
Lemma bytes_body_decodes m p : is_bytes m = true -> exists m', decode_body (encode_body m).1 p = Ok m'.
Proof.
  destruct m; try done; intros _; unfold decode_body, encode_body; cbn [fst];
    unfold r_msg; cbn -[r_rest]; unfold mbind, R_bind, r_rest; cbn; by eexists.
Qed.

Lemma every_truncated_body_is_malformed_passes : every_truncated_body_is_malformed.
Proof.
  eapply Forall_impl; [apply every_message_ok|]. intros m (Hm & Hf & _). cbv zeta.
  destruct (encode_parts m) as [-> ->]. intros cut Hc.
  assert (Hl : length (take cut (encode_body m).2) = cut) by (rewrite length_take; lia).
  exists (decode_body (encode_body m).1 (take cut (encode_body m).2)). split.
  - rewrite <- Hl at 1. fold (len (take cut (encode_body m).2)).
    rewrite raw_frame_frame, decode_all_frame; [done|].
    apply fits_frame_ok in Hf. unfold frame_ok, len in *. cbn [snd]. lia.
  - destruct (is_bytes m) eqn:Hb; [by apply bytes_body_decodes|].
    apply decode_truncated_aux; [done|done|apply prefix_take|].
    intros He. rewrite He in Hl. lia.
Qed.

Lemma trailing_bytes_are_ignored_passes : trailing_bytes_are_ignored.
Proof. reflexivity. Qed.

Lemma bad_frame_keeps_sync_passes : bad_frame_keeps_sync_and_bad_length_resets.
Proof. repeat split. Qed.

Lemma empty_cwd_is_none_passes : empty_cwd_is_none.
Proof. do 2 eexists. reflexivity. Qed.

(** A two-byte character that straddles the limit goes entirely. *)
Lemma clip_e_acute n : 0 <= n -> clip (a_text n ++ e_acute) (n + 1) = a_text n.
Proof.
  intros Hn. pose proof (len_a_text n Hn) as Hp. pose proof (a_text_ok n) as Hok.
  assert (Hpe : str_ok (a_text n ++ e_acute)) by by apply a_text_app_ok.
  destruct (clip_prefix (a_text n ++ e_acute) (n + 1)) as [r Hr].
  destruct (clip_longest _ (n + 1) _ Hpe ltac:(lia) Hok ltac:(by exists e_acute) ltac:(lia)) as [t Ht].
  pose proof (clip_len (a_text n ++ e_acute) (n + 1) ltac:(lia)) as Hl.
  pose proof (clip_valid _ (n + 1) Hpe ltac:(lia)) as Hv.
  rewrite Ht in *. rewrite <- app_assoc in Hr. apply app_inv_head in Hr. rewrite len_app in Hl.
  destruct t as [|x [|y t]]; [by rewrite app_nil_r| |rewrite !len_cons in Hl; pose proof (len_nonneg t); lia].
  exfalso. injection Hr as <- _. clear -Hv. revert Hv. unfold str_ok, a_text.
  by induction (Z.to_nat n).
Qed.

Lemma digit_args_digits : Forall (fun s => len s = 1 /\ str_ok s) digit_args.
Proof.
  unfold digit_args. apply Forall_fmap, Forall_true. intros i. cbn. split; [done|].
  pose proof (Z.mod_pos_bound i 10 ltac:(lia)).
  assert (i mod 10 ∈ seqZ 0 10) as Hd by (apply elem_of_seqZ; lia).
  revert Hd. generalize (i mod 10). apply Forall_forall. by repeat constructor.
Qed.

Lemma clip_digits l : Forall (fun s => len s = 1 /\ str_ok s) l -> clip_str <$> l = l.
Proof.
  induction 1 as [|s l [Hs _] _ IH]; cbn; [done|].
  rewrite IH. unfold clip_str. rewrite clip_small; [done|by rewrite Hs].
Qed.

Lemma max_list_val : MAX_LIST = 65535.
Proof. reflexivity. Qed.

Lemma digit_args_fit : fits (Exec digit_args [] None).
Proof.
  unfold fits. rewrite exec_wire, len_app, (len_wire_list _ 3).
  - assert (Ht : len (wire_list put_env [] ++ put_str [] (default [] (@None str))) = 4) .
    { rewrite len_app, len_wire_nil, put_str_wire. reflexivity. }
    rewrite Ht. generalize (len digit_args). intros n.
    rewrite max_list_val, max_frame_val. lia.
  - intros s Hs. pose proof digit_args_digits as Hd. rewrite Forall_forall in Hd.
    destruct (Hd s (elem_of_clip_list _ _ Hs)) as [Hl _].
    rewrite put_str_wire. unfold clip_str. rewrite clip_small by by rewrite Hl.
    rewrite len_app, Hl. unfold len. by rewrite length_to_le_bytes.
Qed.

Lemma decode_digit_args :
  decode_all (encode (Exec digit_args [] None)) = [Ok (Exec (take (Z.to_nat MAX_LIST) digit_args) [] None)].
Proof.
  rewrite decode_all_encode; [|split; [|by split]|apply digit_args_fit].
  - cbn [clip_msg clip_cwd]. unfold clip_list. rewrite clip_digits; [done|].
    apply Forall_take, digit_args_digits.
  - eapply Forall_impl; [apply digit_args_digits|]. by intros s [_ ?].
Qed.

Lemma strings_and_lists_are_clipped_passes : strings_and_lists_are_clipped_at_their_limits.
Proof.
  unfold strings_and_lists_are_clipped_at_their_limits.
  assert (Hs : 0 <= MAX_STRING - 1) by done.
  assert (He : forall s, str_ok s -> decode_all (encode (Error s)) = [Ok (Error (clip_str s))]).
  { intros s ?. rewrite decode_all_encode; [done|done|apply error_fits]. }
  split_and!; [| | |reflexivity|reflexivity|reflexivity|].
  - rewrite He by apply a_text_ok. unfold clip_str. by rewrite clip_small by (rewrite len_a_text; done).
  - rewrite len_app, len_a_text by done. change (len e_acute) with 2. lia.
  - rewrite He by by apply a_text_app_ok. unfold clip_str.
    by rewrite <- (Z.sub_add 1 MAX_STRING) at 2; rewrite clip_e_acute.
  - exists [], None. by rewrite decode_digit_args.
Qed.

(** The frame of exactly [MAX_FRAME]: for any payload that fills it. *)
Lemma frame_at_the_limit_of m :
  msg_ok m -> clip_msg m = m -> 1 + len (encode_body m).2 = MAX_FRAME ->
  len (encode m) = 4 + MAX_FRAME /\ frame_len (encode m) = MAX_FRAME /\
  (next_frame (push new (take 1000 (encode m)))) = (Ok None, mkDecoder (take 1000 (encode m))) /\
  (next_frame (push (mkDecoder (take 1000 (encode m))) (drop 1000 (encode m)))).1 = Ok (Some m).
Proof.
  intros Hm Hc Hl. pose proof max_frame_val as Hv.
  assert (Hf : fits m) by (unfold fits; lia).
  pose proof (fits_frame_ok m Hf) as Hfr. rewrite encode_frame by done.
  assert (Hlen : len (frame (encode_body m)) = 4 + MAX_FRAME).
  { unfold len in *. rewrite length_frame. lia. }
  split_and!; [done| | |].
  - pose proof (frame_len_frame (encode_body m) [] Hfr) as Hn. rewrite app_nil_r in Hn. by rewrite Hn.
  - unfold push, new. cbn [dbuf app].
    apply (incomplete_frame_prefix (encode_body m) _ (drop 1000 (frame (encode_body m)))); [done|by rewrite take_drop|].
    intros Hd. apply (f_equal len) in Hd. unfold len in *. rewrite length_drop in Hd. cbn in Hd. lia.
  - unfold push. cbn [dbuf]. rewrite take_drop.
    pose proof (next_frame_frame (encode_body m) [] Hfr) as Hn. rewrite app_nil_r in Hn. rewrite Hn.
    unfold frame_result. cbn [fst]. by rewrite decode_encode_aux, Hc.
Qed.

Lemma frame_at_the_limit_passes : frame_at_the_limit.
Proof.
  unfold frame_at_the_limit. cbv zeta. set (m := Stdin _).
  destruct (frame_at_the_limit_of m) as (Hl & Hn & H1 & H2).
  - by apply Forall_replicate.
  - done.
  - cbn [m encode_body snd app]. unfold len. rewrite length_replicate. pose proof max_frame_val. lia.
  - rewrite H1. split_and!; [exact Hl|exact Hn|reflexivity|exact H2|reflexivity].
Qed.

Lemma long_stat_ok : msg_ok (StatReply long_stat).
Proof.
  unfold msg_ok, stat_ok, long_stat. cbv zeta.
  cbn [uptime_ms cpus mem load running tasks temps temp_peak vcore_mv core_mhz disks nets procs nprocs nkthreads].
  split_and!;
    lazymatch goal with |- Forall cpu_ok _ => idtac | |- Forall (sint 16) _ => idtac | _ => concrete end.
  - apply Forall_fmap, Forall_forall. intros i Hi%elem_of_seqZ. pose proof max_list_val.
    split_and!; [by apply (wrap_uint 16)|unfold uint; cbn beta iota delta [busy]; lia|done].
  - by apply Forall_replicate.
Qed.

(** Every processor is 10 bytes on the wire, every temperature 2. *)
Lemma len_put_stat s :
  len (put_stat [] s) =
  10 * Z.min (len (cpus s)) MAX_LIST + 2 * Z.min (len (temps s)) MAX_LIST +
  (92 + len (wire_list put_dev (disks s)) + len (wire_list put_dev (nets s)) +
   len (wire_list put_proc (procs s))).
Proof.
  rewrite put_stat_wire, !len_app, (len_wire_list put_cpu 10), (len_wire_list put_temp 2) by done.
  change (len (foldl put_u64 [] (mem_fields (mem s)))) with 48.
  change (len (foldl put_u16 [] (load_fields (load s)))) with 6.
  change (len (put_u64 [] (uptime_ms s))) with 8. change (len (put_u16 [] (wrap 16 (temp_peak s)))) with 2.
  change (len (put_u32 [] (running s))) with 4. change (len (put_u32 [] (tasks s))) with 4.
  change (len (put_u32 [] (vcore_mv s))) with 4. change (len (put_u32 [] (core_mhz s))) with 4.
  change (len (put_u32 [] (nprocs s))) with 4. change (len (put_u32 [] (nkthreads s))) with 4.
  lia.
Qed.

Lemma long_stat_fits : fits (StatReply long_stat).
Proof.
  pose proof (len_put_stat long_stat) as Hl. pose proof (len_put_stat sample_stat) as Hs.
  assert (Hb : len (put_stat [] sample_stat) < 4096) by (vm_compute; reflexivity).
  change (disks long_stat) with (disks sample_stat) in Hl.
  change (nets long_stat) with (nets sample_stat) in Hl.
  change (procs long_stat) with (procs sample_stat) in Hl.
  unfold fits. cbn [encode_body snd]. revert Hl Hs.
  rewrite max_list_val, max_frame_val.
  generalize (len_nonneg (cpus sample_stat)) (len_nonneg (temps sample_stat)).
  generalize (len (cpus long_stat)) (len (temps long_stat)). lia.
Qed.

(** What is received of a sample with too many processors and temperatures. *)
Lemma clip_long_lists s f n k :
  cpus s = f <$> seqZ 0 (MAX_LIST + n) -> temps s = replicate (Z.to_nat (MAX_LIST + k)) (-1) ->
  0 <= n -> 0 <= k ->
  len (cpus (clip_stat s)) = MAX_LIST /\
  cpus (clip_stat s) !! Z.to_nat (MAX_LIST - 1) = Some (f (MAX_LIST - 1)) /\
  len (temps (clip_stat s)) = MAX_LIST.
Proof.
  intros Hc Ht Hn Hk. unfold clip_stat. cbn [cpus temps]. rewrite !len_clip_list, Hc, Ht, len_fmap.
  unfold clip_list. pose proof max_list_val as Hm. revert Hm. generalize MAX_LIST. intros max Hm.
  rewrite len_seqZ by lia. unfold len at 1. rewrite length_replicate. split_and!; [lia| |lia].
  rewrite lookup_take_lt by lia. rewrite list_lookup_fmap, lookup_seqZ_lt by lia.
  cbn. do 2 f_equal. lia.
Qed.

Lemma stat_lists_at_their_limits_passes : stat_lists_at_their_limits.
Proof.
  unfold stat_lists_at_their_limits.
  rewrite (decode_all_encode _ long_stat_ok long_stat_fits).
  exists (clip_stat long_stat). split; [done|].
  edestruct (clip_long_lists long_stat) as (Hl & Hi & Ht); [reflexivity|reflexivity|done|done|].
  rewrite Hi. split_and!; [done|done|done|done|reflexivity].
Qed.

(** The model of the protocol crate passes the crate's unit tests, those at
    the limits of frames, strings and lists included. *)
Theorem protocol_tests_pass :
  round_trip_every_message /\ tags_are_stable /\ rejects_bad_frames /\
  every_truncated_body_is_malformed /\ trailing_bytes_are_ignored /\
  bad_frame_keeps_sync_and_bad_length_resets /\ frame_at_the_limit /\
  strings_and_lists_are_clipped_at_their_limits /\ empty_cwd_is_none /\
  stat_lists_at_their_limits.
Proof.
  exact (conj round_trip_every_message_passes (conj tags_are_stable_passes
    (conj rejects_bad_frames_passes (conj every_truncated_body_is_malformed_passes
    (conj trailing_bytes_are_ignored_passes (conj bad_frame_keeps_sync_passes
    (conj frame_at_the_limit_passes (conj strings_and_lists_are_clipped_passes
    (conj empty_cwd_is_none_passes stat_lists_at_their_limits_passes))))))))).
Qed.
