(* ===== verification/Mvex.v ===== *)
(** The MVEX encoder (host/crates/knc-mvex/src/lib.rs, conv.rs, transc.rs):
    registers, operands, the prefix assembly [mvex], and one definition per
    instruction function.  A Rust panic (an assertion of the encoder) is
    [None].  Text is the Intel-syntax comment each instruction carries. *)

From stdpp Require Import pretty.
From S2P Require Import Prelude Bytes.

Local Open Scope Z_scope.
Local Open Scope phi_scope.

(** ** Registers and operands *)

(** [Zmm(pub u8)] and [K(pub u8)]: any byte can be in the field; the encoder
    panics on numbers the machine does not have. *)
Record Zmm := mkZmm { zmm_n : Z }.
Record K := mkK { k_n : Z }.

Inductive Gpr :=
| Rax | Rcx | Rdx | Rbx | Rsp | Rbp | Rsi | Rdi
| R8 | R9 | R10 | R11 | R12 | R13 | R14 | R15.

(** [g as u8]. *)
Definition gpr_n (g : Gpr) : Z :=
  match g with
  | Rax => 0 | Rcx => 1 | Rdx => 2 | Rbx => 3 | Rsp => 4 | Rbp => 5 | Rsi => 6 | Rdi => 7
  | R8 => 8 | R9 => 9 | R10 => 10 | R11 => 11 | R12 => 12 | R13 => 13 | R14 => 14 | R15 => 15
  end.

Record Mem := mkMem { base : Gpr; disp : Z }.

(** [Mem::new]: panics for [rsp] and [r12]. *)
Definition mem_new (b : Gpr) (d : Z) : option Mem :=
  if negb (gpr_n b .& 7 =? 4) then Some (mkMem b d) else None.

(** [Mem::offset]: [checked_add] on [i32]. *)
Definition mem_offset (m : Mem) (delta : Z) : option Mem :=
  let d := disp m + delta in
  if (- 2 ^ 31 <=? d) && (d <? 2 ^ 31) then Some (mkMem (base m) d) else None.

(** conv.rs, the SSS field of a memory operand. *)
Inductive Conv := NoConv | Bcast1 | Bcast4 | F16 | U8 | S8 | U16 | S16.

Definition conv_n (c : Conv) : Z :=
  match c with
  | NoConv => 0 | Bcast1 => 1 | Bcast4 => 2 | F16 => 3 | U8 => 4 | S8 => 5 | U16 => 6 | S16 => 7
  end.

Inductive Src := SrcReg (z : Zmm) | SrcMem (m : Mem) | SrcMemConv (m : Mem) (c : Conv).

Inductive Cmp := CmpEq | CmpLt | CmpLe | CmpUnord | CmpNeq | CmpNlt | CmpNle | CmpOrd.

Definition cmp_n (p : Cmp) : Z :=
  match p with
  | CmpEq => 0 | CmpLt => 1 | CmpLe => 2 | CmpUnord => 3
  | CmpNeq => 4 | CmpNlt => 5 | CmpNle => 6 | CmpOrd => 7
  end.

(** conv.rs: rounding modes, exponent adjustments, prefetch levels. *)
Inductive Round := Nearest | Down | Up | Zero.

Definition round_n (r : Round) : Z :=
  match r with Nearest => 0 | Down => 1 | Up => 2 | Zero => 3 end.

Inductive ExpAdj := AdjNone | Q28_4 | Q27_5 | Q24_8 | Q16_16 | Q8_24 | Q1_31 | Q0_32.

Definition adj_n (a : ExpAdj) : Z :=
  match a with
  | AdjNone => 0 | Q28_4 => 1 | Q27_5 => 2 | Q24_8 => 3
  | Q16_16 => 4 | Q8_24 => 5 | Q1_31 => 6 | Q0_32 => 7
  end.

Inductive Cache := L1 | L2.

Definition cache_n (c : Cache) : Z := match c with L1 => 1 | L2 => 2 end.

(** One encoded instruction with its text. *)
Record Insn := mkInsn { bytes : list Z; text : string }.

#[export] Instance Gpr_eq_dec : EqDecision Gpr.
Proof. solve_decision. Defined.
#[export] Instance Conv_eq_dec : EqDecision Conv.
Proof. solve_decision. Defined.
#[export] Instance Zmm_eq_dec : EqDecision Zmm.
Proof. solve_decision. Defined.
#[export] Instance K_eq_dec : EqDecision K.
Proof. solve_decision. Defined.
#[export] Instance Mem_eq_dec : EqDecision Mem.
Proof. solve_decision. Defined.
#[export] Instance Src_eq_dec : EqDecision Src.
Proof. solve_decision. Defined.
#[export] Instance Insn_eq_dec : EqDecision Insn.
Proof. solve_decision. Defined.

(** ** Display *)

(** [{n}] of a non-negative integer. *)
Definition dec (n : Z) : string := pretty n.

(** Alignment in a field: [{:w}] of a number, [{:w}] of a text. *)
Definition right_align (w : nat) (s : string) : string :=
  String.concat "" (replicate (w - String.length s) " "%string) +:+ s.
Definition left_align (w : nat) (s : string) : string :=
  s +:+ String.concat "" (replicate (w - String.length s) " "%string).

Definition hex_digit (n : Z) : string :=
  default "?" (["0"; "1"; "2"; "3"; "4"; "5"; "6"; "7"; "8"; "9"; "a"; "b"; "c"; "d"; "e"; "f"]
                 !! Z.to_nat n)%string.

(** [0x{b:02x}]. *)
Definition hex2 (b : Z) : string := "0x" +:+ hex_digit (b / 16) +:+ hex_digit (b mod 16).

Definition zmm_text (z : Zmm) : string := "zmm" +:+ dec (zmm_n z).
Definition k_text (k : K) : string := "k" +:+ dec (k_n k).

Definition gpr_text (g : Gpr) : string :=
  match g with
  | Rax => "rax" | Rcx => "rcx" | Rdx => "rdx" | Rbx => "rbx"
  | Rsp => "rsp" | Rbp => "rbp" | Rsi => "rsi" | Rdi => "rdi"
  | R8 => "r8" | R9 => "r9" | R10 => "r10" | R11 => "r11"
  | R12 => "r12" | R13 => "r13" | R14 => "r14" | R15 => "r15"
  end.

(** [gpr32]: the names of the low eight registers, by the low three bits. *)
Definition gpr32 (g : Gpr) : string :=
  default "" (["eax"; "ecx"; "edx"; "ebx"; "esp"; "ebp"; "esi"; "edi"]
                !! Z.to_nat (gpr_n g .& 7))%string.

Definition mem_text (m : Mem) : string :=
  if disp m <? 0 then "[" +:+ gpr_text (base m) +:+ "-" +:+ dec (Z.abs (disp m)) +:+ "]"
  else "[" +:+ gpr_text (base m) +:+ "+" +:+ dec (disp m) +:+ "]".

Definition conv_text (c : Conv) : string :=
  match c with
  | NoConv => "" | Bcast1 => "{1to16}" | Bcast4 => "{4to16}" | F16 => "{float16}"
  | U8 => "{uint8}" | S8 => "{sint8}" | U16 => "{uint16}" | S16 => "{sint16}"
  end.

Definition src_text (s : Src) : string :=
  match s with
  | SrcReg z => zmm_text z
  | SrcMem m => mem_text m
  | SrcMemConv m c => mem_text m +:+ conv_text c
  end.

Definition mask_text (k : K) : string :=
  if k_n k =? 0 then "" else " {" +:+ k_text k +:+ "}".

(** [", "] joined bytes, for [gas] and [c_string]. *)
Definition join (sep : string) (l : list string) : string := String.concat sep l.

Definition tab : string := String (Ascii.ascii_of_nat 9) "".
Definition quote : string := String (Ascii.ascii_of_nat 34) "".

(** [Insn::gas]. *)
Definition gas (i : Insn) : string :=
  tab +:+ ".byte " +:+ join ", " (hex2 <$> bytes i) +:+ tab +:+ "# " +:+ text i.

(** [Insn::c_string]: the C escapes are the two characters backslash n and
    backslash t. *)
Definition c_string (i : Insn) : string :=
  quote +:+ ".byte " +:+ join "," (hex2 <$> bytes i) +:+ "\n\t" +:+ quote
    +:+ " /* " +:+ text i +:+ " */".

(** ** The prefix *)

Inductive Map := M0F | M0F38 | M0F3A.
Definition map_n (m : Map) : Z := match m with M0F => 1 | M0F38 => 2 | M0F3A => 3 end.

Inductive Pp := PpNone | P66 | Pf2.
Definition pp_n (p : Pp) : Z := match p with PpNone => 0 | P66 => 1 | Pf2 => 3 end.

Inductive Rm := RmZmm (z : Zmm) | RmMem (m : Mem).

#[export] Instance Map_eq_dec : EqDecision Map.
Proof. solve_decision. Defined.
#[export] Instance Pp_eq_dec : EqDecision Pp.
Proof. solve_decision. Defined.
#[export] Instance Rm_eq_dec : EqDecision Rm.
Proof. solve_decision. Defined.

(** [!x] of a [u8]. *)
Definition not8 (x : Z) : Z := Z.lxor x 255.

(** [assert!(c)]: what follows, or the panic. *)
Definition assert_ {A} (c : bool) (k : option A) : option A := if c then k else None.

(** The P0, P1 and P2 bytes of [mvex]. *)
Definition mvex_p0 (map : Map) (reg x b : Z) : Z :=
  (not8 (reg ≫ 3 .& 1) .& 1) ≪ 7 .| (not8 x .& 1) ≪ 6 .| (not8 b .& 1) ≪ 5
  .| (not8 (reg ≫ 4 .& 1) .& 1) ≪ 4 .| map_n map.

Definition mvex_p1 (w : bool) (vvvv : Z) (pp : Pp) : Z :=
  (if w then 1 else 0) ≪ 7 .| (not8 vvvv .& 15) ≪ 3 .| pp_n pp.

Definition mvex_p2 (vvvv aaa : Z) : Z :=
  (not8 (vvvv ≫ 4) .& 1) ≪ 3 .| aaa.

(** The ModRM byte and the displacement. *)
Definition mvex_rm (reg : Z) (rm : Rm) : list Z :=
  match rm with
  | RmZmm z => [192 .| (reg .& 7) ≪ 3 .| (zmm_n z .& 7)]
  | RmMem m => [128 .| (reg .& 7) ≪ 3 .| (gpr_n (base m) .& 7)] ++ to_le_bytes 4 (disp m)
  end.

(** [mvex]: assemble one instruction. *)
Definition mvex (map : Map) (pp : Pp) (w : bool) (reg vvvv : Z) (rm : Rm) (aaa opcode : Z)
    (imm : option Z) : option (list Z) :=
  assert_ ((reg <? 32) && (vvvv <? 32) && (aaa <? 8)) (
    '(b, x) ← match rm with
              | RmZmm z => assert_ (zmm_n z <? 32) (Some (zmm_n z ≫ 3 .& 1, zmm_n z ≫ 4 .& 1))
              | RmMem m => Some (gpr_n (base m) ≫ 3 .& 1, 0)
              end;
    let p0 := mvex_p0 map reg x b in
    let p1 := mvex_p1 w vvvv pp in
    let p2 := mvex_p2 vvvv aaa in
    Some ([98; p0; p1; p2; opcode] ++ mvex_rm reg rm
          ++ match imm with Some i => [i] | None => [] end)).

Definition src_rm (s : Src) : Rm :=
  match s with
  | SrcReg z => RmZmm z
  | SrcMem m | SrcMemConv m _ => RmMem m
  end.

Definition src_sss (s : Src) : Z :=
  match s with SrcMemConv _ c => conv_n c | _ => 0 end.

(** [bytes[3] |= v], on an instruction that has a fourth byte. *)
Definition or_p2 (v : Z) (bs : list Z) : list Z := alter (fun p2 => p2 .| v) 3%nat bs.

(** [with_sss] of conv.rs. *)
Definition with_sss (bs : list Z) (sss : Z) : list Z := or_p2 (sss ≪ 4) bs.

(** [Insn { bytes, text }] of bytes that may panic. *)
Definition insn (bs : option (list Z)) (t : string) : option Insn :=
  bs ← bs; Some (mkInsn bs t).

Definition insn_sss (bs : option (list Z)) (sss : Z) (t : string) : option Insn :=
  bs ← bs; Some (mkInsn (with_sss bs sss) t).

(** ** Moves (lib.rs) *)

Definition vmovaps_store (mem : Mem) (src : Zmm) : option Insn :=
  insn (mvex M0F PpNone false (zmm_n src) 0 (RmMem mem) 0 0x29 None)
    ("vmovaps " +:+ mem_text mem +:+ ", " +:+ zmm_text src).

Definition vmovnraps_store (mem : Mem) (src : Zmm) : option Insn :=
  insn (mvex M0F Pf2 false (zmm_n src) 0 (RmMem mem) 0 0x29 None)
    ("vmovnraps " +:+ mem_text mem +:+ ", " +:+ zmm_text src).

(** The EH bit is set after assembly. *)
Definition vmovnrngoaps_store (mem : Mem) (src : Zmm) : option Insn :=
  bs ← mvex M0F Pf2 false (zmm_n src) 0 (RmMem mem) 0 0x29 None;
  Some (mkInsn (or_p2 0x80 bs) ("vmovnrngoaps " +:+ mem_text mem +:+ ", " +:+ zmm_text src)).

Definition vmovaps_load (dst : Zmm) (mem : Mem) : option Insn :=
  insn (mvex M0F PpNone false (zmm_n dst) 0 (RmMem mem) 0 0x28 None)
    ("vmovaps " +:+ zmm_text dst +:+ ", " +:+ mem_text mem).

Definition vmovaps_load_f16 (dst : Zmm) (mem : Mem) : option Insn :=
  bs ← mvex M0F PpNone false (zmm_n dst) 0 (RmMem mem) 0 0x28 None;
  Some (mkInsn (or_p2 (3 ≪ 4) bs)
    ("vmovaps " +:+ zmm_text dst +:+ ", " +:+ mem_text mem +:+ " {float16}")).

Definition vmovapd_load (dst : Zmm) (src : Src) (k : K) : option Insn :=
  insn (mvex M0F P66 true (zmm_n dst) 0 (src_rm src) (k_n k) 0x28 None)
    ("vmovapd " +:+ zmm_text dst +:+ mask_text k +:+ ", " +:+ src_text src).

Definition vmovapd_store (mem : Mem) (src : Zmm) (k : K) : option Insn :=
  insn (mvex M0F P66 true (zmm_n src) 0 (RmMem mem) (k_n k) 0x29 None)
    ("vmovapd " +:+ mem_text mem +:+ mask_text k +:+ ", " +:+ zmm_text src).

(** ** Three-operand forms (lib.rs, conv.rs) *)

(** The text all three-operand forms share. *)
Definition three_text (name : string) (dst src1 : Zmm) (src2 : Src) (k : K) : string :=
  name +:+ " " +:+ zmm_text dst +:+ mask_text k +:+ ", " +:+ zmm_text src1 +:+ ", " +:+ src_text src2.

Definition arith (name : string) (map : Map) (w : bool) (opcode : Z) (dst src1 : Zmm) (src2 : Src)
    (k : K) : option Insn :=
  insn_sss (mvex map P66 w (zmm_n dst) (zmm_n src1) (src_rm src2) (k_n k) opcode None) (src_sss src2)
    (three_text name dst src1 src2 k).

Definition arith_ps (name : string) (map : Map) (opcode : Z) (dst src1 : Zmm) (src2 : Src) (k : K)
  : option Insn :=
  insn_sss (mvex map PpNone false (zmm_n dst) (zmm_n src1) (src_rm src2) (k_n k) opcode None)
    (src_sss src2) (three_text name dst src1 src2 k).

Definition fma (name : string) (opcode : Z) (dst src1 : Zmm) (src2 : Src) (k : K) : option Insn :=
  insn_sss (mvex M0F38 P66 false (zmm_n dst) (zmm_n src1) (src_rm src2) (k_n k) opcode None)
    (src_sss src2) (three_text name dst src1 src2 k).

Definition vaddpd (dst src1 : Zmm) (src2 : Src) (k : K) : option Insn :=
  arith "vaddpd" M0F true 0x58 dst src1 src2 k.
Definition vsubpd (dst src1 : Zmm) (src2 : Src) (k : K) : option Insn :=
  arith "vsubpd" M0F true 0x5c dst src1 src2 k.
Definition vmulpd (dst src1 : Zmm) (src2 : Src) (k : K) : option Insn :=
  arith "vmulpd" M0F true 0x59 dst src1 src2 k.
Definition vfmadd213pd (dst src1 : Zmm) (src2 : Src) (k : K) : option Insn :=
  arith "vfmadd213pd" M0F38 true 0xa8 dst src1 src2 k.
Definition vfmadd231pd (dst src1 : Zmm) (src2 : Src) (k : K) : option Insn :=
  arith "vfmadd231pd" M0F38 true 0xb8 dst src1 src2 k.
Definition vfmadd213ps (dst src1 : Zmm) (src2 : Src) (k : K) : option Insn :=
  arith "vfmadd213ps" M0F38 false 0xa8 dst src1 src2 k.
Definition vfmadd231ps (dst src1 : Zmm) (src2 : Src) (k : K) : option Insn :=
  arith "vfmadd231ps" M0F38 false 0xb8 dst src1 src2 k.
Definition vpaddd (dst src1 : Zmm) (src2 : Src) (k : K) : option Insn :=
  arith "vpaddd" M0F false 0xfe dst src1 src2 k.
Definition vpsubd (dst src1 : Zmm) (src2 : Src) (k : K) : option Insn :=
  arith "vpsubd" M0F false 0xfa dst src1 src2 k.
Definition vpandd (dst src1 : Zmm) (src2 : Src) (k : K) : option Insn :=
  arith "vpandd" M0F false 0xdb dst src1 src2 k.
Definition vpandnd (dst src1 : Zmm) (src2 : Src) (k : K) : option Insn :=
  arith "vpandnd" M0F false 0xdf dst src1 src2 k.
Definition vpord (dst src1 : Zmm) (src2 : Src) (k : K) : option Insn :=
  arith "vpord" M0F false 0xeb dst src1 src2 k.
Definition vpxord (dst src1 : Zmm) (src2 : Src) (k : K) : option Insn :=
  arith "vpxord" M0F false 0xef dst src1 src2 k.
Definition vpsllvd (dst src1 : Zmm) (src2 : Src) (k : K) : option Insn :=
  arith "vpsllvd" M0F38 false 0x47 dst src1 src2 k.
Definition vpsrlvd (dst src1 : Zmm) (src2 : Src) (k : K) : option Insn :=
  arith "vpsrlvd" M0F38 false 0x45 dst src1 src2 k.
Definition vaddps (dst src1 : Zmm) (src2 : Src) (k : K) : option Insn :=
  arith_ps "vaddps" M0F 0x58 dst src1 src2 k.
Definition vsubps (dst src1 : Zmm) (src2 : Src) (k : K) : option Insn :=
  arith_ps "vsubps" M0F 0x5c dst src1 src2 k.
Definition vmulps (dst src1 : Zmm) (src2 : Src) (k : K) : option Insn :=
  arith_ps "vmulps" M0F 0x59 dst src1 src2 k.
Definition vfnmadd231ps (dst src1 : Zmm) (src2 : Src) (k : K) : option Insn :=
  fma "vfnmadd231ps" 0xbc dst src1 src2 k.
Definition vfmsub213ps (dst src1 : Zmm) (src2 : Src) (k : K) : option Insn :=
  fma "vfmsub213ps" 0xaa dst src1 src2 k.
Definition vfmsub231ps (dst src1 : Zmm) (src2 : Src) (k : K) : option Insn :=
  fma "vfmsub231ps" 0xba dst src1 src2 k.

Definition vpermd (dst idx : Zmm) (src2 : Src) (k : K) : option Insn :=
  insn_sss (mvex M0F38 P66 false (zmm_n dst) (zmm_n idx) (src_rm src2) (k_n k) 0x36 None)
    (src_sss src2) (three_text "vpermd" dst idx src2 k).

(** The compares apply no [with_sss]: the SSS field stays 0. *)
Definition vcmppd (dst : K) (src1 : Zmm) (src2 : Src) (pred : Cmp) (k : K) : option Insn :=
  insn (mvex M0F P66 true (k_n dst) (zmm_n src1) (src_rm src2) (k_n k) 0xc2 (Some (cmp_n pred)))
    ("vcmppd " +:+ k_text dst +:+ mask_text k +:+ ", " +:+ zmm_text src1 +:+ ", " +:+ src_text src2
       +:+ ", " +:+ dec (cmp_n pred)).

Definition vcmpps (dst : K) (src1 : Zmm) (src2 : Src) (pred : Cmp) (k : K) : option Insn :=
  insn (mvex M0F PpNone false (k_n dst) (zmm_n src1) (src_rm src2) (k_n k) 0xc2 (Some (cmp_n pred)))
    ("vcmpps " +:+ k_text dst +:+ mask_text k +:+ ", " +:+ zmm_text src1 +:+ ", " +:+ src_text src2
       +:+ ", " +:+ dec (cmp_n pred)).

(** ** Unaligned pairs and broadcast (lib.rs) *)

(** [name mem mask, src] and [name dst mask, mem]. *)
Definition store_text (name : string) (mem : Mem) (src : Zmm) (k : K) : string :=
  name +:+ " " +:+ mem_text mem +:+ mask_text k +:+ ", " +:+ zmm_text src.
Definition load_text (name : string) (dst : Zmm) (mem : Mem) (k : K) : string :=
  name +:+ " " +:+ zmm_text dst +:+ mask_text k +:+ ", " +:+ mem_text mem.

Definition vpackstoreld (mem : Mem) (src : Zmm) (k : K) : option Insn :=
  insn (mvex M0F38 P66 false (zmm_n src) 0 (RmMem mem) (k_n k) 0xd0 None) (store_text "vpackstoreld" mem src k).
Definition vpackstorehd (mem : Mem) (src : Zmm) (k : K) : option Insn :=
  insn (mvex M0F38 P66 false (zmm_n src) 0 (RmMem mem) (k_n k) 0xd4 None) (store_text "vpackstorehd" mem src k).
Definition vloadunpackld (dst : Zmm) (mem : Mem) (k : K) : option Insn :=
  insn (mvex M0F38 PpNone false (zmm_n dst) 0 (RmMem mem) (k_n k) 0xd0 None) (load_text "vloadunpackld" dst mem k).
Definition vloadunpackhd (dst : Zmm) (mem : Mem) (k : K) : option Insn :=
  insn (mvex M0F38 PpNone false (zmm_n dst) 0 (RmMem mem) (k_n k) 0xd4 None) (load_text "vloadunpackhd" dst mem k).
Definition vpbroadcastd (dst : Zmm) (mem : Mem) (k : K) : option Insn :=
  insn (mvex M0F38 P66 false (zmm_n dst) 0 (RmMem mem) (k_n k) 0x58 None) (load_text "vpbroadcastd" dst mem k).

(** ** Immediate shifts (lib.rs) *)

(** [shift_imm]: the destination is in [vvvv]; no [with_sss]. *)
Definition shift_imm (name : string) (ext : Z) (dst : Zmm) (src : Src) (count : Z) (k : K)
  : option Insn :=
  assert_ (ext <? 8)
    (insn (mvex M0F P66 false ext (zmm_n dst) (src_rm src) (k_n k) 0x72 (Some count))
      (name +:+ " " +:+ zmm_text dst +:+ mask_text k +:+ ", " +:+ src_text src +:+ ", " +:+ dec count)).

Definition vpslld (dst : Zmm) (src : Src) (count : Z) (k : K) : option Insn :=
  shift_imm "vpslld" 6 dst src count k.
Definition vpsrld (dst : Zmm) (src : Src) (count : Z) (k : K) : option Insn :=
  shift_imm "vpsrld" 2 dst src count k.
Definition vpsrad (dst : Zmm) (src : Src) (count : Z) (k : K) : option Insn :=
  shift_imm "vpsrad" 4 dst src count k.

(** ** Conversions (conv.rs, transc.rs) *)

Definition vmovaps_load_conv (dst : Zmm) (mem : Mem) (conv : Conv) (k : K) : option Insn :=
  insn_sss (mvex M0F PpNone false (zmm_n dst) 0 (RmMem mem) (k_n k) 0x28 None) (conv_n conv)
    (load_text "vmovaps" dst mem k +:+ conv_text conv).

Definition vmovdqa32_load_conv (dst : Zmm) (mem : Mem) (conv : Conv) (k : K) : option Insn :=
  insn_sss (mvex M0F P66 false (zmm_n dst) 0 (RmMem mem) (k_n k) 0x6f None) (conv_n conv)
    (load_text "vmovdqa32" dst mem k +:+ conv_text conv).

Definition is_bcast (c : Conv) : bool :=
  match c with Bcast1 | Bcast4 => true | _ => false end.

Definition vloadunpackld_conv (dst : Zmm) (mem : Mem) (conv : Conv) (k : K) : option Insn :=
  assert_ (negb (is_bcast conv))
    (insn_sss (mvex M0F38 PpNone false (zmm_n dst) 0 (RmMem mem) (k_n k) 0xd0 None) (conv_n conv)
      (load_text "vloadunpackld" dst mem k +:+ conv_text conv)).

Definition vloadunpackhd_conv (dst : Zmm) (mem : Mem) (conv : Conv) (k : K) : option Insn :=
  assert_ (negb (is_bcast conv))
    (insn_sss (mvex M0F38 PpNone false (zmm_n dst) 0 (RmMem mem) (k_n k) 0xd4 None) (conv_n conv)
      (load_text "vloadunpackhd" dst mem k +:+ conv_text conv)).

(** The float32 twins have no assertion. *)
Definition vloadunpacklps_conv (dst : Zmm) (mem : Mem) (conv : Conv) (k : K) : option Insn :=
  insn_sss (mvex M0F38 PpNone false (zmm_n dst) 0 (RmMem mem) (k_n k) 0xd1 None) (conv_n conv)
    (load_text "vloadunpacklps" dst mem k +:+ conv_text conv).

Definition vloadunpackhps_conv (dst : Zmm) (mem : Mem) (conv : Conv) (k : K) : option Insn :=
  insn_sss (mvex M0F38 PpNone false (zmm_n dst) 0 (RmMem mem) (k_n k) 0xd5 None) (conv_n conv)
    (load_text "vloadunpackhps" dst mem k +:+ conv_text conv).

(** [name dst mask, src], and with an immediate. *)
Definition two_text (name : string) (dst : Zmm) (src : Src) (k : K) : string :=
  name +:+ " " +:+ zmm_text dst +:+ mask_text k +:+ ", " +:+ src_text src.

Definition vcvtfxpntdq2ps (dst : Zmm) (src : Src) (k : K) : option Insn :=
  insn_sss (mvex M0F3A PpNone false (zmm_n dst) 0 (src_rm src) (k_n k) 0xcb (Some 0)) (src_sss src)
    (two_text "vcvtfxpntdq2ps" dst src k +:+ ", 0").

Definition vrndfxpntps (dst : Zmm) (src : Src) (mode : Round) (k : K) : option Insn :=
  insn_sss (mvex M0F3A P66 false (zmm_n dst) 0 (src_rm src) (k_n k) 0x52 (Some (round_n mode)))
    (src_sss src) (two_text "vrndfxpntps" dst src k +:+ ", " +:+ dec (round_n mode)).

Definition vcvtfxpntps2dq (dst : Zmm) (src : Src) (mode : Round) (k : K) : option Insn :=
  insn_sss (mvex M0F3A P66 false (zmm_n dst) 0 (src_rm src) (k_n k) 0xcb (Some (round_n mode)))
    (src_sss src) (two_text "vcvtfxpntps2dq" dst src k +:+ ", " +:+ dec (round_n mode)).

Definition vcvtfxpntps2dq_adj (dst : Zmm) (src : Src) (mode : Round) (adj : ExpAdj) (k : K)
  : option Insn :=
  let imm := adj_n adj ≪ 4 .| round_n mode in
  insn_sss (mvex M0F3A P66 false (zmm_n dst) 0 (src_rm src) (k_n k) 0xcb (Some imm))
    (src_sss src) (two_text "vcvtfxpntps2dq" dst src k +:+ ", " +:+ hex2 imm).

Definition vmovaps_store_conv (mem : Mem) (src : Zmm) (conv : Conv) (k : K) : option Insn :=
  assert_ (negb (is_bcast conv))
    (insn_sss (mvex M0F PpNone false (zmm_n src) 0 (RmMem mem) (k_n k) 0x29 None) (conv_n conv)
      ("vmovaps " +:+ mem_text mem +:+ mask_text k +:+ conv_text conv +:+ ", " +:+ zmm_text src)).

Definition vprefetch (mem : Mem) (cache : Cache) : option Insn :=
  insn (mvex M0F PpNone false (cache_n cache) 0 (RmMem mem) 0 0x18 None)
    ("vprefetch" +:+ dec (cache_n cache - 1) +:+ " " +:+ mem_text mem).

Definition vexp223ps (dst src : Zmm) (k : K) : option Insn :=
  let src := SrcReg src in
  insn (mvex M0F38 P66 false (zmm_n dst) 0 (src_rm src) (k_n k) 0xc8 None)
    (two_text "vexp223ps" dst src k).

Definition vrcp23ps (dst src : Zmm) (k : K) : option Insn :=
  let src := SrcReg src in
  insn (mvex M0F38 P66 false (zmm_n dst) 0 (src_rm src) (k_n k) 0xca None)
    (two_text "vrcp23ps" dst src k).

(** ** Mask moves (lib.rs) *)

Definition vex_k (opcode reg rm : Z) : option (list Z) :=
  assert_ ((reg <? 8) && (rm <? 8)) (Some [0xc5; 0xf8; opcode; 192 .| reg ≪ 3 .| rm]).

Definition kmov_r32_k (dst : Gpr) (src : K) : option Insn :=
  insn (vex_k 0x93 (gpr_n dst) (k_n src)) ("kmov " +:+ gpr32 dst +:+ ", " +:+ k_text src).

Definition kmov_k_r32 (dst : K) (src : Gpr) : option Insn :=
  insn (vex_k 0x92 (k_n dst) (gpr_n src)) ("kmov " +:+ k_text dst +:+ ", " +:+ gpr32 src).

Definition kmov_k_k (dst src : K) : option Insn :=
  insn (vex_k 0x90 (k_n dst) (k_n src)) ("kmov " +:+ k_text dst +:+ ", " +:+ k_text src).

Definition kortest (a b : K) : option Insn :=
  insn (vex_k 0x98 (k_n a) (k_n b)) ("kortest " +:+ k_text a +:+ ", " +:+ k_text b).
