(* ===== verification/MvexDis.v ===== *)
(** What the encoder's bytes mean: a decoder of the MVEX layout that
    host/crates/knc-mvex/src/lib.rs documents (lines 18 to 26), the table of
    instructions the doc comments of lib.rs, conv.rs and transc.rs give
    (opcode map, prefix, W and opcode of each), the disassembler these make,
    and the lemmas that read back what [mvex] assembled. *)

From S2P Require Import Prelude Bytes Mvex.

Local Open Scope Z_scope.
Local Open Scope phi_scope.

(** ** The layout *)

(** Bit [i] of [x], and a bit stored inverted. *)
Definition bit (i x : Z) : Z := x ≫ i .& 1.
Definition inv (i x : Z) : Z := 1 - bit i x.

Definition gprs : list Gpr :=
  [Rax; Rcx; Rdx; Rbx; Rsp; Rbp; Rsi; Rdi; R8; R9; R10; R11; R12; R13; R14; R15].

Definition map_of (n : Z) : option Map :=
  if n =? 1 then Some M0F else if n =? 2 then Some M0F38
  else if n =? 3 then Some M0F3A else None.

Definition pp_of (n : Z) : option Pp :=
  if n =? 0 then Some PpNone else if n =? 1 then Some P66
  else if n =? 3 then Some Pf2 else None.

Definition conv_of (n : Z) : Conv :=
  default NoConv ([NoConv; Bcast1; Bcast4; F16; U8; S8; U16; S16] !! Z.to_nat n).

(** The fields of one instruction. *)
Record Fields := mkFields {
  f_map : Map; f_pp : Pp; f_w : bool; f_opcode : Z;
  f_reg : Z; f_vvvv : Z; f_rm : Rm; f_aaa : Z; f_sss : Z; f_eh : Z
}.

#[export] Instance Fields_eq_dec : EqDecision Fields.
Proof. solve_decision. Defined.

(** The r/m operand: mod = 11 a vector register, mod = 10 a base and disp32;
    the rest of the bytes. *)
Definition rm_of (p0 modrm : Z) (rest : list Z) : option (Rm * list Z) :=
  let low := modrm .& 7 in
  if modrm ≫ 6 =? 3 then Some (RmZmm (mkZmm (16 * inv 6 p0 + 8 * inv 5 p0 + low)), rest)
  else if (modrm ≫ 6 =? 2) && negb (low =? 4) && (4 <=? len rest) then
    b ← gprs !! Z.to_nat (8 * inv 5 p0 + low);
    Some (RmMem (mkMem b (signed 32 (from_le_bytes (take 4 rest)))), drop 4 rest)
  else None.

(** Reads one prefix, opcode, ModRM and displacement. *)
Definition mvex_fields (bs : list Z) : option (Fields * list Z) :=
  match bs with
  | b0 :: p0 :: p1 :: p2 :: opcode :: modrm :: rest =>
      if (b0 =? 98) && (p0 .& 12 =? 0) && (p1 .& 4 =? 0) then
        map ← map_of (p0 .& 3);
        pp ← pp_of (p1 .& 3);
        '(rm, rest) ← rm_of p0 modrm rest;
        Some (mkFields map pp (bit 7 p1 =? 1) opcode
                (16 * inv 4 p0 + 8 * inv 7 p0 + (modrm ≫ 3 .& 7))
                (16 * inv 3 p2 + (15 - (p1 ≫ 3 .& 15)))
                rm (p2 .& 7) (p2 ≫ 4 .& 7) (bit 7 p2), rest)
      else None
  | _ => None
  end.

(** ** The instruction table *)

Inductive Mnem :=
| Vaddpd | Vsubpd | Vmulpd | Vfmadd213pd | Vfmadd231pd | Vaddps | Vsubps | Vmulps
| Vfmadd213ps | Vfmadd231ps | Vfnmadd231ps | Vfmsub213ps | Vfmsub231ps
| Vpaddd | Vpsubd | Vpandd | Vpandnd | Vpord | Vpxord | Vpsllvd | Vpsrlvd | Vpermd
| Vcmppd | Vcmpps | Vpslld | Vpsrld | Vpsrad
| VmovapsL | VmovapsS | Vmovnraps | Vmovnrngoaps | VmovapdL | VmovapdS | Vmovdqa32
| Vloadunpackld | Vloadunpackhd | Vloadunpacklps | Vloadunpackhps
| Vpackstoreld | Vpackstorehd | Vpbroadcastd
| Vcvtfxpntdq2ps | Vcvtfxpntps2dq | Vrndfxpntps | Vprefetch0 | Vprefetch1
| Vexp223ps | Vrcp23ps.

#[export] Instance Mnem_eq_dec : EqDecision Mnem.
Proof. solve_decision. Defined.

(** How the operands are used: which field is the destination, and whether
    an immediate follows. *)
Inductive Shape :=
| SThree (** [reg {aaa}, vvvv, rm] *)
| STwo (** [reg {aaa}, rm] *)
| STwoImm (** [reg {aaa}, rm, imm8] *)
| SLoad (** [reg {aaa}, mem] *)
| SStore (** [mem {aaa}, reg] *)
| SCmp (** [k[reg] {aaa}, vvvv, rm, imm8] *)
| SShift (** [vvvv {aaa}, rm, imm8], [reg] the opcode extension *)
| SPref (** [mem], [reg] the opcode extension *).

Record Row := mkRow {
  r_mnem : Mnem; r_name : string; r_map : Map; r_pp : Pp; r_w : bool; r_opcode : Z;
  r_ext : option Z; r_eh : Z; r_shape : Shape
}.

Definition row (m : Mnem) (n : string) (map : Map) (pp : Pp) (w : bool) (opcode : Z) (s : Shape)
  : Row := mkRow m n map pp w opcode None 0 s.

(** The documented encodings. *)
Definition table : list Row :=
  [ row Vaddpd "vaddpd" M0F P66 true 0x58 SThree;
    row Vsubpd "vsubpd" M0F P66 true 0x5c SThree;
    row Vmulpd "vmulpd" M0F P66 true 0x59 SThree;
    row Vfmadd213pd "vfmadd213pd" M0F38 P66 true 0xa8 SThree;
    row Vfmadd231pd "vfmadd231pd" M0F38 P66 true 0xb8 SThree;
    row Vaddps "vaddps" M0F PpNone false 0x58 SThree;
    row Vsubps "vsubps" M0F PpNone false 0x5c SThree;
    row Vmulps "vmulps" M0F PpNone false 0x59 SThree;
    row Vfmadd213ps "vfmadd213ps" M0F38 P66 false 0xa8 SThree;
    row Vfmadd231ps "vfmadd231ps" M0F38 P66 false 0xb8 SThree;
    row Vfnmadd231ps "vfnmadd231ps" M0F38 P66 false 0xbc SThree;
    row Vfmsub213ps "vfmsub213ps" M0F38 P66 false 0xaa SThree;
    row Vfmsub231ps "vfmsub231ps" M0F38 P66 false 0xba SThree;
    row Vpaddd "vpaddd" M0F P66 false 0xfe SThree;
    row Vpsubd "vpsubd" M0F P66 false 0xfa SThree;
    row Vpandd "vpandd" M0F P66 false 0xdb SThree;
    row Vpandnd "vpandnd" M0F P66 false 0xdf SThree;
    row Vpord "vpord" M0F P66 false 0xeb SThree;
    row Vpxord "vpxord" M0F P66 false 0xef SThree;
    row Vpsllvd "vpsllvd" M0F38 P66 false 0x47 SThree;
    row Vpsrlvd "vpsrlvd" M0F38 P66 false 0x45 SThree;
    row Vpermd "vpermd" M0F38 P66 false 0x36 SThree;
    row Vcmppd "vcmppd" M0F P66 true 0xc2 SCmp;
    row Vcmpps "vcmpps" M0F PpNone false 0xc2 SCmp;
    mkRow Vpslld "vpslld" M0F P66 false 0x72 (Some 6) 0 SShift;
    mkRow Vpsrld "vpsrld" M0F P66 false 0x72 (Some 2) 0 SShift;
    mkRow Vpsrad "vpsrad" M0F P66 false 0x72 (Some 4) 0 SShift;
    row VmovapsL "vmovaps" M0F PpNone false 0x28 SLoad;
    row VmovapsS "vmovaps" M0F PpNone false 0x29 SStore;
    row Vmovnraps "vmovnraps" M0F Pf2 false 0x29 SStore;
    mkRow Vmovnrngoaps "vmovnrngoaps" M0F Pf2 false 0x29 None 1 SStore;
    row VmovapdL "vmovapd" M0F P66 true 0x28 STwo;
    row VmovapdS "vmovapd" M0F P66 true 0x29 SStore;
    row Vmovdqa32 "vmovdqa32" M0F P66 false 0x6f SLoad;
    row Vloadunpackld "vloadunpackld" M0F38 PpNone false 0xd0 SLoad;
    row Vloadunpackhd "vloadunpackhd" M0F38 PpNone false 0xd4 SLoad;
    row Vloadunpacklps "vloadunpacklps" M0F38 PpNone false 0xd1 SLoad;
    row Vloadunpackhps "vloadunpackhps" M0F38 PpNone false 0xd5 SLoad;
    row Vpackstoreld "vpackstoreld" M0F38 P66 false 0xd0 SStore;
    row Vpackstorehd "vpackstorehd" M0F38 P66 false 0xd4 SStore;
    row Vpbroadcastd "vpbroadcastd" M0F38 P66 false 0x58 SLoad;
    row Vcvtfxpntdq2ps "vcvtfxpntdq2ps" M0F3A PpNone false 0xcb STwoImm;
    row Vcvtfxpntps2dq "vcvtfxpntps2dq" M0F3A P66 false 0xcb STwoImm;
    row Vrndfxpntps "vrndfxpntps" M0F3A P66 false 0x52 STwoImm;
    mkRow Vprefetch0 "vprefetch0" M0F PpNone false 0x18 (Some 1) 0 SPref;
    mkRow Vprefetch1 "vprefetch1" M0F PpNone false 0x18 (Some 2) 0 SPref;
    row Vexp223ps "vexp223ps" M0F38 P66 false 0xc8 STwo;
    row Vrcp23ps "vrcp23ps" M0F38 P66 false 0xca STwo ].

Definition needs_mem (s : Shape) : bool :=
  match s with SLoad | SStore | SPref => true | _ => false end.

Definition has_imm (s : Shape) : bool :=
  match s with STwoImm | SCmp | SShift => true | _ => false end.

Definition rm_is_mem (rm : Rm) : bool := match rm with RmMem _ => true | RmZmm _ => false end.

Definition row_matches (f : Fields) (r : Row) : bool :=
  bool_decide (r_map r = f_map f) && bool_decide (r_pp r = f_pp f) && Bool.eqb (r_w r) (f_w f)
  && (r_opcode r =? f_opcode f) && (r_eh r =? f_eh f)
  && match r_ext r with Some e => e =? f_reg f | None => true end
  && implb (needs_mem (r_shape r)) (rm_is_mem (f_rm f)).

(** A decoded vector instruction. *)
Record DInsn := mkDInsn { d_row : Row; d_fields : Fields; d_imm : option Z }.

(** ** The decoder *)

(** Decodes one MVEX instruction; the bytes after it. *)
Definition decode_mvex (bs : list Z) : option (DInsn * list Z) :=
  '(f, rest) ← mvex_fields bs;
  r ← List.find (row_matches f) table;
  if has_imm (r_shape r) then
    match rest with
    | i :: rest => Some (mkDInsn r f (Some i), rest)
    | [] => None
    end
  else Some (mkDInsn r f None, rest).

(** ** The text *)

Definition rm_text (f : Fields) : string :=
  match f_rm f with
  | RmZmm z => zmm_text z
  | RmMem m => mem_text m +:+ conv_text (conv_of (f_sss f))
  end.

(** An immediate: rounding modes and counts in decimal, the fixed-point
    adjustments of the float to int conversion in hexadecimal. *)
Definition imm_text (d : DInsn) : string :=
  let i := default 0 (d_imm d) in
  if bool_decide (r_mnem (d_row d) = Vcvtfxpntps2dq) && (3 <? i) then hex2 i else dec i.

Definition dis_text (d : DInsn) : string :=
  let f := d_fields d in
  let n := r_name (d_row d) in
  let reg := zmm_text (mkZmm (f_reg f)) in
  let vvvv := zmm_text (mkZmm (f_vvvv f)) in
  let mask := mask_text (mkK (f_aaa f)) in
  match r_shape (d_row d) with
  | SThree => n +:+ " " +:+ reg +:+ mask +:+ ", " +:+ vvvv +:+ ", " +:+ rm_text f
  | STwo | SLoad => n +:+ " " +:+ reg +:+ mask +:+ ", " +:+ rm_text f
  | STwoImm => n +:+ " " +:+ reg +:+ mask +:+ ", " +:+ rm_text f +:+ ", " +:+ imm_text d
  | SStore =>
      match f_rm f with
      | RmMem m =>
          n +:+ " " +:+ mem_text m +:+ mask +:+ conv_text (conv_of (f_sss f)) +:+ ", " +:+ reg
      | RmZmm _ => ""
      end
  | SCmp =>
      n +:+ " " +:+ k_text (mkK (f_reg f)) +:+ mask +:+ ", " +:+ vvvv +:+ ", " +:+ rm_text f
        +:+ ", " +:+ imm_text d
  | SShift => n +:+ " " +:+ vvvv +:+ mask +:+ ", " +:+ rm_text f +:+ ", " +:+ imm_text d
  | SPref => n +:+ " " +:+ rm_text f
  end.

(** The disassembler: the text of the first instruction and what follows. *)
Definition disasm (bs : list Z) : option (string * list Z) :=
  '(d, rest) ← decode_mvex bs; Some (dis_text d, rest).

(** What the argument types guarantee: [u8] numbers, an [i32] displacement,
    and a [Mem] that [Mem::new] built. *)
Definition zmm_ok (z : Zmm) : Prop := u8 (zmm_n z).
Definition k_ok (k : K) : Prop := u8 (k_n k).
Definition mem_ok (m : Mem) : Prop := gpr_n (base m) .& 7 <> 4 /\ sint 32 (disp m).
Definition src_ok (s : Src) : Prop :=
  match s with SrcReg z => zmm_ok z | SrcMem m | SrcMemConv m _ => mem_ok m end.

(** A source without a conversion. *)
Definition plain_src (s : Src) : Prop :=
  match s with SrcMemConv _ c => c = NoConv | _ => True end.

(** ** Reading back a prefix *)

Definition rm_ok (rm : Rm) : Prop :=
  match rm with RmZmm z => zmm_ok z | RmMem m => mem_ok m end.

Lemma src_rm_ok s : src_ok s -> rm_ok (src_rm s).
Proof. by destruct s. Qed.

Lemma p0_fields map reg x b :
  0 <= reg < 32 -> 0 <= x < 2 -> 0 <= b < 2 ->
  let p0 := mvex_p0 map reg x b in
  map_of (p0 .& 3) = Some map /\ p0 .& 12 = 0 /\ 16 * inv 4 p0 + 8 * inv 7 p0 = reg - (reg .& 7) /\
  inv 6 p0 = x /\ inv 5 p0 = b /\ u8 p0.
Proof.
  intros Hr Hx Hb.
  assert (H : all_below 32 (fun reg => all_below 2 (fun x => all_below 2 (fun b =>
    let p0 := mvex_p0 map reg x b in
    bool_decide (map_of (p0 .& 3) = Some map) && (p0 .& 12 =? 0) &&
    (16 * inv 4 p0 + 8 * inv 7 p0 =? reg - (reg .& 7)) && (inv 6 p0 =? x) && (inv 5 p0 =? b) &&
    (0 <=? p0) && (p0 <? 256)))) = true) by (destruct map; vm_compute; reflexivity).
  apply (all_below_spec _ _ reg) in H; [|done]. apply (all_below_spec _ _ x) in H; [|done].
  apply (all_below_spec _ _ b) in H; [|done]. cbv zeta in *.
  rewrite !andb_true_iff in H. destruct H as ((((((H1&?)&?)&?)&?)&?)&?).
  apply bool_decide_eq_true in H1. unfold uint. change (2 ^ 8) with 256. split_and!; lia || done.
Qed.

Lemma p1_fields w vvvv pp :
  0 <= vvvv < 32 ->
  let p1 := mvex_p1 w vvvv pp in
  pp_of (p1 .& 3) = Some pp /\ p1 .& 4 = 0 /\ (bit 7 p1 =? 1) = w /\
  15 - (p1 ≫ 3 .& 15) = (vvvv .& 15) /\ u8 p1.
Proof.
  intros Hv.
  assert (H : all_below 32 (fun vvvv => let p1 := mvex_p1 w vvvv pp in
    bool_decide (pp_of (p1 .& 3) = Some pp) && (p1 .& 4 =? 0) && Bool.eqb (bit 7 p1 =? 1) w &&
    (15 - (p1 ≫ 3 .& 15) =? (vvvv .& 15)) && (0 <=? p1) && (p1 <? 256)) = true)
    by (destruct w, pp; vm_compute; reflexivity).
  apply (all_below_spec _ _ vvvv) in H; [|done]. cbv zeta in *.
  rewrite !andb_true_iff in H. destruct H as (((((H1&?)&H2)&?)&?)&?).
  apply bool_decide_eq_true in H1. apply Bool.eqb_prop in H2.
  unfold uint. change (2 ^ 8) with 256. split_and!; lia || done.
Qed.

Lemma p2_fields vvvv aaa sss eh :
  0 <= vvvv < 32 -> 0 <= aaa < 8 -> 0 <= sss < 8 -> 0 <= eh < 2 ->
  let p2 := mvex_p2 vvvv aaa .| (sss ≪ 4 .| eh ≪ 7) in
  16 * inv 3 p2 = vvvv - (vvvv .& 15) /\ p2 .& 7 = aaa /\ p2 ≫ 4 .& 7 = sss /\ bit 7 p2 = eh /\ u8 p2.
Proof.
  intros Hv Ha Hs He.
  assert (H : all_below 32 (fun vvvv => all_below 8 (fun aaa => all_below 8 (fun sss => all_below 2 (fun eh =>
    let p2 := mvex_p2 vvvv aaa .| (sss ≪ 4 .| eh ≪ 7) in
    (16 * inv 3 p2 =? vvvv - (vvvv .& 15)) && (p2 .& 7 =? aaa) && (p2 ≫ 4 .& 7 =? sss) &&
    (bit 7 p2 =? eh) && (0 <=? p2) && (p2 <? 256))))) = true) by (vm_compute; reflexivity).
  apply (all_below_spec _ _ vvvv) in H; [|done]. apply (all_below_spec _ _ aaa) in H; [|done].
  apply (all_below_spec _ _ sss) in H; [|done]. apply (all_below_spec _ _ eh) in H; [|done].
  cbv zeta in *. rewrite !andb_true_iff in H. destruct H as (((((?&?)&?)&?)&?)&?).
  unfold uint. change (2 ^ 8) with 256. split_and!; lia.
Qed.

Lemma modrm_fields md reg low :
  (md = 128 \/ md = 192) -> 0 <= reg < 32 -> 0 <= low < 8 ->
  let modrm := md .| (reg .& 7) ≪ 3 .| low in
  (modrm ≫ 3 .& 7) = reg .& 7 /\ modrm .& 7 = low /\ modrm ≫ 6 = md / 64 /\ u8 modrm.
Proof.
  intros Hm Hr Hl.
  assert (H : all_below 32 (fun reg => all_below 8 (fun low =>
    let modrm := md .| (reg .& 7) ≪ 3 .| low in
    ((modrm ≫ 3 .& 7) =? reg .& 7) && (modrm .& 7 =? low) && (modrm ≫ 6 =? md / 64) &&
    (0 <=? modrm) && (modrm <? 256))) = true) by (destruct Hm; subst md; vm_compute; reflexivity).
  apply (all_below_spec _ _ reg) in H; [|done]. apply (all_below_spec _ _ low) in H; [|done].
  cbv zeta in *. rewrite !andb_true_iff in H. destruct H as ((((?&?)&?)&?)&?).
  unfold uint. change (2 ^ 8) with 256. split_and!; lia.
Qed.

Lemma zmm_split n :
  0 <= n < 32 ->
  16 * (n ≫ 4 .& 1) + 8 * (n ≫ 3 .& 1) + (n .& 7) = n /\
  0 <= (n ≫ 4 .& 1) < 2 /\ 0 <= (n ≫ 3 .& 1) < 2 /\ 0 <= n .& 7 < 8.
Proof.
  intros Hn.
  assert (H : all_below 32 (fun n =>
    (16 * (n ≫ 4 .& 1) + 8 * (n ≫ 3 .& 1) + (n .& 7) =? n) && (0 <=? (n ≫ 4 .& 1)) &&
    ((n ≫ 4 .& 1) <? 2) && (0 <=? (n ≫ 3 .& 1)) && ((n ≫ 3 .& 1) <? 2) && (0 <=? n .& 7) &&
    (n .& 7 <? 8)) = true) by (vm_compute; reflexivity).
  apply (all_below_spec _ _ n) in H; [|done]. rewrite !andb_true_iff in H. lia.
Qed.

Lemma gpr_split g :
  gprs !! Z.to_nat (8 * (gpr_n g ≫ 3 .& 1) + (gpr_n g .& 7)) = Some g /\
  0 <= (gpr_n g ≫ 3 .& 1) < 2 /\ 0 <= gpr_n g .& 7 < 8.
Proof. destruct g; vm_compute; intuition discriminate. Qed.

Lemma disp_back d rest :
  sint 32 d -> take 4 (to_le_bytes 4 d ++ rest) = to_le_bytes 4 d /\
  drop 4 (to_le_bytes 4 d ++ rest) = rest /\
  signed 32 (from_le_bytes (to_le_bytes 4 d)) = d.
Proof.
  intros Hd. split; [reflexivity|]. split; [reflexivity|]. rewrite from_to_le_bytes.
  by apply (signed_wrap 32).
Qed.

(** The bits of the r/m operand that go into P0. *)
Definition rm_x (rm : Rm) : Z := match rm with RmZmm z => zmm_n z ≫ 4 .& 1 | RmMem _ => 0 end.
Definition rm_b (rm : Rm) : Z :=
  match rm with RmZmm z => zmm_n z ≫ 3 .& 1 | RmMem m => gpr_n (base m) ≫ 3 .& 1 end.

Definition imm_bytes (imm : option Z) : list Z :=
  match imm with Some i => [i] | None => [] end.

(** When [mvex] does not panic, and what it then emits. *)
Lemma mvex_some map pp w reg vvvv rm aaa opcode imm bs :
  mvex map pp w reg vvvv rm aaa opcode imm = Some bs ->
  reg < 32 /\ vvvv < 32 /\ aaa < 8 /\ (match rm with RmZmm z => zmm_n z < 32 | _ => True end) /\
  bs = [98; mvex_p0 map reg (rm_x rm) (rm_b rm); mvex_p1 w vvvv pp; mvex_p2 vvvv aaa; opcode]
         ++ mvex_rm reg rm ++ imm_bytes imm.
Proof.
  unfold mvex, assert_. case_match; [|done].
  assert (reg < 32 /\ vvvv < 32 /\ aaa < 8) as (?&?&?) by lia. destruct rm as [z|m].
  - destruct (zmm_n z <? 32) eqn:E; [|done]. intros [= <-]. split_and!; try done; lia.
  - intros [= <-]. by split_and!.
Qed.

Lemma rm_of_mvex map reg rm rest :
  0 <= reg < 32 -> rm_ok rm -> (match rm with RmZmm z => zmm_n z < 32 | _ => True end) ->
  exists modrm tl, mvex_rm reg rm = modrm :: tl /\ (modrm ≫ 3 .& 7) = reg .& 7 /\
    rm_of (mvex_p0 map reg (rm_x rm) (rm_b rm)) modrm (tl ++ rest) = Some (rm, rest).
Proof.
  intros Hr Hrm Hz. destruct rm as [[n]|[g d]]; cbn [rm_x rm_b zmm_n base mvex_rm disp] in *.
  - unfold rm_ok, zmm_ok in Hrm. cbn in Hrm. destruct Hrm as [Hn _].
    destruct (zmm_split n ltac:(lia)) as (He & ? & ? & ?).
    destruct (p0_fields map reg (n ≫ 4 .& 1) (n ≫ 3 .& 1) Hr) as (_ & _ & _ & Hx & Hb & _); [done..|].
    destruct (modrm_fields 192 reg (n .& 7)) as (Hm1 & Hm2 & Hm3 & _); [by right|done..|].
    do 2 eexists. split_and!; [reflexivity|done|]. unfold rm_of.
    rewrite Hm2, Hm3, Hx, Hb, He. done.
  - destruct Hrm as [Hg Hd]. cbn in Hg, Hd. destruct (gpr_split g) as (He & ? & ?).
    destruct (p0_fields map reg 0 (gpr_n g ≫ 3 .& 1) Hr) as (_ & _ & _ & _ & Hb & _); [done..|].
    destruct (modrm_fields 128 reg (gpr_n g .& 7)) as (Hm1 & Hm2 & Hm3 & _); [by left|done..|].
    do 2 eexists. split_and!; [reflexivity|done|]. unfold rm_of.
    destruct (disp_back d rest Hd) as (Ht & Hdr & Hs).
    rewrite Hm2, Hm3, Hb, Ht, Hdr, Hs, He. cbn [mbind option_bind].
    replace (len (to_le_bytes 4 d ++ rest)) with (4 + len rest) by (rewrite len_app; unfold len at 2; by rewrite length_to_le_bytes).
    pose proof (len_nonneg rest). change (128 / 64 =? 3) with false.
    change (128 / 64 =? 2) with true.
    rewrite (proj2 (Z.eqb_neq _ _) Hg), (proj2 (Z.leb_le 4 (4 + len rest))) by lia. done.
Qed.

(** The layout round trip: the decoder of the documented layout reads back
    every field [mvex] was given, the SSS and EH bits set afterwards too. *)
Lemma mvex_fields_mvex map pp w reg vvvv rm aaa opcode imm sss eh bs rest :
  mvex map pp w reg vvvv rm aaa opcode imm = Some bs ->
  0 <= reg -> 0 <= vvvv -> rm_ok rm -> 0 <= aaa -> 0 <= sss < 8 -> 0 <= eh < 2 ->
  mvex_fields (or_p2 (sss ≪ 4 .| eh ≪ 7) bs ++ rest) =
  Some (mkFields map pp w opcode reg vvvv rm aaa sss eh, imm_bytes imm ++ rest).
Proof.
  intros Hbs Hr Hv Hrm Ha Hs He. apply mvex_some in Hbs as (?&?&?&Hz&->).
  destruct (rm_of_mvex map reg rm (imm_bytes imm ++ rest) ltac:(lia) Hrm Hz)
    as (modrm & tl & -> & Hreg & Hro).
  assert (Hx : 0 <= rm_x rm < 2 /\ 0 <= rm_b rm < 2).
  { destruct rm as [[n]|[g ?]]; cbn.
    - destruct Hrm. destruct (zmm_split n) as (?&?&?&?); [cbn in *; lia|]. lia.
    - destruct (gpr_split g) as (?&?&?). lia. }
  destruct Hx as [Hx Hb].
  destruct (p0_fields map reg (rm_x rm) (rm_b rm) ltac:(lia) Hx Hb) as (F1 & F2 & F3 & _).
  destruct (p1_fields w vvvv pp ltac:(lia)) as (F4 & F5 & F6 & F7 & _).
  destruct (p2_fields vvvv aaa sss eh ltac:(lia) ltac:(lia) Hs He) as (F8 & F9 & F10 & F11 & _).
  unfold mvex_fields. cbn [or_p2 alter list_alter app]. cbv beta iota zeta.
  rewrite F2, F5, F1, F4, <- app_assoc. cbn [mbind option_bind andb Z.eqb Pos.eqb].
  rewrite Hro. cbn [mbind option_bind]. rewrite F3, F6, F7, F8, F9, F10, F11, Hreg.
  do 2 f_equal. f_equal; lia.
Qed.

Lemma or_p2_0 bs : or_p2 0 bs = bs.
Proof.
  apply list_eq. intros i. unfold or_p2. destruct (decide (i = 3%nat)) as [->|].
  - rewrite list_lookup_alter. destruct (bs !! 3%nat); cbn; [by rewrite Z.lor_0_r|done].
  - by rewrite list_lookup_alter_ne.
Qed.

(** What a call assembles, and the SSS and EH bits it sets. *)
Record Parts := mkParts {
  p_map : Map; p_pp : Pp; p_w : bool; p_reg : Z; p_vvvv : Z; p_rm : Rm; p_aaa : Z;
  p_opcode : Z; p_imm : option Z; p_sss : Z; p_eh : Z
}.

Definition parts_ok (p : Parts) : Prop :=
  0 <= p_reg p /\ 0 <= p_vvvv p /\ rm_ok (p_rm p) /\ 0 <= p_aaa p /\ 0 <= p_sss p < 8 /\
  0 <= p_eh p < 2.

Definition parts_fields (p : Parts) : Fields :=
  mkFields (p_map p) (p_pp p) (p_w p) (p_opcode p) (p_reg p) (p_vvvv p) (p_rm p) (p_aaa p)
    (p_sss p) (p_eh p).

Definition parts_mvex (p : Parts) : option (list Z) :=
  mvex (p_map p) (p_pp p) (p_w p) (p_reg p) (p_vvvv p) (p_rm p) (p_aaa p) (p_opcode p) (p_imm p).

(** The bytes [i] carries are those of the parts [p]. *)
Definition made_of (p : Parts) (i : Insn) : Prop :=
  exists bs, parts_mvex p = Some bs /\ bytes i = or_p2 (p_sss p ≪ 4 .| p_eh p ≪ 7) bs.

Lemma decode_parts p i r rest :
  made_of p i -> parts_ok p -> List.find (row_matches (parts_fields p)) table = Some r ->
  has_imm (r_shape r) = bool_decide (is_Some (p_imm p)) ->
  decode_mvex (bytes i ++ rest) = Some (mkDInsn r (parts_fields p) (p_imm p), rest).
Proof.
  intros (bs & Hbs & ->) (?&?&?&?&?&?) Hr Him. unfold decode_mvex.
  erewrite mvex_fields_mvex by done. cbn [mbind option_bind].
  change (mkFields _ _ _ _ _ _ _ _ _ _) with (parts_fields p). rewrite Hr. cbn [mbind option_bind].
  rewrite Him. by destruct (p_imm p).
Qed.

Lemma insn_made map pp w reg vvvv rm aaa opcode imm t i :
  insn (mvex map pp w reg vvvv rm aaa opcode imm) t = Some i ->
  made_of (mkParts map pp w reg vvvv rm aaa opcode imm 0 0) i /\ text i = t.
Proof.
  unfold insn, made_of, parts_mvex. cbn [p_map p_pp p_w p_reg p_vvvv p_rm p_aaa p_opcode p_imm].
  destruct (mvex _ _ _ _ _ _ _ _ _) as [bs|]; [|done].
  intros [= <-]. split; [|done]. exists bs. split; [done|]. symmetry. apply or_p2_0.
Qed.

Lemma insn_sss_made map pp w reg vvvv rm aaa opcode imm sss t i :
  insn_sss (mvex map pp w reg vvvv rm aaa opcode imm) sss t = Some i ->
  made_of (mkParts map pp w reg vvvv rm aaa opcode imm sss 0) i /\ text i = t.
Proof.
  unfold insn_sss, made_of, parts_mvex.
  cbn [p_map p_pp p_w p_reg p_vvvv p_rm p_aaa p_opcode p_imm p_sss p_eh].
  destruct (mvex _ _ _ _ _ _ _ _ _) as [bs|]; [|done].
  intros [= <-]. split; [|done]. exists bs. split; [done|].
  cbn [bytes]. unfold with_sss. by rewrite Z.shiftl_0_l, Z.lor_0_r.
Qed.

Lemma insn_eh_made map pp w reg vvvv rm aaa opcode imm t i :
  (bs ← mvex map pp w reg vvvv rm aaa opcode imm; Some (mkInsn (or_p2 128 bs) t)) = Some i ->
  made_of (mkParts map pp w reg vvvv rm aaa opcode imm 0 1) i /\ text i = t.
Proof.
  unfold made_of, parts_mvex. cbn [p_map p_pp p_w p_reg p_vvvv p_rm p_aaa p_opcode p_imm].
  destruct (mvex _ _ _ _ _ _ _ _ _) as [bs|]; [|done].
  intros [= <-]. split; [|done]. by exists bs.
Qed.

(** The sources' SSS field and its text. *)
Lemma conv_of_n c : conv_of (conv_n c) = c.
Proof. by destruct c. Qed.

Lemma conv_n_range c : 0 <= conv_n c < 8.
Proof. by destruct c. Qed.

Lemma src_sss_range s : 0 <= src_sss s < 8.
Proof. destruct s; [done..|apply conv_n_range]. Qed.

Lemma app_empty_r t : (t +:+ "" = t)%string.
Proof.
  induction t as [|a t IH]; [done|]. change (String a (t +:+ "") = String a t)%string. by f_equal.
Qed.

Lemma src_rm_text map pp w opcode reg vvvv s aaa :
  rm_text (mkFields map pp w opcode reg vvvv (src_rm s) aaa (src_sss s) 0) = src_text s.
Proof.
  destruct s as [z|m|m c]; [done| |]; unfold rm_text; cbn.
  - apply app_empty_r.
  - by rewrite conv_of_n.
Qed.

Lemma plain_src_sss s : plain_src s -> src_sss s = 0.
Proof. destruct s; cbn; [done..|]. by intros ->. Qed.

Lemma src_plain_text map pp w opcode reg vvvv s aaa :
  plain_src s ->
  rm_text (mkFields map pp w opcode reg vvvv (src_rm s) aaa 0 0) = src_text s.
Proof.
  destruct s as [z|m|m c]; cbn; [done| |by intros ->]. intros _. apply app_empty_r.
Qed.

Lemma mask_text_eta k : mask_text (mkK (k_n k)) = mask_text k.
Proof. by destruct k. Qed.
Lemma zmm_text_eta z : zmm_text (mkZmm (zmm_n z)) = zmm_text z.
Proof. by destruct z. Qed.
Lemma k_text_eta k : k_text (mkK (k_n k)) = k_text k.
Proof. by destruct k. Qed.

Lemma disasm_parts p i r rest :
  made_of p i /\ text i = dis_text (mkDInsn r (parts_fields p) (p_imm p)) ->
  parts_ok p -> List.find (row_matches (parts_fields p)) table = Some r ->
  has_imm (r_shape r) = bool_decide (is_Some (p_imm p)) ->
  disasm (bytes i ++ rest) = Some (text i, rest).
Proof.
  intros [Hm Ht] Hp Hr Hi. unfold disasm. rewrite (decode_parts p i r rest) by done.
  cbn [mbind option_bind]. by rewrite Ht.
Qed.

Lemma app_str_assoc (a b c : string) : ((a +:+ b) +:+ c = a +:+ (b +:+ c))%string.
Proof.
  induction a as [|x a IH]; [done|].
  change (String x ((a +:+ b) +:+ c) = String x (a +:+ (b +:+ c)))%string. by f_equal.
Qed.

Lemma mem_rm_text map pp w opcode reg vvvv m aaa sss eh :
  rm_text (mkFields map pp w opcode reg vvvv (RmMem m) aaa sss eh) =
  mem_text m +:+ conv_text (conv_of sss).
Proof. done. Qed.

(** Runs a call: the parts it is made of, then the table row by evaluation;
    what is left is the text. *)
Ltac made H :=
  first [ apply insn_sss_made in H | apply insn_made in H | apply insn_eh_made in H ].

Ltac parts :=
  split_and!; cbn;
  first [ assumption | lia | apply src_rm_ok; assumption | apply src_sss_range
        | apply conv_n_range | unfold zmm_ok, uint; lia | split; assumption ].

Ltac disasm_call H :=
  made H; let Ht := fresh "Ht" in destruct H as [H Ht];
  match type of H with made_of ?p ?i => eapply (disasm_parts p i) end; [ |parts|reflexivity|reflexivity];
  split; [exact H|rewrite Ht];
  unfold three_text, store_text, load_text, two_text, dis_text, parts_fields, imm_text;
  cbn [d_fields d_row d_imm row r_shape r_name r_mnem p_map p_pp p_w p_reg p_vvvv p_rm p_aaa
       p_opcode p_imm p_sss p_eh f_reg f_vvvv f_aaa f_rm f_sss default];
  rewrite ?mask_text_eta, ?zmm_text_eta, ?k_text_eta, ?src_rm_text, ?mem_rm_text, ?conv_of_n;
  try change (conv_text (conv_of 0)) with ""%string;
  rewrite ?app_empty_r, ?app_str_assoc; cbn [Z.ltb Z.compare Pos.compare Pos.compare_cont bool_decide].
