(* ===== verification/MvexCalls.v ===== *)
(** The calls of the MVEX encoder (host/crates/knc-mvex/src/lib.rs, conv.rs,
    transc.rs) that assemble a vector instruction: that the bytes disassemble
    to the text where the function writes what it is asked, that they decode
    uniquely, which operands are assembled; the byte shape the audit relies
    on; the Intel kernel macros the source reproduces.  The theorems about
    every function of the encoder and all operands are in [Encoder]. *)

From S2P Require Import Prelude Bytes Mvex MvexDis.

Local Open Scope Z_scope.
Local Open Scope phi_scope.

(** ** The encoder's calls

    One value per call of an encoder function; the functions of one
    signature are picked by mnemonic. *)

Definition three_fn (m : Mnem) : option (Zmm -> Zmm -> Src -> K -> option Insn) :=
  match m with
  | Vaddpd => Some vaddpd | Vsubpd => Some vsubpd | Vmulpd => Some vmulpd
  | Vfmadd213pd => Some vfmadd213pd | Vfmadd231pd => Some vfmadd231pd
  | Vaddps => Some vaddps | Vsubps => Some vsubps | Vmulps => Some vmulps
  | Vfmadd213ps => Some vfmadd213ps | Vfmadd231ps => Some vfmadd231ps
  | Vfnmadd231ps => Some vfnmadd231ps | Vfmsub213ps => Some vfmsub213ps
  | Vfmsub231ps => Some vfmsub231ps
  | Vpaddd => Some vpaddd | Vpsubd => Some vpsubd | Vpandd => Some vpandd
  | Vpandnd => Some vpandnd | Vpord => Some vpord | Vpxord => Some vpxord
  | Vpsllvd => Some vpsllvd | Vpsrlvd => Some vpsrlvd | Vpermd => Some vpermd
  | _ => None
  end.

Definition load_fn (m : Mnem) : option (Zmm -> Mem -> K -> option Insn) :=
  match m with
  | Vloadunpackld => Some vloadunpackld | Vloadunpackhd => Some vloadunpackhd
  | Vpbroadcastd => Some vpbroadcastd | _ => None
  end.

Definition load_conv_fn (m : Mnem) : option (Zmm -> Mem -> Conv -> K -> option Insn) :=
  match m with
  | VmovapsL => Some vmovaps_load_conv | Vmovdqa32 => Some vmovdqa32_load_conv
  | Vloadunpackld => Some vloadunpackld_conv | Vloadunpackhd => Some vloadunpackhd_conv
  | Vloadunpacklps => Some vloadunpacklps_conv | Vloadunpackhps => Some vloadunpackhps_conv
  | _ => None
  end.

Definition store_fn (m : Mnem) : option (Mem -> Zmm -> K -> option Insn) :=
  match m with
  | VmovapdS => Some vmovapd_store | Vpackstoreld => Some vpackstoreld
  | Vpackstorehd => Some vpackstorehd | _ => None
  end.

Definition full_store_fn (m : Mnem) : option (Mem -> Zmm -> option Insn) :=
  match m with
  | VmovapsS => Some vmovaps_store | Vmovnraps => Some vmovnraps_store
  | Vmovnrngoaps => Some vmovnrngoaps_store | _ => None
  end.

Definition cmp_fn (m : Mnem) : option (K -> Zmm -> Src -> Cmp -> K -> option Insn) :=
  match m with Vcmppd => Some vcmppd | Vcmpps => Some vcmpps | _ => None end.

Definition shift_fn (m : Mnem) : option (Zmm -> Src -> Z -> K -> option Insn) :=
  match m with
  | Vpslld => Some vpslld | Vpsrld => Some vpsrld | Vpsrad => Some vpsrad | _ => None
  end.

Definition transc_fn (m : Mnem) : option (Zmm -> Zmm -> K -> option Insn) :=
  match m with Vexp223ps => Some vexp223ps | Vrcp23ps => Some vrcp23ps | _ => None end.

Definition round_fn (m : Mnem) : option (Zmm -> Src -> Round -> K -> option Insn) :=
  match m with
  | Vrndfxpntps => Some vrndfxpntps | Vcvtfxpntps2dq => Some vcvtfxpntps2dq | _ => None
  end.

Inductive Call :=
| CThree (m : Mnem) (dst src1 : Zmm) (src2 : Src) (k : K)
| CLoad (m : Mnem) (dst : Zmm) (mem : Mem) (k : K)
| CLoadConv (m : Mnem) (dst : Zmm) (mem : Mem) (conv : Conv) (k : K)
| CStore (m : Mnem) (mem : Mem) (src : Zmm) (k : K)
| CFullStore (m : Mnem) (mem : Mem) (src : Zmm)
| CCmp (m : Mnem) (dst : K) (src1 : Zmm) (src2 : Src) (pred : Cmp) (k : K)
| CShift (m : Mnem) (dst : Zmm) (src : Src) (count : Z) (k : K)
| CTransc (m : Mnem) (dst src : Zmm) (k : K)
| CRound (m : Mnem) (dst : Zmm) (src : Src) (mode : Round) (k : K)
| CMovaps (dst : Zmm) (mem : Mem)
| CMovapd (dst : Zmm) (src : Src) (k : K)
| CCvtDq2ps (dst : Zmm) (src : Src) (k : K)
| CCvtAdj (dst : Zmm) (src : Src) (mode : Round) (adj : ExpAdj) (k : K)
| CStoreConv (mem : Mem) (src : Zmm) (conv : Conv) (k : K)
| CPrefetch (mem : Mem) (cache : Cache).

(** Runs the call. *)
Definition run_call (c : Call) : option Insn :=
  match c with
  | CThree m dst src1 src2 k => f ← three_fn m; f dst src1 src2 k
  | CLoad m dst mem k => f ← load_fn m; f dst mem k
  | CLoadConv m dst mem conv k => f ← load_conv_fn m; f dst mem conv k
  | CStore m mem src k => f ← store_fn m; f mem src k
  | CFullStore m mem src => f ← full_store_fn m; f mem src
  | CCmp m dst src1 src2 pred k => f ← cmp_fn m; f dst src1 src2 pred k
  | CShift m dst src count k => f ← shift_fn m; f dst src count k
  | CTransc m dst src k => f ← transc_fn m; f dst src k
  | CRound m dst src mode k => f ← round_fn m; f dst src mode k
  | CMovaps dst mem => vmovaps_load dst mem
  | CMovapd dst src k => vmovapd_load dst src k
  | CCvtDq2ps dst src k => vcvtfxpntdq2ps dst src k
  | CCvtAdj dst src mode adj k => vcvtfxpntps2dq_adj dst src mode adj k
  | CStoreConv mem src conv k => vmovaps_store_conv mem src conv k
  | CPrefetch mem cache => vprefetch mem cache
  end.

(** The guarantees of a call's argument types. *)
Definition call_ok (c : Call) : Prop :=
  match c with
  | CThree _ dst src1 src2 k => zmm_ok dst /\ zmm_ok src1 /\ src_ok src2 /\ k_ok k
  | CLoad _ dst mem k => zmm_ok dst /\ mem_ok mem /\ k_ok k
  | CLoadConv _ dst mem _ k => zmm_ok dst /\ mem_ok mem /\ k_ok k
  | CStore _ mem src k => mem_ok mem /\ zmm_ok src /\ k_ok k
  | CFullStore _ mem src => mem_ok mem /\ zmm_ok src
  | CCmp _ dst src1 src2 _ k => k_ok dst /\ zmm_ok src1 /\ src_ok src2 /\ k_ok k
  | CShift _ dst src count k => zmm_ok dst /\ src_ok src /\ u8 count /\ k_ok k
  | CTransc _ dst src k => zmm_ok dst /\ zmm_ok src /\ k_ok k
  | CRound _ dst src _ k | CMovapd dst src k | CCvtDq2ps dst src k | CCvtAdj dst src _ _ k =>
      zmm_ok dst /\ src_ok src /\ k_ok k
  | CMovaps dst mem => zmm_ok dst /\ mem_ok mem
  | CStoreConv mem src _ k => mem_ok mem /\ zmm_ok src /\ k_ok k
  | CPrefetch mem _ => mem_ok mem
  end.

(** The calls whose text is what they write; the others (a converted source
    given to a function that does not apply [with_sss], and the zero
    adjustment, in hexadecimal where the plain form is decimal) are reduced
    to these by [Encoder.written]. *)
Definition call_canonical (c : Call) : Prop :=
  match c with
  | CCmp _ _ _ src _ _ | CShift _ _ src _ _ | CMovapd _ src _ => plain_src src
  | CCvtAdj _ _ _ adj _ => adj <> AdjNone
  | _ => True
  end.

(** ** The text of every call *)

Lemma disasm_three m dst src1 src2 k i rest :
  call_ok (CThree m dst src1 src2 k) -> run_call (CThree m dst src1 src2 k) = Some i ->
  disasm (bytes i ++ rest) = Some (text i, rest).
Proof.
  intros ([? _]&[? _]&?&[? _]) Hc.
  destruct m; try discriminate Hc; cbn [run_call three_fn mbind option_bind] in Hc;
    by disasm_call Hc.
Qed.

Lemma disasm_loads c i rest :
  call_ok c -> run_call c = Some i ->
  match c with
  | CLoad _ _ _ _ | CLoadConv _ _ _ _ _ | CMovaps _ _ | CPrefetch _ _ | CTransc _ _ _ _ => True
  | _ => False
  end ->
  disasm (bytes i ++ rest) = Some (text i, rest).
Proof.
  intros Hok Hc Hs. destruct c as [|m dst mem k|m dst mem conv k| | | | |m dst src k| |dst mem| | | | |mem cache]; try done.
  - destruct Hok as ([? _]&?&[? _]).
    destruct m; try discriminate Hc; cbn [run_call load_fn mbind option_bind] in Hc;
      by disasm_call Hc.
  - destruct Hok as ([? _]&?&[? _]).
    destruct m; try discriminate Hc; cbn [run_call load_conv_fn mbind option_bind] in Hc;
      try (destruct conv; try discriminate Hc);
      by disasm_call Hc.
  - destruct Hok as ([? _]&[? ?]&[? _]).
    destruct m; try discriminate Hc; cbn [run_call transc_fn mbind option_bind] in Hc; by disasm_call Hc.
  - destruct Hok as ([? _]&?). cbn [run_call] in Hc. by disasm_call Hc.
  - destruct cache; cbn [run_call] in Hc; by disasm_call Hc.
Qed.

Lemma disasm_stores c i rest :
  call_ok c -> run_call c = Some i ->
  match c with
  | CStore _ _ _ _ | CFullStore _ _ _ | CStoreConv _ _ _ _ => True
  | _ => False
  end ->
  disasm (bytes i ++ rest) = Some (text i, rest).
Proof.
  intros Hok Hc Hs. destruct c as [| | |m mem src k|m mem src| | | | | | | | |mem src conv k|]; try done.
  - destruct Hok as (?&[? _]&[? _]).
    destruct m; try discriminate Hc; cbn [run_call store_fn mbind option_bind] in Hc; by disasm_call Hc.
  - destruct Hok as (?&[? _]).
    destruct m; try discriminate Hc; cbn [run_call full_store_fn mbind option_bind] in Hc;
      by disasm_call Hc.
  - destruct Hok as (?&[? _]&[? _]). cbn [run_call] in Hc.
    destruct conv; try discriminate Hc; by disasm_call Hc.
Qed.

Lemma disasm_sources c i rest :
  call_ok c -> call_canonical c -> run_call c = Some i ->
  match c with
  | CCmp _ _ _ _ _ _ | CShift _ _ _ _ _ | CRound _ _ _ _ _ | CMovapd _ _ _
  | CCvtDq2ps _ _ _ | CCvtAdj _ _ _ _ _ => True
  | _ => False
  end ->
  disasm (bytes i ++ rest) = Some (text i, rest).
Proof.
  intros Hok Hcan Hc Hs.
  destruct c as [| | | | |m dst src1 src2 pred k|m dst src count k| |m dst src mode k| |dst src k
                |dst src k|dst src mode adj k| |]; try done.
  - destruct Hok as ([? _]&[? _]&?&[? _]).
    destruct m; try discriminate Hc; cbn [run_call cmp_fn mbind option_bind] in Hc;
      disasm_call Hc; by rewrite src_plain_text.
  - destruct Hok as ([? _]&?&_&[? _]). unfold run_call in Hc.
    destruct m; try discriminate Hc; cbn [shift_fn mbind option_bind] in Hc;
      disasm_call Hc; by rewrite src_plain_text.
  - destruct Hok as ([? _]&?&[? _]).
    destruct m; try discriminate Hc; cbn [run_call round_fn mbind option_bind] in Hc;
      disasm_call Hc; by destruct mode.
  - destruct Hok as ([? _]&?&[? _]). cbn [run_call] in Hc. disasm_call Hc.
    by rewrite src_plain_text.
  - destruct Hok as ([? _]&?&[? _]). cbn [run_call] in Hc. by disasm_call Hc.
  - destruct Hok as ([? _]&?&[? _]). cbn [run_call] in Hc. disasm_call Hc.
    by destruct mode, adj.
Qed.

(** ** All of them *)

Lemma disasm_canonical c i rest :
  call_ok c -> call_canonical c -> run_call c = Some i ->
  disasm (bytes i ++ rest) = Some (text i, rest).
Proof.
  intros Hok Hcan Hc. destruct c;
    first [ by apply (disasm_three _ _ _ _ _ _ _ Hok) | by apply (disasm_loads _ _ _ Hok Hc)
          | by apply (disasm_stores _ _ _ Hok Hc) | by apply (disasm_sources _ _ _ Hok Hcan Hc) ].
Qed.

(** The encoding is uniquely decodable: if two byte streams that start
    with encoded instructions are equal, the two instructions show the same
    text and the rests are equal.  No encoded instruction is a prefix of
    another, so a block of [.byte] lines has one reading. *)
Theorem unique_decoding c1 c2 i1 i2 r1 r2 :
  call_ok c1 -> call_ok c2 -> call_canonical c1 -> call_canonical c2 ->
  run_call c1 = Some i1 -> run_call c2 = Some i2 ->
  bytes i1 ++ r1 = bytes i2 ++ r2 -> i1 = i2 /\ r1 = r2.
Proof.
  intros ?? ?? H1 H2 He.
  pose proof (disasm_canonical c1 i1 r1 ltac:(done) ltac:(done) H1) as D1.
  pose proof (disasm_canonical c2 i2 r2 ltac:(done) ltac:(done) H2) as D2.
  rewrite He, D2 in D1. injection D1 as Ht Hr. subst r2.
  apply app_inv_tail in He. split; [|done]. destruct i1, i2. cbn in *. by subst.
Qed.

(** ** Panics *)

Definition zmm_exists (z : Zmm) : bool := zmm_n z <? 32.
Definition k_exists (k : K) : bool := k_n k <? 8.
Definition src_exists (s : Src) : bool :=
  match s with SrcReg z => zmm_exists z | _ => true end.

(** The operands the encoder accepts: the registers are in range (a compare's
    destination only below 32), and the functions that refuse broadcasts get
    none. *)
Definition call_in_range (c : Call) : bool :=
  match c with
  | CThree m dst src1 src2 k =>
      bool_decide (is_Some (three_fn m)) && zmm_exists dst && zmm_exists src1 && src_exists src2
      && k_exists k
  | CLoad m dst _ k => bool_decide (is_Some (load_fn m)) && zmm_exists dst && k_exists k
  | CLoadConv m dst _ conv k =>
      bool_decide (is_Some (load_conv_fn m)) && zmm_exists dst && k_exists k
      && negb (bool_decide (m = Vloadunpackld \/ m = Vloadunpackhd) && is_bcast conv)
  | CStore m _ src k => bool_decide (is_Some (store_fn m)) && zmm_exists src && k_exists k
  | CFullStore m _ src => bool_decide (is_Some (full_store_fn m)) && zmm_exists src
  | CCmp m dst src1 src2 _ k =>
      bool_decide (is_Some (cmp_fn m)) && (k_n dst <? 32) && zmm_exists src1 && src_exists src2
      && k_exists k
  | CShift m dst src _ k =>
      bool_decide (is_Some (shift_fn m)) && zmm_exists dst && src_exists src && k_exists k
  | CTransc m dst src k =>
      bool_decide (is_Some (transc_fn m)) && zmm_exists dst && zmm_exists src && k_exists k
  | CRound m dst src _ k =>
      bool_decide (is_Some (round_fn m)) && zmm_exists dst && src_exists src && k_exists k
  | CMovapd dst src k | CCvtDq2ps dst src k | CCvtAdj dst src _ _ k =>
      zmm_exists dst && src_exists src && k_exists k
  | CMovaps dst _ => zmm_exists dst
  | CStoreConv _ src conv k => zmm_exists src && k_exists k && negb (is_bcast conv)
  | CPrefetch _ _ => true
  end.

Lemma mvex_is_some map pp w reg vvvv rm aaa opcode imm :
  bool_decide (is_Some (mvex map pp w reg vvvv rm aaa opcode imm)) =
  (reg <? 32) && (vvvv <? 32) && (aaa <? 8) &&
  match rm with RmZmm z => zmm_exists z | RmMem _ => true end.
Proof.
  unfold mvex, assert_, zmm_exists. destruct ((reg <? 32) && (vvvv <? 32) && (aaa <? 8)); [|done].
  destruct rm as [z|m]; [|done]. by destruct (zmm_n z <? 32).
Qed.

Lemma insn_is_some bs t : bool_decide (is_Some (insn bs t)) = bool_decide (is_Some bs).
Proof. by destruct bs. Qed.
Lemma insn_sss_is_some bs sss t : bool_decide (is_Some (insn_sss bs sss t)) = bool_decide (is_Some bs).
Proof. by destruct bs. Qed.
Lemma insn_eh_is_some bs v t :
  bool_decide (is_Some (bs ← bs; Some (mkInsn (or_p2 v bs) t))) = bool_decide (is_Some bs).
Proof. by destruct bs. Qed.

Lemma src_rm_exists s :
  match src_rm s with RmZmm z => zmm_exists z | RmMem _ => true end = src_exists s.
Proof. by destruct s. Qed.

Lemma String_length_app a b : String.length (a +:+ b) = (String.length a + String.length b)%nat.
Proof. induction a; [done|]. change (S (String.length (a0 +:+ b)) = S (String.length a0 + String.length b)). by f_equal. Qed.

(** Case analysis on the range tests of an equation of booleans. *)
Ltac booleans :=
  repeat match goal with
  | |- context [zmm_n ?z <? 32] => destruct (zmm_n z <? 32)
  | |- context [k_n ?k <? ?n] => destruct (k_n k <? n)
  | |- context [src_exists ?s] => destruct (src_exists s)
  end; reflexivity.

(** Unfolds a call to the [insn] it ends in. *)
Ltac to_insn :=
  repeat lazymatch goal with
  | |- bool_decide (is_Some ?t) = _ =>
      lazymatch t with
      | insn _ _ => fail
      | insn_sss _ _ _ => fail
      | mbind _ _ => fail
      | _ => let t' := eval red in t in change t with t'; cbv beta iota zeta
      end
  end.

Lemma run_call_is_some c : bool_decide (is_Some (run_call c)) = call_in_range c.
Proof.
  destruct c; cbn [run_call call_in_range]; try (destruct m; try done);
    cbn [three_fn load_fn load_conv_fn store_fn full_store_fn cmp_fn shift_fn transc_fn round_fn
         mbind option_bind];
    try (destruct conv; try by rewrite ?andb_false_r);
    to_insn; rewrite ?insn_is_some, ?insn_sss_is_some, ?insn_eh_is_some, mvex_is_some,
      ?src_rm_exists; cbn [src_exists]; unfold zmm_exists, k_exists; try destruct cache; booleans.
Qed.

Lemma run_call_returns c : call_in_range c = true -> is_Some (run_call c).
Proof. rewrite <- run_call_is_some. apply bool_decide_eq_true. Qed.

(** ** Equivalent and divergent forms *)

(** The bytes of a call, when it returns. *)
Definition insn_bytes (o : option Insn) : option (list Z) := bytes <$> o.

(** The forms the source gives twice assemble to the same bytes: the
    older float16 load and the converting load with [F16], the plain store
    and load and the converting ones without conversion, the conversion to
    integers with and without a zero adjustment, the plain unaligned pair
    and the converting one. *)
Theorem equal_forms dst mem src mode k :
  insn_bytes (vmovaps_load_f16 dst mem) = insn_bytes (vmovaps_load_conv dst mem F16 (mkK 0)) /\
  insn_bytes (vmovaps_load dst mem) = insn_bytes (vmovaps_load_conv dst mem NoConv (mkK 0)) /\
  insn_bytes (vmovaps_store mem dst) = insn_bytes (vmovaps_store_conv mem dst NoConv (mkK 0)) /\
  insn_bytes (vcvtfxpntps2dq dst src mode k) =
    insn_bytes (vcvtfxpntps2dq_adj dst src mode AdjNone k) /\
  vloadunpackld dst mem k = vloadunpackld_conv dst mem NoConv k /\
  vloadunpackhd dst mem k = vloadunpackhd_conv dst mem NoConv k.
Proof.
  unfold vmovaps_load_f16, vmovaps_load_conv, vmovaps_load, vmovaps_store, vmovaps_store_conv,
    vcvtfxpntps2dq, vcvtfxpntps2dq_adj, vloadunpackld, vloadunpackld_conv, vloadunpackhd,
    vloadunpackhd_conv, assert_, insn_bytes, insn, insn_sss, with_sss.
  cbn [is_bcast negb conv_n adj_n k_n conv_text]. rewrite !Z.shiftl_0_l, !Z.lor_0_l.
  repeat split; try (destruct (mvex _ _ _ _ _ _ _ _ _); [|done]); cbn;
    rewrite ?or_p2_0, ?app_empty_r; done.
Qed.

(** Six functions take a converted source and drop the conversion: the
    compares, the float64 move and the immediate shifts assemble the bytes
    of the unconverted memory operand, while the text shows the conversion
    (the two texts of the operand are equal only for [NoConv]), so the
    comment beside the bytes is false and the machine reads other data than
    the call asked for. *)
Theorem conversion_dropped dst kd src1 m c pred count k :
  insn_bytes (vcmppd kd src1 (SrcMemConv m c) pred k) =
    insn_bytes (vcmppd kd src1 (SrcMem m) pred k) /\
  insn_bytes (vcmpps kd src1 (SrcMemConv m c) pred k) =
    insn_bytes (vcmpps kd src1 (SrcMem m) pred k) /\
  insn_bytes (vmovapd_load dst (SrcMemConv m c) k) = insn_bytes (vmovapd_load dst (SrcMem m) k) /\
  insn_bytes (vpslld dst (SrcMemConv m c) count k) = insn_bytes (vpslld dst (SrcMem m) count k) /\
  insn_bytes (vpsrld dst (SrcMemConv m c) count k) = insn_bytes (vpsrld dst (SrcMem m) count k) /\
  insn_bytes (vpsrad dst (SrcMemConv m c) count k) = insn_bytes (vpsrad dst (SrcMem m) count k) /\
  (src_text (SrcMemConv m c) = src_text (SrcMem m) <-> c = NoConv).
Proof.
  unfold vcmppd, vcmpps, vmovapd_load, vpslld, vpsrld, vpsrad, shift_imm, assert_, insn.
  cbn [src_rm Z.ltb Z.compare Pos.compare Pos.compare_cont].
  split_and!; try by destruct (mvex _ _ _ _ _ _ _ _ _).
  split; [|intros ->; apply app_empty_r]. cbn [src_text]. intros H.
  destruct c; [done|..]; exfalso; apply (f_equal String.length) in H;
    rewrite String_length_app in H; cbn in H; lia.
Qed.

(** ** The shape of an encoded instruction *)

(** The opcodes that take an immediate byte: the shuffle, the immediate
    shifts and the compares of the 0F map, and the whole 0F3A map. *)
Definition takes_imm (map : Map) (opcode : Z) : bool :=
  bool_decide (map = M0F3A) || bool_decide (map = M0F) && ((opcode =? 0x70) || (opcode =? 0x72) || (opcode =? 0xc2)).

Definition imm_ok (p : Parts) : Prop :=
  bool_decide (is_Some (p_imm p)) = takes_imm (p_map p) (p_opcode p) /\
  u8 (p_opcode p) /\ from_option u8 True (p_imm p).

Lemma cmp_n_u8 p : u8 (cmp_n p).
Proof. by destruct p. Qed.
Lemma round_n_u8 r : u8 (round_n r).
Proof. by destruct r. Qed.
Lemma adj_n_u8 a r : u8 (adj_n a ≪ 4 .| round_n r).
Proof. by destruct a, r. Qed.
Lemma cache_n_u8 c : u8 (cache_n c).
Proof. by destruct c. Qed.

Ltac made_call H :=
  made H; let Ht := fresh "Ht" in destruct H as [H Ht];
  eexists; split; [exact H|split; [parts|]];
  split; [reflexivity|split; [done|]]; cbn [p_imm from_option];
  first [ exact I | assumption | done | apply cmp_n_u8 | apply round_n_u8 | apply adj_n_u8 ].

(** Every call's instruction is made of parts in range, with an immediate
    exactly where the opcode takes one. *)
Lemma call_made c i :
  call_ok c -> run_call c = Some i -> exists p, made_of p i /\ parts_ok p /\ imm_ok p.
Proof.
  intros Hok Hc. destruct c; cbn [call_ok] in Hok; destruct_and! Hok;
    repeat match goal with
    | H : zmm_ok _ |- _ => destruct H
    | H : k_ok _ |- _ => destruct H
    end; cbn [run_call] in Hc;
    try (destruct m; try discriminate Hc);
    cbn [three_fn load_fn load_conv_fn store_fn full_store_fn cmp_fn shift_fn transc_fn round_fn
         mbind option_bind] in Hc;
    try (destruct conv; try discriminate Hc);
    try (destruct (cache_n_u8 cache));
    made_call Hc.
Qed.

(** The bytes: prefix, opcode, ModRM, displacement, immediate. *)
Lemma made_bytes p i :
  made_of p i -> parts_ok p -> imm_ok p ->
  exists p0 p1 p2 modrm disp,
    bytes i = [98; p0; p1; p2; p_opcode p; modrm] ++ disp ++ imm_bytes (p_imm p) /\
    map_of (p0 .& 3) = Some (p_map p) /\ p1 .& 4 = 0 /\
    (modrm ≫ 6 = 3 /\ disp = [] \/ modrm ≫ 6 = 2 /\ modrm .& 7 <> 4 /\ length disp = 4%nat) /\
    Forall u8 (bytes i).
Proof.
  intros (bs & Hbs & ->) (?&?&Hrm&?&?&?) (_&Hop&Him).
  unfold parts_mvex in Hbs. apply mvex_some in Hbs as (?&?&?&Hz&->).
  set (x := rm_x (p_rm p)). set (b := rm_b (p_rm p)).
  assert (Hxb : 0 <= x < 2 /\ 0 <= b < 2).
  { subst x b. destruct (p_rm p) as [[n]|[g ?]]; cbn.
    - destruct Hrm. destruct (zmm_split n) as (?&?&?&?); [cbn in *; lia|]. lia.
    - destruct (gpr_split g) as (?&?&?). lia. }
  destruct Hxb as [Hx Hb].
  destruct (p0_fields (p_map p) (p_reg p) x b ltac:(lia) Hx Hb) as (F1 & _ & _ & _ & _ & B1).
  destruct (p1_fields (p_w p) (p_vvvv p) (p_pp p) ltac:(lia)) as (_ & F5 & _ & _ & B2).
  destruct (p2_fields (p_vvvv p) (p_aaa p) (p_sss p) (p_eh p) ltac:(lia) ltac:(lia) ltac:(done) ltac:(done))
    as (_ & _ & _ & _ & B3).
  assert (Hi : Forall u8 (imm_bytes (p_imm p))).
  { destruct (p_imm p); cbn in *; repeat constructor; apply Him. }
  destruct (p_rm p) as [[n]|[g d]]; cbn [mvex_rm zmm_n base disp] in *.
  - destruct Hrm as [Hn _]. cbn in Hn.
    destruct (modrm_fields 192 (p_reg p) (n .& 7)) as (_ & _ & M3 & M4);
      [by right|lia|by apply zmm_split|].
    do 4 eexists. exists []. split_and!; [reflexivity|done|done|by left|].
    cbn. by repeat apply Forall_cons_2.
  - destruct Hrm as [Hg Hd]. cbn in Hg, Hd.
    destruct (modrm_fields 128 (p_reg p) (gpr_n g .& 7)) as (_ & M2 & M3 & M4);
      [by left|lia|by apply gpr_split|].
    do 4 eexists. exists (to_le_bytes 4 d). split_and!; [reflexivity|done|done| |].
    + right. split_and!; [done|by rewrite M2|done].
    + cbn [or_p2 alter list_alter app]. do 6 (apply Forall_cons_2; [done|]).
      apply Forall_app. split; [apply to_le_bytes_u8|done].
Qed.

(** ** Reference encodings *)

(** Intel's k1om kernel macros, as lib.rs quotes them: [VSTORED_DISP32_EAX]
    and [VLOADD_DISP32_EAX], [VKMOV_TO_EBX] and [VKMOV_FROM_EBX]. *)
Definition intel_move (opcode v d : Z) : list Z :=
  [0x62; Z.lxor (Z.lxor 0xf1 (v .& 0x10)) ((v .& 8) ≪ 4); 0x78; 0x08; opcode;
   0x80 + ((v .& 7) ≪ 3)] ++ to_le_bytes 4 d.

Definition intel_kmov_to_ebx (k : Z) : list Z := [0xc5; 0xf8; 0x93; 0xd8 + k].
Definition intel_kmov_from_ebx (k : Z) : list Z := [0xc5; 0xf8; 0x92; 0xc3 + (k ≪ 3)].

(** The encoder reproduces Intel's kernel macros byte for byte, for every
    vector register and displacement and every mask register. *)
Theorem intel_macros v d k :
  0 <= v < 32 -> 0 <= k < 8 ->
  insn_bytes (vmovaps_store (mkMem Rax d) (mkZmm v)) = Some (intel_move 0x29 v d) /\
  insn_bytes (vmovaps_load (mkZmm v) (mkMem Rax d)) = Some (intel_move 0x28 v d) /\
  insn_bytes (kmov_r32_k Rbx (mkK k)) = Some (intel_kmov_to_ebx k) /\
  insn_bytes (kmov_k_r32 (mkK k) Rbx) = Some (intel_kmov_from_ebx k).
Proof.
  intros Hv Hk.
  assert (H : all_below 32 (fun v =>
    (mvex_p0 M0F v 0 0 =? Z.lxor (Z.lxor 0xf1 (v .& 0x10)) ((v .& 8) ≪ 4)) &&
    ((128 .| (v .& 7) ≪ 3 .| 0) =? 0x80 + ((v .& 7) ≪ 3))) = true) by (vm_compute; reflexivity).
  assert (H' : all_below 8 (fun k => ((192 .| 3 ≪ 3 .| k) =? 0xd8 + k) &&
    ((192 .| k ≪ 3 .| 3) =? 0xc3 + (k ≪ 3))) = true) by (vm_compute; reflexivity).
  apply (all_below_spec _ _ v) in H; [|done]. apply (all_below_spec _ _ k) in H'; [|done].
  apply andb_true_iff in H as [H1%Z.eqb_eq H2%Z.eqb_eq].
  apply andb_true_iff in H' as [H3%Z.eqb_eq H4%Z.eqb_eq].
  unfold insn_bytes, intel_move, intel_kmov_to_ebx, intel_kmov_from_ebx.
  rewrite <- H1, <- H2, <- H3, <- H4.
  unfold vmovaps_store, vmovaps_load, kmov_r32_k, kmov_k_r32, mvex, vex_k, assert_.
  cbn [zmm_n k_n base gpr_n andb Z.ltb Z.compare Pos.compare Pos.compare_cont].
  rewrite (proj2 (Z.ltb_lt v 32)), (proj2 (Z.ltb_lt k 8)) by lia. by split_and!.
Qed.

(** The instructions that ran on the card have the bytes that ran there
    (the lists the tests of lib.rs, conv.rs and transc.rs pin, measured
    2026-09-15 to 2026-09-21): moves, arithmetic, masks, integer forms, the
    immediate shifts with destinations above 15, the unaligned pair, the
    no-read stores and the conversions. *)
Theorem card_bytes :
  insn_bytes <$>
    [ vfmadd213pd (mkZmm 4) (mkZmm 1) (SrcReg (mkZmm 0)) (mkK 0);
      vmovapd_load (mkZmm 31) (SrcReg (mkZmm 2)) (mkK 0);
      vmovapd_store (mkMem Rsi 256) (mkZmm 31) (mkK 0);
      vaddpd (mkZmm 31) (mkZmm 16) (SrcReg (mkZmm 24)) (mkK 0);
      vcmppd (mkK 1) (mkZmm 10) (SrcReg (mkZmm 8)) CmpLt (mkK 1);
      vpsrlvd (mkZmm 2) (mkZmm 0) (SrcMem (mkMem Rdi 64)) (mkK 0);
      vpslld (mkZmm 2) (SrcMem (mkMem Rdi 0)) 11 (mkK 0);
      vpslld (mkZmm 17) (SrcReg (mkZmm 1)) 3 (mkK 2);
      vloadunpackhd (mkZmm 3) (mkMem Rdi 64) (mkK 0);
      vpbroadcastd (mkZmm 3) (mkMem Rdi 68) (mkK 0);
      vmovaps_store (mkMem Rbp (-64)) (mkZmm 9);
      vmovnrngoaps_store (mkMem Rdi 0) (mkZmm 0);
      vfmadd231ps (mkZmm 0) (mkZmm 1) (SrcMemConv (mkMem Rcx 0) Bcast1) (mkK 0);
      vcvtfxpntps2dq_adj (mkZmm 2) (SrcReg (mkZmm 3)) Nearest Q8_24 (mkK 0);
      vloadunpackhps_conv (mkZmm 8) (mkMem Rdi 67) S8 (mkK 0);
      vexp223ps (mkZmm 1) (mkZmm 2) (mkK 0);
      kmov_k_k (mkK 1) (mkK 2);
      kortest (mkK 1) (mkK 1) ] =
  Some <$>
    [ [0x62; 0xf2; 0xf1; 0x08; 0xa8; 0xe0];
      [0x62; 0x61; 0xf9; 0x08; 0x28; 0xfa];
      [0x62; 0x61; 0xf9; 0x08; 0x29; 0xbe; 0x00; 0x01; 0x00; 0x00];
      [0x62; 0x01; 0xf9; 0x00; 0x58; 0xf8];
      [0x62; 0xd1; 0xa9; 0x09; 0xc2; 0xc8; 0x01];
      [0x62; 0xf2; 0x79; 0x08; 0x45; 0x97; 0x40; 0x00; 0x00; 0x00];
      [0x62; 0xf1; 0x69; 0x08; 0x72; 0xb7; 0x00; 0x00; 0x00; 0x00; 0x0b];
      [0x62; 0xf1; 0x71; 0x02; 0x72; 0xf1; 0x03];
      [0x62; 0xf2; 0x78; 0x08; 0xd4; 0x9f; 0x40; 0x00; 0x00; 0x00];
      [0x62; 0xf2; 0x79; 0x08; 0x58; 0x9f; 0x44; 0x00; 0x00; 0x00];
      [0x62; 0x71; 0x78; 0x08; 0x29; 0x8d; 0xc0; 0xff; 0xff; 0xff];
      [0x62; 0xf1; 0x7b; 0x88; 0x29; 0x87; 0x00; 0x00; 0x00; 0x00];
      [0x62; 0xf2; 0x71; 0x18; 0xb8; 0x81; 0x00; 0x00; 0x00; 0x00];
      [0x62; 0xf3; 0x79; 0x08; 0xcb; 0xd3; 0x50];
      [0x62; 0x72; 0x78; 0x58; 0xd5; 0x87; 0x43; 0x00; 0x00; 0x00];
      [0x62; 0xf2; 0x79; 0x08; 0xc8; 0xca];
      [0xc5; 0xf8; 0x90; 0xca];
      [0xc5; 0xf8; 0x98; 0xc9] ].
Proof. vm_compute. reflexivity. Qed.

(** ** Concrete instances *)

Lemma unique_decoding_witness :
  exists i, run_call (CLoad Vloadunpackld (mkZmm 3) (mkMem Rdi 0) (mkK 0)) = Some i /\
    i = i /\ [0xc3] = [0xc3].
Proof.
  eexists. split; [vm_compute; reflexivity|].
  eapply (unique_decoding (CLoad Vloadunpackld (mkZmm 3) (mkMem Rdi 0) (mkK 0))
            (CLoad Vloadunpackld (mkZmm 3) (mkMem Rdi 0) (mkK 0)));
    first [by vm_compute | exact I | vm_compute; reflexivity].
Defined.

Lemma intel_macros_witness :
  insn_bytes (vmovaps_load (mkZmm 31) (mkMem Rax 1984)) = Some (intel_move 0x28 31 1984).
Proof. apply (intel_macros 31 1984 0); lia. Defined.
