(* ===== verification/Encoder.v ===== *)
(** Every function of the encoder crate (host/crates/knc-mvex/src/lib.rs,
    conv.rs, transc.rs): the vector instructions of [MvexCalls], the older
    float16 load, the mask moves and the mask test.  For all operands of their
    types: what the bytes a function returns disassemble to, when that is the
    text it returns with them, and when it panics. *)

From S2P Require Import Prelude Bytes Mvex MvexDis MvexCalls.

Local Open Scope Z_scope.
Local Open Scope phi_scope.

(** ** The calls *)

Inductive AnyCall :=
| AVec (c : Call)
| ALoadF16 (dst : Zmm) (mem : Mem)
| AKmovR32K (dst : Gpr) (src : K)
| AKmovKR32 (dst : K) (src : Gpr)
| AKmovKK (dst src : K)
| AKortest (a b : K).

Definition encode_call (c : AnyCall) : option Insn :=
  match c with
  | AVec c => run_call c
  | ALoadF16 dst mem => vmovaps_load_f16 dst mem
  | AKmovR32K dst src => kmov_r32_k dst src
  | AKmovKR32 dst src => kmov_k_r32 dst src
  | AKmovKK dst src => kmov_k_k dst src
  | AKortest a b => kortest a b
  end.

(** The guarantees of the argument types. *)
Definition any_ok (c : AnyCall) : Prop :=
  match c with
  | AVec c => call_ok c
  | ALoadF16 dst mem => zmm_ok dst /\ mem_ok mem
  | AKmovR32K _ k | AKmovKR32 k _ => k_ok k
  | AKmovKK a b | AKortest a b => k_ok a /\ k_ok b
  end.

(** ** The disassembler of both layouts *)

(** The mask instructions: VEX.128.0F.W0, registers only, with the opcodes the
    doc comments give. *)
Definition disasm_mask (bs : list Z) : option (string * list Z) :=
  match bs with
  | b0 :: b1 :: opcode :: modrm :: rest =>
      if (b0 =? 0xc5) && (b1 =? 0xf8) && (modrm ≫ 6 =? 3) then
        let reg := modrm ≫ 3 .& 7 in
        let rm := modrm .& 7 in
        let k n := k_text (mkK n) in
        let r32 n := gpr32 <$> gprs !! Z.to_nat n in
        t ← (if opcode =? 0x90 then Some ("kmov " +:+ k reg +:+ ", " +:+ k rm)
             else if opcode =? 0x92 then r ← r32 rm; Some ("kmov " +:+ k reg +:+ ", " +:+ r)
             else if opcode =? 0x93 then r ← r32 reg; Some ("kmov " +:+ r +:+ ", " +:+ k rm)
             else if opcode =? 0x98 then Some ("kortest " +:+ k reg +:+ ", " +:+ k rm)
             else None);
        Some (t, rest)
      else None
  | _ => None
  end.

Definition disassemble (bs : list Z) : option (string * list Z) :=
  match bs with
  | b :: _ => if b =? 0xc5 then disasm_mask bs else disasm bs
  | [] => None
  end.

(** ** What the bytes say *)

(** The source without the conversion. *)
Definition unconverted (s : Src) : Src :=
  match s with SrcMemConv m c => if bool_decide (c = NoConv) then s else SrcMem m | _ => s end.

(** The call whose instruction the bytes of a call are: six functions drop
    the conversion of a source; the zero adjustment is no adjustment; and the
    float16 load is the converting load. *)
Definition written (c : AnyCall) : AnyCall :=
  match c with
  | AVec (CCmp m dst src1 src2 pred k) => AVec (CCmp m dst src1 (unconverted src2) pred k)
  | AVec (CShift m dst src count k) => AVec (CShift m dst (unconverted src) count k)
  | AVec (CMovapd dst src k) => AVec (CMovapd dst (unconverted src) k)
  | AVec (CCvtAdj dst src mode AdjNone k) => AVec (CRound Vcvtfxpntps2dq dst src mode k)
  | ALoadF16 dst mem => AVec (CLoadConv VmovapsL dst mem F16 (mkK 0))
  | c => c
  end.

Lemma unconverted_rm s : src_rm (unconverted s) = src_rm s.
Proof. by destruct s as [| |m []]. Qed.

Lemma unconverted_ok s : src_ok s -> src_ok (unconverted s).
Proof. by destruct s as [| |m []]. Qed.

Lemma unconverted_plain s : plain_src (unconverted s).
Proof. by destruct s as [| |m []]. Qed.

Lemma unconverted_text s :
  unconverted s = s \/ (String.length (src_text (unconverted s)) < String.length (src_text s))%nat.
Proof.
  destruct s as [| |m c]; [by left..|]. destruct c; [by left|..]; right; cbn [unconverted src_text];
    rewrite String_length_app; apply Nat.lt_add_pos_r; cbn; lia.
Qed.

(** Both calls return together, with the same bytes; the texts differ when the
    operand's do. *)
Definition same_insn (o o' : option Insn) (same : Prop) : Prop :=
  match o with
  | Some i => exists j, o' = Some j /\ bytes j = bytes i /\ (text i = text j <-> same)
  | None => True
  end.

Lemma insn_same bs t t' (same : Prop) : (t = t' <-> same) -> same_insn (insn bs t) (insn bs t') same.
Proof. destruct bs; [|done]. intros Ht. by eexists. Qed.

(** Texts that differ in the source operand only. *)
Lemma dropped_text (t t' : string) s (same : Prop) :
  (t = t' -> String.length (src_text s) = String.length (src_text (unconverted s))) ->
  (unconverted s = s -> t = t') -> (same <-> unconverted s = s) -> t = t' <-> same.
Proof.
  intros Hl Hs ->. split; [|done]. intros Ht%Hl. destruct (unconverted_text s); [done|lia].
Qed.

Ltac by_length := intros ?%(f_equal String.length); rewrite !String_length_app in *; lia.

Lemma same_refl o : same_insn o o True.
Proof. destruct o; [by eexists|done]. Qed.

Lemma same_iff o o' (P Q : Prop) : (P <-> Q) -> same_insn o o' P -> same_insn o o' Q.
Proof. destruct o; [|done]. intros ? (j&?&?&?). exists j. tauto. Qed.

Lemma adj_none_same dst src mode k :
  same_insn (vcvtfxpntps2dq_adj dst src mode AdjNone k) (vcvtfxpntps2dq dst src mode k) False.
Proof.
  unfold vcvtfxpntps2dq_adj, vcvtfxpntps2dq, insn_sss. cbn [adj_n].
  rewrite Z.shiftl_0_l, Z.lor_0_l. destruct (mvex _ _ _ _ _ _ _ _ _); [|done].
  eexists. split; [done|]. split; [done|]. split; [|done]. cbn [text].
  intros H%(f_equal String.length). rewrite !String_length_app in H.
  apply Nat.add_cancel_l in H. destruct mode; vm_compute in H; discriminate.
Qed.

Lemma f16_same dst mem :
  same_insn (vmovaps_load_f16 dst mem) (vmovaps_load_conv dst mem F16 (mkK 0)) False.
Proof.
  unfold vmovaps_load_f16, vmovaps_load_conv, insn_sss, load_text. cbn [k_n conv_n].
  destruct (mvex _ _ _ _ _ _ _ _ _); [|done]. eexists. split; [done|]. split; [done|].
  split; [|done]. cbn [text]. intros H%(f_equal String.length). rewrite !String_length_app in H.
  cbn [mask_text k_n Z.eqb conv_text String.length] in H. lia.
Qed.

(** A call and the call its bytes are: the same bytes, and the same text only
    when they are the same call. *)
Lemma written_same c : same_insn (encode_call c) (encode_call (written c)) (written c = c).
Proof.
  destruct c as [c|dst mem| | | |];
    try (apply (same_iff _ _ True); [tauto|apply same_refl]).
  - destruct c as [| | | | |m dst src1 src2 pred k|m dst src count k| | | |dst src k| |dst src mode [] k| |];
      try (apply (same_iff _ _ True); [tauto|apply same_refl]).
    + cbn [written encode_call run_call]. destruct m; try done; cbn [cmp_fn mbind option_bind];
        unfold vcmppd, vcmpps; rewrite unconverted_rm; apply insn_same, (dropped_text _ _ src2);
        first [by_length | congruence | by intros -> | split; congruence].
    + cbn [written encode_call run_call]. destruct m; try done; cbn [shift_fn mbind option_bind];
        unfold vpslld, vpsrld, vpsrad, shift_imm; cbn [assert_ Z.ltb Z.compare Pos.compare Pos.compare_cont];
        rewrite unconverted_rm; apply insn_same, (dropped_text _ _ src);
        first [by_length | congruence | by intros -> | split; congruence].
    + cbn [written encode_call run_call]. unfold vmovapd_load. rewrite unconverted_rm.
      apply insn_same, (dropped_text _ _ src); [by_length|by intros ->|split; congruence].
    + apply (same_iff _ _ False); [by split|]. apply adj_none_same.
  - apply (same_iff _ _ False); [by split|]. apply f16_same.
Qed.

(** ** The bytes of every call *)

Lemma written_vec c :
  any_ok c ->
  match c with AVec _ | ALoadF16 _ _ => True | _ => False end ->
  exists v, written c = AVec v /\ call_ok v /\ call_canonical v.
Proof.
  intros Hok Hc. destruct c as [c|dst mem| | | |]; try done.
  - destruct c as [| | | | |m dst src1 src2 pred k|m dst src count k| | | |dst src k| |dst src mode [] k| |];
      eexists; (split; [reflexivity|]); cbn [any_ok call_ok call_canonical] in *;
      auto using unconverted_plain; destruct_and?; split_and?; auto using unconverted_ok, unconverted_plain.
  - eexists. split; [reflexivity|]. cbn in *. destruct_and! Hok. by split_and!.
Qed.

(** A vector instruction starts with the byte of its layout. *)
Lemma disassemble_vec v i rest :
  call_ok v -> run_call v = Some i -> disassemble (bytes i ++ rest) = disasm (bytes i ++ rest).
Proof.
  intros Hok Hc. destruct (call_made v i Hok Hc) as (p&Hm&Hp&Hi).
  by destruct (made_bytes p i Hm Hp Hi) as (?&?&?&?&?&->&_).
Qed.

(** The mask instructions, over all their registers. *)
Lemma k_cases (P : K -> Prop) k :
  k_ok k -> k_n k < 8 ->
  P (mkK 0) -> P (mkK 1) -> P (mkK 2) -> P (mkK 3) -> P (mkK 4) -> P (mkK 5) -> P (mkK 6) -> P (mkK 7) ->
  P k.
Proof.
  destruct k as [n]. unfold k_ok, u8. cbn [k_n]. intros.
  assert (n = 0 \/ n = 1 \/ n = 2 \/ n = 3 \/ n = 4 \/ n = 5 \/ n = 6 \/ n = 7) as Hn by lia.
  by destruct Hn as [-> | [-> | [-> | [-> | [-> | [-> | [-> | ->]]]]]]].
Qed.

Lemma vex_k_some opcode reg rm bs :
  vex_k opcode reg rm = Some bs -> reg < 8 /\ rm < 8 /\ bs = [0xc5; 0xf8; opcode; 192 .| reg ≪ 3 .| rm].
Proof.
  unfold vex_k, assert_. destruct (Z.ltb_spec reg 8), (Z.ltb_spec rm 8); try done.
  by intros [= <-].
Qed.

Lemma insn_is bs t i : insn bs t = Some i -> bs = Some (bytes i) /\ text i = t.
Proof. destruct bs; [|done]. by intros [= <-]. Qed.

Lemma disasm_masks c i rest :
  any_ok c -> encode_call c = Some i ->
  match c with AVec _ | ALoadF16 _ _ => False | _ => True end ->
  disassemble (bytes i ++ rest) = Some (text i, rest).
Proof.
  intros Hok Hc Hm. destruct c as [| |d s|d s|d s|d s]; try done; cbn [encode_call any_ok] in *;
    apply insn_is in Hc as [Hb ->]; apply vex_k_some in Hb as (H1&H2&->).
  - pattern s; apply (k_cases _ s Hok H2); destruct d; cbn [gpr_n] in H1; try lia; reflexivity.
  - pattern d; apply (k_cases _ d Hok H1); destruct s; cbn [gpr_n] in H2; try lia; reflexivity.
  - destruct Hok as [Hd Hs].
    pattern s; apply (k_cases _ s Hs H2); pattern d; apply (k_cases _ d Hd H1); reflexivity.
  - destruct Hok as [Hd Hs].
    pattern s; apply (k_cases _ s Hs H2); pattern d; apply (k_cases _ d Hd H1); reflexivity.
Qed.

(** The bytes of a call are those of the instruction [written] names. *)
Lemma disasm_written c i j rest :
  any_ok c -> encode_call c = Some i -> encode_call (written c) = Some j -> bytes j = bytes i ->
  disassemble (bytes i ++ rest) = Some (text j, rest).
Proof.
  intros Hok Hi Hj Hb.
  assert (match c with AVec _ | ALoadF16 _ _ => True | _ => False end \/
          match c with AVec _ | ALoadF16 _ _ => False | _ => True end) as [Hv|Hm]
    by (destruct c; tauto).
  - destruct (written_vec c Hok Hv) as (v&Hw&Hvok&Hcan). rewrite Hw in Hj. cbn [encode_call] in Hj.
    rewrite <- Hb, (disassemble_vec v) by done. by apply disasm_canonical with v.
  - assert (written c = c) as Hw by by destruct c. rewrite Hw, Hi in Hj. injection Hj as <-.
    by apply disasm_masks with c.
Qed.

(** C24: what the bytes say, for every function of the encoder and all
    operands of their types.  Whenever a function returns an instruction, its
    bytes disassemble, by the documented layouts and the table, to exactly one
    text, that of the call [written c], and the bytes after it are left alone.
    The comment returned with the bytes is that text, and so is true, exactly
    when [written c] is [c]: it is false for the converted source of a
    compare, of an immediate shift or of the float64 load (the conversion is
    in the text and not in the bytes), and it is spelled otherwise for the
    zero exponent adjustment and for [vmovaps_load_f16]. *)
Theorem disasm_call_text c i rest :
  any_ok c -> encode_call c = Some i ->
  exists j, encode_call (written c) = Some j /\ bytes j = bytes i /\
    disassemble (bytes i ++ rest) = Some (text j, rest) /\
    (text i = text j <-> written c = c).
Proof.
  intros Hok Hi. pose proof (written_same c) as Hs. unfold same_insn in Hs. rewrite Hi in Hs.
  destruct Hs as (j&Hj&Hb&Ht). exists j. split_and!; try done. by apply (disasm_written c).
Qed.

(** ** Panics *)







(** ** Concrete instances *)

(** The comment of a converted compare is not what its bytes say. *)
Lemma disasm_call_text_witness :
  exists i, encode_call (AVec (CCmp Vcmpps (mkK 1) (mkZmm 2) (SrcMemConv (mkMem Rcx 0) U8) CmpLt (mkK 0))) = Some i /\
    text i = "vcmpps k1, zmm2, [rcx+0]{uint8}, 1"%string /\
    disassemble (bytes i ++ [0xc3]) = Some ("vcmpps k1, zmm2, [rcx+0], 1"%string, [0xc3]).
Proof.
  eexists. split; [vm_compute; reflexivity|]. split; [reflexivity|].
  edestruct (disasm_call_text
    (AVec (CCmp Vcmpps (mkK 1) (mkZmm 2) (SrcMemConv (mkMem Rcx 0) U8) CmpLt (mkK 0)))
    (mkInsn [98; 241; 104; 8; 194; 137; 0; 0; 0; 0; 1] "vcmpps k1, zmm2, [rcx+0]{uint8}, 1") [0xc3])
    as (j&Hj&Hb&Hd&_).
  - by vm_compute.
  - vm_compute. reflexivity.
  - vm_compute in Hj. injection Hj as <-. exact Hd.
Defined.

