(* ===== verification/MvexTests.v ===== *)
(** The unit tests of the encoder (the [tests] modules of
    host/crates/knc-mvex/src/lib.rs, conv.rs and transc.rs), run on the model:
    the bytes and texts they pin, most of them bytes that ran on the card, are
    what the model assembles. *)

From S2P Require Import Prelude Bytes Mvex MvexDis MvexCalls.

Local Open Scope Z_scope.
Local Open Scope phi_scope.

(** [assert_eq!] on the bytes, their beginning, one of them, and the text; a
    call that panics is a failure. *)
Definition bytes_are (i : option Insn) (bs : list Z) : bool := bool_decide (bytes <$> i = Some bs).
Definition bytes_begin (i : option Insn) (bs : list Z) : bool :=
  match i with Some i => bool_decide (take (length bs) (bytes i) = bs) | None => false end.
Definition byte_is (f : Z -> Z) (i : option Insn) (n : nat) (b : Z) : bool :=
  match i with Some i => bool_decide (f <$> (bytes i !! n) = Some b) | None => false end.
Definition same_bytes (i j : option Insn) : bool :=
  match i, j with Some i, Some j => bool_decide (bytes i = bytes j) | _, _ => false end.
Definition text_is (i : option Insn) (t : string) : bool := bool_decide (text <$> i = Some t).

(** [should_panic]. *)
Definition panics {A} (o : option A) : bool := match o with None => true | Some _ => false end.

(** ** Intel's macros *)

(** The macro of the k1om kernel, by the formula in its comment. *)
Definition intel_vstored (v disp : Z) : list Z :=
  [0x62; Z.lxor (Z.lxor 0xf1 (v .& 0x10)) ((v .& 8) ≪ 4); 0x78; 0x08; 0x29; 0x80 + (v .& 7) ≪ 3]
  ++ to_le_bytes 4 disp.

Definition intel_vloadd (v disp : Z) : list Z :=
  [0x62; Z.lxor (Z.lxor 0xf1 (v .& 0x10)) ((v .& 8) ≪ 4); 0x78; 0x08; 0x28; 0x80 + (v .& 7) ≪ 3]
  ++ to_le_bytes 4 disp.

Definition vector_store_matches_intel_macro : list bool :=
  (fun v => bytes_are (vmovaps_store (mkMem Rax (v * 64)) (mkZmm v)) (intel_vstored v (v * 64))) <$> seqZ 0 32.

Definition vector_load_matches_intel_macro : list bool :=
  (fun v => bytes_are (vmovaps_load (mkZmm v) (mkMem Rax 0x7c0)) (intel_vloadd v 0x7c0))
  <$> [0; 1; 7; 8; 15; 16; 23; 24; 31].

Definition mask_moves_match_intel_macros : list bool :=
  concat ((fun k => [bytes_are (kmov_r32_k Rbx (mkK k)) [0xc5; 0xf8; 0x93; 0xd8 + k];
                     bytes_are (kmov_k_r32 (mkK k) Rbx) [0xc5; 0xf8; 0x92; 0xc3 + k ≪ 3]]) <$> seqZ 0 8).

(** ** Texts and refusals *)

Definition gas_line_format : list bool :=
  [bool_decide (gas <$> kmov_k_r32 (mkK 1) Rax =
     Some (tab +:+ ".byte 0xc5, 0xf8, 0x92, 0xc8" +:+ tab +:+ "# kmov k1, eax"))].

Definition rsp_base_is_refused : list bool := [panics (mem_new Rsp 0)].
Definition r12_base_is_refused : list bool := [panics (mem_new R12 0)].
Definition mask_moves_refuse_extended_registers : list bool := [panics (kmov_k_r32 (mkK 0) R8)].

(** A store with a conversion is the plain store with SSS and the mask. *)
Definition a_converting_store_is_the_plain_store_plus_sss : list bool :=
  let plain := vmovaps_store (mkMem Rdx 32) (mkZmm 5) in
  let half := vmovaps_store_conv (mkMem Rdx 32) (mkZmm 5) F16 (mkK 1) in
  [same_bytes plain (vmovaps_store_conv (mkMem Rdx 32) (mkZmm 5) NoConv (mkK 0));
   match half, plain with
   | Some h, Some p =>
       bool_decide (bytes h !! 3%nat = (fun b => (b .| 0x30) .| 1) <$> bytes p !! 3%nat)
       && bool_decide (drop 4 (bytes h) = drop 4 (bytes p))
   | _, _ => false
   end;
   text_is half "vmovaps [rdx+32] {k1}{float16}, zmm5"%string].

(** The two stores that do not read, and the one they differ from. *)
Definition no_read_store_bytes_verified_on_the_card : list bool :=
  [bytes_are (vmovnraps_store (mkMem Rdi 0) (mkZmm 0)) [0x62; 0xf1; 0x7b; 0x08; 0x29; 0x87; 0; 0; 0; 0];
   bytes_are (vmovnrngoaps_store (mkMem Rdi 0) (mkZmm 0)) [0x62; 0xf1; 0x7b; 0x88; 0x29; 0x87; 0; 0; 0; 0];
   negb (same_bytes (vmovnraps_store (mkMem Rdi 0) (mkZmm 0)) (vmovaps_store (mkMem Rdi 0) (mkZmm 0)))].

(** ** Pinned bytes *)

(** W and the 66 prefix of the float64 forms. *)
Definition float64_forms_set_w_and_66 : list bool :=
  [bytes_begin (vmovapd_load (mkZmm 0) (SrcMem (mkMem Rdi 0)) (mkK 0)) [0x62; 0xf1; 0xf9; 0x08; 0x28; 0x87];
   bytes_are (vaddpd (mkZmm 2) (mkZmm 0) (SrcReg (mkZmm 1)) (mkK 1)) [0x62; 0xf1; 0xf9; 0x09; 0x58; 0xd1];
   bytes_are (vmulpd (mkZmm 11) (mkZmm 2) (SrcReg (mkZmm 7)) (mkK 1)) [0x62; 0x71; 0xe9; 0x09; 0x59; 0xdf]].

(** R, R', V', B and X of the registers above 15. *)
Definition high_registers_use_extension_bits : list bool :=
  [bytes_are (vaddpd (mkZmm 31) (mkZmm 16) (SrcReg (mkZmm 24)) (mkK 0)) [0x62; 0x01; 0xf9; 0x00; 0x58; 0xf8]].

(** The predicate byte of a compare, and the mask test. *)
Definition compare_carries_predicate : list bool :=
  [bytes_are (vcmppd (mkK 1) (mkZmm 10) (SrcReg (mkZmm 8)) CmpLt (mkK 1)) [0x62; 0xd1; 0xa9; 0x09; 0xc2; 0xc8; 0x01];
   bytes_are (kortest (mkK 1) (mkK 1)) [0xc5; 0xf8; 0x98; 0xc9]].

(** Instructions of vpu_probe.S that ran on the card. *)
Definition probe_bytes_verified_on_the_card : list bool :=
  [bytes_are (vfmadd213pd (mkZmm 4) (mkZmm 1) (SrcReg (mkZmm 0)) (mkK 0)) [0x62; 0xf2; 0xf1; 0x08; 0xa8; 0xe0];
   bytes_are (vsubpd (mkZmm 5) (mkZmm 0) (SrcReg (mkZmm 1)) (mkK 0)) [0x62; 0xf1; 0xf9; 0x08; 0x5c; 0xe9];
   bytes_are (vmovapd_load (mkZmm 31) (SrcReg (mkZmm 2)) (mkK 0)) [0x62; 0x61; 0xf9; 0x08; 0x28; 0xfa];
   bytes_are (vmovapd_store (mkMem Rsi 256) (mkZmm 31) (mkK 0)) [0x62; 0x61; 0xf9; 0x08; 0x29; 0xbe; 0x00; 0x01; 0x00; 0x00];
   bytes_are (vaddpd (mkZmm 6) (mkZmm 0) (SrcReg (mkZmm 0)) (mkK 3)) [0x62; 0xf1; 0xf9; 0x0b; 0x58; 0xf0];
   bytes_are (vcmppd (mkK 2) (mkZmm 0) (SrcReg (mkZmm 1)) CmpLt (mkK 0)) [0x62; 0xf1; 0xf9; 0x08; 0xc2; 0xd1; 0x01];
   bytes_are (kmov_k_r32 (mkK 3) Rax) [0xc5; 0xf8; 0x92; 0xd8];
   bytes_are (kmov_r32_k Rax (mkK 2)) [0xc5; 0xf8; 0x93; 0xc2]].

(** Instructions of vpu_int.S that ran on the card. *)
Definition integer_bytes_verified_on_the_card : list bool :=
  [bytes_are (vpaddd (mkZmm 2) (mkZmm 0) (SrcReg (mkZmm 1)) (mkK 0)) [0x62; 0xf1; 0x79; 0x08; 0xfe; 0xd1];
   bytes_are (vpsubd (mkZmm 2) (mkZmm 0) (SrcReg (mkZmm 1)) (mkK 0)) [0x62; 0xf1; 0x79; 0x08; 0xfa; 0xd1];
   bytes_are (vpandd (mkZmm 2) (mkZmm 0) (SrcReg (mkZmm 1)) (mkK 0)) [0x62; 0xf1; 0x79; 0x08; 0xdb; 0xd1];
   bytes_are (vpandnd (mkZmm 2) (mkZmm 0) (SrcReg (mkZmm 1)) (mkK 0)) [0x62; 0xf1; 0x79; 0x08; 0xdf; 0xd1];
   bytes_are (vpord (mkZmm 2) (mkZmm 0) (SrcReg (mkZmm 1)) (mkK 0)) [0x62; 0xf1; 0x79; 0x08; 0xeb; 0xd1];
   bytes_are (vpxord (mkZmm 2) (mkZmm 0) (SrcReg (mkZmm 1)) (mkK 0)) [0x62; 0xf1; 0x79; 0x08; 0xef; 0xd1];
   bytes_are (vpsllvd (mkZmm 2) (mkZmm 0) (SrcReg (mkZmm 1)) (mkK 0)) [0x62; 0xf2; 0x79; 0x08; 0x47; 0xd1];
   bytes_are (vpsrlvd (mkZmm 2) (mkZmm 0) (SrcMem (mkMem Rdi 64)) (mkK 0)) [0x62; 0xf2; 0x79; 0x08; 0x45; 0x97; 0x40; 0x00; 0x00; 0x00];
   bytes_are (vpaddd (mkZmm 2) (mkZmm 0) (SrcReg (mkZmm 1)) (mkK 1)) [0x62; 0xf1; 0x79; 0x09; 0xfe; 0xd1];
   bytes_are (vpslld (mkZmm 2) (SrcReg (mkZmm 0)) 1 (mkK 0)) [0x62; 0xf1; 0x69; 0x08; 0x72; 0xf0; 0x01];
   bytes_are (vpslld (mkZmm 2) (SrcReg (mkZmm 0)) 11 (mkK 0)) [0x62; 0xf1; 0x69; 0x08; 0x72; 0xf0; 0x0b];
   bytes_are (vpsrld (mkZmm 2) (SrcReg (mkZmm 0)) 11 (mkK 0)) [0x62; 0xf1; 0x69; 0x08; 0x72; 0xd0; 0x0b];
   bytes_are (vpsrad (mkZmm 2) (SrcReg (mkZmm 0)) 11 (mkK 0)) [0x62; 0xf1; 0x69; 0x08; 0x72; 0xe0; 0x0b];
   bytes_are (vpslld (mkZmm 2) (SrcMem (mkMem Rdi 0)) 11 (mkK 0)) [0x62; 0xf1; 0x69; 0x08; 0x72; 0xb7; 0x00; 0x00; 0x00; 0x00; 0x0b];
   bytes_are (vpslld (mkZmm 17) (SrcReg (mkZmm 1)) 3 (mkK 2)) [0x62; 0xf1; 0x71; 0x02; 0x72; 0xf1; 0x03];
   bytes_are (vloadunpackld (mkZmm 3) (mkMem Rdi 0) (mkK 0)) [0x62; 0xf2; 0x78; 0x08; 0xd0; 0x9f; 0x00; 0x00; 0x00; 0x00];
   bytes_are (vloadunpackhd (mkZmm 3) (mkMem Rdi 64) (mkK 0)) [0x62; 0xf2; 0x78; 0x08; 0xd4; 0x9f; 0x40; 0x00; 0x00; 0x00];
   bytes_are (vpbroadcastd (mkZmm 3) (mkMem Rdi 68) (mkK 0)) [0x62; 0xf2; 0x79; 0x08; 0x58; 0x9f; 0x44; 0x00; 0x00; 0x00]].

(** Extended and frame pointer bases, with their texts. *)
Definition memory_bases : list bool :=
  [bytes_are (vmovapd_load (mkZmm 0) (SrcMem (mkMem R9 0x40)) (mkK 0)) [0x62; 0xd1; 0xf9; 0x08; 0x28; 0x81; 0x40; 0; 0; 0];
   text_is (vmovapd_load (mkZmm 0) (SrcMem (mkMem R9 0x40)) (mkK 0)) "vmovapd zmm0, [r9+64]"%string;
   bytes_are (vmovaps_store (mkMem Rbp (-64)) (mkZmm 9)) [0x62; 0x71; 0x78; 0x08; 0x29; 0x8d; 0xc0; 0xff; 0xff; 0xff];
   text_is (vmovaps_store (mkMem Rbp (-64)) (mkZmm 9)) "vmovaps [rbp-64], zmm9"%string].

(** The mask copy, the 231 form and the C literal. *)
Definition remaining_forms_and_c_string : list bool :=
  [bytes_are (kmov_k_k (mkK 1) (mkK 2)) [0xc5; 0xf8; 0x90; 0xca];
   text_is (kmov_k_k (mkK 1) (mkK 2)) "kmov k1, k2"%string;
   bytes_are (vfmadd231pd (mkZmm 1) (mkZmm 2) (SrcReg (mkZmm 3)) (mkK 1)) [0x62; 0xf2; 0xe9; 0x09; 0xb8; 0xcb];
   bool_decide (c_string <$> kortest (mkK 1) (mkK 1) =
     Some (quote +:+ ".byte 0xc5,0xf8,0x98,0xc9\n\t" +:+ quote +:+ " /* kortest k1, k1 */"))].

(** conv.rs: two forms of the float16 load. *)
Definition f16_conversion_matches_the_older_form : list bool :=
  [same_bytes (vmovaps_load_conv (mkZmm 4) (mkMem Rdi 32) F16 (mkK 0)) (vmovaps_load_f16 (mkZmm 4) (mkMem Rdi 32))].

(** conv.rs: the conversion is in SSS. *)
Definition conversion_lands_in_sss : list bool :=
  [bytes_begin (vmovaps_load_conv (mkZmm 4) (mkMem Rdi 0) U8 (mkK 0)) [0x62; 0xf1; 0x78; 0x48; 0x28; 0xa7];
   bytes_begin (vmovdqa32_load_conv (mkZmm 0) (mkMem Rsi 0) S8 (mkK 0)) [0x62; 0xf1; 0x79; 0x58; 0x6f; 0x86]].

(** conv.rs: a broadcast source, with its text. *)
Definition broadcast_source_matches_the_rewriter : list bool :=
  [bytes_begin (vfmadd231ps (mkZmm 0) (mkZmm 1) (SrcMemConv (mkMem Rcx 0) Bcast1) (mkK 0)) [0x62; 0xf2; 0x71; 0x18; 0xb8; 0x81];
   text_is (vfmadd231ps (mkZmm 0) (mkZmm 1) (SrcMemConv (mkMem Rcx 0) Bcast1) (mkK 0)) "vfmadd231ps zmm0, zmm1, [rcx+0]{1to16}"%string].

(** conv.rs: conversion and rounding in the 0F3A map. *)
Definition conversions_and_rounding : list bool :=
  [bytes_are (vcvtfxpntdq2ps (mkZmm 2) (SrcReg (mkZmm 3)) (mkK 0)) [0x62; 0xf3; 0x78; 0x08; 0xcb; 0xd3; 0x00];
   bytes_are (vrndfxpntps (mkZmm 5) (SrcReg (mkZmm 6)) Down (mkK 0)) [0x62; 0xf3; 0x79; 0x08; 0x52; 0xee; 0x01]].

(** conv.rs: the permute and the float to int conversion. *)
Definition permute_and_float_to_int : list bool :=
  [bytes_are (vpermd (mkZmm 1) (mkZmm 2) (SrcReg (mkZmm 3)) (mkK 0)) [0x62; 0xf2; 0x69; 0x08; 0x36; 0xcb];
   bytes_are (vcvtfxpntps2dq (mkZmm 2) (SrcReg (mkZmm 3)) Zero (mkK 0)) [0x62; 0xf3; 0x79; 0x08; 0xcb; 0xd3; 0x03]].

(** conv.rs: the adjustment and the mode share the immediate. *)
Definition exponent_adjustment_lands_in_the_high_nibble : list bool :=
  [bytes_are (vcvtfxpntps2dq_adj (mkZmm 2) (SrcReg (mkZmm 3)) Nearest Q8_24 (mkK 0)) [0x62; 0xf3; 0x79; 0x08; 0xcb; 0xd3; 0x50];
   same_bytes (vcvtfxpntps2dq (mkZmm 2) (SrcReg (mkZmm 3)) Zero (mkK 0)) (vcvtfxpntps2dq_adj (mkZmm 2) (SrcReg (mkZmm 3)) Zero AdjNone (mkK 0))].

(** conv.rs: the int32 and float32 forms of the unpack. *)
Definition unpack_forms : list bool :=
  [bytes_begin (vloadunpackld_conv (mkZmm 8) (mkMem Rdi 3) U8 (mkK 0)) [0x62; 0x72; 0x78; 0x48; 0xd0; 0x87];
   bytes_begin (vloadunpacklps_conv (mkZmm 8) (mkMem Rdi 3) U8 (mkK 0)) [0x62; 0x72; 0x78; 0x48; 0xd1; 0x87];
   bytes_begin (vloadunpackhps_conv (mkZmm 8) (mkMem Rdi 67) S8 (mkK 0)) [0x62; 0x72; 0x78; 0x58; 0xd5; 0x87]].

(** conv.rs: the opcodes of the negated and subtracting forms. *)
Definition fma_opcodes : list bool :=
  [byte_is (fun b => b) (vfnmadd231ps (mkZmm 0) (mkZmm 1) (SrcReg (mkZmm 2)) (mkK 0)) 4 0xbc;
   byte_is (fun b => b) (vfmsub213ps (mkZmm 0) (mkZmm 1) (SrcReg (mkZmm 2)) (mkK 0)) 4 0xaa;
   byte_is (fun b => b) (vfmsub231ps (mkZmm 0) (mkZmm 1) (SrcReg (mkZmm 2)) (mkK 0)) 4 0xba].

(** transc.rs: the two transcendentals. *)
Definition exp2_and_reciprocal_share_the_0f38_66_row : list bool :=
  [bytes_are (vexp223ps (mkZmm 1) (mkZmm 2) (mkK 0)) [0x62; 0xf2; 0x79; 0x08; 0xc8; 0xca];
   text_is (vexp223ps (mkZmm 1) (mkZmm 2) (mkK 0)) "vexp223ps zmm1, zmm2"%string;
   bytes_are (vrcp23ps (mkZmm 3) (mkZmm 4) (mkK 0)) [0x62; 0xf2; 0x79; 0x08; 0xca; 0xdc];
   text_is (vrcp23ps (mkZmm 3) (mkZmm 4) (mkK 0)) "vrcp23ps zmm3, zmm4"%string].

(** transc.rs: the write mask. *)
Definition a_mask_lands_in_aaa : list bool :=
  [byte_is (fun b => b .& 7) (vexp223ps (mkZmm 0) (mkZmm 0) (mkK 3)) 3 3].

(** ** All of them *)

Definition encoder_tests : list (list bool) :=
  [vector_store_matches_intel_macro;
   vector_load_matches_intel_macro;
   mask_moves_match_intel_macros;
   gas_line_format;
   rsp_base_is_refused;
   r12_base_is_refused;
   mask_moves_refuse_extended_registers;
   a_converting_store_is_the_plain_store_plus_sss;
   no_read_store_bytes_verified_on_the_card;
   float64_forms_set_w_and_66;
   high_registers_use_extension_bits;
   compare_carries_predicate;
   probe_bytes_verified_on_the_card;
   integer_bytes_verified_on_the_card;
   memory_bases;
   remaining_forms_and_c_string;
   f16_conversion_matches_the_older_form;
   conversion_lands_in_sss;
   broadcast_source_matches_the_rewriter;
   conversions_and_rounding;
   permute_and_float_to_int;
   exponent_adjustment_lands_in_the_high_nibble;
   unpack_forms;
   fma_opcodes;
   exp2_and_reciprocal_share_the_0f38_66_row;
   a_mask_lands_in_aaa].

(** The model of the encoder passes the crate's unit tests: every byte
    sequence and text that lib.rs, conv.rs and transc.rs pin, among them the
    instructions that ran on the card and Intel's own macros, is what the
    modelled functions assemble, and the refused operands panic. *)
Theorem encoder_tests_pass : forallb (forallb (fun b => b)) encoder_tests = true.
Proof. vm_compute. reflexivity. Qed.
