(* ===== verification/IsaAudit.v ===== *)
(** The instruction audit (host/crates/phi-isa-audit/src/lib.rs, main.rs):
    the classification of features and mnemonics, the length decoder of MVEX
    instructions, the scan of a code section, the report of a file or an
    archive, and the verdict.  The x86 decoder (iced-x86) and the ELF and
    archive readers (object) are third-party code: they are the fields of
    [Iced] and arguments of the audit functions.  A feature or a mnemonic is
    represented by the name its enum constructor has. *)

From S2P Require Import Prelude Bytes.

Local Open Scope Z_scope.
Local Open Scope phi_scope.

(** ** Hits and reports *)

Inductive Severity := Illegal | Suspect.

#[export] Instance Severity_eq_dec : EqDecision Severity.
Proof. solve_decision. Defined.
#[export] Instance Severity_countable : Countable Severity.
Proof.
  refine (inj_countable' (fun s => match s with Illegal => true | Suspect => false end)
    (fun b => if b : bool then Illegal else Suspect) _). by intros [].
Defined.

(** The derived order: [Illegal < Suspect]. *)
Definition severity_n (s : Severity) : Z := match s with Illegal => 0 | Suspect => 1 end.
Definition severity_le (a b : Severity) : bool := severity_n a <=? severity_n b.

Record Hit := mkHit {
  h_severity : Severity; h_reason : string; h_address : Z; h_text : string;
  h_symbol : option (string * Z); h_section : string
}.

Record Report := mkReport {
  sections : list string; instructions : Z; vector : Z; hits : list Hit
}.

(** [Report::default]. *)
Definition empty_report : Report := mkReport [] 0 0 [].

(** [Report::count]. *)
Definition count (r : Report) (s : Severity) : Z :=
  len (filter (fun h => h_severity h = s) (hits r)).

(** [Report::by_reason]: the map after the loop over the hits; a new key
    gets the hit as its example, and every hit counts one. *)
Definition by_reason_step (m : gmap (Severity * string) (Z * Hit)) (h : Hit)
  : gmap (Severity * string) (Z * Hit) :=
  let key := (h_severity h, h_reason h) in
  let e := default (0, h) (m !! key) in
  <[key := (e.1 + 1, e.2)]> m.

Definition by_reason (r : Report) : gmap (Severity * string) (Z * Hit) :=
  foldl by_reason_step ∅ (hits r).

(** ** Classification *)

Definition illegal_features : list string :=
  ["CMOV"; "MMX"; "SSE"; "SSE2"; "SSE3"; "SSSE3"; "SSE4_1"; "SSE4_2"; "SSE4A"; "AVX"; "AVX2";
   "FMA"; "F16C"; "CMPXCHG16B"; "MONITOR"; "MWAITX"; "PAUSE"; "PREFETCHW"; "PREFETCHWT1";
   "CLFSH"; "CLFLUSHOPT"; "CLWB"; "RDTSCP"; "MOVBE"; "POPCNT"; "LZCNT"; "BMI1"; "BMI2";
   "XSAVE"; "XSAVEOPT"; "XSAVEC"; "XSAVES"; "AES"; "PCLMULQDQ"; "SHA"; "RDRAND"; "RDSEED";
   "ADX"; "FSGSBASE"; "INVPCID"; "RDPID"; "SMAP"; "CET_IBT"; "CET_SS"; "MPX"; "3DNOW";
   "3DNOWEXT"; "TBM"; "XOP"; "FMA4"; "LWP"; "ENQCMD"; "SERIALIZE"; "TSXLDTRK"; "WAITPKG";
   "MOVDIRI"; "MOVDIR64B"; "PTWRITE"; "UINTR"; "AMX_TILE"; "AMX_INT8"; "AMX_BF16"; "KL";
   "AESKLE"; "HRESET"; "LAHF_SAHF_64"; "RTM"; "HLE"; "PKU"; "OSPKE"; "CLDEMOTE"; "GFNI";
   "VAES"; "VPCLMULQDQ"]%string.

(** [str::starts_with]. *)
Definition starts_with (s p : string) : bool := String.prefix p s.

(** [classify_feature], on the feature's name. *)
Definition classify_feature (name : string) : option Severity :=
  if starts_with name "AVX512" || starts_with name "AVX_VNNI" || starts_with name "AMX"
  then Some Illegal
  else if bool_decide (name ∈ illegal_features) then Some Illegal
  else if String.eqb name "MULTIBYTENOP" || String.eqb name "CET_IBT" then Some Suspect
  else None.

(** [allowed_despite_feature]. *)
Definition allowed_despite_feature (m : string) : bool :=
  bool_decide (m ∈ ["Ldmxcsr"; "Stmxcsr"; "Kandw"; "Kandnw"; "Knotw"; "Korw"; "Kxnorw"; "Kxorw";
                    "Kmovw"; "Kortestw"]%string).

(** [classify_mnemonic]. *)
Definition classify_mnemonic (m : string) : option (Severity * string) :=
  if bool_decide (m ∈ ["In"; "Insb"; "Insw"; "Insd"]%string)
  then Some (Illegal, "IN/INS (port I/O)"%string)
  else if bool_decide (m ∈ ["Out"; "Outsb"; "Outsw"; "Outsd"]%string)
  then Some (Illegal, "OUT/OUTS (port I/O)"%string)
  else if bool_decide (m ∈ ["Sysenter"; "Sysexit"; "Sysexitq"]%string)
  then Some (Illegal, "SYSENTER/SYSEXIT"%string)
  else if bool_decide (m ∈ ["Fcmovb"; "Fcmove"; "Fcmovbe"; "Fcmovu"; "Fcmovnb"; "Fcmovne";
                            "Fcmovnbe"; "Fcmovnu"]%string)
  then Some (Illegal, "FCMOVcc"%string)
  else if bool_decide (m ∈ ["Fcomi"; "Fcomip"; "Fucomi"; "Fucomip"]%string)
  then Some (Illegal, "FCOMI/FUCOMI"%string)
  else None.

(** ** Lengths of vector instructions *)

(** [mvex_length]. *)
Definition mvex_length (b : list Z) : option Z :=
  match b with
  | b0 :: b1 :: b2 :: _ :: opcode :: modrm :: _ =>
      if negb (b0 =? 0x62) || negb (b2 .& 0x04 =? 0) then None
      else
        let map := b1 .& 0x03 in
        if map =? 0 then None
        else
          let m := modrm ≫ 6 in
          let rm := modrm .& 7 in
          let n := 6 in
          let n :=
            if negb (m =? 3) then
              let n := if rm =? 4 then n + 1 else n in
              n + (if (m =? 0) && (rm =? 5) then 4
                   else if m =? 0 then 0
                   else if m =? 1 then 1
                   else 4)
            else n in
          let n :=
            if (map =? 3) || ((map =? 1) && ((opcode =? 0x70) || (opcode =? 0x72) || (opcode =? 0xc2)))
            then n + 1 else n in
          if n <=? len b then Some n else None
  | _ => None
  end.

(** ** The scan *)

(** iced-x86: one instruction decoded at the head of the remaining bytes
    with its address, how many bytes it took, and what it is. *)
Record Iced := mkIced {
  Instr : Type;
  decode : list Z -> Z -> Instr * nat;
  is_invalid : Instr -> bool;
  mnemonic : Instr -> string;
  cpuid_features : Instr -> list string;
  format : Instr -> string
}.

(** The decoder's documented progress: an instruction takes at least one
    byte and none beyond the buffer. *)
Definition progresses (I : Iced) : Prop :=
  forall bs ip, bs <> [] -> (1 <= (decode I bs ip).2 <= length bs)%nat.

(** A symbol: address, size, name. *)
Definition Symbol : Type := Z * Z * string.

Section Scan.
Context (I : Iced).

(** [match &worst { Some((w, _)) if *w <= sev => {} _ => worst = .. }]. *)
Definition worsen (worst : option (Severity * string)) (sev : Severity) (why : string)
  : option (Severity * string) :=
  match worst with
  | Some (w, _) => if severity_le w sev then worst else Some (sev, why)
  | None => Some (sev, why)
  end.

(** The loop over the instruction's features. *)
Definition worst_feature (fs : list string) : option (Severity * string) :=
  foldl (fun worst f =>
    match classify_feature f with
    | Some sev => worsen worst sev f
    | None => worst
    end) None fs.

(** The verdict on one decoded instruction. *)
Definition judge (i : Instr I) : option (Severity * string) :=
  if is_invalid I i then None
  else if allowed_despite_feature (mnemonic I i) then None
  else
    let worst := worst_feature (cpuid_features I i) in
    match classify_mnemonic (mnemonic I i) with
    | Some (sev, why) => worsen worst sev why
    | None => worst
    end.

(** The symbol that encloses an address, and the offset into it. *)
Definition encloses (ip : Z) (s : Symbol) : bool :=
  let '(a, size, _) := s in
  (a <=? ip) && ((ip <? wrap 64 (a + size)) || ((size =? 0) && (ip =? a))).

Definition find_symbol (symbols : list Symbol) (ip : Z) : option (string * Z) :=
  '(a, _, n) ← List.find (encloses ip) symbols; Some (n, ip - a).

Definition hit_of (section : string) (symbols : list Symbol) (ip : Z) (i : Instr I) : list Hit :=
  match judge i with
  | Some (severity, reason) =>
      [mkHit severity reason ip (format I i) (find_symbol symbols ip) section]
  | None => []
  end.

(** The loop of [scan_bytes_counting] over the bytes that remain at
    [pos]; the address is [base + pos]. *)
Fixpoint scan_loop (fuel : nat) (rest : list Z) (pos : Z) (base : Z) (section : string)
    (symbols : list Symbol) (st : Z * Z * list Hit) : Z * Z * list Hit :=
  match fuel with
  | O => st
  | S fuel =>
      let '(count, vector, out) := st in
      match rest with
      | [] => st
      | _ =>
          match mvex_length rest with
          | Some n =>
              scan_loop fuel (drop (Z.to_nat n) rest) (pos + n) base section symbols
                (count + 1, vector + 1, out)
          | None =>
              let ip := wrap 64 (base + pos) in
              let '(i, n) := decode I rest ip in
              scan_loop fuel (drop n rest) (pos + Z.of_nat n) base section symbols
                (count + 1, vector, out ++ hit_of section symbols ip i)
          end
      end
  end.

(** [scan_bytes_counting]; the fuel is the number of bytes, as each round
    takes one at least ([scan_fuel]). *)
Definition scan_bytes_counting (code : list Z) (base : Z) (section : string)
    (symbols : list Symbol) (out : list Hit) : Z * Z * list Hit :=
  scan_loop (length code) code 0 base section symbols (0, 0, out).

(** [scan_bytes]. *)
Definition scan_bytes (code : list Z) (base : Z) (section : string)
    (symbols : list Symbol) (out : list Hit) : Z * list Hit :=
  let '(n, _, out) := scan_bytes_counting code base section symbols out in (n, out).

(** ** Files *)

(** A section as the object crate gives it: its kind, the results of its
    [name()] and [data()], its address. *)
Record Section := mkSection {
  s_text : bool; s_name : option string; s_data : option (list Z); s_address : Z
}.

(** A parsed object: the symbols ([symbols()] then [dynamic_symbols()]) with
    the results of their [name()], and the sections. *)
Record Obj := mkObj {
  o_x86_64 : bool;
  o_symbols : list (Z * Z * option string);
  o_sections : list Section
}.

(** [sort_by] is stable: an item goes behind the items it is not before. *)
Fixpoint insert_by {A} (before : A -> A -> bool) (x : A) (l : list A) : list A :=
  match l with
  | [] => [x]
  | y :: l' => if before x y then x :: l else y :: insert_by before x l'
  end.

Definition sort_by {A} (before : A -> A -> bool) (l : list A) : list A :=
  foldl (fun acc x => insert_by before x acc) [] l.

(** Address ascending, then size descending. *)
Definition symbol_before (x y : Symbol) : bool :=
  (x.1.1 <? y.1.1) || ((x.1.1 =? y.1.1) && (y.1.2 <? x.1.2)).

(** [dedup_by]: an item equal to the one kept before it is dropped. *)
Fixpoint dedup_by {A} (same : A -> A -> bool) (last : option A) (l : list A) : list A :=
  match l with
  | [] => []
  | x :: l =>
      match last with
      | Some y => if same x y then dedup_by same last l else x :: dedup_by same (Some x) l
      | None => x :: dedup_by same (Some x) l
      end
  end.

Definition same_symbol (x y : Symbol) : bool := (x.1.1 =? y.1.1) && String.eqb x.2 y.2.

(** The symbol table [audit_one] searches. *)
Definition symbol_table (o : Obj) : list Symbol :=
  let named := omap (fun s : Z * Z * option string =>
    if s.1.1 =? 0 then None else n ← s.2; Some (s.1.1, s.1.2, n)) (o_symbols o) in
  dedup_by same_symbol None (sort_by symbol_before named).

(** The body of the section loop. *)
Definition audit_section (prefix : string) (symbols : list Symbol) (report : Report) (s : Section)
  : Report :=
  if negb (s_text s) then report
  else if bool_decide (s_name s = Some ".altinstr_replacement"%string) then report
  else
    let name := prefix +:+ default "?"%string (s_name s) in
    match s_data s with
    | Some (b :: data) =>
        let '(n, v, out) := scan_bytes_counting (b :: data) (s_address s) name symbols (hits report) in
        mkReport (sections report ++ [name]) (instructions report + n) (vector report + v) out
    | _ => report
    end.

Definition address_before (x y : Hit) : bool := h_address x <? h_address y.

(** [audit_one], after [object::File::parse]. *)
Definition audit_one (parse : list Z -> result string Obj) (data : list Z) (prefix : string)
  : result string Report :=
  match parse data with
  | Err e => Err e
  | Ok file =>
      if negb (o_x86_64 file) then Err "not an x86-64 ELF"%string
      else
        let report := foldl (audit_section prefix (symbol_table file)) empty_report (o_sections file) in
        Ok (mkReport (sections report) (instructions report) (vector report)
              (sort_by address_before (hits report)))
  end.

(** A member of an archive: its name (lossily decoded) and the result of
    its [data()]; the iterator's own error is [None]. *)
Definition Member : Type := option (string * result string (list Z)).

Definition elf_magic : list Z := [0x7f; 0x45; 0x4c; 0x46].
Definition arch_magic : list Z := [0x21; 0x3c; 0x61; 0x72; 0x63; 0x68; 0x3e; 0x0a].

Definition starts_with_bytes (data p : list Z) : bool :=
  bool_decide (take (length p) data = p).

(** The member loop of [audit_archive]. *)
Fixpoint audit_members (parse : list Z -> result string Obj) (ms : list Member) (report : Report)
  : result string Report :=
  match ms with
  | [] => Ok report
  | None :: _ => Err "member"%string
  | Some (_, Err e) :: _ => Err e
  | Some (name, Ok bytes) :: ms =>
      if negb (starts_with_bytes bytes elf_magic) then audit_members parse ms report
      else
        match audit_one parse bytes (name +:+ ":") with
        | Err e => Err e
        | Ok r =>
            audit_members parse ms
              (mkReport (sections report ++ sections r) (instructions report + instructions r)
                 (vector report + vector r) (hits report ++ hits r))
        end
  end.

Definition audit_archive (parse : list Z -> result string Obj)
    (parse_archive : list Z -> result string (list Member)) (data : list Z) : result string Report :=
  match parse_archive data with
  | Err e => Err e
  | Ok ms => audit_members parse ms empty_report
  end.

(** [audit_elf]. *)
Definition audit_elf (parse : list Z -> result string Obj)
    (parse_archive : list Z -> result string (list Member)) (data : list Z) : result string Report :=
  if starts_with_bytes data arch_magic then audit_archive parse parse_archive data
  else audit_one parse data "".

End Scan.

(** ** The program (main.rs) *)

(** [eq_ignore_ascii_case]. *)
Definition lower (a : Ascii.ascii) : Ascii.ascii :=
  let n := Ascii.nat_of_ascii a in
  if ((65 <=? n) && (n <=? 90))%nat then Ascii.ascii_of_nat (n + 32) else a.

Fixpoint eq_ignore_ascii_case (s t : string) : bool :=
  match s, t with
  | EmptyString, EmptyString => true
  | String a s, String b t => Ascii.eqb (lower a) (lower b) && eq_ignore_ascii_case s t
  | _, _ => false
  end.

Record Args := mkArgs {
  file : string; list_hits : bool; max_hits : Z; allow_suspect : bool; ignore : list string
}.

Definition is_ignored (args : Args) (h : Hit) : bool :=
  existsb (fun r => eq_ignore_ascii_case r (h_reason h)) (ignore args).

(** The [partition] of the hits: the ignored ones, and the report that is
    left to judge. *)
Definition split_ignored (args : Args) (r : Report) : list Hit * Report :=
  match ignore args with
  | [] => ([], r)
  | _ =>
      (List.filter (is_ignored args) (hits r),
       mkReport (sections r) (instructions r) (vector r)
         (List.filter (fun h => negb (is_ignored args h)) (hits r)))
  end.

(** The exit status, from the result of [std::fs::read] and [audit_elf]. *)
Definition exit_code (args : Args) (r : result string Report) : Z :=
  match r with
  | Err _ => 2
  | Ok report =>
      let '(_, report) := split_ignored args report in
      if (0 <? count report Illegal) || ((0 <? count report Suspect) && negb (allow_suspect args))
      then 1 else 0
  end.
