(* ===== verification/AuditProofs.v ===== *)
(** The properties of the instruction audit (host/crates/phi-isa-audit):
    the scan stays in sync with the instruction stream and terminates, the
    verdict on an instruction is its worst evidence, hits are attributed to
    the outermost enclosing symbol and sorted, the exit status is the
    documented one; and, across crates, every instruction the MVEX encoder
    emits is measured exactly, so that a section made of encoder output is
    scanned without a hit. *)

From S2P Require Import Prelude Bytes Mvex MvexDis MvexCalls IsaAudit.

Local Open Scope Z_scope.
Local Open Scope phi_scope.

(** ** The scan *)

Section ScanProofs.
Context (I : Iced).

(** An instruction of a code section: a vector instruction, or one the x86
    decoder reads. *)
Inductive Item :=
| IVec (bs : list Z)
| IScalar (bs : list Z) (i : Z -> Instr I).

Definition item_bytes (it : Item) : list Z :=
  match it with IVec bs | IScalar bs _ => bs end.

(** Each item is read as itself, whatever follows it. *)
Definition item_ok (it : Item) : Prop :=
  item_bytes it <> [] /\
  match it with
  | IVec bs => forall rest, mvex_length (bs ++ rest) = Some (len bs)
  | IScalar bs i =>
      forall rest ip, mvex_length (bs ++ rest) = None /\
        decode I (bs ++ rest) ip = (i ip, length bs)
  end.

Definition is_vec (it : Item) : bool := match it with IVec _ => true | IScalar _ _ => false end.

(** The hits of the items placed from [pos] on. *)
Fixpoint item_hits (base pos : Z) (section : string) (symbols : list Symbol) (its : list Item)
  : list Hit :=
  match its with
  | [] => []
  | it :: its =>
      match it with
      | IVec _ => []
      | IScalar _ i =>
          let ip := wrap 64 (base + pos) in hit_of I section symbols ip (i ip)
      end ++ item_hits base (pos + len (item_bytes it)) section symbols its
  end.

Lemma scan_loop_items its fuel pos base section symbols c v out :
  Forall item_ok its -> (length (concat (item_bytes <$> its)) <= fuel)%nat ->
  scan_loop I fuel (concat (item_bytes <$> its)) pos base section symbols (c, v, out) =
  (c + len its, v + len (List.filter is_vec its), out ++ item_hits base pos section symbols its).
Proof.
  intros Hok. revert fuel pos c v out.
  induction Hok as [|it its [Hne Hit] Hok IH]; intros fuel pos c v out Hf.
  - destruct fuel; cbn; rewrite !Z.add_0_r, app_nil_r; done.
  - cbn [fmap list_fmap concat] in *. rewrite length_app in Hf.
    assert (0 < length (item_bytes it))%nat by (destruct (item_bytes it); [done|cbn; lia]).
    destruct fuel as [|fuel]; [lia|]. cbn [scan_loop].
    assert (Hm : forall {A} (x y : A),
      match item_bytes it ++ concat (item_bytes <$> its) with [] => x | _ => y end = y).
    { intros. by destruct (item_bytes it). }
    rewrite Hm. destruct it as [bs|bs i]; cbn [item_bytes] in *.
    + rewrite Hit. unfold len at 1. rewrite Nat2Z.id, drop_app_length.
      rewrite IH by lia. cbn [List.filter is_vec item_hits item_bytes]. rewrite !len_cons.
      by rewrite !Z.add_assoc.
    + destruct (Hit (concat (item_bytes <$> its)) (wrap 64 (base + pos))) as [Hn Hd].
      rewrite Hn, Hd, drop_app_length. fold (len bs). rewrite IH by lia.
      cbn [List.filter is_vec item_hits item_bytes]. rewrite len_cons, <- app_assoc.
      by rewrite !Z.add_assoc.
Qed.

(** C27: the scan stays in sync.  A section that consists of instructions, each
    either a vector instruction [mvex_length] measures or one the x86
    decoder reads, is counted exactly, vector instructions apart, and the
    hits are those of its scalar instructions, each at its own address. *)
Theorem scan_in_sync its base section symbols out :
  Forall item_ok its ->
  scan_bytes_counting I (concat (item_bytes <$> its)) base section symbols out =
  (len its, len (List.filter is_vec its), out ++ item_hits base 0 section symbols its).
Proof. intros Hok. unfold scan_bytes_counting. by rewrite scan_loop_items. Qed.

Lemma mvex_length_range b n : mvex_length b = Some n -> 6 <= n <= len b.
Proof.
  unfold mvex_length. destruct b as [|b0 [|b1 [|b2 [|b3 [|op [|modrm b]]]]]]; try done.
  repeat case_match; intros; simplify_eq; bool_to_prop; lia.
Qed.

Lemma scan_loop_fuel fuel rest pos base section symbols st :
  progresses I -> (length rest <= fuel)%nat ->
  scan_loop I fuel rest pos base section symbols st =
  scan_loop I (length rest) rest pos base section symbols st.
Proof.
  intros Hp. remember (length rest) as m eqn:Hm. assert (Hl : (length rest <= m)%nat) by lia. clear Hm.
  revert fuel rest Hl pos st.
  induction m as [m IH] using lt_wf_ind. intros fuel rest Hl pos [[c v] out] Hf.
  destruct rest as [|b rest]; [by destruct fuel, m|].
  destruct fuel as [|fuel]; [cbn in Hl; lia|]. destruct m as [|m]; [cbn in Hl; lia|].
  cbn [scan_loop]. destruct (mvex_length (b :: rest)) as [n|] eqn:En.
  - apply mvex_length_range in En as [? ?]. apply IH; [lia| |lia].
    rewrite length_drop. cbn in *. lia.
  - destruct (decode I (b :: rest) (wrap 64 (base + pos))) as [i n] eqn:Ed.
    pose proof (Hp (b :: rest) (wrap 64 (base + pos)) ltac:(done)) as Hn. rewrite Ed in Hn. cbn in Hn.
    apply IH; [lia| |lia]. rewrite length_drop. cbn in *. lia.
Qed.

Lemma hit_of_le section symbols ip i : len (hit_of I section symbols ip i) <= 1.
Proof. unfold hit_of. repeat case_match; done. Qed.

Lemma scan_loop_bounds m rest pos base section symbols c v out :
  progresses I -> (length rest <= m)%nat ->
  exists n k hs, scan_loop I m rest pos base section symbols (c, v, out) = (c + n, v + k, out ++ hs) /\
    0 <= k <= n /\ n <= len rest /\ len hs <= n - k.
Proof.
  intros Hp. revert rest pos c v out.
  induction m as [|m IH]; intros rest pos c v out Hl.
  - exists 0, 0, []. destruct rest; [|cbn in Hl; lia]. cbn.
    rewrite !Z.add_0_r, app_nil_r. split_and!; done.
  - destruct rest as [|b rest].
    { exists 0, 0, []. cbn. rewrite !Z.add_0_r, app_nil_r. split_and!; done. }
    cbn [scan_loop]. destruct (mvex_length (b :: rest)) as [l|] eqn:En.
    + apply mvex_length_range in En as [? Hlen]. unfold len in Hlen.
      destruct (IH (drop (Z.to_nat l) (b :: rest)) (pos + l) (c + 1) (v + 1) out)
        as (n & k & hs & -> & ? & Hn & ?); [rewrite length_drop; lia|].
      exists (1 + n), (1 + k), hs. unfold len in *. rewrite length_drop in Hn.
      split_and!; try lia. by rewrite !Z.add_assoc.
    + destruct (decode I (b :: rest) (wrap 64 (base + pos))) as [i l] eqn:Ed.
      pose proof (Hp (b :: rest) (wrap 64 (base + pos)) ltac:(done)) as Hlen. rewrite Ed in Hlen.
      cbn [snd] in Hlen.
      destruct (IH (drop l (b :: rest)) (pos + Z.of_nat l) (c + 1) v
                  (out ++ hit_of I section symbols (wrap 64 (base + pos)) i))
        as (n & k & hs & -> & ? & Hn & ?); [rewrite length_drop; lia|].
      exists (1 + n), k, (hit_of I section symbols (wrap 64 (base + pos)) i ++ hs).
      pose proof (hit_of_le section symbols (wrap 64 (base + pos)) i).
      rewrite len_app. unfold len in *. rewrite length_drop in Hn.
      split_and!; try lia. by rewrite !Z.add_assoc, app_assoc.
Qed.

(** C37: the scan terminates on any bytes with any decoder that makes progress
    (no fuel is ever short), keeps the hits found before, counts at most one
    instruction per byte, at most as many vector instructions as
    instructions, and adds at most one hit per scalar instruction. *)
Theorem scan_total code base section symbols out :
  progresses I ->
  (forall fuel, (length code <= fuel)%nat ->
     scan_loop I fuel code 0 base section symbols (0, 0, out) =
     scan_bytes_counting I code base section symbols out) /\
  exists n v hs,
    scan_bytes_counting I code base section symbols out = (n, v, out ++ hs) /\
    0 <= v <= n /\ n <= len code /\ len hs <= n - v.
Proof.
  intros Hp. split; [intros; by apply scan_loop_fuel|].
  exact (scan_loop_bounds (length code) code 0 base section symbols 0 0 out Hp (le_n _)).
Qed.

(** ** The verdict on one instruction *)

(** Evidence against an instruction at a severity. *)
Definition evidence (i : Instr I) (sev : Severity) : Prop :=
  (exists f, f ∈ cpuid_features I i /\ classify_feature f = Some sev) \/
  (exists why, classify_mnemonic (mnemonic I i) = Some (sev, why)).

(** The worst of the features seen so far. *)
Lemma worst_feature_spec fs w :
  let r := foldl (fun worst f => match classify_feature f with
                                 | Some sev => worsen worst sev f | None => worst end) w fs in
  (forall s why, r = Some (s, why) ->
     w = Some (s, why) \/ exists f, f ∈ fs /\ classify_feature f = Some s) /\
  (forall f s, f ∈ fs -> classify_feature f = Some s -> exists s' why, r = Some (s', why) /\
     severity_n s' <= severity_n s) /\
  (forall s why, w = Some (s, why) -> exists s' why', r = Some (s', why') /\
     severity_n s' <= severity_n s).
Proof.
  revert w. induction fs as [|f fs IH]; intros w; cbn.
  - split_and!; [by left|set_solver|]. intros. do 2 eexists. split; [done|lia].
  - set (w' := match classify_feature f with Some sev => worsen w sev f | None => w end).
    destruct (IH w') as (H1 & H2 & H3).
    assert (Hw : (forall s why, w' = Some (s, why) -> w = Some (s, why) \/ classify_feature f = Some s) /\
      (forall s, classify_feature f = Some s -> exists s' why, w' = Some (s', why) /\ severity_n s' <= severity_n s) /\
      (forall s why, w = Some (s, why) -> exists s' why', w' = Some (s', why') /\ severity_n s' <= severity_n s)).
    { subst w'. unfold worsen, severity_le. destruct (classify_feature f) as [sf|]; [|naive_solver lia].
      destruct w as [[sw ww]|]; [|naive_solver lia].
      destruct (severity_n sw <=? severity_n sf) eqn:El; bool_to_prop; naive_solver lia. }
    destruct Hw as (W1 & W2 & W3). split_and!.
    + intros s why Hr. destruct (H1 s why Hr) as [Hw|(g & ? & ?)]; [|right; exists g; set_solver].
      destruct (W1 s why Hw) as [?|?]; [by left|]. right. exists f. set_solver.
    + intros g s [->|Hg]%elem_of_cons Hc; [|by apply (H2 g)].
      destruct (W2 s Hc) as (s' & why & Hw & ?). destruct (H3 s' why Hw) as (s'' & why' & ? & ?).
      exists s'', why'. split; [done|lia].
    + intros s why Hw. destruct (W3 s why Hw) as (s' & why' & Hw' & ?).
      destruct (H3 s' why' Hw') as (s'' & why'' & ? & ?). exists s'', why''. split; [done|lia].
Qed.

(** C36: the verdict is the worst evidence: an instruction is reported exactly
    when it decodes, is not one of the supported exceptions and some feature
    or its mnemonic counts against it; the reported severity has evidence,
    and no evidence is worse. *)
Theorem judge_worst i :
  (judge I i = None <->
     is_invalid I i = true \/ allowed_despite_feature (mnemonic I i) = true \/
     forall sev, ~ evidence i sev) /\
  (forall sev why, judge I i = Some (sev, why) ->
     evidence i sev /\ forall sev', evidence i sev' -> severity_n sev <= severity_n sev').
Proof.
  unfold judge. destruct (is_invalid I i); [naive_solver|].
  destruct (allowed_despite_feature _); [naive_solver|].
  destruct (worst_feature_spec (cpuid_features I i) None) as (H1 & H2 & _).
  fold (worst_feature (cpuid_features I i)) in H1, H2.
  unfold evidence. destruct (classify_mnemonic (mnemonic I i)) as [[sm wm]|].
  - unfold worsen, severity_le. destruct (worst_feature _) as [[sw ww]|].
    + destruct (severity_n sw <=? severity_n sm) eqn:El; bool_to_prop; split; try naive_solver;
        intros sev why [= <- <-]; (split; [naive_solver|]);
        intros sev' [(f & Hf & Hc)|(why' & [= -> _])]; try lia;
        destruct (H2 f sev' Hf Hc) as (? & ? & [= <- <-] & ?); lia.
    + split; [naive_solver|]. intros sev why [= <- <-]. split; [naive_solver|].
      intros sev' [(f & Hf & Hc)|(why' & [= -> _])]; [|lia].
      by destruct (H2 f sev' Hf Hc) as (? & ? & ? & ?).
  - destruct (worst_feature _) as [[sw ww]|].
    + split; [naive_solver|]. intros sev why [= <- <-]. split; [naive_solver|].
      intros sev' [(f & Hf & Hc)|(why' & ?)]; [|done].
      destruct (H2 f sev' Hf Hc) as (? & ? & [= <- <-] & ?). lia.
    + split; [|done]. split; [|done]. intros _. do 2 right. intros sev [(f & Hf & Hc)|(? & ?)]; [|done].
      by destruct (H2 f sev Hf Hc) as (? & ? & ? & ?).
Qed.

End ScanProofs.

(** ** Classification *)

(** The only suspect feature is the multi-byte NOP.  [CET_IBT], which the
    comment beside the test names as the second one, stands in the illegal
    list before it and is classified [Illegal], so [endbr64] fails an audit
    run with suspects allowed. *)
Theorem suspect_features name :
  (classify_feature name = Some Suspect <-> name = "MULTIBYTENOP"%string) /\
  classify_feature "CET_IBT" = Some Illegal.
Proof.
  split; [|reflexivity]. split; [|by intros ->]. unfold classify_feature.
  destruct (_ || _ || _); [done|]. case_bool_decide as Hin; [done|].
  destruct (String.eqb_spec name "MULTIBYTENOP") as [->|]; [done|]. cbn [orb].
  destruct (String.eqb_spec name "CET_IBT") as [->|]; [|done].
  exfalso. apply Hin. by apply (bool_decide_unpack _).
Qed.

(** ** Symbols *)

(** Sorted: no item is before one that precedes it. *)
Definition sorted_by {A} (before : A -> A -> bool) (l : list A) : Prop :=
  forall i j x y, (i < j)%nat -> l !! i = Some x -> l !! j = Some y -> before y x = false.

Lemma sorted_by_cons {A} (before : A -> A -> bool) x l :
  sorted_by before (x :: l) <-> Forall (fun y => before y x = false) l /\ sorted_by before l.
Proof.
  split.
  - intros H. split.
    + apply Forall_lookup. intros j y Hy. by apply (H 0%nat (S j) x y); [lia| |].
    + intros i j a b Hij Ha Hb. by apply (H (S i) (S j) a b); [lia| |].
  - intros [Hf Hs] i j a b Hij Ha Hb. destruct j as [|j]; [lia|]. destruct i as [|i]; cbn in *.
    + simplify_eq. by eapply Forall_lookup_1 in Hf.
    + by apply (Hs i j a b); [lia| |].
Qed.

(** What the orders used for sorting are. *)
Class StrictOrder_b {A} (before : A -> A -> bool) : Prop := {
  before_asym x y : before x y = true -> before y x = false;
  before_negtrans x y z : before x y = false -> before y z = false -> before x z = false
}.

#[export] Instance symbol_before_order : StrictOrder_b symbol_before.
Proof. split; unfold symbol_before; intros; lia. Qed.

#[export] Instance address_before_order : StrictOrder_b address_before.
Proof. split; unfold address_before; intros; lia. Qed.

Lemma insert_by_perm {A} (before : A -> A -> bool) x l : insert_by before x l ≡ₚ x :: l.
Proof.
  induction l as [|y l IH]; cbn; [done|]. case_match; [done|].
  rewrite IH. apply Permutation_swap.
Qed.

Lemma sort_by_perm {A} (before : A -> A -> bool) l : sort_by before l ≡ₚ l.
Proof.
  unfold sort_by. assert (H : forall acc, foldl (fun acc x => insert_by before x acc) acc l ≡ₚ acc ++ l).
  { induction l as [|x l IH]; intros acc; cbn; [by rewrite app_nil_r|].
    rewrite IH, insert_by_perm. by rewrite <- Permutation_middle. }
  apply (H []).
Qed.

Lemma insert_by_sorted {A} (before : A -> A -> bool) `{!StrictOrder_b before} x l :
  sorted_by before l -> sorted_by before (insert_by before x l).
Proof.
  induction l as [|y l IH]; intros Hs; cbn.
  - apply sorted_by_cons. split; [done|]. intros ? ? ? ? ? Hl. by rewrite lookup_nil in Hl.
  - destruct (before x y) eqn:E.
    + apply sorted_by_cons. split; [|done]. apply sorted_by_cons in Hs as [Hf _].
      constructor; [by apply before_asym|]. eapply Forall_impl; [exact Hf|]. intros z Hz.
      apply (before_negtrans z y x); [done|by apply before_asym].
    + apply sorted_by_cons in Hs as [Hf Hs]. apply sorted_by_cons. split; [|by apply IH].
      rewrite insert_by_perm. by constructor.
Qed.

Lemma sort_by_sorted {A} (before : A -> A -> bool) `{!StrictOrder_b before} l :
  sorted_by before (sort_by before l).
Proof.
  unfold sort_by.
  assert (H : forall acc, sorted_by before acc ->
    sorted_by before (foldl (fun acc x => insert_by before x acc) acc l)).
  { induction l as [|x l IH]; intros acc Ha; cbn; [done|]. by apply IH, insert_by_sorted. }
  apply H. intros ? ? ? ? ? Hl. by rewrite lookup_nil in Hl.
Qed.






(** ** Reports *)

(** A sort by address keeps the hits of one address in their order. *)
Definition at_address (a : Z) (l : list Hit) : list Hit := filter (fun h => h_address h = a) l.

Lemma at_address_none a (l : list Hit) : Forall (fun h => a < h_address h) l -> at_address a l = [].
Proof.
  induction 1 as [|h l Hh _ IH]; [done|]. unfold at_address in *. rewrite filter_cons.
  case_decide; [lia|done].
Qed.

Lemma insert_at_address a h l :
  sorted_by address_before l -> at_address a (insert_by address_before h l) = at_address a (l ++ [h]).
Proof.
  intros Hs. induction l as [|g l IH]; [done|]. apply sorted_by_cons in Hs as [Hg Hs].
  cbn [insert_by]. destruct (address_before h g) eqn:E.
  - unfold at_address. rewrite filter_app, filter_cons, (filter_cons _ h []), filter_nil.
    case_decide as Ha; [|by rewrite app_nil_r].
    assert (at_address a (g :: l) = []) as Hn.
    { unfold address_before in *. apply at_address_none, Forall_cons. split; [lia|].
      eapply Forall_impl; [exact Hg|]. intros x Hx. cbv beta in Hx. lia. }
    unfold at_address in Hn. by rewrite Hn.
  - unfold at_address in *. cbn [app]. rewrite !(filter_cons _ g). by rewrite IH.
Qed.

Lemma sort_at_address a l : at_address a (sort_by address_before l) = at_address a l.
Proof.
  unfold sort_by. assert (forall acc, sorted_by address_before acc ->
    at_address a (foldl (fun acc x => insert_by address_before x acc) acc l) = at_address a (acc ++ l)) as H.
  { induction l as [|h l IH]; intros acc Hs; [by rewrite app_nil_r|]. cbn [foldl].
    rewrite IH by (apply insert_by_sorted; [apply _|done]). pose proof (insert_at_address a h acc Hs) as Hi.
    unfold at_address in *. rewrite filter_app, Hi, <- filter_app. by rewrite <- app_assoc. }
  apply (H []). intros ????? Hl. by rewrite lookup_nil in Hl.
Qed.

(** A scan only adds to the hits it is given. *)
Lemma scan_loop_adds I fuel rest pos base section symbols c v pre out :
  scan_loop I fuel rest pos base section symbols (c, v, pre ++ out) =
  let '(n, k, hs) := scan_loop I fuel rest pos base section symbols (c, v, out) in (n, k, pre ++ hs).
Proof.
  revert rest pos c v out. induction fuel as [|fuel IH]; intros; [done|]. cbn [scan_loop].
  destruct rest as [|b rest]; [done|]. destruct (mvex_length (b :: rest)); [apply IH|].
  destruct (decode I (b :: rest) (wrap 64 (base + pos))) as [i n]. by rewrite <- app_assoc, IH.
Qed.

(** The sections that are audited: code with bytes, other than the
    replacement instructions. *)
Definition audited (s : Section) : bool :=
  s_text s && bool_decide (s_name s <> Some ".altinstr_replacement"%string)
  && bool_decide (default [] (s_data s) <> []).

Definition section_label (prefix : string) (s : Section) : string := prefix +:+ default "?"%string (s_name s).

(** What a scan of one section alone counts and finds. *)
Definition section_scan (I : Iced) (prefix : string) (symbols : list Symbol) (s : Section) : Z * Z * list Hit :=
  scan_bytes_counting I (default [] (s_data s)) (s_address s) (section_label prefix s) symbols [].

Definition sum_of (l : list Z) : Z := foldr Z.add 0 l.

Lemma audit_section_adds I prefix symbols r s :
  audit_section I prefix symbols r s =
  if audited s
  then let '(n, v, hs) := section_scan I prefix symbols s in
       mkReport (sections r ++ [section_label prefix s]) (instructions r + n) (vector r + v) (hits r ++ hs)
  else r.
Proof.
  unfold audit_section, audited, section_scan. destruct (s_text s); [cbn [negb andb]|done].
  destruct (decide (s_name s = Some ".altinstr_replacement"%string)) as [Hn|Hn].
  - rewrite (bool_decide_eq_true_2 _ Hn), bool_decide_eq_false_2 by tauto. done.
  - rewrite (bool_decide_eq_false_2 _ Hn), (bool_decide_eq_true_2 (s_name s <> _)) by done. cbn [andb].
    destruct (s_data s) as [[|b data]|]; [done| |done]. cbn [default].
    rewrite bool_decide_eq_true_2 by done. unfold scan_bytes_counting.
    rewrite <- (app_nil_r (hits r)) at 1. rewrite scan_loop_adds.
    by destruct (scan_loop _ _ _ _ _ _ _ _) as [[n v] hs].
Qed.

Lemma audit_sections_adds I prefix symbols ss r :
  let scans := section_scan I prefix symbols <$> List.filter audited ss in
  foldl (audit_section I prefix symbols) r ss =
  mkReport (sections r ++ (section_label prefix <$> List.filter audited ss))
    (instructions r + sum_of (fst ∘ fst <$> scans)) (vector r + sum_of (snd ∘ fst <$> scans))
    (hits r ++ concat (snd <$> scans)).
Proof.
  revert r. induction ss as [|s ss IH]; intros r; cbn zeta in *.
  - cbn. rewrite !Z.add_0_r, !app_nil_r. by destruct r.
  - cbn [foldl]. rewrite IH, audit_section_adds. cbn [List.filter]. destruct (audited s); [|done].
    cbn [fmap list_fmap concat]. destruct (section_scan I prefix symbols s) as [[n v] hs].
    cbn [sections instructions vector hits sum_of foldr compose fst snd].
    by rewrite <- !app_assoc, !Z.add_assoc.
Qed.

(** C39: the report of a file is what its sections hold.  It names the audited
    sections (code with bytes, other than the replacement instructions) in
    the file's order; its counts are the sums of the counts of a scan of each
    of them alone; its hits are in address order, and at every address they
    are the hits of those scans, in order, none lost, added or doubled.  The
    audit fails exactly when the file cannot be parsed or is for another
    machine. *)
Theorem audit_one_exact I parse data prefix :
  match audit_one I parse data prefix with
  | Ok r => exists o, parse data = Ok o /\ o_x86_64 o = true /\
      let ss := List.filter audited (o_sections o) in
      let scans := section_scan I prefix (symbol_table o) <$> ss in
      sections r = section_label prefix <$> ss /\
      instructions r = sum_of (fst ∘ fst <$> scans) /\ vector r = sum_of (snd ∘ fst <$> scans) /\
      sorted_by address_before (hits r) /\
      (forall a, at_address a (hits r) = at_address a (concat (snd <$> scans))) /\
      hits r ≡ₚ concat (snd <$> scans)
  | Err e => parse data = Err e \/
      exists o, parse data = Ok o /\ o_x86_64 o = false /\ e = "not an x86-64 ELF"%string
  end.
Proof.
  unfold audit_one. destruct (parse data) as [o|e]; [|by left].
  destruct (o_x86_64 o) eqn:Ho; cbn [negb]; [|right; by exists o].
  exists o. split; [done|]. split; [done|]. cbn zeta. rewrite audit_sections_adds.
  cbn [sections instructions vector hits empty_report app]. rewrite !Z.add_0_l.
  split_and!; [done..|apply sort_by_sorted, _|intros a; apply sort_at_address|apply sort_by_perm].
Qed.

(** Grouping by reason loses nothing: under each severity and reason the
    count is the number of hits with them and the example is the first such
    hit; a key without hits is absent. *)
Theorem by_reason_spec r sev why :
  by_reason r !! (sev, why) =
  match filter (fun h => h_severity h = sev /\ h_reason h = why) (hits r) with
  | [] => None
  | h :: l => Some (len (h :: l), h)
  end.
Proof.
  unfold by_reason. induction (hits r) as [|h l IH] using rev_ind; [done|].
  rewrite foldl_app, filter_app. cbn [foldl]. unfold by_reason_step at 1.
  rewrite filter_cons, filter_nil. case_decide as Hk.
  - destruct Hk as [<- <-]. rewrite lookup_insert_eq, IH.
    destruct (filter _ l) as [|h' l']; cbn; [done|].
    rewrite !len_cons, len_app, len_cons, len_nil. do 2 f_equal. lia.
  - rewrite app_nil_r, lookup_insert_ne; [done|]. intros [= ? ?]. naive_solver.
Qed.

(** ** The exit status *)

Definition keeps (args : Args) (h : Hit) : bool := negb (is_ignored args h).

Lemma split_ignored_hits args r : hits (split_ignored args r).2 = List.filter (keeps args) (hits r).
Proof.
  unfold split_ignored. destruct (ignore args) eqn:E; [|done]. cbn [snd].
  assert (H : forall h, keeps args h = true) by (intros; unfold keeps, is_ignored; by rewrite E).
  induction (hits r) as [|h l IH]; cbn; [done|]. by rewrite H, <- IH.
Qed.

Lemma count_pos r sev : (0 <? count r sev) = bool_decide (Exists (fun h => h_severity h = sev) (hits r)).
Proof.
  unfold count. induction (hits r) as [|h l IH]; [done|]. rewrite filter_cons. case_decide as Hs.
  - rewrite len_cons, bool_decide_true by by constructor.
    pose proof (len_nonneg (filter (fun h => h_severity h = sev) l)). lia.
  - rewrite IH. apply bool_decide_ext. rewrite Exists_cons. naive_solver.
Qed.

Lemma exists_kept args (P : Hit -> Prop) l :
  Exists P (List.filter (keeps args) l) <-> Exists (fun h => is_ignored args h = false /\ P h) l.
Proof.
  induction l as [|h l IH]; cbn; [by rewrite !Exists_nil|]. unfold keeps at 1.
  rewrite Exists_cons, <- IH. destruct (is_ignored args h); cbn; rewrite ?Exists_cons; naive_solver.
Qed.

(** The exit status is the documented one: 2 on a file error; else 1
    exactly when a hit whose reason is not ignored is illegal, or is suspect
    while suspects are not allowed; else 0. *)
Theorem exit_code_spec args r :
  exit_code args r =
  match r with
  | Err _ => 2
  | Ok report =>
      if bool_decide (Exists (fun h => is_ignored args h = false /\
           (h_severity h = Illegal \/ h_severity h = Suspect /\ allow_suspect args = false))
           (hits report))
      then 1 else 0
  end.
Proof.
  destruct r as [r|]; [|done]. unfold exit_code.
  pose proof (split_ignored_hits args r) as Hh. destruct (split_ignored args r) as [ign kept].
  cbn [snd] in Hh. rewrite !count_pos, Hh.
  rewrite !(bool_decide_ext _ _ (exists_kept args _ (hits r))).
  apply (f_equal (fun b : bool => if b then 1 else 0)). apply eq_true_iff_eq.
  rewrite orb_true_iff, andb_true_iff, negb_true_iff, !bool_decide_eq_true, !Exists_exists.
  naive_solver.
Qed.

(** ** The encoder's instructions under the audit *)

Lemma map_of_n n m : map_of n = Some m -> n = map_n m.
Proof. unfold map_of. repeat case_match; intros; simplify_eq; bool_to_prop; done. Qed.

Lemma encoder_length_aux c i rest :
  call_ok c -> run_call c = Some i -> mvex_length (bytes i ++ rest) = Some (len (bytes i)).
Proof.
  intros Hok Hc. destruct (call_made c i Hok Hc) as (p & Hm & Hp & Hi).
  destruct (made_bytes p i Hm Hp Hi) as (p0 & p1 & p2 & modrm & disp & -> & Hmap & Hp1 & Hrm & _).
  apply map_of_n in Hmap. destruct Hi as [Himm _].
  assert (Him : len (imm_bytes (p_imm p)) = if takes_imm (p_map p) (p_opcode p) then 1 else 0).
  { rewrite <- Himm. by destruct (p_imm p). }
  assert (Hmapn : ((map_n (p_map p) =? 3) || ((map_n (p_map p) =? 1) && ((p_opcode p =? 0x70)
    || (p_opcode p =? 0x72) || (p_opcode p =? 0xc2)))) = takes_imm (p_map p) (p_opcode p))
    by by destruct (p_map p).
  assert (Hnz : (map_n (p_map p) =? 0) = false) by by destruct (p_map p).
  set (tl := (disp ++ imm_bytes (p_imm p)) ++ rest).
  change (mvex_length ([98; p0; p1; p2; p_opcode p; modrm] ++ tl) = Some
    (len ([98; p0; p1; p2; p_opcode p; modrm] ++ disp ++ imm_bytes (p_imm p)))).
  unfold mvex_length. cbn [app]. rewrite Hmap, Hp1, Hmapn, Hnz. cbn [Z.eqb Pos.eqb negb orb].
  subst tl. rewrite !len_cons, !len_app, Him. pose proof (len_nonneg rest).
  destruct Hrm as [[-> ->]|(-> & Hne & Hd)]; unfold len in *.
  - cbn [Z.eqb Pos.eqb negb]. destruct (takes_imm _ _); case_bool; f_equal; cbn in *; lia.
  - cbn [Z.eqb Pos.eqb negb andb]. rewrite (proj2 (Z.eqb_neq _ _) Hne), Hd.
    destruct (takes_imm _ _); case_bool; f_equal; cbn in *; lia.
Qed.

(** The encoder and the audit agree: [mvex_length] measures every
    instruction the encoder emits exactly, whatever follows it. *)
Theorem encoder_lengths c i rest :
  call_ok c -> run_call c = Some i -> mvex_length (bytes i ++ rest) = Some (len (bytes i)).
Proof. apply encoder_length_aux. Qed.

(** Code made of encoder output passes: whatever x86 decoder is behind the
    audit, a section that is the encoder's instructions one after the other
    is counted as that many instructions, all of them vector instructions,
    without a hit. *)
Theorem encoder_output_clean I cs base section symbols out :
  Forall (fun ci => call_ok ci.1 /\ run_call ci.1 = Some ci.2) cs ->
  scan_bytes_counting I (concat (bytes ∘ snd <$> cs)) base section symbols out =
  (len cs, len cs, out).
Proof.
  intros Hcs.
  set (its := (fun ci : Call * Insn => IVec I (bytes ci.2)) <$> cs).
  assert (Hb : concat (bytes ∘ snd <$> cs) = concat (item_bytes I <$> its)).
  { subst its. by rewrite <- list_fmap_compose. }
  assert (Hok : Forall (item_ok I) its).
  { apply Forall_fmap. eapply Forall_impl; [exact Hcs|]. intros [c i] [Hc Hr]. cbn in *. split.
    - pose proof (encoder_length_aux c i [] Hc Hr) as Hl. cbn. intros He.
      rewrite He in Hl. done.
    - intros rest. by apply (encoder_length_aux c). }
  unfold scan_bytes_counting. rewrite Hb, scan_loop_items by done.
  assert (Hv : List.filter (is_vec I) its = its /\ forall pos, item_hits I base pos section symbols its = []).
  { subst its. clear. induction cs as [|[c i] cs [IH1 IH2]]; [done|]. cbn. rewrite IH1.
    split; [done|]. intros. apply IH2. }
  destruct Hv as [-> ->]. rewrite app_nil_r. unfold len. subst its. by rewrite length_fmap.
Qed.

(** A vector load of an absolute address: [vmovaps zmm0, \[disp32\]], with
    mod = 00, a SIB byte and SIB.base = 101, which is eleven bytes long by
    the rule of every x86 instruction: prefix, opcode, ModRM, SIB, disp32. *)
Definition sib_disp32 : list Z := [0x62; 0xf1; 0x78; 0x08; 0x28; 0x04; 0x25; 0; 0; 0; 0].

(** A displacement is missed.  With mod = 00 and SIB.base = 101 a 32-bit
    displacement follows the SIB byte, as in every x86 instruction, which the
    documentation of [mvex_length] says it counts; it measures seven bytes
    of the eleven, and the scan reads the displacement as instructions. *)
Theorem sib_displacement_missed rest :
  len sib_disp32 = 11 /\ mvex_length (sib_disp32 ++ rest) = Some 7.
Proof.
  split; [done|]. unfold mvex_length, sib_disp32. cbn [app].
  rewrite !len_cons. pose proof (len_nonneg rest).
  cbv -[len Z.leb Z.add]. case_bool; [done|lia].
Qed.

(** ** Concrete instances *)

(** A decoder that reads [0x90] as [nop] and anything else as [in al, dx],
    one byte at a time. *)
Definition toy_iced : Iced :=
  mkIced Z (fun bs _ => (default 0 (bs !! 0%nat), 1%nat)) (fun _ => false)
    (fun i => if i =? 0x90 then "Nop"%string else "In"%string) (fun _ => [])
    (fun i => if i =? 0x90 then "nop"%string else "in al,dx"%string).

Lemma scan_in_sync_witness :
  scan_bytes_counting toy_iced
    ([0x90] ++ [0x62; 0xf1; 0x79; 0x08; 0xfe; 0xd1] ++ [0xec] ++ []) 4096 ".text" [(4096, 32, "f"%string)] [] =
  (3, 1, [mkHit Illegal "IN/INS (port I/O)" 4103 "in al,dx" (Some ("f"%string, 7)) ".text"]).
Proof.
  apply (scan_in_sync toy_iced
    [IScalar toy_iced [0x90] (fun _ => 0x90); IVec toy_iced [0x62; 0xf1; 0x79; 0x08; 0xfe; 0xd1];
     IScalar toy_iced [0xec] (fun _ => 0xec)]).
  repeat apply Forall_cons_2; [| | |apply Forall_nil_2]; (split; [done|]).
  - intros rest ip. split; [|done]. by destruct rest as [|? [|? [|? [|? [|? ?]]]]].
  - intros rest. unfold mvex_length. cbn [app].
    rewrite !len_cons. pose proof (len_nonneg rest).
    cbv -[len Z.leb Z.add]. case_bool; [done|lia].
  - intros rest ip. split; [|done]. by destruct rest as [|? [|? [|? [|? [|? ?]]]]].
Defined.

Lemma scan_total_witness :
  exists n v hs,
    scan_bytes_counting toy_iced [0x90; 0xec] 0 ".text" [] [] = (n, v, [] ++ hs) /\
    0 <= v <= n /\ n <= len [0x90; 0xec] /\ len hs <= n - v.
Proof.
  apply (scan_total toy_iced). intros [|b bs] ip Hne; [done|]. cbn. lia.
Defined.

(** Two sections out of order, a data section and the replacement section. *)
Example audit_one_sections :
  match audit_one toy_iced
      (fun _ => Ok (mkObj true []
        [mkSection true (Some ".text"%string) (Some [0x90; 0xec]) 64;
         mkSection false (Some ".data"%string) (Some [0xec]) 0;
         mkSection true (Some ".altinstr_replacement"%string) (Some [0xec]) 0;
         mkSection true (Some ".init"%string) (Some [0xec]) 16])) [] "" with
  | Ok r => sections r = [".text"; ".init"]%string /\ instructions r = 3 /\ h_address <$> hits r = [16; 65]
  | Err _ => False
  end.
Proof. by vm_compute. Qed.

Lemma encoder_lengths_witness :
  mvex_length ([0x62; 0xf1; 0x69; 0x08; 0x72; 0xf0; 0x0b] ++ [0x90]) = Some 7.
Proof.
  apply (encoder_lengths (CShift Vpslld (mkZmm 2) (SrcReg (mkZmm 0)) 11 (mkK 0))
           (mkInsn [0x62; 0xf1; 0x69; 0x08; 0x72; 0xf0; 0x0b] "vpslld zmm2, zmm0, 11")).
  - by vm_compute.
  - vm_compute. reflexivity.
Defined.

Lemma encoder_output_clean_witness :
  scan_bytes_counting toy_iced [0x62; 0xf1; 0x69; 0x08; 0x72; 0xf0; 0x0b] 0 ".text" [] [] = (1, 1, []).
Proof.
  apply (encoder_output_clean toy_iced
    [(CShift Vpslld (mkZmm 2) (SrcReg (mkZmm 0)) 11 (mkK 0),
      mkInsn [0x62; 0xf1; 0x69; 0x08; 0x72; 0xf0; 0x0b] "vpslld zmm2, zmm0, 11")]).
  repeat constructor; by vm_compute.
Defined.
