(* ===== verification/Reads.v ===== *)
(** What the audit relies on the x86 decoder for, instruction by instruction.
    An instruction whose bytes, mnemonic and features are known ([Known]) is
    read by a decoder when the bytes decode to it whatever follows them
    ([reads]).  A section made of vector instructions and known instructions
    is then scanned exactly, and what is reported is a function of the names
    alone ([scan_parts]).  [table] is a decoder that reads a given list of
    instructions: the stand-in for iced-x86 in closed examples. *)

From S2P Require Import Prelude Bytes IsaAudit AuditProofs.

Local Open Scope Z_scope.
Local Open Scope phi_scope.

(** ** Known instructions *)

(** [str::contains]. *)
Definition str_contains (s p : string) : bool := match String.index 0 p s with Some _ => true | None => false end.

Record Known := mkKnown {
  k_bytes : list Z; k_mnemonic : string; k_features : list string
}.

(** [judge] on an instruction that decodes, by its names. *)
Definition verdict (mnemonic : string) (features : list string) : option (Severity * string) :=
  if allowed_despite_feature mnemonic then None
  else match classify_mnemonic mnemonic with
       | Some (sev, why) => worsen (worst_feature features) sev why
       | None => worst_feature features
       end.

(** A part of a section: a vector instruction, or a known one. *)
Inductive Part :=
| PVec (bs : list Z)
| PKnown (k : Known).

Definition part_bytes (p : Part) : list Z := match p with PVec bs => bs | PKnown k => k_bytes k end.
Definition is_pvec (p : Part) : bool := match p with PVec _ => true | PKnown _ => false end.

(** What a hit says, apart from the text of the instruction. *)
Definition brief (h : Hit) : Severity * string * Z * option (string * Z) * string :=
  (h_severity h, h_reason h, h_address h, h_symbol h, h_section h).

Fixpoint part_hits (base pos : Z) (section : string) (symbols : list Symbol) (ps : list Part)
  : list (Severity * string * Z * option (string * Z) * string) :=
  match ps with
  | [] => []
  | p :: ps =>
      match p with
      | PVec _ => []
      | PKnown k =>
          match verdict (k_mnemonic k) (k_features k) with
          | Some (sev, why) =>
              let ip := wrap 64 (base + pos) in [(sev, why, ip, find_symbol symbols ip, section)]
          | None => []
          end
      end ++ part_hits base (pos + len (part_bytes p)) section symbols ps
  end.

Lemma part_hits_clean base pos section symbols ps :
  Forall (fun p => match p with PVec _ => True | PKnown k => verdict (k_mnemonic k) (k_features k) = None end) ps ->
  part_hits base pos section symbols ps = [].
Proof.
  intros Hps. revert pos. induction Hps as [|p ps Hp Hps IH]; intros pos; [done|]. cbn [part_hits].
  rewrite IH. destruct p; [done|]. by rewrite Hp.
Qed.

Section Reads.
Context (I : Iced).

(** The decoder reads the bytes as the instruction with these names, at any
    address and whatever follows; in 64-bit code no x86 instruction without
    EVEX begins with 62. *)
Definition reads (k : Known) : Prop :=
  k_bytes k <> [] /\ hd 0 (k_bytes k) <> 0x62 /\
  exists i : Z -> Instr I,
    (forall rest ip, decode I (k_bytes k ++ rest) ip = (i ip, length (k_bytes k))) /\
    forall ip, is_invalid I (i ip) = false /\ mnemonic I (i ip) = k_mnemonic k /\
      cpuid_features I (i ip) = k_features k.

Definition part_ok (p : Part) : Prop :=
  match p with
  | PVec bs => mvex_length bs = Some (len bs)
  | PKnown k => reads k
  end.

(** A length that is found is found whatever follows. *)
Lemma mvex_length_app bs rest n : mvex_length bs = Some n -> mvex_length (bs ++ rest) = Some n.
Proof.
  destruct bs as [|b0 [|b1 [|b2 [|b3 [|op [|modrm bs]]]]]]; try done. cbn [app]. unfold mvex_length.
  destruct (_ || _); [done|]. destruct (_ =? 0); [done|]. cbn zeta. rewrite !len_cons, len_app.
  pose proof (len_nonneg rest).
  match goal with |- context [if ?c <=? _ then _ else None] => generalize c; intros k end.
  repeat case_match; intros [= <-]; bool_to_prop; try done; lia.
Qed.

Lemma mvex_length_other b bs : b <> 0x62 -> mvex_length (b :: bs) = None.
Proof.
  intros Hb%Z.eqb_neq. unfold mvex_length.
  destruct bs as [|? [|? [|? [|? [|? ?]]]]]; try done. by rewrite Hb.
Qed.

Lemma hit_of_known k i section symbols ip :
  is_invalid I i = false -> mnemonic I i = k_mnemonic k -> cpuid_features I i = k_features k ->
  brief <$> hit_of I section symbols ip i =
  match verdict (k_mnemonic k) (k_features k) with
  | Some (sev, why) => [(sev, why, ip, find_symbol symbols ip, section)]
  | None => []
  end.
Proof.
  intros Hv Hm Hf. unfold hit_of, judge, verdict. rewrite Hv, Hm, Hf.
  destruct (allowed_despite_feature _); [done|].
  destruct (classify_mnemonic _) as [[sev why]|]; cbn zeta; by destruct (_ : option _) as [[? ?]|].
Qed.

Lemma parts_items base section symbols ps :
  Forall part_ok ps ->
  exists its, Forall (item_ok I) its /\
    item_bytes I <$> its = part_bytes <$> ps /\
    len (List.filter (is_vec I) its) = len (List.filter is_pvec ps) /\
    forall pos, brief <$> item_hits I base pos section symbols its = part_hits base pos section symbols ps.
Proof.
  induction 1 as [|p ps Hp Hps (its & Hok & Hb & Hv & Hh)].
  - exists []. by split_and!; [constructor|..].
  - destruct p as [bs|k].
    + exists (IVec I bs :: its). split_and!.
      * constructor; [|done]. split; [by cbn; intros ->|]. intros rest. by apply mvex_length_app.
      * cbn. by rewrite <- Hb.
      * cbn [List.filter is_vec is_pvec]. by rewrite !len_cons, Hv.
      * intros pos. cbn [item_hits part_hits item_bytes part_bytes app]. apply Hh.
    + destruct Hp as (Hne & Hh62 & i & Hd & Hi). exists (IScalar I (k_bytes k) i :: its). split_and!.
      * constructor; [|done]. split; [done|]. intros rest ip. split; [|apply Hd].
        destruct (k_bytes k) as [|b bs]; [done|]. by apply mvex_length_other.
      * cbn. by rewrite <- Hb.
      * done.
      * intros pos. cbn [item_hits part_hits item_bytes part_bytes]. rewrite fmap_app, Hh. f_equal.
        destruct (Hi (wrap 64 (base + pos))) as (? & ? & ?). by apply hit_of_known.
Qed.

(** The scan of a section made of such parts. *)
Lemma scan_parts ps base section symbols out :
  Forall part_ok ps ->
  exists hs,
    scan_bytes_counting I (concat (part_bytes <$> ps)) base section symbols out =
      (len ps, len (List.filter is_pvec ps), out ++ hs) /\
    brief <$> hs = part_hits base 0 section symbols ps.
Proof.
  intros Hps. destruct (parts_items base section symbols ps Hps) as (its & Hok & Hb & Hv & Hh).
  exists (item_hits I base 0 section symbols its). split; [|apply Hh].
  unfold scan_bytes_counting. rewrite <- Hb, scan_loop_items by done.
  rewrite !Z.add_0_l, Hv. f_equal. f_equal. unfold len. f_equal.
  rewrite <- (length_fmap (item_bytes I) its), Hb. apply length_fmap.
Qed.

End Reads.

(** ** A decoder for a list of instructions *)

Fixpoint is_prefix (p l : list Z) : bool :=
  match p, l with
  | [], _ => true
  | x :: p, y :: l => (x =? y) && is_prefix p l
  | _ :: _, [] => false
  end.

(** The first instruction the bytes begin with; one invalid byte else. *)
Definition table (ks : list Known) : Iced := {|
  Instr := option Known;
  decode bs _ :=
    match List.find (fun k => is_prefix (k_bytes k) bs) ks with
    | Some k => (Some k, length (k_bytes k))
    | None => (None, 1%nat)
    end;
  is_invalid i := match i with Some _ => false | None => true end;
  mnemonic i := from_option k_mnemonic ""%string i;
  cpuid_features i := from_option k_features [] i;
  format i := from_option k_mnemonic "(bad)"%string i
|}.

Lemma is_prefix_self p l : is_prefix p (p ++ l) = true.
Proof. induction p as [|x p IH]; [done|]. cbn. by rewrite Z.eqb_refl. Qed.

Lemma is_prefix_apart p q l : is_prefix p q = false -> is_prefix q p = false -> is_prefix p (q ++ l) = false.
Proof.
  revert q. induction p as [|x p IH]; intros [|y q]; cbn; try done.
  rewrite (Z.eqb_sym y x). destruct (x =? y); [apply IH|done].
Qed.

(** No instruction's bytes begin another's, and none is empty or begins
    with 62. *)
Fixpoint apart (ks : list Known) : bool :=
  match ks with
  | [] => true
  | k :: ks =>
      negb (len (k_bytes k) =? 0) && negb (hd 0 (k_bytes k) =? 0x62) &&
      forallb (fun k' => negb (is_prefix (k_bytes k) (k_bytes k')) && negb (is_prefix (k_bytes k') (k_bytes k))) ks &&
      apart ks
  end.

Lemma table_find ks k rest :
  apart ks = true -> k ∈ ks ->
  List.find (fun k' => is_prefix (k_bytes k') (k_bytes k ++ rest)) ks = Some k /\
  k_bytes k <> [] /\ hd 0 (k_bytes k) <> 0x62.
Proof.
  induction ks as [|j ks IH]; intros Ha Hk; [by apply not_elem_of_nil in Hk|].
  cbn [apart] in Ha. rewrite !andb_true_iff, !negb_true_iff in Ha. destruct Ha as [[[Hl H62] Hap] Ha].
  apply elem_of_cons in Hk as [->|Hk]; cbn [List.find].
  - rewrite is_prefix_self. split; [done|]. split; [by intros E; rewrite E in Hl|]. by apply Z.eqb_neq.
  - destruct (IH Ha Hk) as (-> & ?). split; [|done].
    rewrite forallb_forall in Hap. specialize (Hap k (proj1 (list_elem_of_In _ _) Hk)).
    rewrite andb_true_iff, !negb_true_iff in Hap. destruct Hap. by rewrite is_prefix_apart.
Qed.

Lemma table_reads ks : apart ks = true -> Forall (reads (table ks)) ks.
Proof.
  intros Ha. apply Forall_forall. intros k Hk.
  destruct (table_find ks k [] Ha Hk) as (_ & Hne & H62). split; [done|]. split; [done|].
  exists (fun _ => Some k). split; [|done]. intros rest ip. cbn [decode table].
  by destruct (table_find ks k rest Ha Hk) as (-> & _).
Qed.
