(* ===== verification/AuditTests.v ===== *)
(** The unit tests of the instruction audit (the [tests] and
    [knc_vector_tests] modules of host/crates/phi-isa-audit/src/lib.rs) on the
    model.  The x86 instructions in them are decoded by iced-x86: the tests
    pass with every decoder that reads those instructions with the mnemonics
    and CPUID features iced-x86 documents for them ([offenders],
    [card_scalars]). *)

From S2P Require Import Prelude Bytes IsaAudit AuditProofs Reads.

Local Open Scope Z_scope.
Local Open Scope phi_scope.

(** ** flags_the_known_offenders_and_passes_clean_code *)

(** The instructions of the test's [code], in its order. *)
Definition offenders : list Known := [
  mkKnown [0x0f; 0x44; 0xc1] "Cmove" ["CMOV"];
  mkKnown [0x90] "Nop" ["INTEL8086"];
  mkKnown [0xf3; 0x90] "Pause" ["PAUSE"];
  mkKnown [0x0f; 0xae; 0xf0] "Mfence" ["SSE2"];
  mkKnown [0x66; 0x0f; 0x1f; 0x44; 0x00; 0x00] "Nop" ["MULTIBYTENOP"];
  mkKnown [0x0f; 0x18; 0x08] "Prefetcht0" ["SSE"];
  mkKnown [0x48; 0x0f; 0xc7; 0x08] "Cmpxchg16b" ["CMPXCHG16B"];
  mkKnown [0xec] "In" ["INTEL8086"];
  mkKnown [0xc3] "Ret" ["X64"]]%string.

Definition offenders_code : list Z := [
  0x0f; 0x44; 0xc1;
  0x90;
  0xf3; 0x90;
  0x0f; 0xae; 0xf0;
  0x66; 0x0f; 0x1f; 0x44; 0x00; 0x00;
  0x0f; 0x18; 0x08;
  0x48; 0x0f; 0xc7; 0x08;
  0xec;
  0xc3].

Definition flags_the_known_offenders_and_passes_clean_code (I : Iced) : Prop :=
  let '(n, hits) := scan_bytes I offenders_code 0x1000 ".text" [(0x1000, 32, "f"%string)] [] in
  let reasons := h_reason <$> hits in
  n = 9 /\
  "CMOV"%string ∈ reasons /\
  "PAUSE"%string ∈ reasons /\
  Exists (fun r => starts_with r "SSE" = true) reasons /\
  Exists (fun r => str_contains r "CMPXCHG16B" = true) reasons /\
  Exists (fun r => starts_with r "IN/INS" = true) reasons /\
  len (List.filter (fun h => bool_decide (h_severity h = Suspect)) hits) = 1 /\
  (h ← hits !! 0%nat; h_symbol h) = Some ("f"%string, 0) /\
  (scan_bytes I [0x90; 0xc3] 0 ".text" [] []).2 = [].

(** ** mvex_instructions_are_legal_and_sized *)

Definition card_parts : list Part := [
  PVec [0x62; 0xf1; 0x78; 0x08; 0x29; 0x88; 0x40; 0x00; 0x00; 0x00];
  PKnown (mkKnown [0xc5; 0xf8; 0x93; 0xc9] "Kmovw" ["AVX512F"]);
  PVec [0x62; 0xd1; 0xa9; 0x09; 0xc2; 0xc8; 0x01];
  PVec [0x62; 0xf1; 0xf9; 0x08; 0x58; 0xd1];
  PKnown (mkKnown [0xc3] "Ret" ["X64"])]%string.

(** The two the decoder has to know. *)
Definition card_scalars : list Known :=
  omap (fun p => match p with PVec _ => None | PKnown k => Some k end) card_parts.

Definition card_code : list Z := [
  0x62; 0xf1; 0x78; 0x08; 0x29; 0x88; 0x40; 0x00; 0x00; 0x00;
  0xc5; 0xf8; 0x93; 0xc9;
  0x62; 0xd1; 0xa9; 0x09; 0xc2; 0xc8; 0x01;
  0x62; 0xf1; 0xf9; 0x08; 0x58; 0xd1;
  0xc3].

Definition mvex_instructions_are_legal_and_sized (I : Iced) : Prop :=
  mvex_length card_code = Some 10 /\
  mvex_length (drop 14 card_code) = Some 7 /\
  mvex_length (drop 21 card_code) = Some 6 /\
  mvex_length [0x62; 0xf1; 0x69; 0x08; 0x72; 0xd0; 0x0b; 0x90] = Some 7 /\
  mvex_length [0x62; 0xf1; 0x69; 0x08; 0x72; 0xb7; 0x00; 0x00; 0x00; 0x00; 0x0b; 0x90] = Some 11 /\
  mvex_length [0x62; 0xf1; 0x7d; 0x48; 0x28; 0x07] = None /\
  let '(n, v, hits) := scan_bytes_counting I card_code 0 ".text" [] [] in
  (n, v) = (5, 3) /\ hits = [].

(** ** The tests pass *)

Section Tests.
Context (I : Iced).

Definition reason_of (b : Severity * string * Z * option (string * Z) * string) : string := b.1.1.1.2.
Definition severity_of (b : Severity * string * Z * option (string * Z) * string) : Severity := b.1.1.1.1.

Lemma reasons_brief (hs : list Hit) : h_reason <$> hs = reason_of <$> (brief <$> hs).
Proof. rewrite <- list_fmap_compose. reflexivity. Qed.

Lemma suspects_brief (hs : list Hit) :
  len (List.filter (fun h => bool_decide (h_severity h = Suspect)) hs) =
  len (List.filter (fun b => bool_decide (severity_of b = Suspect)) (brief <$> hs)).
Proof.
  induction hs as [|h hs IH]; [done|]. cbn [fmap list_fmap List.filter].
  change (severity_of (brief h)) with (h_severity h).
  case_bool_decide; [|done]. by rewrite !len_cons, IH.
Qed.

Lemma symbol_brief (hs : list Hit) :
  (h ← hs !! 0%nat; h_symbol h) = (b ← (brief <$> hs) !! 0%nat; b.1.2).
Proof. by destruct hs. Qed.

(** The first test, with any decoder that reads its instructions. *)
Lemma offenders_pass :
  Forall (reads I) offenders -> flags_the_known_offenders_and_passes_clean_code I.
Proof.
  intros Hr. unfold flags_the_known_offenders_and_passes_clean_code, scan_bytes.
  destruct (scan_parts I (PKnown <$> offenders) 0x1000 ".text" [(0x1000, 32, "f"%string)] [])
    as (hs & Hs & Hb); [by apply Forall_fmap|].
  change (concat (part_bytes <$> (PKnown <$> offenders))) with offenders_code in Hs. rewrite Hs.
  destruct (scan_parts I (PKnown <$> [mkKnown [0x90] "Nop" ["INTEL8086"]; mkKnown [0xc3] "Ret" ["X64"]]%string)
    0 ".text" [] []) as (hs' & Hs' & Hb').
  { apply Forall_fmap. unfold offenders in Hr. rewrite !Forall_cons in Hr. rewrite !Forall_cons. naive_solver. }
  change (concat _) with [0x90; 0xc3] in Hs'. rewrite Hs'. cbn [app snd].
  rewrite reasons_brief, suspects_brief, symbol_brief, Hb.
  apply (f_equal length) in Hb'. rewrite length_fmap in Hb'.
  split; [reflexivity|]. do 5 (split; [apply (bool_decide_unpack _); vm_compute; reflexivity|]).
  split; [reflexivity|]. split; [reflexivity|]. by apply nil_length_inv.
Qed.

(** The second: the mask move is an exception by its mnemonic. *)
Lemma card_code_passes :
  Forall (reads I) card_scalars -> mvex_instructions_are_legal_and_sized I.
Proof.
  intros Hr. unfold mvex_instructions_are_legal_and_sized.
  do 6 (split; [reflexivity|]).
  destruct (scan_parts I card_parts 0 ".text" [] []) as (hs & Hs & Hb).
  { cbn [card_scalars omap list_omap card_parts] in Hr. rewrite !Forall_cons in Hr.
    unfold card_parts. rewrite !Forall_cons. cbn [part_ok]. naive_solver. }
  change (concat _) with card_code in Hs. rewrite Hs. cbn [app].
  rewrite part_hits_clean in Hb by (repeat constructor). split; [reflexivity|].
  by destruct hs.
Qed.

End Tests.

(** The unit tests of the audit pass with every decoder that reads their x86
    instructions as iced-x86 documents them. *)
Theorem audit_tests_pass (I : Iced) :
  Forall (reads I) (offenders ++ card_scalars) ->
  flags_the_known_offenders_and_passes_clean_code I /\ mvex_instructions_are_legal_and_sized I.
Proof.
  intros [Ho Hc]%Forall_app. split; [by apply offenders_pass|by apply card_code_passes].
Qed.

(** A decoder that knows them. *)
Definition tests_table : Iced :=
  table (offenders ++ [mkKnown [0xc5; 0xf8; 0x93; 0xc9] "Kmovw" ["AVX512F"]]%string).

Lemma audit_tests_pass_witness :
  flags_the_known_offenders_and_passes_clean_code tests_table /\
  mvex_instructions_are_legal_and_sized tests_table.
Proof.
  apply (audit_tests_pass tests_table).
  pose proof (table_reads (offenders ++ [mkKnown [0xc5; 0xf8; 0x93; 0xc9] "Kmovw" ["AVX512F"]]%string)
    eq_refl) as [Ho Hk]%Forall_app.
  apply Forall_app. split; [exact Ho|]. unfold offenders in Ho. cbn [card_scalars card_parts omap list_omap].
  rewrite !Forall_cons in *. tauto.
Defined.
