(* ===== verification/AuditMain.v ===== *)
(** The program of the audit (host/crates/phi-isa-audit/src/main.rs): what it
    prints and how it exits, from its parsed arguments, the result of reading
    the file and that of [audit_elf].  The argument parser and the reader are
    libraries.  Every hit is accounted for in the output. *)

From Stdlib Require Import OrdersEx.
From S2P Require Import Prelude Bytes Mvex IsaAudit AuditProofs.

Local Open Scope Z_scope.
Local Open Scope phi_scope.

(** ** Texts *)

(** [{:x}] of a [u64]. *)
Fixpoint hex_digits (fuel : nat) (n : Z) : string :=
  match fuel with
  | O => ""
  | S fuel => (if n <? 16 then "" else hex_digits fuel (n / 16)) +:+ hex_digit (n mod 16)
  end.

Definition hex (n : Z) : string := hex_digits 16 n.

(** [{:#012x}]: zeroes up to ten digits after the prefix. *)
Definition hex_address (a : Z) : string :=
  "0x" +:+ String.concat "" (replicate (10 - String.length (hex a)) "0"%string) +:+ hex a.

(** [format!("{:?}", severity).to_uppercase()]. *)
Definition severity_text (s : Severity) : string :=
  match s with Illegal => "ILLEGAL" | Suspect => "SUSPECT" end.

(** The [sym] of a line. *)
Definition symbol_text (h : Hit) : string :=
  match h_symbol h with Some (n, o) => " <" +:+ n +:+ "+0x" +:+ hex o +:+ ">" | None => "" end.

(** A line of the list, and of the ignored hits. *)
Definition hit_line (label : string) (h : Hit) : string :=
  left_align 8 label +:+ " " +:+ left_align 24 (h_reason h) +:+ " " +:+ hex_address (h_address h)
  +:+ symbol_text h +:+ ": " +:+ h_text h +:+ "  [" +:+ h_section h +:+ "]".

(** The heading: the sections, or the first and the last of more than eight. *)
Definition sections_text (ss : list string) : string :=
  if len ss <=? 8 then join ", " ss
  else default ""%string (head ss) +:+ " ... " +:+ default ""%string (last ss).

Definition heading (args : Args) (r : Report) : string :=
  file args +:+ ": " +:+ dec (len (sections r)) +:+ " executable section(s) [" +:+ sections_text (sections r)
  +:+ "], " +:+ dec (instructions r) +:+ " instructions".

(** ** The list and the summary *)

Definition more_line (args : Args) (r : Report) : list string :=
  if max_hits args <? len (hits r)
  then ["... " +:+ dec (len (hits r) - max_hits args) +:+ " more (raise --max)"] else [].

Definition list_lines (args : Args) (r : Report) : list string :=
  ((fun h => hit_line (severity_text (h_severity h)) h) <$> take (Z.to_nat (max_hits args)) (hits r))
  ++ more_line args r.

(** The iteration over the [BTreeMap] of [by_reason]: by severity, then by
    reason. *)
Definition Entry : Type := (Severity * string) * (Z * Hit).

Definition key_before (x y : Entry) : bool :=
  (severity_n x.1.1 <? severity_n y.1.1)
  || ((severity_n x.1.1 =? severity_n y.1.1) && String.ltb x.1.2 y.1.2).

Definition entries (r : Report) : list Entry := sort_by key_before (map_to_list (by_reason r)).

Definition entry_line (e : Entry) : string :=
  left_align 8 (severity_text e.1.1) +:+ " " +:+ right_align 8 (dec e.2.1) +:+ "  "
  +:+ left_align 24 e.1.2 +:+ " " +:+ hex_address (h_address e.2.2) +:+ symbol_text e.2.2
  +:+ ": " +:+ h_text e.2.2.

Definition summary_head : string :=
  left_align 8 "severity" +:+ " " +:+ right_align 8 "count" +:+ "  " +:+ left_align 24 "reason" +:+ " example".

Definition summary_lines (r : Report) : list string := summary_head :: (entry_line <$> entries r).

(** ** [main] *)

Definition result_line (ignored : list Hit) (r : Report) : string :=
  "result: " +:+ dec (count r Illegal) +:+ " illegal, " +:+ dec (count r Suspect) +:+ " suspect, "
  +:+ (match ignored with [] => "" | _ => dec (len ignored) +:+ " ignored, " end)
  +:+ dec (vector r) +:+ " KNC vector".

(** Standard output, standard error and the exit status.  [data] is the
    result of [std::fs::read], [audit] is [audit_elf]. *)
Definition audit_main (args : Args) (audit : list Z -> result string Report) (data : result string (list Z))
  : list string * list string * Z :=
  match (match data with Ok d => audit d | Err e => Err e end) with
  | Err e => ([], ["phi-isa-audit: " +:+ file args +:+ ": " +:+ e], 2)
  | Ok r =>
      let '(ignored, report) := split_ignored args r in
      ([heading args report]
       ++ (if list_hits args then list_lines args report else summary_lines report)
       ++ (hit_line "IGNORED" <$> ignored)
       ++ [result_line ignored report],
       [], exit_code args (Ok r))
  end.

(** ** The summary is complete *)

Lemma string_ltb_asym s t : String.ltb s t = true -> String.ltb t s = false.
Proof. unfold String.ltb. rewrite (String.compare_antisym t s). by destruct (String.compare s t). Qed.

Lemma string_ltb_trans s t u : String.ltb s t = true -> String.ltb t u = true -> String.ltb s u = true.
Proof.
  assert (forall a b, String.ltb a b = true <-> String_as_OT.lt a b) as Hlt.
  { intros a b. unfold String.ltb, String_as_OT.lt. change (String_as_OT.compare a b) with (String.compare a b).
    by destruct (String.compare a b). }
  rewrite !Hlt. apply String_as_OT.lt_strorder.
Qed.

Lemma string_ltb_total s t : String.ltb s t = false -> String.ltb t s = false -> s = t.
Proof.
  unfold String.ltb. rewrite (String.compare_antisym t s).
  destruct (String.compare s t) eqn:E; [|done..]. intros _ _. by apply String.compare_eq_iff.
Qed.

Lemma string_ltb_negtrans s t u : String.ltb s t = false -> String.ltb t u = false -> String.ltb s u = false.
Proof.
  intros H1 H2. destruct (String.ltb s u) eqn:E; [|done]. destruct (String.ltb t s) eqn:E1.
  - by rewrite (string_ltb_trans t s u E1 E) in H2.
  - rewrite (string_ltb_total s t H1 E1) in E. congruence.
Qed.

#[export] Instance key_before_order : StrictOrder_b key_before.
Proof.
  split; unfold key_before; intros x y.
  - rewrite orb_true_iff, andb_true_iff. intros [?|[? Hs%string_ltb_asym]]; [lia|]. rewrite Hs. lia.
  - intros z H1 H2. apply orb_false_iff in H1 as [N1 S1], H2 as [N2 S2]. apply orb_false_iff. split; [lia|].
    apply andb_false_iff in S1, S2. apply andb_false_iff.
    destruct S1 as [S1|S1], S2 as [S2|S2]; [lia..|]. right. by eapply string_ltb_negtrans.
Qed.

(** The counts of the entries. *)
Definition total (es : list Entry) : Z := foldr (fun e n => e.2.1 + n) 0 es.

Lemma total_perm es es' : es ≡ₚ es' -> total es = total es'.
Proof. unfold total. induction 1; cbn [foldr]; lia. Qed.

Lemma total_insert (m : gmap (Severity * string) (Z * Hit)) k h :
  total (map_to_list (<[k := ((default (0, h) (m !! k)).1 + 1, (default (0, h) (m !! k)).2)]> m)) =
  total (map_to_list m) + 1.
Proof.
  assert (Hins : forall v, total (map_to_list (<[k := v]> m)) = v.1 + total (map_to_list (delete k m))).
  { intros v. rewrite <- (insert_delete_eq m k v).
    by rewrite (total_perm _ _ (map_to_list_insert _ _ _ (lookup_delete_eq m k))). }
  rewrite Hins. destruct (m !! k) as [[n e]|] eqn:E; cbn.
  - rewrite <- (insert_id m k (n, e) E) at 2. rewrite Hins. cbn. lia.
  - rewrite delete_id by done. lia.
Qed.

Lemma total_by_reason r : total (map_to_list (by_reason r)) = len (hits r).
Proof.
  unfold by_reason. induction (hits r) as [|h l IH] using rev_ind; [done|].
  rewrite foldl_app. cbn [foldl]. unfold by_reason_step at 1. cbv zeta. rewrite total_insert, IH.
  rewrite len_app, len_cons, len_nil. lia.
Qed.

Lemma entries_perm r : entries r ≡ₚ map_to_list (by_reason r).
Proof. apply sort_by_perm. Qed.

(** An entry is a group of hits with its size and its first. *)
Lemma entries_group r e :
  e ∈ entries r ->
  exists hs, filter (fun h => h_severity h = e.1.1 /\ h_reason h = e.1.2) (hits r) = e.2.2 :: hs /\
    e.2.1 = len (e.2.2 :: hs).
Proof.
  destruct e as [[sev why] [n h]]. rewrite entries_perm, elem_of_map_to_list, by_reason_spec. cbn [fst snd].
  destruct (filter _ _) as [|h' hs]; [done|]. intros [= <- ->]. by exists hs.
Qed.

Lemma entries_keys r : NoDup (entries r).*1.
Proof. rewrite entries_perm. apply NoDup_fst_map_to_list. Qed.

Lemma count_both r : count r Illegal + count r Suspect = len (hits r).
Proof.
  unfold count. induction (hits r) as [|h l IH]; [done|]. rewrite !filter_cons, len_cons, <- IH.
  destruct (h_severity h); repeat case_decide; try done; rewrite len_cons; lia.
Qed.

Lemma split_ignored_lists args r :
  split_ignored args r =
  (List.filter (is_ignored args) (hits r),
   mkReport (sections r) (instructions r) (vector r) (List.filter (keeps args) (hits r))).
Proof.
  pose proof (split_ignored_hits args r) as Hh. unfold split_ignored in *. destruct (ignore args) eqn:E; [|done].
  cbn [snd] in Hh. rewrite <- Hh.
  assert (List.filter (is_ignored args) (hits r) = []) as ->; [|by destruct r].
  assert (H : forall h, is_ignored args h = false) by (intros; unfold is_ignored; by rewrite E).
  clear Hh. induction (hits r) as [|h l IH]; cbn; [done|]. by rewrite H.
Qed.

Lemma filter_halves {A} (p : A -> bool) l :
  len (List.filter (fun x => negb (p x)) l) + len (List.filter p l) = len l.
Proof. induction l as [|x l IH]; [done|]. cbn. destruct (p x); cbn; rewrite !len_cons; lia. Qed.

(** C38: the audit accounts for every hit.  A file that cannot be read or
    audited is one line on standard error and status 2.  Otherwise the hits
    named with [--ignore] are split off and printed, each on its line, and
    the result line's numbers of illegal, suspect and ignored hits add up to
    all of them; the list prints the first [--max] kept hits in order and the
    number that is missing; the summary has one row for each severity and
    reason, in order and without repetition, each with the number of its hits
    and the first of them, and the rows' counts add up to the kept hits; and
    the status is 1 exactly when a kept hit is illegal, or is suspect while
    suspects are not allowed, else 0. *)
Theorem audit_accounts args audit data :
  match (match data with Ok d => audit d | Err e => Err e end) with
  | Err e => audit_main args audit data = ([], ["phi-isa-audit: " +:+ file args +:+ ": " +:+ e], 2)
  | Ok r =>
      exists kept body,
        let ignored := List.filter (is_ignored args) (hits r) in
        hits kept = List.filter (keeps args) (hits r) /\
        audit_main args audit data =
          ([heading args kept] ++ body ++ (hit_line "IGNORED" <$> ignored) ++ [result_line ignored kept], [],
           if bool_decide (Exists (fun h => is_ignored args h = false /\
                (h_severity h = Illegal \/ h_severity h = Suspect /\ allow_suspect args = false)) (hits r))
           then 1 else 0) /\
        count kept Illegal + count kept Suspect + len ignored = len (hits r) /\
        if list_hits args
        then body = ((fun h => hit_line (severity_text (h_severity h)) h) <$>
                       take (Z.to_nat (max_hits args)) (hits kept))
                    ++ (if max_hits args <? len (hits kept)
                        then ["... " +:+ dec (len (hits kept) - max_hits args) +:+ " more (raise --max)"]
                        else [])
        else body = summary_head :: (entry_line <$> entries kept) /\
             sorted_by key_before (entries kept) /\ NoDup (entries kept).*1 /\
             total (entries kept) = count kept Illegal + count kept Suspect /\
             forall e, e ∈ entries kept -> exists hs,
               filter (fun h => h_severity h = e.1.1 /\ h_reason h = e.1.2) (hits kept) = e.2.2 :: hs /\
               e.2.1 = len (e.2.2 :: hs)
  end.
Proof.
  unfold audit_main. destruct (match data with Ok d => audit d | Err e => Err e end) as [r|e]; [|done].
  rewrite split_ignored_lists, exit_code_spec.
  set (kept := mkReport _ _ _ _). exists kept.
  exists (if list_hits args then list_lines args kept else summary_lines kept). cbv zeta.
  split; [done|]. split; [done|]. split.
  - rewrite count_both. apply filter_halves.
  - destruct (list_hits args); [done|]. split; [done|]. split; [apply sort_by_sorted, _|].
    split; [apply entries_keys|]. split; [|apply entries_group].
    by rewrite (total_perm _ _ (entries_perm kept)), total_by_reason, count_both.
Qed.

(** Two hits, one of them ignored. *)
Lemma audit_example :
  audit_main (mkArgs "a.out" true 200 false ["xsave"%string])
    (fun _ => Ok (mkReport [".text"%string] 40 7
       [mkHit Illegal "CMOV" 0x401010 "cmove eax,ecx" (Some ("main"%string, 0x10)) ".text";
        mkHit Illegal "XSAVE" 0x401234 "xgetbv" None ".text"])) (Ok []) =
  (["a.out: 1 executable section(s) [.text], 40 instructions";
    "ILLEGAL  CMOV                     0x0000401010 <main+0x10>: cmove eax,ecx  [.text]";
    "IGNORED  XSAVE                    0x0000401234: xgetbv  [.text]";
    "result: 1 illegal, 0 suspect, 1 ignored, 7 KNC vector"]%string, [], 1).
Proof. vm_compute. reflexivity. Qed.
