(* ===== verification/AgentTests.v ===== *)
(** The tests of the card agent (host/crates/phi-rpc/tests/agent.rs) as
    programs over the client of [AgentClient]: what each test sends, and what
    it asserts of the frames it receives.  The agent is a program in assembly:
    the bytes that come back from it are the reads of the socket, whatever
    they are, and what a test observes elsewhere (the log, a file, the time
    that passed) is an argument.  A failed assertion or a panic is [None].
    [accepts] says exactly which answers of the agent a test accepts. *)

From S2P Require Import Prelude Bytes Utf8 Mvex IsaAudit AuditMain RpcMsg RpcEncode RpcDecode RpcStream AgentClient RpcTests.

Local Open Scope Z_scope.
Local Open Scope phi_scope.

(** ** Texts *)

(** A line of ASCII text. *)
Definition line_of (s : string) : str := ascii_str s ++ [10].

(** [fmt::Display for DecodeError]. *)
Definition display (e : DecodeError) : string :=
  match e with
  | Length n => "frame length " +:+ Mvex.dec n +:+ " out of range"
  | Tag t => "unknown message tag 0x" +:+ AuditMain.hex t
  | Malformed => "malformed frame body"
  end.

(** [starts_with], [contains] and [matches(..).count()] of a text; matches do
    not overlap. *)
Definition begins (p l : str) : bool := bool_decide (p `prefix_of` l).

Fixpoint contains (p l : str) : bool :=
  begins p l || match l with [] => false | _ :: l => contains p l end.

Fixpoint matches (p : str) (skip : nat) (l : str) : Z :=
  match l with
  | [] => 0
  | _ :: t =>
      match skip with
      | S skip => matches p skip t
      | O => if begins p l then 1 + matches p (length p - 1) t else matches p 0 t
      end
  end.

(** [str::lines], for lines that end in a newline alone. *)
Fixpoint lines (l : str) : list str :=
  match l with
  | [] => []
  | 10 :: l => [] :: lines l
  | x :: l => match lines l with [] => [[x]] | line :: ls => (x :: line) :: ls end
  end.

(** ** A test

    It sends and receives through the agent's socket, and panics. *)

Definition Test (A : Type) : Type := Agent -> option (A * Agent).

#[export] Instance test_ret : MRet Test := fun A x a => Some (x, a).
#[export] Instance test_bind : MBind Test := fun A B k t a => '(x, a) ← t a; k x a.

Definition tell (m : Msg) : Test unit := fun a => Some (tt, send a m).
Definition tell_raw (b : list Z) : Test unit := fun a => Some (tt, send_raw a b).
Definition hear : Test Msg := recv.
Definition pinged : Test unit := fun a => a ← ping a; Some (tt, a).
Definition tell_all (ms : list Msg) : Test unit := fun a => Some (tt, foldl send a ms).

(** A message takes a byte at least. *)
Definition hear_session : Test (list Msg) := fun a =>
  session (S (length (dbuf (dec a) ++ concat (sock a)))) a.

Definition assert (P : Prop) `{!Decision P} : Test unit := fun a =>
  if decide P then Some (tt, a) else None.
Definition unwrap {A} (o : option A) : Test A := fun a => x ← o; Some (x, a).

(** A command's session, split. *)
Definition hear_streams : Test (list Z * list Z * Msg) := v ← hear_session; unwrap (streams v).

(** A request and the session it must be answered with. *)
Definition answered_by (m : Msg) (v : list Msg) : Test unit :=
  _ ← tell m; v' ← hear_session; assert (v' = v).

(** ** The tests *)

Definition PATH : str * str := (ascii_str "PATH", ascii_str "/usr/local/bin:/usr/bin:/bin").

(** [exec]. *)
Definition exec (argv : list string) (env : list (str * str)) (cwd : option string) : Msg :=
  Exec (ascii_str <$> argv) env (ascii_str <$> cwd).

Definition ping_and_startup_line (log : str) : Test unit :=
  _ ← pinged; assert (begins (line_of "phi-agent 0.2.0 listening on -") log = true).

Definition echo_request : Msg := exec ["/bin/sh"; "-c"; "echo out; echo err >&2; exit 3"] [PATH] None.
Definition kill_request : Msg := exec ["/bin/sh"; "-c"; "kill -9 $$"] [PATH] None.
Definition cat_request : Msg := exec ["cat"] [PATH] None.

Definition exec_relays_streams_and_status : Test unit :=
  _ ← tell echo_request;
  '(out, err, final) ← hear_streams;
  _ ← assert (out = line_of "out"); _ ← assert (err = line_of "err"); _ ← assert (final = Exit 3);
  _ ← tell kill_request;
  '(_, _, final) ← hear_streams;
  assert (final = Exit (128 + 9)).

Definition exec_input_by_path_lookup : Test unit :=
  _ ← tell cat_request;
  _ ← tell (Stdin (ascii_str "hello "));
  _ ← tell (Stdin (ascii_str "world"));
  _ ← tell StdinEof;
  '(out, _, final) ← hear_streams;
  _ ← assert (out = ascii_str "hello world"); assert (final = Exit 0).

(** The bytes the second thread writes, which writes alone. *)
Definition large_data : list Z := (fun i => wrap 32 (i * 2654435761) ≫ 24) <$> seqZ 0 (3 ≪ 20).

Definition short_output (m : Msg) : bool := match m with Stdout d => len d <=? 32768 | _ => true end.

Definition exec_large_input_and_output : Test unit :=
  let data := large_data in
  _ ← tell cat_request;
  _ ← tell_all (Stdin <$> chunks (Z.to_nat 65536) data);
  _ ← tell StdinEof;
  frames ← hear_session;
  _ ← assert (forallb short_output frames = true);
  '(out, _, final) ← unwrap (streams frames);
  _ ← assert (final = Exit 0); assert (out = data).

(** [f] is the file without execute permission the test makes. *)
Definition exec_failures_are_errors (f : str) : Test unit :=
  _ ← answered_by (exec ["no-such-program-xyz"] [(ascii_str "PATH", ascii_str "/nonexistent:/usr/bin")] None)
    [Error (ascii_str "no-such-program-xyz: No such file or directory (os error 2)")];
  _ ← answered_by (exec [] [] None) [Error (ascii_str "empty argv")];
  _ ← answered_by (Exec [ascii_str "/bin/echo"; ascii_str "a" ++ 0 :: ascii_str "b"] [] None)
    [Error (ascii_str "/bin/echo: nul byte found in provided data")];
  _ ← answered_by (exec ["/bin/pwd"] [] (Some "/nonexistent-dir"))
    [Error (ascii_str "/bin/pwd: No such file or directory (os error 2)")];
  _ ← answered_by (Exec [f] [] None) [Error (f ++ ascii_str ": Permission denied (os error 13)")];
  pinged.

Definition pwd_request : Msg := exec ["/bin/pwd"] [] (Some "/tmp").
Definition env_request : Msg :=
  exec ["/usr/bin/env"]
    [(ascii_str "B", ascii_str "1"); (ascii_str "A", ascii_str "2"); (ascii_str "B", ascii_str "3");
     (ascii_str "AB", ascii_str "4"); (ascii_str "a", ascii_str "5")] None.

Definition exec_cwd_and_environment : Test unit :=
  _ ← tell pwd_request;
  '(out, _, _) ← hear_streams; _ ← assert (out = line_of "/tmp");
  _ ← tell env_request;
  '(out, _, _) ← hear_streams;
  _ ← assert (out = line_of "A=2" ++ line_of "AB=4" ++ line_of "B=3" ++ line_of "a=5");
  _ ← tell (exec ["env"] [] None);
  '(out, _, final) ← hear_streams; assert ((out, final) = ([], Exit 0)).

(** A message that must be a sample. *)
Definition sample_of (m : Msg) : Test Stat := match m with StatReply s => mret s | _ => fun _ => None end.

Definition sleep_request : Msg := exec ["/bin/sh"; "-c"; "sleep 0.5; echo done"] [PATH] None.

Definition stat_is_answered_during_a_command : Test unit :=
  _ ← tell sleep_request;
  _ ← tell StatReq;
  m ← hear; s ← sample_of m; _ ← assert (nprocs s > 0);
  '(out, _, final) ← hear_streams; assert ((out, final) = (line_of "done", Exit 0)).

Definition background_request : Msg := exec ["/bin/sh"; "-c"; "(sleep 3; echo late) & echo early"] [PATH] None.

(** [took] is the time that passed, in nanoseconds. *)
Definition background_children_do_not_hold_the_session (took : Z) : Test unit :=
  _ ← tell background_request;
  '(out, _, final) ← hear_streams;
  _ ← assert ((out, final) = (line_of "early", Exit 0));
  _ ← assert (took < 2000000000);
  pinged.






Definition nul_name : str := ascii_str "a" ++ 0 :: ascii_str "b".

Definition file_failures_are_errors : Test unit :=
  _ ← answered_by (PutOpen (ascii_str "/nonexistent-dir/x") 420)
    [Error (ascii_str "/nonexistent-dir/x: No such file or directory (os error 2)")];
  _ ← tell (PutData [1; 2; 3]);
  _ ← tell PutClose;
  _ ← pinged;
  _ ← answered_by (Get (ascii_str "/tmp")) [Error (ascii_str "/tmp: Is a directory (os error 21)")];
  answered_by (Get nul_name) [Error (nul_name ++ ascii_str ": file name contained an unexpected NUL byte")].

(** The bytes that are no frames, as they are written. *)
Definition bad_tag : list Z := [3; 0; 0; 0; 200; 1; 2].
Definition short_body : list Z := [2; 0; 0; 0; 10; 5].
Definition not_utf8 : list Z := [4; 0; 0; 0; 13; 1; 0; 0xff].
Definition zero_length : list Z := [0; 0; 0; 0] ++ encode Ping.
Definition over_long : list Z := to_le_bytes 4 (MAX_FRAME + 1).

(** The lines the test wants in the log. *)
Definition wanted_lines : list string :=
  ["phi-agent: bad frame from the host: unknown message tag 0xc8";
   "phi-agent: bad frame from the host: malformed frame body";
   "phi-agent: bad frame from the host: frame length 0 out of range";
   "phi-agent: bad frame from the host: frame length 1048577 out of range"].

Definition bad_frames_logged (log : str) : bool :=
  forallb (fun want => contains (line_of want) log) wanted_lines
  && (matches (ascii_str "malformed frame body") 0 log =? 2).

Definition stray_and_bad_frames (log : str) : Test unit :=
  _ ← answered_by (Stdout (ascii_str "x")) [Error (ascii_str "unexpected Stdout outside a session")];
  _ ← tell (Stdin (ascii_str "late"));
  _ ← tell StdinEof;
  _ ← tell_raw bad_tag;
  _ ← tell_raw short_body;
  _ ← tell_raw not_utf8;
  _ ← pinged;
  _ ← tell_raw zero_length;
  _ ← pinged;
  _ ← tell_raw over_long;
  _ ← pinged;
  assert (bad_frames_logged log = true).

(** ** Samples *)

Definition sample : Test Stat := _ ← tell StatReq; m ← hear; sample_of m.

(** [by_pid]: [sort_by_key] is stable. *)
Definition by_pid (v : list ProcStat) : list ProcStat := sort_by (fun p q => pid p <? pid q) v.

(** [Stat] with other processes. *)
Definition with_procs (s : Stat) (v : list ProcStat) : Stat :=
  mkStat (uptime_ms s) (cpus s) (mem s) (load s) (running s) (tasks s) (temps s) (temp_peak s)
    (vcore_mv s) (core_mhz s) (disks s) (nets s) v (nprocs s) (nkthreads s).

Definition init_proc : ProcStat := mkProcStat 1 83 false 103 556 1 (ascii_str "init").
Definition odd_proc : ProcStat := mkProcStat 7 82 false 11 1000 3 (ascii_str "a (b) c").
Definition kernel_proc : ProcStat := mkProcStat 12 83 true 3 0 1 (ascii_str "ksoftirqd/1").

(** The sample of the fixture. *)
Definition fixture_stat : Stat :=
  mkStat 26811340
    [mkCpuStat 0 (1731 + 117 + 14) (2679217 + 1); mkCpuStat 0 (1730 + 117 + 6) 2679219;
     mkCpuStat 1 0 0; mkCpuStat 0 (5 + 4 + 3 + 1 + 1 + 1) 120]
    (mkMemStat 5805088 5379572 8916 18912 4194300 4194300)
    (65535, 150, 7) 3 1529
    ((fun i => if i <=? 7 then 50 + Z.quot (i * 999) 1000 else -1) <$> seqZ 1 15)
    60 1003 1100
    [mkDevStat (ascii_str "phiblk0") (3672642 * 512) (3671304 * 512);
     mkDevStat (ascii_str "phiblk1") (24 * 512) (8 * 512)]
    [mkDevStat (ascii_str "phi0") 7150 7151]
    [init_proc; odd_proc; kernel_proc] 3 1.

(** One of samples 2 to 4. *)
Definition unchanged_sample : Test unit :=
  s ← sample;
  _ ← assert ((nprocs s, nkthreads s) = (3, 1));
  let procs := by_pid (procs s) in
  _ ← assert (pid <$> procs = [1; 7]);
  p ← unwrap (procs !! 0%nat); assert (rss_kb p = 600).

Definition stat_from_a_fixture : Test unit :=
  s ← sample;
  _ ← assert (with_procs s (by_pid (procs s)) = fixture_stat);
  _ ← unchanged_sample; _ ← unchanged_sample; _ ← unchanged_sample;
  s ← sample;
  _ ← assert ((fun p => (pid p, ticks p)) <$> by_pid (procs s) = [(1, 103); (7, 11); (12, 9)]);
  s ← sample;
  assert (pid <$> by_pid (procs s) = [1; 7]).

(** [Stat::default]. *)
Definition default_stat : Stat :=
  mkStat 0 [] (mkMemStat 0 0 0 0 0 0) (0, 0, 0) 0 0 [] 0 0 0 [] [] [] 0 0.

Definition stat_without_hwmon_or_files : Test unit := s ← sample; assert (s = default_stat).

(** The lines of [/proc/stat] of a processor. *)
Definition cpu_line (l : str) : bool :=
  begins (ascii_str "cpu") l && match l !! 3%nat with Some c => (48 <=? c) && (c <=? 57) | None => false end.

(** [proc_stat] is the text of [/proc/stat], [child] the agent's process. *)
Definition stat_of_this_host (proc_stat : str) (child : Z) : Test unit :=
  s ← sample;
  _ ← assert (len (cpus s) = len (List.filter cpu_line (lines proc_stat)));
  _ ← assert (total_kb (mem s) > 0 /\ uptime_ms s > 0 /\ nprocs s > 0 /\ tasks s > 0);
  me ← unwrap (List.find (fun p => pid p =? child) (procs s));
  _ ← assert (comm me = ascii_str "phi-agent");
  assert (kthread me = false /\ rss_kb me > 0 /\ threads me = 1).

(** ** Verdicts *)

(** What the decoder makes of the frames that are still to come, however the
    socket cuts them. *)
Definition answers (a : Agent) (rs : list (result DecodeError Msg)) : Prop :=
  exists fs tail, pends a fs tail /\ frame_result <$> fs = rs.

(** The test passes exactly on the answers [V] describes, with the value and
    the remaining answers it gives them, and sends [w] when it passes. *)
Definition accepts {A} (t : Test A)
    (V : A -> list (result DecodeError Msg) -> list (result DecodeError Msg) -> Prop) (w : list Z) : Prop :=
  forall a rs, answers a rs ->
    (forall x rs', V x rs rs' -> exists a', t a = Some (x, a') /\ sent a' = sent a ++ w /\ answers a' rs') /\
    (forall x a', t a = Some (x, a') -> exists rs', V x rs rs' /\ sent a' = sent a ++ w /\ answers a' rs').

Lemma bind_run {A B} (t : Test A) (k : A -> Test B) a x a' : t a = Some (x, a') -> (t ≫= k) a = k x a'.
Proof. intros E. change ((t ≫= k) a) with ('(x, a) ← t a; k x a). by rewrite E. Qed.

Lemma accepts_bind {A B} (t : Test A) (k : A -> Test B) V V' w w' :
  accepts t V w -> (forall x, accepts (k x) (V' x) w') ->
  accepts (t ≫= k) (fun y rs rs'' => exists x rs', V x rs rs' /\ V' x y rs' rs'') (w ++ w').
Proof.
  intros Ht Hk a rs Ha. destruct (Ht a rs Ha) as [Ht1 Ht2]. split.
  - intros y rs'' (x & rs' & HV & HV'). destruct (Ht1 x rs' HV) as (a1 & E1 & Hs1 & Ha1).
    destruct (Hk x a1 rs' Ha1) as [Hk1 _]. destruct (Hk1 y rs'' HV') as (a2 & E2 & Hs2 & Ha2).
    exists a2. split_and!; [|by rewrite Hs2, Hs1, app_assoc|done].
    by rewrite (bind_run _ _ _ _ _ E1).
  - intros y a2 E. apply bind_Some in E as ([x a1] & E1 & E2). destruct (Ht2 x a1 E1) as (rs' & HV & Hs1 & Ha1).
    destruct (Hk x a1 rs' Ha1) as [_ Hk2]. destruct (Hk2 y a2 E2) as (rs'' & HV' & Hs2 & Ha2).
    exists rs''. split_and!; [by exists x, rs'|by rewrite Hs2, Hs1, app_assoc|done].
Qed.

Lemma accepts_iff {A} (t : Test A) V V' w w' :
  accepts t V w -> w = w' -> (forall x rs rs', V x rs rs' <-> V' x rs rs') -> accepts t V' w'.
Proof. intros Ht <- HV a rs Ha. destruct (Ht a rs Ha) as [H1 H2]. split; [naive_solver|]. intros x a' E. destruct (H2 x a' E). naive_solver. Qed.

(** Nothing is heard. *)
Lemma accepts_quiet {A} (f : Agent -> Agent) (o : option A) w :
  (forall a, sock (f a) = sock a /\ dec (f a) = dec a /\ sent (f a) = sent a ++ w) ->
  accepts (fun a => x ← o; Some (x, f a)) (fun x rs rs' => o = Some x /\ rs' = rs) w.
Proof.
  intros Hf a rs (fs & tail & Hp & Hr). destruct (Hf a) as (Hk & Hd & Hs).
  assert (answers (f a) rs) as Ha.
  { exists fs, tail. split; [|done]. destruct Hp. split; by rewrite ?Hk, ?Hd. }
  split.
  - intros x rs' [-> ->]. by exists (f a).
  - intros x a' E. apply bind_Some in E as (y & -> & [= <- <-]). by exists rs.
Qed.

Lemma accepts_ret {A} (x : A) : accepts (mret x) (fun y rs rs' => y = x /\ rs' = rs) [].
Proof.
  eapply accepts_iff; [exact (accepts_quiet (fun a => a) (Some x) [] ltac:(by intros; rewrite app_nil_r))|done|naive_solver].
Qed.

Lemma accepts_fail {A} w : accepts (fun _ => None : option (A * Agent)) (fun _ _ _ => False) w.
Proof. by split. Qed.

Lemma accepts_assert P `{!Decision P} : accepts (assert P) (fun _ rs rs' => P /\ rs' = rs) [].
Proof.
  unfold assert. intros a rs Ha. split.
  - intros [] rs' [HP ->]. exists a. rewrite decide_True by done. by rewrite app_nil_r.
  - intros x a' E. destruct (decide P); [|done]. injection E as <- <-. exists rs. by rewrite app_nil_r.
Qed.

Lemma accepts_unwrap {A} (o : option A) : accepts (unwrap o) (fun x rs rs' => o = Some x /\ rs' = rs) [].
Proof. apply (accepts_quiet (fun a => a)). intros. by rewrite app_nil_r. Qed.

Lemma accepts_tell m : accepts (tell m) (fun _ rs rs' => rs' = rs) (encode m).
Proof.
  eapply accepts_iff; [exact (accepts_quiet (fun a => send a m) (Some tt) _ ltac:(done))|done|].
  intros [] rs rs'. naive_solver.
Qed.

Lemma accepts_tell_raw b : accepts (tell_raw b) (fun _ rs rs' => rs' = rs) b.
Proof.
  eapply accepts_iff; [exact (accepts_quiet (fun a => send_raw a b) (Some tt) _ ltac:(done))|done|].
  intros [] rs rs'. naive_solver.
Qed.

Lemma send_all ms a :
  sock (foldl send a ms) = sock a /\ dec (foldl send a ms) = dec a /\
  sent (foldl send a ms) = sent a ++ concat (encode <$> ms).
Proof.
  revert a. induction ms as [|m ms IH]; intros a; [by rewrite app_nil_r|].
  cbn [foldl fmap list_fmap concat]. destruct (IH (send a m)) as (-> & -> & ->). cbn. by rewrite app_assoc.
Qed.

Lemma accepts_tell_all ms : accepts (tell_all ms) (fun _ rs rs' => rs' = rs) (concat (encode <$> ms)).
Proof.
  eapply accepts_iff; [exact (accepts_quiet (fun a => foldl send a ms) (Some tt) _ (send_all ms))|done|].
  intros [] rs rs'. naive_solver.
Qed.

Lemma accepts_hear : accepts hear (fun m rs rs' => rs = Ok m :: rs') [].
Proof.
  intros a rs (fs & tail & Hp & Hr). pose proof (recv_pops a fs tail Hp) as Hrecv. rewrite Hr in Hrecv.
  assert (frame_result <$> drop 1 fs = drop 1 rs) as Hd by by rewrite fmap_drop, Hr.
  unfold hear. destruct rs as [|[m|e] rs].
  - split; [done|]. by rewrite Hrecv.
  - destruct Hrecv as (a' & E & Hs & Hp').
    assert (answers a' rs) as Ha by by exists (drop 1 fs), tail.
    split.
    + intros x rs' [= <- <-]. exists a'. by rewrite app_nil_r.
    + intros x a1 E1. rewrite E in E1. injection E1 as <- <-. exists rs. by rewrite app_nil_r.
  - split; [done|]. by rewrite Hrecv.
Qed.

Lemma accepts_ping : accepts pinged (fun _ rs rs' => rs = Ok pong :: rs') (encode Ping).
Proof.
  assert (forall a, pinged a = (_ ← tell Ping; m ← hear; assert (m = pong)) a) as Hp.
  { intros a. rewrite (bind_run (tell Ping) _ a tt (send a Ping) eq_refl). unfold pinged, ping.
    destruct (recv (send a Ping)) as [[m a']|] eqn:E.
    - rewrite (bind_run hear _ _ m a' E). cbn [mbind option_bind]. unfold assert. rewrite bool_decide_decide. by destruct (decide (m = pong)).
    - change (None = ('(m, a') ← recv (send a Ping); assert (m = pong) a')). by rewrite E. }
  assert (accepts (_ ← tell Ping; m ← hear; assert (m = pong)) (fun _ rs rs' => rs = Ok pong :: rs') (encode Ping)) as Hv.
  { eapply accepts_iff.
    - apply accepts_bind; [apply accepts_tell|]. intros x. apply accepts_bind; [apply accepts_hear|]. intros m. apply accepts_assert.
    - by rewrite app_nil_r.
    - intros [] rs rs'. naive_solver. }
  intros a rs Ha. destruct (Hv a rs Ha) as [H1 H2]. by split; intros x y; rewrite Hp; [apply H1|apply H2].
Qed.

(** A session: messages that do not end it, and one that does. *)
Lemma session_shape rs v rest :
  session_spec rs = Some (v, rest) <->
  exists ms e, v = ms ++ [e] /\ Forall (fun m => ~ final m) ms /\ final e /\ rs = (Ok <$> ms) ++ Ok e :: rest.
Proof.
  revert v. induction rs as [|[m|e] rs IH]; intros v; cbn [session_spec].
  - split; [done|]. by intros ([|? ?] & ? & _ & _ & _ & ?).
  - destruct (decide (final m)) as [Hm|Hm].
    + split.
      * intros [= <- <-]. by exists [], m.
      * intros ([|m' ms] & e & -> & Hms & He & Hrs); [by injection Hrs as -> ->|].
        injection Hrs as <- _. by apply Forall_cons in Hms as [? _].
    + split.
      * intros H. destruct (session_spec rs) as [[v' rs']|]; [|done]. injection H as <- <-.
        destruct (proj1 (IH v') eq_refl) as (ms & e & -> & Hms & He & ->).
        exists (m :: ms), e. split_and!; [done|by constructor|done|done].
      * intros ([|m' ms] & e & -> & Hms & He & Hrs); [by injection Hrs as -> ->|].
        injection Hrs as <- ->. apply Forall_cons in Hms as [_ Hms].
        by rewrite (proj2 (IH (ms ++ [e]))) by (by exists ms, e).
  - split; [done|]. by intros ([|? ?] & ? & _ & _ & _ & ?).
Qed.

Lemma accepts_session : accepts hear_session (fun v rs rs' => session_spec rs = Some (v, rs')) [].
Proof.
  intros a rs (fs & tail & Hp & Hr). unfold hear_session.
  pose proof (session_queue (S (length (dbuf (dec a) ++ concat (sock a)))) a fs tail Hp) as Hs. rewrite Hr in Hs.
  assert (length fs < S (length (dbuf (dec a) ++ concat (sock a))))%nat as Hl.
  { destruct Hp as [_ _ _ ->]. rewrite length_app. pose proof (length_frames fs). lia. }
  specialize (Hs Hl). destruct (session_spec rs) as [[v rest]|].
  - destruct Hs as (a' & fs' & E & Hs & Hp' & Hr'). assert (answers a' rest) as Ha by by exists fs', tail. split.
    + intros x rs' [= <- <-]. exists a'. by rewrite app_nil_r.
    + intros x a1 E1. rewrite E in E1. injection E1 as <- <-. exists rest. by rewrite app_nil_r.
  - split; [done|]. by rewrite Hs.
Qed.

(** A command's session: its output, split, and the message that ends it. *)
Definition ran (out err : list Z) (e : Msg) (rs rest : list (result DecodeError Msg)) : Prop :=
  exists ms, rs = (Ok <$> ms) ++ Ok e :: rest /\ Forall (fun m => ~ final m) ms /\ final e /\
    concat (out_bytes <$> ms) = out /\ concat (err_bytes <$> ms) = err.

Lemma streams_split ms e :
  final e -> streams (ms ++ [e]) = Some (concat (out_bytes <$> ms), concat (err_bytes <$> ms), e).
Proof.
  intros He. unfold streams. rewrite foldl_app.
  assert (forall o r l, exists l', foldl streams_step (o, r, l) ms =
    (o ++ concat (out_bytes <$> ms), r ++ concat (err_bytes <$> ms), l')) as Hf.
  { clear. induction ms as [|m ms IH]; intros o r l; [exists l; by rewrite !app_nil_r|].
    cbn [foldl fmap list_fmap concat]. destruct m; cbn [streams_step out_bytes err_bytes app];
      edestruct IH as [l' ->]; exists l'; by rewrite <- ?app_assoc. }
  destruct (Hf [] [] None) as [l' ->]. destruct e; try (exfalso; unfold final in He; naive_solver); done.
Qed.

(** What a test does with a session. *)
Lemma accepts_bind_session {B} (k : list Msg -> Test B) V' w' :
  (forall ms e, final e -> accepts (k (ms ++ [e])) (V' ms e) w') ->
  accepts (hear_session ≫= k) (fun y rs rs'' => exists ms e rs',
    rs = (Ok <$> ms) ++ Ok e :: rs' /\ Forall (fun m => ~ final m) ms /\ final e /\ V' ms e y rs' rs'') w'.
Proof.
  intros Hk a rs Ha. destruct (accepts_session a rs Ha) as [H1 H2]. split.
  - intros y rs'' (ms & e & rs' & Hrs & Hms & He & HV).
    destruct (H1 (ms ++ [e]) rs') as (a1 & E1 & Hs1 & Ha1); [by apply session_shape; exists ms, e|].
    destruct (Hk ms e He a1 rs' Ha1) as [Hk1 _]. destruct (Hk1 y rs'' HV) as (a2 & E2 & Hs2 & Ha2).
    exists a2. rewrite (bind_run _ _ _ _ _ E1), Hs2, Hs1, app_nil_r. done.
  - intros y a2 E. apply bind_Some in E as ([v a1] & E1 & E2). destruct (H2 v a1 E1) as (rs' & HS & Hs1 & Ha1).
    apply session_shape in HS as (ms & e & -> & Hms & He & Hrs).
    destruct (Hk ms e He a1 rs' Ha1) as [_ Hk2]. destruct (Hk2 y a2 E2) as (rs'' & HV & Hs2 & Ha2).
    exists rs''. rewrite Hs2, Hs1, app_nil_r. split_and!; [|done..]. by exists ms, e, rs'.
Qed.

Lemma accepts_bind_unwrap {A B} (o : option A) (k : A -> Test B) V' w' :
  (forall x, o = Some x -> accepts (k x) (V' x) w') ->
  accepts (unwrap o ≫= k) (fun y rs rs'' => exists x, o = Some x /\ V' x y rs rs'') w'.
Proof.
  intros Hk a rs Ha. destruct o as [x|].
  - destruct (Hk x eq_refl a rs Ha) as [H1 H2]. rewrite (bind_run (unwrap (Some x)) k a x a eq_refl).
    split; [intros y rs'' (? & [= ->] & HV); by apply H1|].
    intros y a' E. destruct (H2 y a' E) as (rs'' & HV & ?). exists rs''. split; [by exists x|done].
  - split; [by intros y rs'' (? & ? & _)|done].
Qed.

Lemma accepts_bind_unwrap2 {A1 A2 B} (o : option (A1 * A2)) (k : A1 * A2 -> Test B) V' w' :
  (forall x y, o = Some (x, y) -> accepts (k (x, y)) (V' x y) w') ->
  accepts (unwrap o ≫= k) (fun z rs rs'' => exists x y, o = Some (x, y) /\ V' x y z rs rs'') w'.
Proof.
  intros Hk. eapply accepts_iff.
  - apply (accepts_bind_unwrap o k (fun xy => V' xy.1 xy.2)). intros [x y]. apply Hk.
  - done.
  - intros z rs rs''. split; [intros ([x y] & ? & ?); by exists x, y|intros (x & y & ? & ?); by exists (x, y)].
Qed.

Lemma accepts_bind_streams {B} (k : list Z * list Z * Msg -> Test B) V' w' :
  (forall out err e, accepts (k (out, err, e)) (V' out err e) w') ->
  accepts (hear_streams ≫= k) (fun y rs rs'' => exists out err e rs',
    ran out err e rs rs' /\ V' out err e y rs' rs'') w'.
Proof.
  intros Hk.
  assert (accepts (v ← hear_session; x ← unwrap (streams v); k x) (fun y rs rs'' => exists out err e rs',
    ran out err e rs rs' /\ V' out err e y rs' rs'') w') as Hv.
  { eapply accepts_iff.
    - apply accepts_bind_session. intros ms e He. rewrite streams_split by done.
      apply (accepts_bind_unwrap (Some (concat (out_bytes <$> ms), concat (err_bytes <$> ms), e)) k
        (fun x => V' x.1.1 x.1.2 x.2) w'). intros x [= <-]. apply Hk.
    - done.
    - intros y rs rs''. unfold ran. split.
      + intros (ms & e & rs' & Hrs & Hms & He & x & [= <-] & HV). do 4 eexists. split; [|exact HV]. by exists ms.
      + intros (out & err & e & rs' & (ms & Hrs & Hms & He & <- & <-) & HV). exists ms, e, rs'. split_and!; [done..|].
        by eexists. }
  assert (forall a, (hear_streams ≫= k) a = (v ← hear_session; x ← unwrap (streams v); k x) a) as Heq.
  { intros a. unfold hear_streams, mbind, test_bind. destruct (hear_session a) as [[v a']|]; [|done].
    cbn. by destruct (unwrap (streams v) a') as [[x a'']|]. }
  intros a rs Ha. destruct (Hv a rs Ha) as [H1 H2]. by split; intros x y; rewrite Heq; [apply H1|apply H2].
Qed.

(** A request answered by one message. *)
Lemma accepts_answered m e :
  final e -> accepts (answered_by m [e]) (fun _ rs rs' => rs = Ok e :: rs') (encode m).
Proof.
  intros He. unfold answered_by. eapply accepts_iff.
  - apply accepts_bind; [apply accepts_tell|]. intros x. apply accepts_bind_session. intros ms e' _. apply accepts_assert.
  - by rewrite app_nil_r.
  - intros [] rs rs'. split.
    + intros ([] & ? & -> & ms & e' & ? & -> & Hms & He' & Hv & ->). destruct ms as [|m1 ms]; [by injection Hv as ->|].
      cbn in Hv. injection Hv as _ Hv. by apply app_eq_nil in Hv as [_ ?].
    + intros ->. exists tt, (Ok e :: rs'). split; [done|]. by exists [], e, rs'.
Qed.

Lemma accepts_sample_of m : accepts (sample_of m) (fun s rs rs' => m = StatReply s /\ rs' = rs) [].
Proof.
  destruct m; try (eapply accepts_iff; [apply accepts_fail|done|naive_solver]).
  eapply accepts_iff; [apply accepts_ret|done|naive_solver].
Qed.

Lemma accepts_sample : accepts sample (fun s rs rs' => rs = Ok (StatReply s) :: rs') (encode StatReq).
Proof.
  eapply accepts_iff.
  - apply accepts_bind; [apply accepts_tell|]. intros x. apply accepts_bind; [apply accepts_hear|]. intros m. apply accepts_sample_of.
  - by rewrite app_nil_r.
  - intros s rs rs'. naive_solver.
Qed.

(** The steps of a test. *)
Ltac accepts_step :=
  lazymatch goal with
  | |- accepts (mbind _ hear_streams) _ _ => apply accepts_bind_streams; intros ? ? ?; cbv beta iota
  | |- accepts (mbind _ hear_session) _ _ => apply accepts_bind_session; intros ? ? ?
  | |- accepts (mbind _ (unwrap _)) _ _ =>
      first [apply accepts_bind_unwrap2; intros ? ? ?|apply accepts_bind_unwrap; intros ? ?]; cbv beta iota
  | |- accepts (mbind _ _) _ _ => apply accepts_bind; [|intros ?; cbv beta iota]
  | |- accepts (assert _) _ _ => apply accepts_assert
  | |- accepts (tell _) _ _ => apply accepts_tell
  | |- accepts (tell_raw _) _ _ => apply accepts_tell_raw
  | |- accepts (tell_all _) _ _ => apply accepts_tell_all
  | |- accepts pinged _ _ => apply accepts_ping
  | |- accepts hear _ _ => apply accepts_hear
  | |- accepts sample _ _ => apply accepts_sample
  | |- accepts (sample_of _) _ _ => apply accepts_sample_of
  | |- accepts (answered_by _ _) _ _ => apply accepts_answered; unfold final; eauto
  end.

Ltac opened :=
  repeat match goal with
  | H : exists _, _ |- _ => destruct H
  | H : _ /\ _ |- _ => destruct H
  | u : unit |- _ => destruct u
  end; subst.

(** The requests, in order. *)
Ltac requests := cbn [fmap list_fmap concat app]; rewrite ?fmap_app, ?concat_app;
  cbn [fmap list_fmap concat app]; rewrite ?app_nil_r, <- ?app_assoc; reflexivity.

(** *** Pings and commands *)

Theorem ping_verdict log :
  accepts (ping_and_startup_line log)
    (fun _ rs rest => rs = Ok pong :: rest /\ begins (line_of "phi-agent 0.2.0 listening on -") log = true)
    (encode Ping).
Proof.
  eapply accepts_iff; [unfold ping_and_startup_line; repeat accepts_step|requests|].
  intros [] rs rest. split; intros H; opened; [done|]. by exists tt, rest.
Qed.

Theorem exec_relays_verdict :
  accepts exec_relays_streams_and_status
    (fun _ rs rest => exists out err rs', ran (line_of "out") (line_of "err") (Exit 3) rs rs' /\ ran out err (Exit 137) rs' rest)
    (encode echo_request ++ encode kill_request).
Proof.
  eapply accepts_iff; [unfold exec_relays_streams_and_status; repeat accepts_step|requests|].
  intros [] rs rest. split; intros H; opened; [by do 3 eexists|].
  exists tt, rs. split; [done|]. do 4 eexists. split; [eassumption|]. naive_solver.
Qed.

Theorem exec_input_verdict :
  accepts exec_input_by_path_lookup
    (fun _ rs rest => exists err, ran (ascii_str "hello world") err (Exit 0) rs rest)
    (concat (encode <$> [cat_request; Stdin (ascii_str "hello "); Stdin (ascii_str "world"); StdinEof])).
Proof.
  eapply accepts_iff; [unfold exec_input_by_path_lookup; repeat accepts_step|requests|].
  intros [] rs rest. split; intros H; opened; [by eexists|]. naive_solver.
Qed.

(** What [cat] is sent is the data, in pieces. *)
Theorem exec_large_verdict :
  accepts exec_large_input_and_output
    (fun _ rs rest => exists ms, rs = (Ok <$> ms) ++ Ok (Exit 0) :: rest /\ Forall (fun m => ~ final m) ms /\
       Forall (fun m => match m with Stdout d => len d <= 32768 | _ => True end) ms /\
       concat (out_bytes <$> ms) = large_data)
    (concat (encode <$> [cat_request] ++ (Stdin <$> chunks (Z.to_nat 65536) large_data) ++ [StdinEof])) /\
  concat (chunks (Z.to_nat 65536) large_data) = large_data.
Proof.
  split; [|apply concat_chunks; lia]. unfold exec_large_input_and_output. cbv zeta. generalize large_data. intros data.
  assert (forall ms e, final e -> forallb short_output (ms ++ [e]) = true <->
    Forall (fun m => match m with Stdout d => len d <= 32768 | _ => True end) ms) as Hshort.
  { intros ms e He. rewrite forallb_app. assert (forallb short_output [e] = true) as ->.
    { destruct e; try done. unfold final in He. naive_solver. }
    rewrite andb_true_r, forallb_forall, Forall_forall. setoid_rewrite <- list_elem_of_In.
    split; intros H m Hm; specialize (H m Hm); destruct m; try done; unfold short_output in *; lia. }
  eapply accepts_iff.
  - do 3 (apply accepts_bind; [accepts_step|intros ?]). apply accepts_bind_session. intros ms e He.
    rewrite streams_split by done. apply accepts_bind; [apply accepts_assert|intros ?].
    apply (accepts_bind_unwrap (Some (concat (out_bytes <$> ms), concat (err_bytes <$> ms), e)) _
      (fun x _ rs rs' => x.2 = Exit 0 /\ x.1.1 = data /\ rs' = rs)).
    intros y [= <-]. eapply accepts_iff; [repeat accepts_step|reflexivity|]. intros [] rs rs'. naive_solver.
  - requests.
  - intros [] rs rest. split; intros H; opened.
    + match goal with H : Some _ = Some _ |- _ => injection H as <- end. cbn [fst snd] in *. subst.
      eexists. split_and!; [done|done|by eapply Hshort|done].
    + exists tt. eexists. split; [done|]. exists tt. eexists. split; [done|]. exists tt. eexists. split; [done|].
      do 3 eexists. split_and!; [done|done|unfold final; eauto|]. exists tt. eexists.
      split; [split; [by apply Hshort; unfold final; eauto|done]|]. by eexists.
Qed.

Theorem exec_cwd_verdict :
  accepts exec_cwd_and_environment
    (fun _ rs rest => exists err e err' e' err'' rs1 rs2, ran (line_of "/tmp") err e rs rs1 /\
       ran (line_of "A=2" ++ line_of "AB=4" ++ line_of "B=3" ++ line_of "a=5") err' e' rs1 rs2 /\
       ran [] err'' (Exit 0) rs2 rest)
    (encode pwd_request ++ encode env_request ++ encode (exec ["env"] [] None)).
Proof.
  eapply accepts_iff; [unfold exec_cwd_and_environment; repeat accepts_step|requests|].
  intros [] rs rest. split; intros H; opened; [simplify_eq; by do 7 eexists|].
  exists tt, rs. split; [done|]. do 4 eexists. split; [eassumption|]. exists tt. eexists. split; [done|].
  exists tt. eexists. split; [done|]. do 4 eexists. split; [eassumption|]. naive_solver.
Qed.

Theorem stat_during_verdict :
  accepts stat_is_answered_during_a_command
    (fun _ rs rest => exists s err rs', rs = Ok (StatReply s) :: rs' /\ nprocs s > 0 /\ ran (line_of "done") err (Exit 0) rs' rest)
    (encode sleep_request ++ encode StatReq).
Proof.
  eapply accepts_iff; [unfold stat_is_answered_during_a_command; repeat accepts_step|requests|].
  intros [] rs rest. split; intros H; opened; [simplify_eq; by do 3 eexists|].
  naive_solver.
Qed.

Theorem background_verdict took :
  accepts (background_children_do_not_hold_the_session took)
    (fun _ rs rest => took < 2000000000 /\ exists err, ran (line_of "early") err (Exit 0) rs (Ok pong :: rest))
    (encode background_request ++ encode Ping).
Proof.
  eapply accepts_iff; [unfold background_children_do_not_hold_the_session; repeat accepts_step|requests|].
  intros [] rs rest. split; intros H; opened; [simplify_eq; split; [done|by eexists]|].
  naive_solver.
Qed.

(** *** Failures *)

Definition errors (texts : list str) : list (result DecodeError Msg) := (fun t => Ok (Error t)) <$> texts.

Theorem exec_failures_verdict f :
  accepts (exec_failures_are_errors f)
    (fun _ rs rest => rs =
       errors [ascii_str "no-such-program-xyz: No such file or directory (os error 2)"; ascii_str "empty argv";
               ascii_str "/bin/echo: nul byte found in provided data";
               ascii_str "/bin/pwd: No such file or directory (os error 2)";
               f ++ ascii_str ": Permission denied (os error 13)"] ++ Ok pong :: rest)
    (concat (encode <$>
       [exec ["no-such-program-xyz"] [(ascii_str "PATH", ascii_str "/nonexistent:/usr/bin")] None; exec [] [] None;
        Exec [ascii_str "/bin/echo"; nul_name] [] None; exec ["/bin/pwd"] [] (Some "/nonexistent-dir"%string);
        Exec [f] [] None; Ping])).
Proof.
  eapply accepts_iff; [unfold exec_failures_are_errors; repeat accepts_step|requests|].
  intros [] rs rest. split; intros H; opened; [done|]. naive_solver.
Qed.

Theorem file_failures_verdict :
  accepts file_failures_are_errors
    (fun _ rs rest => rs =
       errors [ascii_str "/nonexistent-dir/x: No such file or directory (os error 2)"] ++ Ok pong ::
       errors [ascii_str "/tmp: Is a directory (os error 21)";
               nul_name ++ ascii_str ": file name contained an unexpected NUL byte"] ++ rest)
    (concat (encode <$> [PutOpen (ascii_str "/nonexistent-dir/x") 420; PutData [1; 2; 3]; PutClose; Ping;
       Get (ascii_str "/tmp"); Get nul_name])).
Proof.
  eapply accepts_iff; [unfold file_failures_are_errors; repeat accepts_step|requests|].
  intros [] rs rest. split; intros H; opened; [done|]. naive_solver.
Qed.

Theorem stray_verdict log :
  accepts (stray_and_bad_frames log)
    (fun _ rs rest => rs = errors [ascii_str "unexpected Stdout outside a session"] ++ replicate 3 (Ok pong) ++ rest /\
       bad_frames_logged log = true)
    (concat (encode <$> [Stdout (ascii_str "x"); Stdin (ascii_str "late"); StdinEof]) ++ bad_tag ++ short_body ++ not_utf8
       ++ encode Ping ++ zero_length ++ encode Ping ++ over_long ++ encode Ping).
Proof.
  eapply accepts_iff; [unfold stray_and_bad_frames; repeat accepts_step|requests|].
  intros [] rs rest. split; intros H; opened; [done|]. naive_solver.
Qed.

(** The bytes written are the errors whose lines the test wants: an agent that
    decodes each of them as phi-rpc does, and logs the errors, passes. *)
Definition log_line (e : DecodeError) : str := line_of ("phi-agent: bad frame from the host: " +:+ display e).

Theorem bad_frames_errors :
  decode_all (bad_tag ++ short_body ++ not_utf8) = [Err (Tag 200); Err Malformed; Err Malformed] /\
  decode_all zero_length = [Err (Length 0)] /\ decode_all over_long = [Err (Length 1048577)] /\
  bad_frames_logged (concat (log_line <$> [Tag 200; Malformed; Malformed; Length 0; Length 1048577])) = true.
Proof. vm_compute. by split_and!. Qed.

(** *** Files *)



(** *** Samples *)

Definition samples (ss : list Stat) : list (result DecodeError Msg) := (fun s => Ok (StatReply s)) <$> ss.

Definition later_sample (s : Stat) : Prop :=
  nprocs s = 3 /\ nkthreads s = 1 /\ pid <$> by_pid (procs s) = [1; 7] /\
  exists p, by_pid (procs s) !! 0%nat = Some p /\ rss_kb p = 600.

Lemma unchanged_verdict :
  accepts unchanged_sample (fun _ rs rest => exists s, rs = samples [s] ++ rest /\ later_sample s) (encode StatReq).
Proof.
  eapply accepts_iff; [unfold unchanged_sample; repeat accepts_step|requests|].
  intros [] rs rest. unfold later_sample. split; intros H; opened; simplify_eq.
  - eexists. split; [done|]. split_and!; try done. by eexists.
  - eexists. eexists. split; [done|]. exists tt. eexists. split; [split; [by f_equal|done]|].
    exists tt. eexists. split; [by split|]. by eexists.
Qed.

(** The samples of the fixture: the first in full, the next three with the
    changed process, the fifth with the kernel thread that moved, the last
    without. *)
Theorem fixture_verdict :
  accepts stat_from_a_fixture
    (fun _ rs rest => exists s1 s2 s3 s4 s5 s6, rs = samples [s1; s2; s3; s4; s5; s6] ++ rest /\
       with_procs s1 (by_pid (procs s1)) = fixture_stat /\ later_sample s2 /\ later_sample s3 /\ later_sample s4 /\
       (fun p => (pid p, ticks p)) <$> by_pid (procs s5) = [(1, 103); (7, 11); (12, 9)] /\
       pid <$> by_pid (procs s6) = [1; 7])
    (concat (encode <$> replicate 6 StatReq)).
Proof.
  unfold stat_from_a_fixture. generalize fixture_stat. intros want.
  eapply accepts_iff.
  - repeat first [apply unchanged_verdict|accepts_step].
  - requests.
  - intros [] rs rest. split; intros H; opened; simplify_eq.
    + by do 6 eexists.
    + do 2 eexists. split; [done|]. exists tt. eexists. split; [by split|].
      do 3 (exists tt; eexists; split; [by eexists|]).
      do 2 eexists. split; [done|]. exists tt. eexists. split; [by split|].
      do 2 eexists. by split.
Qed.

Theorem stat_default_verdict :
  accepts stat_without_hwmon_or_files (fun _ rs rest => rs = samples [default_stat] ++ rest) (encode StatReq).
Proof.
  unfold stat_without_hwmon_or_files. eapply accepts_iff; [repeat accepts_step|requests|].
  intros [] rs rest. split; intros H; opened; [done|]. by do 2 eexists.
Qed.

Theorem this_host_verdict proc_stat child :
  accepts (stat_of_this_host proc_stat child)
    (fun _ rs rest => exists s me, rs = samples [s] ++ rest /\
       len (cpus s) = len (List.filter cpu_line (lines proc_stat)) /\
       total_kb (mem s) > 0 /\ uptime_ms s > 0 /\ nprocs s > 0 /\ tasks s > 0 /\
       List.find (fun p => pid p =? child) (procs s) = Some me /\
       comm me = ascii_str "phi-agent" /\ kthread me = false /\ rss_kb me > 0 /\ threads me = 1)
    (encode StatReq).
Proof.
  unfold stat_of_this_host. eapply accepts_iff; [repeat accepts_step|requests|].
  intros [] rs rest. split; intros H; opened; [simplify_eq; do 2 eexists; by split_and!|].
  do 2 eexists. split; [done|]. exists tt. eexists. split; [by split|]. exists tt. eexists. split; [by split_and!|].
  eexists. split; [done|]. exists tt. eexists. split; [by split|]. by split_and!.
Qed.

(** ** Concrete instances *)






