(* ===== verification/Codegen.v ===== *)
(** The kernel generator (host/crates/knc-mvex/src/main.rs): the lines of
    assembly it writes, as data, with their rendering to the text the
    program prints; [unpack_kernel], [transform_kernel], [pack_kernel], the
    dispatch thunks and tables, the mask constants, [memcpy_kernel] and
    [memset_body], and the files made of them.  The FastLanes kernels of the
    same file are in [CodegenFls], the probes, the demo and the kernel header
    in [CodegenProbe].  A generator that panics (an assertion, or an encoder
    call out of range) is [None]. *)

From S2P Require Import Prelude Bytes Mvex MvexDis MvexCalls.

Local Open Scope Z_scope.

(** ** Lines *)

(** The scalar instructions of the generated code, in AT&T operand order. *)
Inductive Scalar :=
| Movq (src dst : Gpr)
| Cmpq (imm : Z) (r : Gpr)
| Testq (r : Gpr)
| Addq (imm : Z) (r : Gpr)
| Subq (imm : Z) (r : Gpr)
| Decq (r : Gpr)
| Movl (src dst : Gpr)
| Decl (r : Gpr)
| Cmpl (imm : Z) (r : Gpr)
| Leaq (sym : string) (r : Gpr)
| JmpTable (disp : Z) (base idx : Gpr)
| LockAdd
| MovlImm (imm : Z) (r : Gpr)
| MovlTo (r base : Gpr)
| Movzwl (disp : Z) (base r : Gpr)
| Movw (r : Gpr) (disp : Z) (base : Gpr)
| Xorl (r : Gpr)
| Incl (r : Gpr)
| CmplReg (b a : Gpr)
| Ret.

Inductive Cond := Jb | Jae | Jz | Jnz | Ja | Jl.

(** One [writeln!]: a vector instruction as a [.byte] line, a mask register
    instruction, a scalar instruction, a jump to the next ([true]) or the
    previous label of a number, a numeric label, or directives and comments. *)
Inductive Line :=
| Vec (c : Call)
| KInsn (i : option Insn)
| Scal (s : Scalar)
| Jump (c : Cond) (label : Z) (forward : bool)
| Label (n : Z)
| Text (s : string).

Definition nl : string := String (Ascii.ascii_of_nat 10) "".

Definition reg (r : Gpr) : string := "%" +:+ gpr_text r.
Definition reg32 (r : Gpr) : string :=
  "%" +:+ (if gpr_n r <? 8 then gpr32 r else gpr_text r +:+ "d").

(** The low sixteen bits of a register: [ax], [cx] in the mask moves. *)
Definition reg16 (r : Gpr) : string :=
  "%" +:+ (if gpr_n r <? 8 then String.substring 1 2 (gpr32 r) else gpr_text r +:+ "w").

Definition int_text (n : Z) : string := if n <? 0 then "-" +:+ dec (- n) else dec n.

Definition scalar_text (s : Scalar) : string :=
  tab +:+
  match s with
  | Movq a b => "movq " +:+ reg a +:+ ", " +:+ reg b
  | Cmpq n r => "cmpq $" +:+ int_text n +:+ ", " +:+ reg r
  | Testq r => "testq " +:+ reg r +:+ ", " +:+ reg r
  | Addq n r => "addq $" +:+ int_text n +:+ ", " +:+ reg r
  | Subq n r => "subq $" +:+ int_text n +:+ ", " +:+ reg r
  | Decq r => "decq " +:+ reg r
  | Movl a b => "movl " +:+ reg32 a +:+ ", " +:+ reg32 b
  | Decl r => "decl " +:+ reg32 r
  | Cmpl n r => "cmpl $" +:+ int_text n +:+ ", " +:+ reg32 r
  | Leaq s r => "leaq " +:+ s +:+ "(%rip), " +:+ reg r
  | JmpTable d b i =>
      "jmp *" +:+ (if d =? 0 then "" else int_text d) +:+ "(" +:+ reg b +:+ "," +:+ reg i +:+ ",8)"
  | LockAdd => "lock addq $0, (%rsp)" +:+ tab +:+ "# fence: vmovnrngoaps is not globally ordered"
  | MovlImm n r => "movl $" +:+ int_text n +:+ ", " +:+ reg32 r
  | MovlTo r b => "movl " +:+ reg32 r +:+ ", (" +:+ reg b +:+ ")"
  | Movzwl d b r => "movzwl " +:+ int_text d +:+ "(" +:+ reg b +:+ "), " +:+ reg32 r
  | Movw r d b => "movw " +:+ reg16 r +:+ ", " +:+ int_text d +:+ "(" +:+ reg b +:+ ")"
  | Xorl r => "xorl " +:+ reg32 r +:+ ", " +:+ reg32 r
  | Incl r => "incl " +:+ reg32 r
  | CmplReg b a => "cmpl " +:+ reg32 b +:+ ", " +:+ reg32 a
  | Ret => "ret"
  end.

Definition cond_text (c : Cond) : string :=
  match c with Jb => "jb" | Jae => "jae" | Jz => "jz" | Jnz => "jnz" | Ja => "ja" | Jl => "jl" end.

(** The text of a line; [None] is the encoder's panic. *)
Definition line_text (l : Line) : option string :=
  match l with
  | Vec c => gas <$> run_call c
  | KInsn i => gas <$> i
  | Scal s => Some (scalar_text s)
  | Jump c n f => Some (tab +:+ cond_text c +:+ " " +:+ dec n +:+ (if f then "f" else "b"))
  | Label n => Some (dec n +:+ ":")
  | Text s => Some s
  end.

(** Everything the [writeln!]s put out. *)
Fixpoint render (ls : list Line) : option string :=
  match ls with
  | [] => Some ""%string
  | l :: ls => t ← line_text l; r ← render ls; Some (t +:+ nl +:+ r)
  end.

(** [Mem::new] on the bases the generator uses. *)
Definition mem (b : Gpr) (d : Z) : Mem := mkMem b d.

Definition header (what doc : string) : list Line :=
  [Text ("# " +:+ what +:+ ": generated by knc-mvex-gen (host/crates/knc-mvex). Do not edit by hand;" +:+ nl
     +:+ "# see " +:+ doc +:+ ". Vector instructions are .byte sequences because no assembler in" +:+ nl
     +:+ "# the stack knows the Knights Corner MVEX encoding." +:+ nl +:+ tab +:+ ".text")].

Definition function (name signature : string) : list Line :=
  [Text (nl +:+ tab +:+ ".globl " +:+ name +:+ nl +:+ tab +:+ ".type " +:+ name +:+ ", @function" +:+ nl
     +:+ "# " +:+ signature +:+ nl +:+ name +:+ ":")].

Definition end_function (name : string) : list Line :=
  [Scal Ret; Text (tab +:+ ".size " +:+ name +:+ ", .-" +:+ name)].

Definition note : list Line :=
  [Text (nl +:+ tab +:+ ".section .note.GNU-stack," +:+ quote +:+ quote +:+ ",@progbits")].

(** ** The codec kernels *)

Inductive Mode := Plain | For | Delta.

#[export] Instance Mode_eq_dec : EqDecision Mode.
Proof. solve_decision. Defined.

(** [Mode::all]. *)
Definition all_modes : list Mode := [Plain; For; Delta].

Definition suffix (m : Mode) : string :=
  match m with Plain => "" | For => "_for" | Delta => "_delta" end.

Definition GROUP : Z := 8.
Definition WORD_REGS : Z := 10.

(** [place]: the word a value starts in and the bit inside it. *)
Definition place (bits v : Z) : Z * Z :=
  let bitpos := bits * v in (bitpos / 32, bitpos mod 32).

(** The instructions the kernels use, all with mask [k0]. *)
Definition k0 : K := mkK 0.
Definition zload (r : Z) (m : Mem) : Line := Vec (CMovaps (mkZmm r) m).
Definition zstore (m : Mem) (r : Z) : Line := Vec (CFullStore VmovapsS m (mkZmm r)).
Definition zop (m : Mnem) (d a b : Z) : Line :=
  Vec (CThree m (mkZmm d) (mkZmm a) (SrcReg (mkZmm b)) k0).
Definition zshift (m : Mnem) (d a n : Z) : Line :=
  Vec (CShift m (mkZmm d) (SrcReg (mkZmm a)) n k0).

(** [(a..b)] as integers. *)
Definition range (a b : Z) : list Z := seqZ a (b - a).

(** The positions of a group, with their index in it. *)
Definition enumerate {A} (l : list A) : list (Z * A) := zip (seqZ 0 (len l)) l.

Definition temp (p half : Z) : Z := WORD_REGS + (2 * p + half).

(** The lines of one group of [unpack_kernel]. *)
Definition unpack_group (bits : Z) (mode : Mode) (start : Z) : option (list Line) :=
  let maskreg := 30 in
  let base := 26 in
  let acc := 27 in
  let group := range start (start + GROUP) in
  let first_word := (place bits start).1 in
  let last := start + GROUP - 1 in
  let last_word := (bits * last + bits - 1) / 32 in
  let n_words := last_word - first_word + 1 in
  assert_ (n_words <=? WORD_REGS) (
    let wreg w := w - first_word in
    let result p v := if bits =? 32 then wreg (place bits v).1 else temp p 0 in
    let each (f : Z -> Z -> list Line) := concat ((fun pv => f pv.1 pv.2) <$> enumerate group) in
    Some (
      ((fun w => zload w (mem Rsi (64 * (first_word + w)))) <$> range 0 n_words)
      ++ each (fun p v =>
           let '(w, s) := place bits v in
           if negb (s =? 0) then [zshift Vpsrld (temp p 0) (wreg w) s] else [])
      ++ each (fun p v =>
           let '(w, s) := place bits v in
           if 32 <? s + bits then [zshift Vpslld (temp p 1) (wreg (w + 1)) (32 - s)] else [])
      ++ each (fun p v =>
           let '(_, s) := place bits v in
           if 32 <? s + bits then [zop Vpord (temp p 0) (temp p 0) (temp p 1)] else [])
      ++ each (fun p v =>
           let '(w, s) := place bits v in
           if negb (s + bits =? 32)
           then [zop Vpandd (temp p 0) (if s =? 0 then wreg w else temp p 0) maskreg] else [])
      ++ match mode with
         | Plain => each (fun p v => [zstore (mem Rdi (64 * v)) (result p v)])
         | For =>
             each (fun p v => [zop Vpaddd (temp p 0) base (result p v)])
             ++ each (fun p v => [zstore (mem Rdi (64 * v)) (temp p 0)])
         | Delta =>
             each (fun p v => [zop Vpaddd acc acc (result p v); zstore (mem Rdi (64 * v)) acc])
         end)).

(** [l.iter().map(f).collect()] when [f] may panic. *)
Fixpoint collect {A B} (f : A -> option (list B)) (l : list A) : option (list B) :=
  match l with
  | [] => Some []
  | a :: l => x ← f a; y ← collect f l; Some (x ++ y)
  end.

Definition unpack_name (mode : Mode) (bits : Z) : string :=
  "knc_unpack" +:+ suffix mode +:+ "_b" +:+ dec bits.

Definition mask_name (bits : Z) : string := "knc_mask_b" +:+ dec bits.

Definition unpack_sig (mode : Mode) (bits : Z) : string :=
  let name := unpack_name mode bits in
  match mode with
  | Plain => "void " +:+ name +:+ "(int *out, const unsigned *packed): rdi = out (1024 int32, 64-byte aligned), rsi = packed ("
      +:+ dec (64 * 2 * bits) +:+ " bytes, 64-byte aligned)"
  | For => "void " +:+ name +:+ "(int *out, const unsigned *packed, const int *base): rdi = out, rsi = packed ("
      +:+ dec (64 * 2 * bits) +:+ " bytes), rdx = base (16 int32, one per lane); all 64-byte aligned"
  | Delta => "void " +:+ name +:+ "(int *out, const unsigned *packed, const int *base): rdi = out, rsi = packed ("
      +:+ dec (64 * 2 * bits)
      +:+ " bytes), rdx = base (16 int32, the value before position 0 in each lane); all 64-byte aligned"
  end.

(** [if bits < 32 { leaq mask; load mask }]. *)
Definition load_mask (bits : Z) : list Line :=
  if bits <? 32 then [Scal (Leaq (mask_name bits) Rax); zload 30 (mem Rax 0)] else [].

(** The instructions of [unpack_kernel] before the [ret]. *)
Definition unpack_body (bits : Z) (mode : Mode) : option (list Line) :=
  groups ← collect (fun g => unpack_group bits mode (GROUP * g)) (range 0 8);
  Some ((match mode with For => [zload 26 (mem Rdx 0)] | _ => [] end)
        ++ (match mode with Delta => [zload 27 (mem Rdx 0)] | _ => [] end)
        ++ load_mask bits ++ groups).

(** [unpack_kernel]. *)
Definition unpack_kernel (bits : Z) (mode : Mode) : option (list Line) :=
  body ← unpack_body bits mode;
  Some (function (unpack_name mode bits) (unpack_sig mode bits) ++ body
        ++ end_function (unpack_name mode bits)).

(** The instructions of [transform_kernel]; [Plain] is unreachable. *)
Definition transform_body (mode : Mode) : list Line :=
  let base := 26 in
  let tmp := 27 in
  [zload base (mem Rdx 0)]
  ++ concat ((fun v =>
       [zload tmp (mem Rsi (64 * v)); zop Vpsubd 28 tmp base; zstore (mem Rdi (64 * v)) 28]
       ++ match mode with
          | Delta => [Vec (CMovapd (mkZmm base) (SrcReg (mkZmm tmp)) k0)]
          | _ => []
          end) <$> range 0 64).

Definition transform_kernel (mode : Mode) : option (list Line) :=
  let name := "knc_encode" +:+ suffix mode in
  match mode with
  | Plain => None
  | For => Some (function name ("void " +:+ name +:+ "(int *out, const int *values, const int *base): out[i] = values[i] - base[lane]; rdi = out, rsi = values, rdx = base (16 int32); all 64-byte aligned")
                 ++ transform_body mode ++ end_function name)
  | Delta => Some (function name ("void " +:+ name +:+ "(int *out, const int *values, const int *base): out[i] = values[i] - the value before it in the same lane; rdi = out, rsi = values, rdx = base (16 int32, the value before position 0); all 64-byte aligned")
                 ++ transform_body mode ++ end_function name)
  end.

(** [Piece]: a value's contribution to one packed word. *)
Record Piece := mkPiece { value : Z; left : bool; amount : Z }.

Definition PACK_WORDS : Z := 4.
Definition WAYS : Z := 2.

(** The pieces of packed word [w], in the order of the values. *)
Definition pieces (bits w : Z) : list Piece :=
  concat ((fun v =>
    let '(w0, s) := place bits v in
    (if w0 =? w then [mkPiece v true s] else [])
    ++ (if (32 <? s + bits) && (w0 + 1 =? w) then [mkPiece v false (32 - s)] else []))
    <$> range 0 64).

(** The lines of one group of packed words. *)
Definition pack_group (bits : Z) (base : Z) : list Line :=
  let words := 2 * bits in
  let maskreg := 30 in
  let acc j way := WAYS * j + way in
  let tmp j := PACK_WORDS * WAYS + j in
  let group := range base (Z.min (base + PACK_WORDS) words) in
  let ps := (fun w => (w, pieces bits w)) <$> group in
  let steps := foldr Z.max 0 ((fun wp => len wp.2) <$> ps) in
  concat ((fun i =>
    let dst j := if i <? WAYS then acc j i else tmp j in
    let each (f : Z -> Piece -> list Line) :=
      concat ((fun jw => match jw.2.2 !! Z.to_nat i with
                         | Some p => f jw.1 p | None => [] end) <$> enumerate ps) in
    each (fun j p => [zload (dst j) (mem Rsi (64 * value p))])
    ++ (if bits <? 32 then each (fun j p => [zop Vpandd (dst j) (dst j) maskreg]) else [])
    ++ each (fun j p =>
         if amount p =? 0 then []
         else [zshift (if left p then Vpslld else Vpsrld) (dst j) (dst j) (amount p)])
    ++ (if WAYS <=? i then
          each (fun j p => let a := acc j (i mod WAYS) in [zop Vpord a a (tmp j)])
        else [])) <$> range 0 steps)
  ++ concat ((fun jw => if 1 <? len jw.2.2 then [zop Vpord (acc jw.1 0) (acc jw.1 0) (acc jw.1 1)]
                        else []) <$> enumerate ps)
  ++ ((fun jw => zstore (mem Rdi (64 * jw.2.1)) (acc jw.1 0)) <$> enumerate ps).

Definition pack_name (bits : Z) : string := "knc_pack_b" +:+ dec bits.

(** The starts of the groups: [(0..words).step_by(PACK_WORDS)]. *)
Definition pack_starts (words : Z) : list Z :=
  (fun g => PACK_WORDS * g) <$> range 0 ((words + PACK_WORDS - 1) / PACK_WORDS).

Definition pack_body (bits : Z) : list Line :=
  load_mask bits ++ concat (pack_group bits <$> pack_starts (2 * bits)).

(** [pack_kernel]. *)
Definition pack_kernel (bits : Z) : list Line :=
  function (pack_name bits)
    ("void " +:+ pack_name bits +:+ "(unsigned *packed, const int *values): rdi = packed ("
     +:+ dec (64 * (2 * bits)) +:+ " bytes, 64-byte aligned), rsi = values (1024 int32, 64-byte aligned)")
  ++ pack_body bits ++ end_function (pack_name bits).

(** ** Dispatch and constants *)

Definition thunk_specs : list (string * bool * string) :=
  [("unpack", false, "void knc_unpack(int *out, const void *packed, unsigned bits)");
   ("pack", false, "void knc_pack(void *packed, const int *values, unsigned bits)");
   ("unpack_for", true, "void knc_unpack_for(int *out, const void *packed, unsigned bits, const int *base)");
   ("unpack_delta", true, "void knc_unpack_delta(int *out, const void *packed, unsigned bits, const int *base)")]%string.

Definition table_name (what : string) : string := "knc_" +:+ what +:+ "_table".

(** The instructions of one thunk of [dispatch_thunks]. *)
Definition thunk_body (what : string) (base : bool) : list Line :=
  [Scal (Movl Rdx Rax); Scal (Decl Rax); Scal (Cmpl 31 Rax); Jump Ja 1 true]
  ++ (if base then [Scal (Movq Rcx Rdx)] else [])
  ++ [Scal (Leaq (table_name what) R9); Scal (JmpTable 8 R9 Rax); Label 1].

Definition dispatch_thunks : list Line :=
  concat ((fun t : string * bool * string =>
    let '(what, base, sig) := t in
    function ("knc_" +:+ what) sig ++ thunk_body what base ++ end_function ("knc_" +:+ what))
    <$> thunk_specs).

(** The symbols of a dispatch table; index 0 is null. *)
Definition table_entries (what : string) (widths : list Z) : list (option string) :=
  None :: ((fun bits => Some ("knc_" +:+ what +:+ "_b" +:+ dec bits)) <$> widths).

Definition dispatch_tables (widths : list Z) : list Line :=
  concat ((fun what =>
    [Text (nl +:+ tab +:+ ".section .rodata" +:+ nl +:+ tab +:+ ".balign 8");
     Text (tab +:+ ".globl " +:+ table_name what +:+ nl +:+ tab +:+ ".type " +:+ table_name what
             +:+ ", @object");
     Text (table_name what +:+ ":")]
    ++ ((fun e => Text (tab +:+ ".quad " +:+ default "0"%string e)) <$> table_entries what widths)
    ++ [Text (tab +:+ ".size " +:+ table_name what +:+ ", .-" +:+ table_name what)])
    <$> ["unpack"; "pack"; "unpack_for"; "unpack_delta"]%string).

(** [0xFFFF_FFFFu32 >> (32 - bits)]. *)
Definition mask_value (bits : Z) : Z := 0xffffffff ≫ (32 - bits).

(** A row of [.long]s: its symbol and its sixteen values. *)
Definition mask_rows (widths : list Z) : list (string * list Z) :=
  (fun bits => (mask_name bits, replicate 16 (mask_value bits))) <$>
    List.filter (fun bits => negb (bits =? 32)) widths.

Definition mask_constants (widths : list Z) : list Line :=
  [Text (nl +:+ tab +:+ ".section .rodata" +:+ nl +:+ tab +:+ ".balign 64")]
  ++ ((fun r => Text (r.1 +:+ ":" +:+ nl +:+ tab +:+ ".long " +:+ join ", " (dec <$> r.2)))
      <$> mask_rows widths).

Definition UNPACK_WIDTHS : list Z := [5; 11; 16].

(** [bitunpack]. *)
Definition bitunpack : option (list Line) :=
  ks ← collect (fun bits => unpack_kernel bits Plain) UNPACK_WIDTHS;
  Some (header "bitunpack.S" "bitunpack.md" ++ ks ++ mask_constants UNPACK_WIDTHS ++ note).

(** [codec]: the whole of libknc. *)
Definition codec : option (list Line) :=
  let widths := range 1 33 in
  us ← collect (fun mode => collect (fun bits => unpack_kernel bits mode) widths) all_modes;
  ts ← collect transform_kernel [For; Delta];
  Some (header "knc_codec.S" "card/lib/knc/knc.md" ++ us ++ concat (pack_kernel <$> widths)
        ++ ts ++ dispatch_thunks ++ dispatch_tables widths ++ mask_constants widths ++ note).

(** ** Copy and clear *)

(** The instructions of [knc_memcpy64]. *)
Definition memcpy_body : list Line :=
  [Scal (Movq Rdi Rax); Scal (Cmpq 4 Rdx); Jump Jb 2 true; Label 1]
  ++ ((fun i => zload i (mem Rsi (64 * i))) <$> range 0 4)
  ++ ((fun i => zstore (mem Rdi (64 * i)) i) <$> range 0 4)
  ++ [Scal (Addq 256 Rsi); Scal (Addq 256 Rdi); Scal (Subq 4 Rdx); Scal (Cmpq 4 Rdx);
      Jump Jae 1 false; Label 2; Scal (Testq Rdx); Jump Jz 4 true; Label 3;
      zload 0 (mem Rsi 0); zstore (mem Rdi 0) 0; Scal (Addq 64 Rsi); Scal (Addq 64 Rdi);
      Scal (Decq Rdx); Jump Jnz 3 false; Label 4].

(** The instructions of [memset_body]; [ngo] selects the unordered store. *)
Definition memset_insns (ngo : bool) : list Line :=
  let store m := Vec (CFullStore (if ngo then Vmovnrngoaps else VmovapsS) m (mkZmm 0)) in
  [Scal (Movq Rdi Rax); zop Vpxord 0 0 0; Scal (Cmpq 4 Rsi); Jump Jb 2 true; Label 1]
  ++ ((fun i => store (mem Rdi (64 * i))) <$> range 0 4)
  ++ [Scal (Addq 256 Rdi); Scal (Subq 4 Rsi); Scal (Cmpq 4 Rsi); Jump Jae 1 false; Label 2;
      Scal (Testq Rsi); Jump Jz 4 true; Label 3; store (mem Rdi 0); Scal (Addq 64 Rdi);
      Scal (Decq Rsi); Jump Jnz 3 false; Label 4]
  ++ (if ngo then [Scal LockAdd] else []).

Definition memset_body (name : string) (ngo : bool) : list Line :=
  function name ("void *" +:+ name +:+ "(void *dst, size_t blocks): rdi = dst (64-byte aligned), rsi = count of 64-byte blocks. Returns dst.")
  ++ memset_insns ngo ++ end_function name.

Definition memcpy_kernel : list Line :=
  header "vpu_memcpy.S" "vpu_memcpy.md"
  ++ function "knc_memcpy64" "void *knc_memcpy64(void *dst, const void *src, size_t blocks): rdi = dst (64-byte aligned), rsi = src (64-byte aligned), rdx = count of 64-byte blocks. Returns dst."
  ++ memcpy_body ++ end_function "knc_memcpy64"
  ++ memset_body "knc_memset64_ord" false ++ memset_body "knc_memset64" true ++ note.
