(* ===== verification/CodegenFls.v ===== *)
(** The FastLanes kernels of the generator (host/crates/knc-mvex/src/main.rs,
    [fls_unffor_kernel], [fls_dispatch], [fls_mask_constants], [fastlanes]):
    the same values as the codec kernels in rows of 32 lanes, read from
    input that is aligned to 4 bytes only, with one base for all. *)

From S2P Require Import Prelude Bytes Mvex MvexDis MvexCalls Codegen.

Local Open Scope Z_scope.

Definition FLS_POSITIONS : Z := 32.

Definition fls_name (bits : Z) : string := "knc_fls_unffor_b" +:+ dec bits.
Definition fls_mask_name (bits : Z) : string := "knc_fls_mask_b" +:+ dec bits.

(** The loads that need no alignment. *)
Definition zloadu (x : Mnem) (r : Z) (m : Mem) : Line := Vec (CLoad x (mkZmm r) m k0).

(** The lines of one group of one half of [fls_unffor_kernel]. *)
Definition fls_group (bits half start : Z) : option (list Line) :=
  let maskreg := 30 in
  let base := 26 in
  let word_at w := mem Rdi (128 * w + 64 * half) in
  let word_hi w := mem Rdi (128 * w + 64 * half + 64) in
  let slot v := mem Rsi (128 * v + 64 * half) in
  let group := range start (start + GROUP) in
  let first_word := (place bits start).1 in
  let last := start + GROUP - 1 in
  let last_word := (bits * last + bits - 1) / 32 in
  let n_words := last_word - first_word + 1 in
  assert_ (n_words <=? WORD_REGS) (
    let wreg w := w - first_word in
    let result p v := if bits =? 32 then wreg (place bits v).1 else temp p 0 in
    let each (f : Z -> Z -> list Line) := concat ((fun pv => f pv.1 pv.2) <$> enumerate group) in
    Some (
      ((fun w => zloadu Vloadunpackld w (word_at (first_word + w))) <$> range 0 n_words)
      ++ ((fun w => zloadu Vloadunpackhd w (word_hi (first_word + w))) <$> range 0 n_words)
      ++ each (fun p v =>
           let '(w, s) := place bits v in
           if negb (s =? 0) then [zshift Vpsrld (temp p 0) (wreg w) s] else [])
      ++ each (fun p v =>
           let '(w, s) := place bits v in
           if 32 <? s + bits then [zshift Vpslld (temp p 1) (wreg (w + 1)) (32 - s)] else [])
      ++ each (fun p v =>
           let '(_, s) := place bits v in
           if 32 <? s + bits then [zop Vpord (temp p 0) (temp p 0) (temp p 1)] else [])
      ++ each (fun p v =>
           let '(w, s) := place bits v in
           if negb (s + bits =? 32)
           then [zop Vpandd (temp p 0) (if s =? 0 then wreg w else temp p 0) maskreg] else [])
      ++ each (fun p v => [zop Vpaddd (temp p 1) base (result p v)])
      ++ each (fun p v => [zstore (slot v) (temp p 1)]))).

(** [(0..FLS_POSITIONS).step_by(GROUP)]. *)
Definition fls_starts : list Z := (fun g => GROUP * g) <$> range 0 (FLS_POSITIONS / GROUP).

Definition fls_groups (bits : Z) : option (list Line) :=
  collect (fun half => collect (fls_group bits half) fls_starts) (range 0 2).

(** A column of no bits: the base in all 1024 places. *)
Definition fls_zero : list Line :=
  concat ((fun v => (fun h => zstore (mem Rsi (128 * v + 64 * h)) 26) <$> range 0 2)
          <$> range 0 FLS_POSITIONS).

Definition fls_load_mask (bits : Z) : list Line :=
  if bits <? 32 then [Scal (Leaq (fls_mask_name bits) Rax); zload 30 (mem Rax 0)] else [].

(** The instructions of [fls_unffor_kernel] before the [ret]. *)
Definition fls_body (bits : Z) : option (list Line) :=
  let splat := zloadu Vpbroadcastd 26 (mem Rdx 0) in
  if bits =? 0 then Some (splat :: fls_zero)
  else groups ← fls_groups bits; Some (splat :: fls_load_mask bits ++ groups).

Definition fls_sig (bits : Z) : string :=
  "void " +:+ fls_name bits +:+ "(const unsigned *in, unsigned *out, const unsigned *base): rdi = in ("
  +:+ dec (128 * bits)
  +:+ " bytes, 4-byte aligned), rsi = out (1024 int32, 64-byte aligned), rdx = base (one int32)".

(** [fls_unffor_kernel]. *)
Definition fls_unffor_kernel (bits : Z) : option (list Line) :=
  body ← fls_body bits;
  Some (function (fls_name bits) (fls_sig bits) ++ body ++ end_function (fls_name bits)).

(** The instructions of the entry point of [fls_dispatch]. *)
Definition fls_thunk_body : list Line :=
  [Scal (Movl Rdx Rax); Scal (Cmpl 32 Rax); Jump Ja 1 true; Scal (Movq Rcx Rdx);
   Scal (Leaq "knc_fls_unffor_table" R9); Scal (JmpTable 0 R9 Rax); Label 1].

Definition fls_thunk_sig : string :=
  "void knc_fls_unffor(const unsigned *in, unsigned *out, unsigned bw, const unsigned *base): FastLanes layout, 1024 values; bw above 32 returns without writing".

(** The entries of the table: one for every width, 0 included. *)
Definition fls_table_entries (widths : list Z) : list string := fls_name <$> widths.

Definition fls_dispatch (widths : list Z) : list Line :=
  function "knc_fls_unffor" fls_thunk_sig ++ fls_thunk_body ++ end_function "knc_fls_unffor"
  ++ [Text (nl +:+ tab +:+ ".section .rodata" +:+ nl +:+ tab +:+ ".balign 8");
      Text (tab +:+ ".globl knc_fls_unffor_table" +:+ nl +:+ tab
            +:+ ".type knc_fls_unffor_table, @object");
      Text "knc_fls_unffor_table:"]
  ++ ((fun e => Text (tab +:+ ".quad " +:+ e)) <$> fls_table_entries widths)
  ++ [Text (tab +:+ ".size knc_fls_unffor_table, .-knc_fls_unffor_table")].

(** The rows of [fls_mask_constants]: no mask for the widths 0 and 32. *)
Definition fls_mask_rows (widths : list Z) : list (string * list Z) :=
  (fun bits => (fls_mask_name bits, replicate 16 (mask_value bits))) <$>
    List.filter (fun bits => negb ((bits =? 0) || (bits =? 32))) widths.

Definition fls_mask_constants (widths : list Z) : list Line :=
  [Text (nl +:+ tab +:+ ".section .rodata" +:+ nl +:+ tab +:+ ".balign 64")]
  ++ ((fun r => Text (r.1 +:+ ":" +:+ nl +:+ tab +:+ ".long " +:+ join ", " (dec <$> r.2)))
      <$> fls_mask_rows widths).

(** [fastlanes]. *)
Definition fastlanes : option (list Line) :=
  let widths := range 0 33 in
  ks ← collect fls_unffor_kernel widths;
  Some (header "knc_fls.S" "card/lib/knc-fls/knc-fls.md" ++ ks ++ fls_dispatch widths
        ++ fls_mask_constants widths ++ note).
