(* ===== verification/CodegenProbe.v ===== *)
(** The rest of the generator (host/crates/knc-mvex/src/main.rs): the
    register file load and store [set_body] and [get_body], the instruction
    probes [int_probe] and [probe], the Mandelbrot kernel [mandel], the kernel
    header, and the dispatch of [main] on its argument. *)

From S2P Require Import Prelude Bytes Mvex MvexDis MvexCalls Codegen CodegenFls.

Local Open Scope Z_scope.

(** [at], [z]: sources. *)
Definition at_mem (b : Gpr) (d : Z) : Src := SrcMem (mkMem b d).
Definition z (n : Z) : Src := SrcReg (mkZmm n).

(** The calls of the probes, as lines. *)
Definition zpd (m : Mnem) (d a : Z) (b : Src) (k : Z) : Line :=
  Vec (CThree m (mkZmm d) (mkZmm a) b (mkK k)).
Definition zmovapd (d : Z) (s : Src) : Line := Vec (CMovapd (mkZmm d) s k0).
Definition zstorepd (m : Mem) (r : Z) : Line := Vec (CStore VmovapdS m (mkZmm r) k0).
Definition zshift_src (m : Mnem) (d : Z) (s : Src) (n k : Z) : Line :=
  Vec (CShift m (mkZmm d) s n (mkK k)).
Definition zcmp (d a : Z) (b : Src) (p : Cmp) (k : Z) : Line :=
  Vec (CCmp Vcmppd (mkK d) (mkZmm a) b p (mkK k)).

(** ** The register file *)

(** [set_body]: all vector and mask registers from the area at [rdi]. *)
Definition set_body : list Line :=
  ((fun r => zmovapd r (at_mem Rdi (64 * r))) <$> range 0 32)
  ++ concat ((fun k => [Scal (Movzwl (2048 + 2 * k) Rdi Rax); KInsn (kmov_k_r32 (mkK k) Rax)])
             <$> range 0 8).

(** [get_body]: all of them to the area at [rdi]. *)
Definition get_body : list Line :=
  ((fun r => zstorepd (mem Rdi (64 * r)) r) <$> range 0 32)
  ++ concat ((fun k => [KInsn (kmov_r32_k Rax (mkK k)); Scal (Movw Rax (2048 + 2 * k) Rdi)])
             <$> range 0 8).

(** ** [int_probe] *)

Definition slot (n : Z) : Mem := mem Rsi (64 * n).

(** The array of cases, one instruction per slot. *)
Definition int_cases : list (Z * Line) :=
  [(0, zpd Vpaddd 2 0 (z 1) 0); (1, zpd Vpsubd 2 0 (z 1) 0); (2, zpd Vpandd 2 0 (z 1) 0);
   (3, zpd Vpandnd 2 0 (z 1) 0); (4, zpd Vpord 2 0 (z 1) 0); (5, zpd Vpxord 2 0 (z 1) 0);
   (6, zshift_src Vpslld 2 (z 0) 1 0); (7, zshift_src Vpslld 2 (z 0) 11 0);
   (8, zshift_src Vpsrld 2 (z 0) 11 0); (9, zshift_src Vpsrad 2 (z 0) 11 0);
   (10, zshift_src Vpsrad 2 (z 0) 31 0); (11, zshift_src Vpslld 2 (at_mem Rdi 0) 11 0);
   (12, zpd Vpsllvd 2 0 (z 1) 0); (13, zpd Vpsrlvd 2 0 (at_mem Rdi 64) 0)].

(** The instructions of [vpu_int_probe]. *)
Definition int_probe_body : list Line :=
  [zload 0 (mem Rdi 0); zload 1 (mem Rdi 64)]
  ++ concat ((fun c => [c.2; zstore (slot c.1) 2]) <$> int_cases)
  ++ [Scal (MovlImm 255 Rax); KInsn (kmov_k_r32 (mkK 1) Rax);
      zload 2 (mem Rdi 0); zpd Vpaddd 2 0 (z 1) 1; zstore (slot 14) 2]
  ++ [Scal (MovlImm 3855 Rax); KInsn (kmov_k_r32 (mkK 2) Rax);
      zload 17 (mem Rdi 0); zshift_src Vpslld 17 (z 1) 3 2; zstore (slot 15) 17]
  ++ [zloadu Vpbroadcastd 3 (mem Rdi (64 + 4)); zstore (slot 16) 3]
  ++ [zloadu Vloadunpackld 3 (mem Rdi 0); zloadu Vloadunpackhd 3 (mem Rdi 64); zstore (slot 17) 3].

(** The instructions of [vpu_int_unaligned]. *)
Definition unaligned_body : list Line :=
  [zloadu Vloadunpackld 0 (mem Rdi 0); zloadu Vloadunpackhd 0 (mem Rdi 64); zstore (mem Rsi 0) 0].

Definition int_probe_sig : string :=
  "void vpu_int_probe(const int *in, int *out): rdi = in (16 int32 a at 0, 16 int32 b at 64, both 64-byte aligned), rsi = out (16 slots of 16 int32)".

Definition int_probe : list Line :=
  header "vpu_int.S" "vpu_int.md"
  ++ function "vpu_int_probe" int_probe_sig ++ int_probe_body ++ end_function "vpu_int_probe"
  ++ function "vpu_int_unaligned" "void vpu_int_unaligned(const int *un, int *out): rdi = un (any multiple of 4), rsi = out (64-byte aligned, 16 int32)"
  ++ unaligned_body ++ end_function "vpu_int_unaligned" ++ note.

(** ** [probe] *)

(** The instructions of [vpu_probe]. *)
Definition probe_body : list Line :=
  [zmovapd 0 (at_mem Rdi 0); zmovapd 1 (at_mem Rdi 64);
   zpd Vaddpd 2 0 (z 1) 0; zstorepd (mem Rsi 0) 2;
   zpd Vmulpd 3 0 (z 1) 0; zstorepd (mem Rsi 64) 3;
   zmovapd 4 (z 0); zpd Vfmadd213pd 4 1 (z 0) 0; zstorepd (mem Rsi 128) 4;
   zpd Vsubpd 5 0 (z 1) 0; zstorepd (mem Rsi 192) 5;
   zmovapd 31 (z 2); zstorepd (mem Rsi 256) 31]
  ++ [Scal (MovlImm 15 Rax); KInsn (kmov_k_r32 (mkK 3) Rax)]
  ++ [zmovapd 6 (z 1); zpd Vaddpd 6 0 (z 0) 3; zstorepd (mem Rsi 320) 6;
      zcmp 2 0 (z 1) CmpLt 0; KInsn (kmov_r32_k Rax (mkK 2))]
  ++ [Scal (MovlTo Rax Rdx)].

Definition probe : list Line :=
  header "vpu_probe.S" "vpu_probe.md"
  ++ function "vpu_probe" "void vpu_probe(const double *in, double *out, unsigned *mask): rdi = in (a at 0, b at 64), rsi = out, rdx = mask"
  ++ probe_body ++ end_function "vpu_probe"
  ++ function "vpu_set" "void vpu_set(const void *area): rdi = 64-byte aligned area, 32 x 64 bytes of zmm then 8 x u16 masks at 2048"
  ++ set_body ++ end_function "vpu_set"
  ++ function "vpu_get" "void vpu_get(void *area): the same layout, stored"
  ++ get_body ++ end_function "vpu_get" ++ note.

(** ** [mandel] *)

(** Before the loop: the point, zeroes, the constants, all eight lanes
    active, no iteration done. *)
Definition mandel_head : list Line :=
  [Scal (Leaq "mandel8_consts" Rcx);
   zmovapd 0 (at_mem Rdi 0); zmovapd 1 (at_mem Rdi 64);
   zmovapd 2 (at_mem Rcx 192); zmovapd 3 (at_mem Rcx 192); zmovapd 4 (at_mem Rcx 192);
   zmovapd 5 (at_mem Rcx 192); zmovapd 6 (at_mem Rcx 192);
   zmovapd 7 (at_mem Rcx 0); zmovapd 8 (at_mem Rcx 64); zmovapd 9 (at_mem Rcx 128);
   Scal (MovlImm 255 Rax); KInsn (kmov_k_r32 (mkK 1) Rax); Scal (Xorl R8)].

(** [k1 &= (zr2 + zi2 < 4)], and the test of it. *)
Definition mandel_test : list Line :=
  [zpd Vaddpd 10 4 (z 5) 0; zcmp 1 10 (z 8) CmpLt 1; KInsn (kortest (mkK 1) (mkK 1))].

(** One iteration of the active lanes, and the count. *)
Definition mandel_step : list Line :=
  [zpd Vmulpd 11 2 (z 7) 1; zpd Vfmadd213pd 3 11 (z 1) 1; zpd Vsubpd 2 4 (z 5) 1;
   zpd Vaddpd 2 2 (z 0) 1; zpd Vmulpd 4 2 (z 2) 1; zpd Vmulpd 5 3 (z 3) 1; zpd Vaddpd 6 6 (z 9) 1;
   Scal (Incl R8); Scal (CmplReg Rdx R8)].

Definition mandel_tail : list Line :=
  [zstorepd (mem Rsi 0) 6; zpd Vaddpd 10 4 (z 5) 0; zstorepd (mem Rsi 64) 10].

Definition mandel_body : list Line :=
  mandel_head ++ [Label 1] ++ mandel_test ++ [Jump Jz 2 true] ++ mandel_step
  ++ [Jump Jl 1 false; Label 2] ++ mandel_tail.

(** The rows of constants, as decimal text and as the doubles they are. *)
Definition mandel_consts : list (string * Z) :=
  [("2.0", 0x4000000000000000); ("4.0", 0x4010000000000000); ("1.0", 0x3ff0000000000000);
   ("0.0", 0)]%string.

Definition mandel_sig : string :=
  "void mandel8_vpu(const double *c, double *out, int maxiter): rdi = c (cr at 0, ci at 64), rsi = out (iteration counts at 0, |z|^2 at 64), edx = maxiter".

Definition mandel : list Line :=
  header "mandel_vpu.S" "mandel_vpu.md"
  ++ function "mandel8_vpu" mandel_sig ++ mandel_body ++ end_function "mandel8_vpu"
  ++ [Text (nl +:+ tab +:+ ".section .rodata" +:+ nl +:+ tab +:+ ".balign 64" +:+ nl +:+ "mandel8_consts:")]
  ++ ((fun v => Text (tab +:+ ".double " +:+ join ", " (replicate 8 v.1))) <$> mandel_consts)
  ++ note.

(** ** The kernel header *)

(** The inline assembly of [knc_vpu_save]: [rax] is the area, [cx] scratch. *)
Definition save_body : list Line :=
  ((fun r => zstore (mem Rax (64 * r)) r) <$> range 0 32)
  ++ concat ((fun k => [KInsn (kmov_r32_k Rcx (mkK k)); Scal (Movw Rcx (2048 + 2 * k) Rax)])
             <$> range 0 8).

(** The inline assembly of [knc_vpu_restore]. *)
Definition restore_body : list Line :=
  ((fun r => zload r (mem Rax (64 * r))) <$> range 0 32)
  ++ concat ((fun k => [Scal (Movzwl (2048 + 2 * k) Rax Rcx); KInsn (kmov_k_r32 (mkK k) Rcx)])
             <$> range 0 8).

(** In inline assembly a percent sign is written twice. *)
Fixpoint double_percent (s : string) : string :=
  match s with
  | EmptyString => ""
  | String c s => (if Ascii.eqb c (Ascii.ascii_of_nat 37) then "%%" else String c "") +:+ double_percent s
  end.

Definition drop_tab (s : string) : string := String.substring 1 (String.length s - 1) s.

(** A line of inline assembly, as a C string literal. *)
Definition c_line (l : Line) : option string :=
  s ← match l with
      | Vec c => c_string <$> run_call c
      | KInsn i => c_string <$> i
      | Scal s => Some (quote +:+ double_percent (drop_tab (scalar_text s)) +:+ "\n\t" +:+ quote)
      | _ => None
      end;
  Some (tab +:+ tab +:+ s).

Fixpoint c_lines (ls : list Line) : option string :=
  match ls with
  | [] => Some ""%string
  | l :: ls => t ← c_line l; r ← c_lines ls; Some (t +:+ nl +:+ r)
  end.

Definition lines_of (l : list string) : string := String.concat "" ((fun s => s +:+ nl) <$> l).

Definition KNC_VPU_K_OFFSET : Z := 2048.
Definition KNC_VPU_STATE_SIZE : Z := 2112.

Definition kernel_header : option string :=
  save ← c_lines save_body;
  restore ← c_lines restore_body;
  Some (lines_of [
"/* SPDX-License-Identifier: GPL-2.0 */";
"/*";
" * Knights Corner vector unit state: 32 zmm registers of 64 bytes and 8";
" * mask registers of 16 bits, kept after the FXSAVE image in the task's";
" * fpstate. FXSAVE does not store the zmm registers and FXRSTOR clears";
" * bits 0:127 of every one of them (ISA reference 327364-001, B.5 and";
" * B.4), so the restore has to run after fxrstor.";
" *";
" * Generated by knc-mvex-gen kernel-header (host/crates/knc-mvex in the";
" * project tree), whose tests pin the encodings to Intel's k1om kernel";
" * macros. Vector instructions are byte sequences because the assembler";
" * does not know the MVEX prefix.";
" */";
"#ifndef _ASM_X86_KNC_VPU_H";
"#define _ASM_X86_KNC_VPU_H";
"";
"#define KNC_VPU_STATE_OFFSET" +:+ tab +:+ "512" +:+ tab +:+ "/* right after the FXSAVE image */";
"#define KNC_VPU_K_OFFSET" +:+ tab +:+ dec KNC_VPU_K_OFFSET +:+ tab +:+ "/* the mask registers, after the zmm registers */";
"#define KNC_VPU_STATE_SIZE" +:+ tab +:+ dec KNC_VPU_STATE_SIZE +:+ tab +:+ "/* zmm and masks, rounded up to 64 bytes */";
"#define KNC_FPSTATE_SIZE" +:+ tab +:+ "(KNC_VPU_STATE_OFFSET + KNC_VPU_STATE_SIZE)";
"";
"#ifndef __ASSEMBLY__";
"";
"/* Store zmm0..31 and k0..k7 into a 64-byte aligned area of KNC_VPU_STATE_SIZE bytes. */";
"static inline void knc_vpu_save(void *area)";
"{";
tab +:+ "asm volatile("]%string
  +:+ save
  +:+ lines_of [
tab +:+ tab +:+ ": : " +:+ quote +:+ "a" +:+ quote +:+ " (area) : " +:+ quote +:+ "rcx" +:+ quote +:+ ", " +:+ quote +:+ "memory" +:+ quote +:+ ");";
"}";
"";
"/* Load them back; call after fxrstor, which zeroes the low 128 bits of each zmm. */";
"static inline void knc_vpu_restore(const void *area)";
"{";
tab +:+ "asm volatile("]%string
  +:+ restore
  +:+ lines_of [
tab +:+ tab +:+ ": : " +:+ quote +:+ "a" +:+ quote +:+ " (area) : " +:+ quote +:+ "rcx" +:+ quote +:+ ", " +:+ quote +:+ "memory" +:+ quote +:+ ");";
"}";
"";
"#endif /* __ASSEMBLY__ */";
"#endif /* _ASM_X86_KNC_VPU_H */"]%string).

(** ** [main] *)

(** The text [main] prints for its argument; [None] a panic of the
    generator, [Err 2] the exit status after the usage message. *)
Definition main (what : string) : option (result Z string) :=
  let printed (ls : option (list Line)) := t ← (l ← ls; render l); Some (Ok t) in
  if String.eqb what "probe" then printed (Some probe)
  else if String.eqb what "int-probe" then printed (Some int_probe)
  else if String.eqb what "bitunpack" then printed bitunpack
  else if String.eqb what "codec" then printed codec
  else if String.eqb what "fastlanes" then printed fastlanes
  else if String.eqb what "memcpy" then printed (Some memcpy_kernel)
  else if String.eqb what "mandel" then printed (Some mandel)
  else if String.eqb what "kernel-header" then t ← kernel_header; Some (Ok t)
  else Some (Err 2).
