(* ===== verification/Layout.v ===== *)
(** The layout of a packed block, independent of the kernels: the scalar
    model card/lib/knc-rs/src/main.rs checks them against ([low_mask],
    [scalar_unpack]), which packed bit holds which bit of which value, and
    the two frame transforms. *)

From S2P Require Import Prelude Bytes Mvex MvexDis MvexCalls Codegen.

Local Open Scope Z_scope.
Local Open Scope phi_scope.

(** ** The scalar model *)

(** card/lib/knc-rs/src/lib.rs: values in a block, and lanes. *)
Definition BLOCK : Z := 1024.
Definition LANES : Z := 16.

Definition low_mask (bits : Z) : Z := if 32 <=? bits then 0xffffffff else 1 ≪ bits - 1.

(** The body of the loop of [scalar_unpack]; [None] is an index out of
    range. *)
Definition scalar_slot (p : list Z) (bits i : Z) : option Z :=
  let m := low_mask bits in
  let lane := i mod LANES in
  let pos := i / LANES in
  let bit := pos * bits in
  let w := bit / 32 in
  let s := bit mod 32 in
  x ← p !! Z.to_nat (w * LANES + lane);
  val ← (if 32 <? s + bits
         then y ← p !! Z.to_nat ((w + 1) * LANES + lane); Some (x ≫ s .| wrap 32 (y ≪ (32 - s)))
         else Some (x ≫ s));
  Some (signed 32 (val .& m)).

Definition scalar_unpack (out p : list Z) (bits : Z) : option (list Z) :=
  vs ← mapM (scalar_slot p bits) (seqZ 0 (Z.min (len out) BLOCK));
  Some (vs ++ drop (Z.to_nat BLOCK) out).

(** ** One lane

    The words [W] of a lane are a stream of bits; value [v] has the bits from
    [bits * v] on. *)

Definition stream_bit (W : Z -> Z) (b : Z) : bool := Z.testbit (W (b / 32)) (b mod 32).

(** Value [v] of a lane, as the model computes it. *)
Definition lane_value (bits : Z) (W : Z -> Z) (v : Z) : Z :=
  let '(w, s) := place bits v in
  (if 32 <? s + bits then W w ≫ s .| wrap 32 (W (w + 1) ≪ (32 - s)) else W w ≫ s)
  .& low_mask bits.

Lemma low_mask_ones bits : 0 <= bits <= 32 -> low_mask bits = Z.ones bits.
Proof.
  intros. unfold low_mask. case_bool.
  - by replace bits with 32 by lia.
  - unfold Z.ones. by rewrite Z.sub_1_r.
Qed.

Lemma mask_value_ones bits : 0 <= bits <= 32 -> mask_value bits = Z.ones bits.
Proof.
  intros. unfold mask_value. change 0xffffffff with (Z.ones 32).
  apply Z.bits_inj'. intros n Hn. rewrite Z.shiftr_spec, !Z.testbit_ones by lia.
  apply eq_iff_eq_true. lia.
Qed.

Lemma testbit_wrap w x n : 0 <= w -> 0 <= n -> Z.testbit (wrap w x) n = (n <? w) && Z.testbit x n.
Proof.
  intros. unfold wrap. destruct (n <? w) eqn:E.
  - by rewrite Z.mod_pow2_bits_low by lia.
  - by rewrite Z.mod_pow2_bits_high by lia.
Qed.

(** A word has no bit from 32 on. *)
Lemma uint_testbit w x n : 0 <= w -> uint w x -> w <= n -> Z.testbit x n = false.
Proof.
  intros Hw Hx Hn. rewrite <- (wrap_small w x Hx), testbit_wrap by lia.
  by destruct (n <? w) eqn:E; [lia|].
Qed.

Lemma place_spec bits v :
  (place bits v).1 = bits * v / 32 /\ (place bits v).2 = bits * v mod 32 /\
  bits * v = 32 * (place bits v).1 + (place bits v).2 /\ 0 <= (place bits v).2 < 32.
Proof.
  unfold place. cbn. pose proof (Z.div_mod (bits * v) 32). pose proof (Z.mod_pos_bound (bits * v) 32).
  lia.
Qed.

(** The quotient and remainder of an offset from a word's bits. *)
Lemma word_bit w s n : 0 <= s + n < 32 -> (32 * w + s + n) / 32 = w /\ (32 * w + s + n) mod 32 = s + n.
Proof. intros. split; symmetry; [apply (Z.div_unique _ 32 w (s + n))|apply (Z.mod_unique _ 32 w (s + n))]; lia. Qed.

(** The bits of a value are the bits of the stream, and no others. *)
Lemma lane_value_bit bits W v n :
  1 <= bits <= 32 -> (forall w, uint 32 (W w)) -> 0 <= n ->
  Z.testbit (lane_value bits W v) n = (n <? bits) && stream_bit W (bits * v + n).
Proof.
  intros Hb HW Hn. unfold lane_value, stream_bit.
  destruct (place_spec bits v) as (_&_&He&Hs). destruct (place bits v) as [w s]. cbn in He, Hs.
  rewrite He, Z.land_spec, low_mask_ones, Z.testbit_ones by lia.
  destruct (n <? bits) eqn:En; cbn [andb].
  2: by rewrite !andb_false_r.
  rewrite (proj2 (Z.leb_le 0 n)), andb_true_r by lia.
  destruct (Z.lt_ge_cases (s + n) 32).
  - destruct (word_bit w s n) as [-> ->]; [lia|].
    case_bool; [|by rewrite Z.shiftr_spec, Z.add_comm by lia].
    rewrite Z.lor_spec, Z.shiftr_spec, testbit_wrap, Z.shiftl_spec by lia.
    rewrite (Z.testbit_neg_r _ (n - (32 - s))), andb_false_r, orb_false_r by lia. by rewrite Z.add_comm.
  - destruct (word_bit (w + 1) (s - 32) n) as [H1 H2]; [lia|].
    replace (32 * w + s + n) with (32 * (w + 1) + (s - 32) + n) by lia. rewrite H1, H2.
    case_bool; [|lia].
    rewrite Z.lor_spec, Z.shiftr_spec, testbit_wrap, Z.shiftl_spec by lia.
    rewrite (uint_testbit 32 (W w)) by (done || lia). cbn.
    destruct (n <? 32) eqn:?; [|lia]. cbn. f_equal. lia.
Qed.

(** A number without bits from [w] on is below [2 ^ w]. *)
Lemma bits_uint w x : 0 <= w -> (forall n, w <= n -> Z.testbit x n = false) -> uint w x.
Proof.
  intros Hw Hx. assert (x = wrap w x) as ->; [|by apply wrap_uint].
  apply Z.bits_inj'. intros n Hn. rewrite testbit_wrap by done.
  destruct (n <? w) eqn:E; [done|]. cbn. apply Hx. lia.
Qed.

Lemma lane_value_uint bits W v :
  1 <= bits <= 32 -> (forall w, uint 32 (W w)) -> uint bits (lane_value bits W v).
Proof.
  intros Hb HW. apply bits_uint; [lia|]. intros n Hn. rewrite lane_value_bit by (done || lia).
  by rewrite (proj2 (Z.ltb_ge n bits)).
Qed.

(** ** Packing

    [packs bits W X]: the words hold the low bits of the 64 values, each in
    its place. *)

Definition packs (bits : Z) (W X : Z -> Z) : Prop :=
  forall v j, 0 <= v < 64 -> 0 <= j < bits -> stream_bit W (bits * v + j) = Z.testbit (X v) j.

(** Values that were packed are unpacked, truncated to the width. *)
Lemma packs_value bits W X v :
  1 <= bits <= 32 -> (forall w, uint 32 (W w)) -> packs bits W X -> 0 <= v < 64 ->
  lane_value bits W v = wrap bits (X v).
Proof.
  intros Hb HW Hp Hv. apply Z.bits_inj'. intros n Hn.
  rewrite lane_value_bit, testbit_wrap by (done || lia).
  destruct (n <? bits) eqn:E; [|done]. cbn. apply Hp; lia.
Qed.

(** A piece's contribution to its word. *)
Definition piece_bits (bits : Z) (X : Z -> Z) (p : Piece) : Z :=
  let x := X (value p) .& low_mask bits in
  if left p then wrap 32 (x ≪ amount p) else x ≫ amount p.

(** The word the pieces make. *)
Definition pack_word (bits : Z) (X : Z -> Z) (w : Z) : Z :=
  foldr (fun p acc => piece_bits bits X p .| acc) 0 (pieces bits w).

Lemma pieces_elem bits w p :
  p ∈ pieces bits w <->
  0 <= value p < 64 /\
  let '(w0, s) := place bits (value p) in
  (w0 = w /\ left p = true /\ amount p = s) \/
  (32 < s + bits /\ w0 + 1 = w /\ left p = false /\ amount p = 32 - s).
Proof.
  unfold pieces. rewrite list_elem_of_In, in_concat. setoid_rewrite <- list_elem_of_In.
  split.
  - intros (l & Hl & Hp). apply list_elem_of_fmap in Hl as (v & -> & Hv).
    apply elem_of_seqZ in Hv. destruct (place bits v) as [w0 s] eqn:E.
    apply elem_of_app in Hp as [Hp|Hp]; case_match; try by apply not_elem_of_nil in Hp.
    all: apply list_elem_of_singleton in Hp as ->; cbn [value left amount]; rewrite E; split; [lia|].
    + left. split_and!; [lia|done..].
    + right. split_and!; [lia|lia|done..].
  - intros (Hv & Hp). destruct p as [v l a]. cbn [value left amount] in *. destruct (place bits v) as [w0 s] eqn:E.
    eexists. split; [apply list_elem_of_fmap; exists v; split; [reflexivity|]; apply elem_of_seqZ; lia|].
    cbv beta. rewrite E. apply elem_of_app. destruct Hp as [(<-&->&->)|(?&<-&->&->)].
    + left. rewrite Z.eqb_refl. by left.
    + right. rewrite Z.eqb_refl, (proj2 (Z.ltb_lt 32 (s + bits))) by lia. by left.
Qed.

Lemma foldr_lor_bit {A} (f : A -> Z) ps i :
  Z.testbit (foldr (fun p acc => f p .| acc) 0 ps) i = existsb (fun p => Z.testbit (f p) i) ps.
Proof.
  induction ps as [|p ps IH]; cbn; [apply Z.bits_0|]. by rewrite Z.lor_spec, IH.
Qed.

(** The bits of a piece are those of its value that fall into the word. *)
Lemma piece_bit bits X w p i :
  1 <= bits <= 32 -> p ∈ pieces bits w -> 0 <= i < 32 ->
  let n := 32 * w + i - bits * value p in
  Z.testbit (piece_bits bits X p) i = (0 <=? n) && (n <? bits) && Z.testbit (X (value p)) n.
Proof.
  intros Hb Hp Hi n. apply pieces_elem in Hp as [_ Hp].
  destruct (place_spec bits (value p)) as (_&_&He&Hs).
  destruct (place bits (value p)) as [w0 s]. cbn [fst snd] in He, Hs. unfold piece_bits.
  rewrite low_mask_ones by lia. destruct Hp as [(->&->&->)|(?&<-&->&->)].
  - assert (n = i - s) as -> by lia. rewrite testbit_wrap, Z.shiftl_spec, Z.land_spec by lia.
    rewrite (proj2 (Z.ltb_lt i 32)) by lia. cbn.
    destruct (Z.lt_ge_cases i s).
    + rewrite !(Z.testbit_neg_r _ (i - s)) by lia. by rewrite ?andb_false_r.
    + rewrite Z.testbit_ones by lia. apply andb_comm.
  - assert (n = i + (32 - s)) as -> by lia.
    rewrite Z.shiftr_spec, Z.land_spec, Z.testbit_ones by lia. apply andb_comm.
Qed.

(** The packing is right: the words made of the pieces hold every value's
    low bits at the value's place, and no value disturbs another. *)
Lemma pack_word_packs bits W X :
  1 <= bits <= 32 -> (forall w, 0 <= w < 2 * bits -> W w = pack_word bits X w) -> packs bits W X.
Proof.
  intros Hb HW v j Hv Hj. unfold stream_bit.
  pose proof (Z.div_mod (bits * v + j) 32). pose proof (Z.mod_pos_bound (bits * v + j) 32).
  set (w := (bits * v + j) / 32) in *. set (i := (bits * v + j) mod 32) in *.
  assert (0 <= w < 2 * bits) by (split; [apply Z.div_pos|apply Z.div_lt_upper_bound]; nia).
  rewrite HW by done. unfold pack_word. rewrite foldr_lor_bit. apply eq_iff_eq_true.
  rewrite existsb_exists. setoid_rewrite <- list_elem_of_In. split.
  - intros (p & Hp & Ht). rewrite (piece_bit bits X w) in Ht by (done || lia).
    rewrite !andb_true_iff in Ht. destruct Ht as [[??] Ht].
    assert (value p = v) as Hpv by nia. rewrite Hpv in Ht. by replace j with (32 * w + i - bits * v) by lia.
  - intros Ht. destruct (place_spec bits v) as (_&_&He&Hs).
    destruct (place bits v) as [w0 s] eqn:E. cbn [fst snd] in He, Hs.
    assert (exists p, p ∈ pieces bits w /\ value p = v) as (p & Hp & Hpv).
    { destruct (decide (w = w0)) as [->|].
      - exists (mkPiece v true s). split; [|done]. apply pieces_elem. cbn [value left amount].
        rewrite E. split; [lia|by left].
      - exists (mkPiece v false (32 - s)). split; [|done]. apply pieces_elem. cbn [value left amount].
        rewrite E. split; [lia|right]. split_and!; lia || done. }
    exists p. split; [done|]. rewrite (piece_bit bits X w) by (done || lia). rewrite Hpv.
    replace (32 * w + i - bits * v) with j by lia. rewrite Ht. lia.
Qed.

Lemma pack_word_uint bits X w : 1 <= bits <= 32 -> uint 32 (pack_word bits X w).
Proof.
  intros Hb. apply bits_uint; [lia|]. intros n Hn. unfold pack_word. rewrite foldr_lor_bit.
  apply not_true_iff_false. rewrite existsb_exists. intros (p & Hp & Ht).
  rewrite <- list_elem_of_In, pieces_elem in Hp. destruct Hp as [_ Hp].
  pose proof (place_spec bits (value p)) as (_&_&_&?). destruct (place bits (value p)) as [w0 s].
  cbn [fst snd] in *. unfold piece_bits in Ht.
  destruct Hp as [(_&Hl&Ha)|(_&_&Hl&Ha)]; rewrite Hl, Ha in Ht.
  - rewrite testbit_wrap in Ht by lia. lia.
  - rewrite Z.shiftr_spec, Z.land_spec, low_mask_ones, Z.testbit_ones in Ht by lia. lia.
Qed.

(** ** The frame transforms *)

(** The value before position [v] of a delta lane: the base, then the values. *)
Definition before (b : Z) (X : Z -> Z) (v : Z) : Z := if v =? 0 then b else X (v - 1).

(** The running sum the delta decoder keeps. *)
Fixpoint running (b : Z) (U : Z -> Z) (n : nat) : Z :=
  match n with
  | O => b
  | S n => wrap 32 (running b U n + U (Z.of_nat n))
  end.

Lemma wrap_add_sub w x b : 0 <= w -> wrap w (b + wrap w (x - b)) = wrap w x.
Proof. intros. unfold wrap. rewrite Zplus_mod_idemp_r. f_equal. lia. Qed.

(** The running sum of the differences gives the values back. *)
Lemma running_differences b X U :
  (forall v, 0 <= v < 64 -> uint 32 (X v)) ->
  (forall v, 0 <= v < 64 -> U v = wrap 32 (X v - before b X v)) ->
  forall n, (n <= 64)%nat -> running b U n = before b X (Z.of_nat n).
Proof.
  intros HX HU n. induction n as [|n IH]; intros Hn; [done|]. cbn [running].
  rewrite IH, HU, wrap_add_sub by lia. unfold before at 1.
  rewrite (proj2 (Z.eqb_neq _ _)) by lia. replace (Z.of_nat (S n) - 1) with (Z.of_nat n) by lia.
  apply wrap_small, HX. lia.
Qed.
