(* ===== verification/Fpu.v ===== *)
(** Floating-point arithmetic on 64-bit patterns.  The arithmetic of the
    vector unit is hardware, so the kernels that use it are proved for any
    unit of the class [Fpu], whose only law is that results are 64-bit
    patterns; [binary64] is an executable instance (IEEE 754, rounding to
    nearest even, one NaN), on which witnesses run. *)

From Stdlib Require Import SpecFloat.
From S2P Require Import Prelude.

Local Open Scope Z_scope.

Class Fpu := {
  f64_add : Z -> Z -> Z;
  f64_sub : Z -> Z -> Z;
  f64_mul : Z -> Z -> Z;
  (** [f64_fma a b c] is [a * b + c], rounded once. *)
  f64_fma : Z -> Z -> Z -> Z;
  f64_lt : Z -> Z -> bool;
  f64_add_uint a b : uint 64 (f64_add a b);
  f64_sub_uint a b : uint 64 (f64_sub a b);
  f64_mul_uint a b : uint 64 (f64_mul a b);
  f64_fma_uint a b c : uint 64 (f64_fma a b c)
}.

(** ** The patterns *)

Definition prec64 : Z := 53.
Definition emax64 : Z := 1024.

Definition of_bits (x : Z) : spec_float :=
  let s := 1 =? x / 2 ^ 63 in
  let e := x / 2 ^ 52 mod 2048 in
  let m := x mod 2 ^ 52 in
  if e =? 2047 then if m =? 0 then S754_infinity s else S754_nan
  else if e =? 0 then
    match m with Zpos p => S754_finite s p (-1074) | _ => S754_zero s end
  else match m + 2 ^ 52 with Zpos p => S754_finite s p (e - 1075) | _ => S754_nan end.

Definition sign_bit (s : bool) : Z := if s then 2 ^ 63 else 0.

Definition to_bits (x : spec_float) : Z :=
  wrap 64
    match x with
    | S754_zero s => sign_bit s
    | S754_infinity s => sign_bit s + 2047 * 2 ^ 52
    | S754_nan => 2047 * 2 ^ 52 + 2 ^ 51
    | S754_finite s m e =>
        sign_bit s + (if Zpos m <? 2 ^ 52 then Zpos m else (e + 1075) * 2 ^ 52 + (Zpos m - 2 ^ 52))
    end.

(** [x * y + z], the product exact. *)
Definition SFfma (x y z : spec_float) : spec_float :=
  match x, y, z with
  | S754_finite sx mx ex, S754_finite sy my ey, S754_finite sz mz ez =>
      let e := Z.min (ex + ey) ez in
      binary_normalize prec64 emax64
        (cond_Zopp (xorb sx sy) (Zpos (fst (shl_align (mx * my) (ex + ey) e)))
         + cond_Zopp sz (Zpos (fst (shl_align mz ez e)))) e false
  | S754_finite sx mx ex, S754_finite sy my ey, S754_infinity sz => S754_infinity sz
  | _, _, _ => SFadd prec64 emax64 (SFmul prec64 emax64 x y) z
  end.

Definition lift2 (f : spec_float -> spec_float -> spec_float) (a b : Z) : Z :=
  to_bits (f (of_bits a) (of_bits b)).

Lemma to_bits_uint x : uint 64 (to_bits x).
Proof. apply wrap_uint. lia. Qed.

Definition binary64 : Fpu.
Proof.
  refine {|
    f64_add := lift2 (SFadd prec64 emax64);
    f64_sub := lift2 (SFsub prec64 emax64);
    f64_mul := lift2 (SFmul prec64 emax64);
    f64_fma a b c := to_bits (SFfma (of_bits a) (of_bits b) (of_bits c));
    f64_lt a b := SFltb (of_bits a) (of_bits b)
  |}; abstract (intros; apply to_bits_uint).
Defined.

(** Some sums and products: 1 + 2, 2 * 0.5, 1 / 10 + 2 / 10, and a fused
    step that a rounded product would lose. *)
Example binary64_add : @f64_add binary64 0x3ff0000000000000 0x4000000000000000 = 0x4008000000000000.
Proof. reflexivity. Qed.

Example binary64_mul : @f64_mul binary64 0x4000000000000000 0x3fe0000000000000 = 0x3ff0000000000000.
Proof. reflexivity. Qed.

Example binary64_tenths : @f64_add binary64 0x3fb999999999999a 0x3fc999999999999a = 0x3fd3333333333334.
Proof. reflexivity. Qed.

Example binary64_fused :
  @f64_fma binary64 0x3ff0000000000001 0x3ff0000000000001 0xbff0000000000002 = 0x3970000000000000.
Proof. reflexivity. Qed.
