(* ===== verification/Vpu.v ===== *)
(** The machine the generated kernels run on: vector registers, pointers,
    memory and flags; the documented behaviour of the vector instructions the
    kernels use (the doc comments of host/crates/knc-mvex/src/lib.rs, over the
    decoded bytes); the scalar instructions; and the execution of a list of
    lines from a program counter.

    The vector unit itself is hardware, so it is a parameter, the class
    [Vpu]: its laws say that on bytes that decode to an instruction of
    documented effect it has that effect.  Everything about the kernels is
    proved against the class; [reference_vpu] is an instance.  The machine
    has an address space ([Space]); an access to an address that is not mapped
    faults, and a run that faults has no end. *)

From stdpp Require Import functions.
From S2P Require Import Prelude Bytes Mvex MvexDis MvexCalls Codegen Layout Fpu.

Local Open Scope Z_scope.
Local Open Scope phi_scope.

(** ** State *)

(** [zmm st r l] is the 32-bit lane [l] of vector register [r], [kreg st k]
    the sixteen bits of mask register [k].  [ram st a] is the
    32-bit word at the address [a], a multiple of 4.  Of the flags, [less] is
    the signed comparison, SF different from OF. *)
Record State := mkState {
  zmm : Z -> Z -> Z;
  gpr : Gpr -> Z;
  ram : Z -> Z;
  kreg : Z -> Z;
  zf : bool;
  cf : bool;
  less : bool
}.

Definition set_zmm (r : Z) (v : Z -> Z) (st : State) : State :=
  mkState (<[r := v]> (zmm st)) (gpr st) (ram st) (kreg st) (zf st) (cf st) (less st).

Definition set_gpr (g : Gpr) (v : Z) (st : State) : State :=
  mkState (zmm st) (<[g := v]> (gpr st)) (ram st) (kreg st) (zf st) (cf st) (less st).

Definition set_kreg (k : Z) (v : Z) (st : State) : State :=
  mkState (zmm st) (gpr st) (ram st) (<[k := v]> (kreg st)) (zf st) (cf st) (less st).

Definition set_word (a : Z) (v : Z) (st : State) : State :=
  mkState (zmm st) (gpr st) (<[a := v]> (ram st)) (kreg st) (zf st) (cf st) (less st).

Definition set_flags (z c l : bool) (st : State) : State :=
  mkState (zmm st) (gpr st) (ram st) (kreg st) z c l.

(** The word at [b] belongs to the 64 bytes at [a]. *)
Definition in_vector (a b : Z) : bool := (a <=? b) && (b <? a + 64) && ((b - a) mod 4 =? 0).

Definition set_vector (a : Z) (v : Z -> Z) (st : State) : State :=
  mkState (zmm st) (gpr st) (fun b => if in_vector a b then v ((b - a) / 4) else ram st b)
    (kreg st) (zf st) (cf st) (less st).

Definition get_vector (a : Z) (st : State) (l : Z) : Z := ram st (a + 4 * l).

(** The address space of the process: the addresses an access does not fault
    at. *)
Class Space := { mapped : Z -> bool }.

(** The [n] bytes at [a] are mapped. *)
Definition mapped_range `{Space} (a n : Z) : Prop := forall x, a <= x < a + n -> mapped x = true.

(** An aligned buffer of [n] bytes, inside the address space and mapped. *)
Definition buffer_at `{Space} (a n : Z) : Prop :=
  a mod 64 = 0 /\ 0 <= a /\ a + n <= 2 ^ 64 /\ mapped_range a n.

#[export] Instance mapped_range_dec `{Space} a n : Decision (mapped_range a n).
Proof.
  refine (cast_if (decide (Forall (fun x => mapped x = true) (seqZ a n))));
    abstract (unfold mapped_range; rewrite Forall_forall in *; setoid_rewrite elem_of_seqZ in f ||
      setoid_rewrite elem_of_seqZ in n0; naive_solver).
Defined.

#[export] Instance buffer_at_dec `{Space} a n : Decision (buffer_at a n).
Proof. unfold buffer_at; apply _. Defined.

(** A word is accessed at [a], a multiple of 4; a whole vector at a multiple
    of 64. *)
Definition word_ok `{Space} (a : Z) : bool := (a mod 4 =? 0) && mapped a.
Definition vector_ok `{Space} (a : Z) : bool :=
  (a mod 64 =? 0) && forallb (fun l => mapped (a + 4 * l)) (seqZ 0 16).

(** The words of the 64 bytes at [a] that lie in the cache line of [line] are
    mapped. *)
Definition line_ok `{Space} (line a : Z) : bool :=
  (a mod 4 =? 0) &&
  forallb (fun l => mapped (a + 4 * l)) (filter (fun l => (a + 4 * l) / 64 = line / 64) (seqZ 0 16)).

(** The address of a memory operand. *)
Definition address (st : State) (m : Mem) : Z := wrap 64 (gpr st (base m) + disp m).

Lemma vector_mapped `{Space} a : a mod 64 = 0 -> mapped_range a 64 -> vector_ok a = true.
Proof.
  intros Ha Hm. unfold vector_ok. rewrite Ha. cbn [Z.eqb andb]. apply forallb_forall.
  intros l Hl%list_elem_of_In%elem_of_seqZ. apply Hm. lia.
Qed.

Lemma line_mapped `{Space} line a : a mod 4 = 0 -> mapped_range a 64 -> line_ok line a = true.
Proof.
  intros Ha Hm. unfold line_ok. rewrite Ha. cbn [Z.eqb andb]. apply forallb_forall.
  intros l Hl%list_elem_of_In%list_elem_of_filter. destruct Hl as [_ Hl%elem_of_seqZ]. apply Hm. lia.
Qed.

Lemma word_mapped `{Space} a : a mod 4 = 0 -> mapped_range a 4 -> word_ok a = true.
Proof. intros Ha Hm. unfold word_ok. rewrite Ha, Hm by lia. done. Qed.

Lemma mapped_sub `{Space} a n b m : mapped_range a n -> a <= b -> b + m <= a + n -> mapped_range b m.
Proof. intros Hm ?? x Hx. apply Hm. lia. Qed.

Lemma buffer_shrink `{Space} a n m : buffer_at a n -> m <= n -> buffer_at a m.
Proof. intros (Ha & H0 & H1 & Hm) Hn. split_and!; [done|lia..|apply (mapped_sub a n); [done|lia..]]. Qed.

Lemma buffer_vector `{Space} a n : buffer_at a n -> 64 <= n -> vector_ok a = true.
Proof. intros (Ha & _ & _ & Hm) Hn. apply vector_mapped; [done|]. apply (mapped_sub a n); [done|lia..]. Qed.

(** ** Vector instructions *)

(** The effect of a three-operand instruction on one 32-bit lane. *)
Definition lane_op (m : Mnem) : option (Z -> Z -> Z) :=
  match m with
  | Vpaddd => Some (fun a b => wrap 32 (a + b))
  | Vpsubd => Some (fun a b => wrap 32 (a - b))
  | Vpandd => Some Z.land
  | Vpandnd => Some (fun a b => Z.ldiff b a)
  | Vpord => Some Z.lor
  | Vpxord => Some Z.lxor
  | Vpsllvd => Some (fun a n => if n <? 32 then wrap 32 (a ≪ n) else 0)
  | Vpsrlvd => Some (fun a n => if n <? 32 then a ≫ n else 0)
  | _ => None
  end.

(** A shift by an immediate: a count above 31 gives zero in the logical
    forms, and the sign everywhere in the arithmetic one. *)
Definition lane_shift (m : Mnem) : option (Z -> Z -> Z) :=
  match m with
  | Vpslld => Some (fun a n => if n <? 32 then wrap 32 (a ≪ n) else 0)
  | Vpsrld => Some (fun a n => if n <? 32 then a ≫ n else 0)
  | Vpsrad => Some (fun a n => wrap 32 (signed 32 a ≫ n))
  | _ => None
  end.

(** The effect on one 64-bit lane, given what the destination held. *)
Definition pd_op `{Fpu} (m : Mnem) : option (Z -> Z -> Z -> Z) :=
  match m with
  | Vaddpd => Some (fun _ a b => f64_add a b)
  | Vsubpd => Some (fun _ a b => f64_sub a b)
  | Vmulpd => Some (fun _ a b => f64_mul a b)
  | Vfmadd213pd => Some (fun d a b => f64_fma a d b)
  | _ => None
  end.

(** A vector as eight 64-bit lanes, low word first. *)
Definition lane64 (v : Z -> Z) (j : Z) : Z := v (2 * j) + v (2 * j + 1) ≪ 32.
Definition of_lanes64 (f : Z -> Z) (l : Z) : Z :=
  if l mod 2 =? 0 then wrap 32 (f (l / 2)) else f (l / 2) ≫ 32.

(** The write mask: the mask register of the field [aaa], or all lanes for
    number 0. A lane whose bit is clear keeps what it held. *)
Definition mask_bit (st : State) (aaa l : Z) : bool := (aaa =? 0) || Z.testbit (kreg st aaa) l.

Definition merge32 (st : State) (aaa : Z) (old new : Z -> Z) (l : Z) : Z :=
  if mask_bit st aaa l then new l else old l.

(** For 64-bit lanes, [new] is by 64-bit lane. *)
Definition merge64 (st : State) (aaa : Z) (old new : Z -> Z) (l : Z) : Z :=
  if mask_bit st aaa (l / 2) then of_lanes64 new l else old l.

(** The mask a comparison leaves: a clear write mask bit clears the result. *)
Definition compare_mask (st : State) (aaa : Z) (p : Z -> bool) : Z :=
  foldr (fun j acc => Z.b2z (mask_bit st aaa j && p j) ≪ j .| acc) 0 (seqZ 0 8).

(** The elements of the 64 bytes at [a], which need not be aligned, that lie
    in the cache line of [line]; the other lanes keep what they had. *)
Definition merge_line (line a : Z) (st : State) (old : Z -> Z) (l : Z) : Z :=
  if (a + 4 * l) / 64 =? line / 64 then get_vector a st l else old l.

(** The loads: a whole aligned vector; the two halves of an unaligned one, the
    high half given the address 64 bytes above; one word for every lane. *)
Definition sem_load `{Space} (m : Mnem) (a : Z) (st : State) (old : Z -> Z) : option (Z -> Z) :=
  match m with
  | VmovapsL => if vector_ok a then Some (get_vector a st) else None
  | Vloadunpackld => if line_ok a a then Some (merge_line a a st old) else None
  | Vloadunpackhd => if line_ok a (a - 64) then Some (merge_line a (a - 64) st old) else None
  | Vpbroadcastd => if word_ok a then Some (fun _ => ram st a) else None
  | _ => None
  end.

(** The second source: a register, or a whole aligned vector in memory. *)
Definition sem_src `{Space} (rm : Rm) (st : State) : option (Z -> Z) :=
  match rm with
  | RmZmm z => Some (zmm st (zmm_n z))
  | RmMem x => if vector_ok (address st x) then Some (get_vector (address st x) st) else None
  end.

(** What the documentation says a decoded instruction does; [None] where an
    access faults (a full vector at an address that is not a multiple of 64, an
    element at one that is not a multiple of 4, either where nothing is mapped)
    and for the instructions, masks and conversions the generated code does not
    use: a write mask on a load or store, and conversions of a source. *)
Definition sem `{Fpu} `{Space} (d : DInsn) (st : State) : option State :=
  let f := d_fields d in
  let m := r_mnem (d_row d) in
  let k := f_aaa f in
  if f_sss f =? 0 then
    match r_shape (d_row d), f_rm f with
    | SLoad, RmMem x =>
        v ← (if k =? 0 then sem_load m (address st x) st (zmm st (f_reg f)) else None);
        Some (set_zmm (f_reg f) v st)
    | SStore, RmMem x =>
        if bool_decide (m = VmovapsS \/ m = VmovapdS \/ m = Vmovnraps \/ m = Vmovnrngoaps)
           && (k =? 0) && vector_ok (address st x)
        then Some (set_vector (address st x) (zmm st (f_reg f)) st) else None
    | STwo, rm =>
        if bool_decide (m = VmovapdL) && (k =? 0) then
          v ← sem_src rm st; Some (set_zmm (f_reg f) v st)
        else None
    | SThree, rm =>
        b ← sem_src rm st;
        let a := zmm st (f_vvvv f) in
        let old := zmm st (f_reg f) in
        match lane_op m with
        | Some op => Some (set_zmm (f_reg f) (merge32 st k old (fun l => op (a l) (b l))) st)
        | None =>
            op ← pd_op m;
            Some (set_zmm (f_reg f)
              (merge64 st k old (fun j => op (lane64 old j) (lane64 a j) (lane64 b j))) st)
        end
    | SShift, rm =>
        op ← lane_shift m; n ← d_imm d; a ← sem_src rm st;
        Some (set_zmm (f_vvvv f) (merge32 st k (zmm st (f_vvvv f)) (fun l => op (a l) n)) st)
    | SCmp, rm =>
        b ← sem_src rm st; n ← d_imm d;
        if bool_decide (m = Vcmppd) && (n =? 1) && (f_reg f <? 8) then
          let a := zmm st (f_vvvv f) in
          Some (set_kreg (f_reg f) (compare_mask st k (fun j => f64_lt (lane64 a j) (lane64 b j))) st)
        else None
    | _, _ => None
    end
  else None.

(** ** Mask register instructions *)

(** The instructions of [vex_k]: between a mask register and one of the first
    eight general registers, and the test of two masks. *)
Inductive KOp := KTo (k : Z) (g : Gpr) | KFrom (g : Gpr) (k : Z) | KTest (a b : Z).

(** The layout of [vex_k]: two bytes of prefix, the opcode, ModRM. *)
Definition decode_k (bs : list Z) : option KOp :=
  match bs with
  | [b0; b1; opcode; modrm] =>
      if (b0 =? 0xc5) && (b1 =? 0xf8) && (modrm ≫ 6 =? 3) then
        let reg := modrm ≫ 3 .& 7 in
        let rm := modrm .& 7 in
        if opcode =? 0x92 then g ← gprs !! Z.to_nat rm; Some (KTo reg g)
        else if opcode =? 0x93 then g ← gprs !! Z.to_nat reg; Some (KFrom g rm)
        else if opcode =? 0x98 then Some (KTest reg rm)
        else None
      else None
  | _ => None
  end.

Definition sem_k (o : KOp) (st : State) : State :=
  match o with
  | KTo k g => set_kreg k (wrap 16 (gpr st g)) st
  | KFrom g k => set_gpr g (kreg st k) st
  | KTest a b =>
      let v := kreg st a .| kreg st b in set_flags (v =? 0) (v =? 0xffff) false st
  end.

(** The vector unit in an address space: bytes and a state to a state, or a
    fault. *)
Class Vpu := {
  vpu_fpu :: Fpu;
  vpu_space :: Space;
  vexec : list Z -> State -> option State;
  vexec_documented bs d st st' :
    decode_mvex bs = Some (d, []) -> sem d st = Some st' -> vexec bs st = Some st';
  vexec_mask bs o st : decode_k bs = Some o -> vexec bs st = Some (sem_k o st)
}.

Definition reference_exec `{Fpu} `{Space} (bs : list Z) (st : State) : option State :=
  match decode_k bs with
  | Some o => Some (sem_k o st)
  | None => match decode_mvex bs with Some (d, []) => sem d st | _ => None end
  end.

(** The two layouts do not overlap. *)
Lemma decode_apart bs o : decode_k bs = Some o -> decode_mvex bs = None.
Proof.
  destruct bs as [|? [|? [|? [|? [|? ?]]]]]; done.
Qed.

(** The class can be implemented, in any address space. *)
Definition reference_vpu_in (sp : Space) : Vpu.
Proof.
  refine {| vpu_fpu := binary64; vpu_space := sp; vexec := @reference_exec binary64 sp |}.
  - abstract (intros bs d st st' H1 H2; unfold reference_exec;
      destruct (decode_k bs) as [o|] eqn:E; [by rewrite (decode_apart bs o E) in H1|by rewrite H1]).
  - abstract (intros bs o st H1; unfold reference_exec; by rewrite H1).
Defined.

(** A process with a mebibyte mapped, less its first page. *)
Definition demo_space : Space := {| mapped x := (4096 <=? x) && (x <? 2 ^ 20) |}.
Definition reference_vpu : Vpu := reference_vpu_in demo_space.

(** Its ranges are decided by their ends. *)
Lemma demo_mapped a n :
  @mapped_range demo_space a n <-> n <= 0 \/ (4096 <= a /\ a + n <= 2 ^ 20).
Proof.
  unfold mapped_range. cbn [mapped demo_space]. split.
  - intros Hm. destruct (decide (n <= 0)) as [|Hn]; [by left|]. right.
    pose proof (Hm a ltac:(lia)). pose proof (Hm (a + n - 1) ltac:(lia)). lia.
  - intros Hm x Hx. lia.
Qed.

#[export] Instance demo_mapped_dec a n : Decision (@mapped_range demo_space a n) | 0.
Proof.
  refine (cast_if (decide (n <= 0 \/ (4096 <= a /\ a + n <= 2 ^ 20)))); abstract (by rewrite demo_mapped).
Defined.

#[export] Instance demo_buffer_dec a n : Decision (@buffer_at demo_space a n) | 0.
Proof. unfold buffer_at. repeat apply and_dec; [apply _..|apply demo_mapped_dec]. Defined.

(** ** The calls the kernels make *)

Section Exec.
Context `{Vpu}.

Definition exec_call (c : Call) (st : State) : option State :=
  i ← run_call c; vexec (bytes i) st.

(** ** Scalar instructions and control flow *)

(** Where the linker put the symbols. *)
Context (symbol : string -> Z).

(** The flags of a subtraction. *)
Definition flags_sub (w a b : Z) (st : State) : State :=
  set_flags (wrap w a =? wrap w b) (wrap w a <? wrap w b) (signed w a <? signed w b) st.

(** The quadword at [a], a multiple of 4 here. *)
Definition qword_ok (a : Z) : bool := word_ok a && word_ok (a + 4).
Definition qword (st : State) (a : Z) : Z := ram st a + ram st (a + 4) ≪ 32.

(** The sixteen bits at an even address, and their update. *)
Definition half_ok (a : Z) : bool := (a mod 2 =? 0) && mapped a.
Definition half_at (st : State) (a : Z) : Z := wrap 16 (ram st (a - a mod 4) ≫ (8 * (a mod 4))).
Definition set_half (a v : Z) (st : State) : State :=
  let w := ram st (a - a mod 4) in
  set_word (a - a mod 4)
    (if a mod 4 =? 0 then ((w ≫ 16) ≪ 16) .| wrap 16 v else (wrap 16 v ≪ 16) .| wrap 16 w) st.

(** A scalar instruction that does not transfer control.  [less] is the sign
    of the exact result. *)
Definition exec_scalar (s : Scalar) (st : State) : option State :=
  match s with
  | Movq a b => Some (set_gpr b (gpr st a) st)
  | Cmpq n r => Some (flags_sub 64 (gpr st r) n st)
  | Testq r => Some (set_flags (gpr st r =? 0) false (signed 64 (gpr st r) <? 0) st)
  | Addq n r =>
      let v := wrap 64 (gpr st r + n) in
      Some (set_flags (v =? 0) (2 ^ 64 <=? gpr st r + wrap 64 n) (signed 64 (gpr st r) + n <? 0)
        (set_gpr r v st))
  | Subq n r => Some (flags_sub 64 (gpr st r) n (set_gpr r (wrap 64 (gpr st r - n)) st))
  | Decq r =>
      let v := wrap 64 (gpr st r - 1) in
      Some (set_flags (v =? 0) (cf st) (signed 64 (gpr st r) - 1 <? 0) (set_gpr r v st))
  | Movl a b => Some (set_gpr b (wrap 32 (gpr st a)) st)
  | Decl r =>
      let v := wrap 32 (gpr st r - 1) in
      Some (set_flags (v =? 0) (cf st) (signed 32 (gpr st r) - 1 <? 0) (set_gpr r v st))
  | Cmpl n r => Some (flags_sub 32 (gpr st r) n st)
  | Leaq s r => Some (set_gpr r (symbol s) st)
  | LockAdd =>
      let v := qword st (gpr st Rsp) in
      if qword_ok (gpr st Rsp) then Some (set_flags (v =? 0) false (signed 64 v <? 0) st) else None
  | MovlImm n r => Some (set_gpr r (wrap 32 n) st)
  | MovlTo r b =>
      if word_ok (gpr st b) then Some (set_word (gpr st b) (wrap 32 (gpr st r)) st) else None
  | Movzwl d b r =>
      let a := wrap 64 (gpr st b + d) in
      if half_ok a then Some (set_gpr r (half_at st a) st) else None
  | Movw r d b =>
      let a := wrap 64 (gpr st b + d) in
      if half_ok a then Some (set_half a (gpr st r) st) else None
  | Xorl r => Some (set_flags true false false (set_gpr r 0 st))
  | Incl r =>
      let v := wrap 32 (gpr st r + 1) in
      Some (set_flags (v =? 0) (cf st) (signed 32 (gpr st r) + 1 <? 0) (set_gpr r v st))
  | CmplReg b a => Some (flags_sub 32 (gpr st a) (gpr st b) st)
  | JmpTable _ _ _ | Ret => None
  end.

Definition holds (c : Cond) (st : State) : bool :=
  match c with
  | Jb => cf st | Jae => negb (cf st) | Jz => zf st | Jnz => negb (zf st)
  | Ja => negb (cf st) && negb (zf st) | Jl => less st
  end.

(** A mask register instruction. *)
Definition exec_insn (o : option Insn) (st : State) : option State := i ← o; vexec (bytes i) st.

Definition is_label (n : Z) (l : Line) : bool :=
  match l with Label m => n =? m | _ => false end.

(** A numeric label: [nf] is the next one after the jump, [nb] the last one
    before it. *)
Definition target (prog : list Line) (pc : nat) (n : Z) (forward : bool) : option nat :=
  if forward then
    '(i, _) ← list_find (fun l => is_label n l = true) (drop pc prog); Some (pc + i)%nat
  else
    '(i, _) ← list_find (fun l => is_label n l = true) (reverse (take pc prog));
    Some (pc - 1 - i)%nat.

(** How a function ends: it returns, or leaves for an address. *)
Inductive Outcome := Returned (st : State) | Left (address : Z) (st : State).

Definition outcome_state (o : Outcome) : State := match o with Returned st | Left _ st => st end.

(** One line from a program counter: on in the program, or out of it. *)
Definition step (prog : list Line) (pc : nat) (st : State) : option (nat * State + Outcome) :=
  l ← prog !! pc;
  match l with
  | Vec c => st ← exec_call c st; Some (inl (S pc, st))
  | Scal Ret => Some (inr (Returned st))
  | Scal (JmpTable d b i) =>
      let a := wrap 64 (gpr st b + 8 * gpr st i + d) in
      if qword_ok a then Some (inr (Left (qword st a) st)) else None
  | Scal s => st ← exec_scalar s st; Some (inl (S pc, st))
  | Jump c n f => if holds c st then pc ← target prog pc n f; Some (inl (pc, st))
                  else Some (inl (S pc, st))
  | Label _ | Text _ => Some (inl (S pc, st))
  | KInsn o => st ← exec_insn o st; Some (inl (S pc, st))
  end.

(** Runs a function from a line until it ends, for at most [fuel] lines. *)
Fixpoint run (fuel : nat) (prog : list Line) (pc : nat) (st : State) : option Outcome :=
  match fuel with
  | O => None
  | S fuel =>
      match step prog pc st with
      | Some (inl (pc, st)) => run fuel prog pc st
      | Some (inr o) => Some o
      | None => None
      end
  end.

(** A line without control flow. *)
Definition exec_line (l : Line) (st : State) : option State :=
  match l with
  | Vec c => exec_call c st
  | Scal s => exec_scalar s st
  | KInsn o => exec_insn o st
  | Label _ | Text _ => Some st
  | Jump _ _ _ => None
  end.

Fixpoint exec_lines (ls : list Line) (st : State) : option State :=
  match ls with
  | [] => Some st
  | l :: ls => st ← exec_line l st; exec_lines ls st
  end.

Lemma exec_lines_app l1 l2 st :
  exec_lines (l1 ++ l2) st = (st ← exec_lines l1 st; exec_lines l2 st).
Proof.
  revert st. induction l1 as [|l l1 IH]; intros st; [done|]. cbn.
  destruct (exec_line l st) as [st'|]; [|done]. apply IH.
Qed.

Lemma step_line prog pc l st st' :
  prog !! pc = Some l -> exec_line l st = Some st' -> step prog pc st = Some (inl (S pc, st')).
Proof.
  intros Hl Hs. unfold step. rewrite Hl. cbn [mbind option_bind].
  destruct l as [c|i|s|c n f|n|s]; cbn [exec_line] in Hs; try done; try by simplify_eq.
  - by rewrite Hs.
  - by rewrite Hs.
  - destruct s; try discriminate Hs; by rewrite Hs.
Qed.

(** Lines without control flow are run one after the other. *)
Lemma run_lines fuel pre ls post st st' :
  exec_lines ls st = Some st' ->
  run (length ls + fuel) (pre ++ ls ++ post) (length pre) st =
  run fuel (pre ++ ls ++ post) (length pre + length ls) st'.
Proof.
  revert pre st. induction ls as [|l ls IH]; intros pre st Hs; cbn in Hs.
  - injection Hs as <-. by rewrite Nat.add_0_r.
  - destruct (exec_line l st) as [st1|] eqn:E; [|done]. cbn [mbind option_bind] in Hs.
    cbn [length Nat.add run].
    rewrite (step_line _ _ l st st1); [|by apply list_lookup_middle|done].
    specialize (IH (pre ++ [l]) st1 Hs).
    rewrite <- app_assoc in IH. cbn [app] in IH. rewrite length_app in IH. cbn [length] in IH.
    cbn [app length]. rewrite (Nat.add_1_r (length pre)) in IH. rewrite IH. f_equal. lia.
Qed.

Lemma qword_mapped a : a mod 4 = 0 -> mapped_range a 8 -> qword_ok a = true.
Proof.
  intros Ha Hm. unfold qword_ok. rewrite !word_mapped; [done|..].
  - rewrite Z.add_mod, Ha by lia. done.
  - apply (mapped_sub a 8); [done|lia..].
  - done.
  - apply (mapped_sub a 8); [done|lia..].
Qed.

Lemma half_mapped a : a mod 2 = 0 -> mapped_range a 2 -> half_ok a = true.
Proof. intros Ha Hm. unfold half_ok. rewrite Ha, Hm by lia. done. Qed.

(** ** Ends of runs *)

(** The run from a line ends, with this outcome. *)
Definition ends (prog : list Line) (pc : nat) (st : State) (o : Outcome) : Prop :=
  exists fuel, run fuel prog pc st = Some o.

Lemma ends_step prog pc st pc' st' o :
  step prog pc st = Some (inl (pc', st')) -> ends prog pc' st' o -> ends prog pc st o.
Proof. intros Hs [fuel Hr]. exists (S fuel). cbn [run]. by rewrite Hs. Qed.

Lemma ends_out prog pc st o : step prog pc st = Some (inr o) -> ends prog pc st o.
Proof. intros Hs. exists 1%nat. cbn [run]. by rewrite Hs. Qed.

Lemma ends_line prog pc l st st' o :
  prog !! pc = Some l -> exec_line l st = Some st' -> ends prog (S pc) st' o -> ends prog pc st o.
Proof. intros Hl He. apply ends_step. by apply (step_line _ _ l). Qed.

(** The [n] lines from [pc] on, without control flow. *)
Lemma ends_lines n prog pc st st' o :
  exec_lines (take n (drop pc prog)) st = Some st' -> (pc + n <= length prog)%nat ->
  ends prog (pc + n) st' o -> ends prog pc st o.
Proof.
  revert pc st. induction n as [|n IH]; intros pc st He Hn Ho.
  { rewrite Nat.add_0_r in Ho. cbn in He. by injection He as ->. }
  destruct (prog !! pc) as [l|] eqn:El.
  2: { apply lookup_ge_None in El. lia. }
  rewrite (drop_S _ l) in He by done. cbn [take exec_lines] in He.
  apply bind_Some in He as (st1 & H1 & He). eapply ends_line; [done..|].
  apply (IH (S pc) st1 He); [lia|]. by rewrite Nat.add_succ_comm.
Qed.

Lemma ends_table prog pc d b i st a :
  prog !! pc = Some (Scal (JmpTable d b i)) -> a = wrap 64 (gpr st b + 8 * gpr st i + d) ->
  qword_ok a = true -> ends prog pc st (Left (qword st a) st).
Proof. intros Hl -> Ha. apply ends_out. unfold step. rewrite Hl. cbn [mbind option_bind]. by rewrite Ha. Qed.

Lemma ends_jump prog pc c n f st pc' o :
  prog !! pc = Some (Jump c n f) -> target prog pc n f = Some pc' ->
  ends prog (if holds c st then pc' else S pc) st o -> ends prog pc st o.
Proof.
  intros Hl Ht. apply ends_step. unfold step. rewrite Hl. cbn [mbind option_bind].
  rewrite Ht. by destruct (holds c st).
Qed.

Lemma ends_ret prog pc st : prog !! pc = Some (Scal Ret) -> ends prog pc st (Returned st).
Proof. intros Hl. apply ends_out. unfold step. by rewrite Hl. Qed.

(** A run has one end. *)
Lemma run_more n m prog pc st o :
  run n prog pc st = Some o -> run (n + m) prog pc st = Some o.
Proof.
  revert pc st. induction n as [|n IH]; intros pc st Hr; [done|]. cbn [run Nat.add] in *.
  destruct (step prog pc st) as [[[pc' st']|o']|]; [by apply IH|done|done].
Qed.

Lemma ends_unique prog pc st o o' : ends prog pc st o -> ends prog pc st o' -> o = o'.
Proof.
  intros [n Hn] [m Hm]. apply (run_more _ m) in Hn. apply (run_more _ n) in Hm.
  rewrite Nat.add_comm, Hn in Hm. by injection Hm.
Qed.
End Exec.
