(* ===== verification/VpuCalls.v ===== *)
(** What the calls of the generator do on the machine: for each form of
    instruction the generated code uses, from the call of the encoder through
    its bytes and their decoding to the effect; and the facts about 64-bit
    lanes and masks the effects are stated with. *)

From stdpp Require Import functions.
From S2P Require Import Prelude Bytes Mvex MvexDis MvexCalls Codegen Layout Fpu Vpu.

Local Open Scope Z_scope.
Local Open Scope phi_scope.

(** ** 64-bit lanes *)

Lemma of_lanes64_lane f j :
  uint 64 (f j) -> lane64 (of_lanes64 f) j = f j.
Proof.
  intros Hf. unfold lane64, of_lanes64.
  replace (2 * j) with (j * 2) by lia.
  rewrite Z.mod_mul, Z.div_mul by lia. rewrite (Z.add_comm (j * 2)), Z.mod_add by lia.
  replace ((1 + j * 2) / 2) with j by (apply (Z.div_unique _ 2 j 1); lia).
  cbn [Z.eqb Z.modulo]. unfold wrap. rewrite Z.shiftr_div_pow2, Z.shiftl_mul_pow2 by lia.
  change (1 mod 2 =? 0) with false. pose proof (Z.div_mod (f j) (2 ^ 32)). lia.
Qed.

Lemma lane64_ext v w j : (forall l, v l = w l) -> lane64 v j = lane64 w j.
Proof. intros H. unfold lane64. by rewrite !H. Qed.

(** ** Masks *)

Lemma foldr_bits (q : Z -> bool) js l :
  0 <= l -> Forall (fun j => 0 <= j) js ->
  Z.testbit (foldr (fun j acc => Z.b2z (q j) ≪ j .| acc) 0 js) l = existsb (fun j => (j =? l) && q j) js.
Proof.
  intros Hl. induction 1 as [|j js Hj Hjs IH]; cbn [foldr existsb]; [by rewrite Z.bits_0|].
  rewrite Z.lor_spec, IH, Z.shiftl_spec by done. f_equal.
  destruct (j =? l) eqn:E.
  - replace (l - j) with 0 by lia. by destruct (q j).
  - destruct (q j); [|by rewrite Z.bits_0]. cbn [Z.b2z].
    destruct (Z.lt_ge_cases l j); [by rewrite Z.testbit_neg_r by lia|].
    change 1 with (2 ^ 0). rewrite Z.pow2_bits_eqb by lia. lia.
Qed.

(** The bits of the mask a comparison leaves. *)
Lemma compare_mask_bit st aaa p l :
  0 <= l -> Z.testbit (compare_mask st aaa p) l = (l <? 8) && (mask_bit st aaa l && p l).
Proof.
  intros Hl. unfold compare_mask.
  rewrite (foldr_bits (fun j => mask_bit st aaa j && p j)) by (done || (apply Forall_forall; intros j Hj%elem_of_seqZ; lia)).
  destruct (l <? 8) eqn:E.
  - apply eq_iff_eq_true. rewrite existsb_exists. split.
    + intros (j & _ & H). apply andb_true_iff in H as [H1 H2]. by assert (j = l) as -> by lia.
    + intros H. exists l. rewrite Z.eqb_refl. split; [|done].
      apply list_elem_of_In, elem_of_seqZ. lia.
  - apply not_true_iff_false. rewrite existsb_exists. intros (j & Hj & H).
    apply list_elem_of_In, elem_of_seqZ in Hj. lia.
Qed.

Lemma compare_mask_uint st aaa p : uint 16 (compare_mask st aaa p).
Proof.
  apply bits_uint; [lia|]. intros n Hn. rewrite compare_mask_bit by lia.
  by rewrite (proj2 (Z.ltb_ge n 8)) by lia.
Qed.

(** ** Calls *)

Section Exec.
Context `{Vpu}.

Lemma exec_parts c i p r st st' :
  run_call c = Some i -> made_of p i -> parts_ok p ->
  List.find (row_matches (parts_fields p)) table = Some r ->
  has_imm (r_shape r) = bool_decide (is_Some (p_imm p)) ->
  sem (mkDInsn r (parts_fields p) (p_imm p)) st = Some st' ->
  exec_call c st = Some st'.
Proof.
  intros Hc Hm Hp Hr Hi Hs. unfold exec_call. rewrite Hc. cbn [mbind option_bind].
  apply (vexec_documented _ _ _ _) with (2 := Hs).
  rewrite <- (app_nil_r (bytes i)). by apply decode_parts.
Qed.

(** A register number the machine has; a mask register number; a base register
    [Mem::new] takes, and an [i32] displacement. *)
Definition zreg (r : Z) : bool := (0 <=? r) && (r <? 32).
Definition mreg (k : Z) : bool := (0 <=? k) && (k <? 8).
Definition mem_fits (m : Mem) : bool :=
  negb (gpr_n (base m) .& 7 =? 4) && (- 2 ^ 31 <=? disp m) && (disp m <? 2 ^ 31).
Definition src_fits (s : Src) : bool :=
  match s with SrcReg (mkZmm r) => zreg r | SrcMem m => mem_fits m | SrcMemConv _ _ => false end.

Lemma mem_fits_ok m : mem_fits m = true -> mem_ok m.
Proof. unfold mem_fits, mem_ok, sint. intros. change (32 - 1) with 31. lia. Qed.

(** Runs one call: the instruction it returns, its parts, and its row of the
    table; what is left is the documented effect. *)
Ltac exec_call_tac :=
  match goal with |- exec_call ?c ?st = Some ?st' =>
    let i := fresh "i" in let Hc := fresh "Hc" in let Hm := fresh "Hm" in
    destruct (run_call_returns c) as [i Hc];
    [ unfold call_in_range, src_exists, zmm_exists, k_exists; cbn; lia
    | pose proof Hc as Hm; unfold run_call in Hm;
      cbn [three_fn load_fn store_fn full_store_fn shift_fn cmp_fn mbind option_bind] in Hm;
      made Hm; destruct Hm as [Hm _];
      match type of Hm with made_of ?p ?i => eapply (exec_parts c i p _ st st' Hc Hm) end;
      [ split_and!; cbn; unfold zmm_ok, uint; cbn; first [ assumption | lia ] | reflexivity | reflexivity | ] ]
  end.

Ltac regs :=
  unfold src_fits in *;
  repeat match goal with
  | x : Zmm |- _ => destruct x as [?]
  | Hr : zreg _ = true |- _ => unfold zreg in Hr
  | Hr : mreg _ = true |- _ => unfold mreg in Hr
  | Hm : mem_fits _ = true |- _ => apply mem_fits_ok in Hm
  end.

Lemma exec_load r m st :
  zreg r = true -> mem_fits m = true -> vector_ok (address st m) = true ->
  exec_call (CMovaps (mkZmm r) m) st = Some (set_zmm r (get_vector (address st m) st) st).
Proof.
  intros Hr Hm Ha. regs.
  exec_call_tac. cbn. by rewrite Ha.
Qed.

(** The other loads of the kernels. *)
Lemma exec_loads x r m st v :
  x = Vloadunpackld \/ x = Vloadunpackhd \/ x = Vpbroadcastd ->
  zreg r = true -> mem_fits m = true -> sem_load x (address st m) st (zmm st r) = Some v ->
  exec_call (CLoad x (mkZmm r) m k0) st = Some (set_zmm r v st).
Proof.
  intros Hx Hr Hm Hv. regs.
  destruct Hx as [->|[->| ->]]; exec_call_tac; unfold sem; cbn in Hv |- *; by rewrite Hv.
Qed.

Lemma exec_store x r m st :
  x = VmovapsS \/ x = Vmovnraps \/ x = Vmovnrngoaps ->
  zreg r = true -> mem_fits m = true -> vector_ok (address st m) = true ->
  exec_call (CFullStore x m (mkZmm r)) st = Some (set_vector (address st m) (zmm st r) st).
Proof.
  intros Hx Hr Hm Ha. regs.
  destruct Hx as [->|[->| ->]]; exec_call_tac; cbn; by rewrite Ha.
Qed.

Lemma exec_storepd r m st :
  zreg r = true -> mem_fits m = true -> vector_ok (address st m) = true ->
  exec_call (CStore VmovapdS m (mkZmm r) k0) st = Some (set_vector (address st m) (zmm st r) st).
Proof. intros Hr Hm Ha. regs. exec_call_tac; cbn; by rewrite Ha. Qed.

(** Closes a goal on the effect of an instruction whose source is [Hv]. *)
Ltac source Hv := unfold sem; cbn in Hv |- *; first [by injection Hv as <-|by rewrite Hv].

Lemma exec_op x op d a b k st v :
  lane_op x = Some op -> zreg d = true -> zreg a = true -> src_fits b = true -> mreg k = true ->
  sem_src (src_rm b) st = Some v ->
  exec_call (CThree x (mkZmm d) (mkZmm a) b (mkK k)) st =
  Some (set_zmm d (merge32 st k (zmm st d) (fun l => op (zmm st a l) (v l))) st).
Proof.
  intros Hx Hd Ha Hb Hk Hv. destruct b as [y|m|]; regs; [| |done];
    (destruct x; try discriminate Hx; injection Hx as <-; exec_call_tac; source Hv).
Qed.

Lemma exec_pd x op d a b k st v :
  pd_op x = Some op -> zreg d = true -> zreg a = true -> src_fits b = true -> mreg k = true ->
  sem_src (src_rm b) st = Some v ->
  exec_call (CThree x (mkZmm d) (mkZmm a) b (mkK k)) st =
  Some (set_zmm d (merge64 st k (zmm st d)
    (fun j => op (lane64 (zmm st d) j) (lane64 (zmm st a) j) (lane64 v j))) st).
Proof.
  intros Hx Hd Ha Hb Hk Hv. destruct b as [y|m|]; regs; [| |done];
    (destruct x; try discriminate Hx; injection Hx as <-; exec_call_tac; source Hv).
Qed.

Lemma exec_shift x op d a n k st v :
  lane_shift x = Some op -> zreg d = true -> src_fits a = true -> u8 n -> mreg k = true ->
  sem_src (src_rm a) st = Some v ->
  exec_call (CShift x (mkZmm d) a n (mkK k)) st =
  Some (set_zmm d (merge32 st k (zmm st d) (fun l => op (v l) n)) st).
Proof.
  intros Hx Hd Ha Hn Hk Hv. destruct a as [y|m|]; regs; [| |done];
    (destruct x; try discriminate Hx; injection Hx as <-; exec_call_tac; source Hv).
Qed.

Lemma exec_cmp d a b k st v :
  mreg d = true -> zreg a = true -> src_fits b = true -> mreg k = true ->
  sem_src (src_rm b) st = Some v ->
  exec_call (CCmp Vcmppd (mkK d) (mkZmm a) b CmpLt (mkK k)) st =
  Some (set_kreg d (compare_mask st k (fun j => f64_lt (lane64 (zmm st a) j) (lane64 v j))) st).
Proof.
  intros Hd Ha Hb Hk Hv. assert (Hlt : (d <? 8) = true) by (unfold mreg in Hd; lia).
  destruct b as [y|m|]; regs; [| |done]; exec_call_tac; unfold sem; cbn in Hv |- *;
    rewrite Hlt; first [by injection Hv as <-|by rewrite Hv].
Qed.

Lemma exec_move d a st v :
  zreg d = true -> src_fits a = true -> sem_src (src_rm a) st = Some v ->
  exec_call (CMovapd (mkZmm d) a k0) st = Some (set_zmm d v st).
Proof.
  intros Hd Ha Hv. destruct a as [y|m|]; regs; [| |done]; exec_call_tac; source Hv.
Qed.

(** The mask register instructions. *)
Lemma kmov_decodes k g :
  mreg k = true -> (gpr_n g <? 8) = true ->
  exists i j, kmov_k_r32 (mkK k) g = Some i /\ decode_k (bytes i) = Some (KTo k g) /\
    kmov_r32_k g (mkK k) = Some j /\ decode_k (bytes j) = Some (KFrom g k).
Proof.
  unfold mreg. intros Hk Hg.
  assert (k = 0 \/ k = 1 \/ k = 2 \/ k = 3 \/ k = 4 \/ k = 5 \/ k = 6 \/ k = 7) as Hc by lia.
  destruct g; try discriminate Hg;
    repeat destruct Hc as [->|Hc]; subst; do 2 eexists; split_and!; reflexivity.
Qed.

Lemma exec_mask i o st : decode_k (bytes i) = Some o -> exec_insn (Some i) st = Some (sem_k o st).
Proof. intros Hd. unfold exec_insn. cbn [mbind option_bind]. by apply vexec_mask. Qed.

Lemma exec_kmov_to k g st :
  mreg k = true -> (gpr_n g <? 8) = true ->
  exec_insn (kmov_k_r32 (mkK k) g) st = Some (set_kreg k (wrap 16 (gpr st g)) st).
Proof.
  intros Hk Hg. destruct (kmov_decodes k g Hk Hg) as (i & _ & -> & Hi & _). by apply (exec_mask i (KTo k g)).
Qed.

Lemma exec_kmov_from k g st :
  mreg k = true -> (gpr_n g <? 8) = true ->
  exec_insn (kmov_r32_k g (mkK k)) st = Some (set_gpr g (kreg st k) st).
Proof.
  intros Hk Hg. destruct (kmov_decodes k g Hk Hg) as (_ & j & _ & _ & -> & Hj). by apply (exec_mask j (KFrom g k)).
Qed.
End Exec.
