(* ===== verification/Symbolic.v ===== *)
(** Symbolic execution of straight-line kernels: registers and stored vectors
    as expressions over the vectors loaded at the entry, computed line by
    line, and the simulation that relates the symbolic run to every concrete
    one.  A property of a generated kernel at all inputs becomes an
    evaluation at none. *)

From stdpp Require Import functions.
From S2P Require Import Prelude Bytes Mvex MvexDis MvexCalls Codegen Layout Fpu Vpu VpuCalls.

Local Open Scope Z_scope.

(** ** Locations and expressions *)

(** A buffer: what an argument register points to at the entry, or a symbol. *)
Inductive Loc := Arg (g : Gpr) | Sym (s : string).

#[export] Instance Loc_eq_dec : EqDecision Loc.
Proof. solve_decision. Defined.

(** One lane of a vector: a register at the entry, a word of a buffer, the
    same word for every lane, the low half of an unaligned load over what the
    register held, or an operation on lanes, 32-bit or ([Pd], given also what
    the destination held) 64-bit.  A mask is an expression too, with lanes 0
    or 1: a mask register at the entry, known bits, a comparison, both of
    two; [Merge] takes the lanes of its first vector where the mask has a one,
    by 64-bit lanes when [wide]. *)
Inductive Expr :=
| Old (r : Z)
| Ld (b : Loc) (d : Z)
| Splat (b : Loc) (d : Z)
| Low (b : Loc) (d : Z) (x : Expr)
| Op (m : Mnem) (x y : Expr)
| Shift (m : Mnem) (x : Expr) (n : Z)
| Pd (m : Mnem) (d x y : Expr)
| OldK (k : Z)
| Bits (n : Z)
| Less (x y : Expr)
| Both (x y : Expr)
| Merge (wide : bool) (m x y : Expr).

#[export] Instance Expr_eq_dec : EqDecision Expr.
Proof. solve_decision. Defined.

(** The lane [l] of an expression, given where the buffers are and the state
    at the entry. *)
Fixpoint eval `{Fpu} (at_ : Loc -> Z) (st : State) (l : Z) (e : Expr) : Z :=
  match e with
  | Old r => zmm st r l
  | Ld b d => ram st (at_ b + d + 4 * l)
  | Splat b d => ram st (at_ b + d)
  | Low b d x =>
      if (at_ b + d + 4 * l) / 64 =? (at_ b + d) / 64 then ram st (at_ b + d + 4 * l)
      else eval at_ st l x
  | Op o x y =>
      match lane_op o with Some f => f (eval at_ st l x) (eval at_ st l y) | None => 0 end
  | Shift o x n =>
      match lane_shift o with Some f => f (eval at_ st l x) n | None => 0 end
  | Pd o d x y =>
      match pd_op o with
      | Some f =>
          of_lanes64 (fun j => f (lane64 (fun i => eval at_ st i d) j)
            (lane64 (fun i => eval at_ st i x) j) (lane64 (fun i => eval at_ st i y) j)) l
      | None => 0
      end
  | OldK k => Z.b2z (Z.testbit (kreg st k) l)
  | Bits n => Z.b2z (Z.testbit n l)
  | Less x y =>
      Z.b2z ((l <? 8) && f64_lt (lane64 (fun i => eval at_ st i x) l) (lane64 (fun i => eval at_ st i y) l))
  | Both x y => Z.b2z (negb (eval at_ st l x =? 0) && negb (eval at_ st l y =? 0))
  | Merge wide m x y =>
      if eval at_ st (if wide then l / 2 else l) m =? 0 then eval at_ st l y else eval at_ st l x
  end.

(** The 64-bit lane [j] of an expression. *)
Definition eval64 `{Fpu} (at_ : Loc -> Z) (st : State) (j : Z) (e : Expr) : Z :=
  lane64 (fun i => eval at_ st i e) j.

(** The buffers a kernel reads, with their sizes in bytes, the one it writes,
    and those it reads at addresses that are multiples of 4 only. *)
Record Area := mkArea {
  reads : list (Loc * Z);
  writes : Loc;
  room : Z;
  loose : list (Loc * Z)
}.

(** The symbolic state: known registers, pointers, constants in general
    registers, the general registers written, masks, and stored vectors. *)
Record SymState := mkSym {
  s_zmm : gmap Z Expr;
  s_gpr : Gpr -> option Loc;
  s_imm : Gpr -> option Z;
  s_written : list Gpr;
  s_kreg : gmap Z Expr;
  s_out : gmap Z Expr
}.

(** At the entry of a segment the pointers [gs] are the arguments, and the
    registers [rs] and the mask registers [ks] hold what they held. *)
Definition entry_masked (gs : list Gpr) (rs ks : list Z) : SymState :=
  mkSym (list_to_map ((fun r => (r, Old r)) <$> rs))
    (fun g => if bool_decide (g ∈ gs) then Some (Arg g) else None) (fun _ => None) []
    (list_to_map ((fun k => (k, OldK k)) <$> ks)) ∅.

Definition entry (gs : list Gpr) (rs : list Z) : SymState := entry_masked gs rs [].

(** The arguments of the codec kernels. *)
Definition args : list Gpr := [Rdi; Rsi; Rdx].

Definition set_s_zmm (r : Z) (e : Expr) (s : SymState) : SymState :=
  mkSym (<[r := e]> (s_zmm s)) (s_gpr s) (s_imm s) (s_written s) (s_kreg s) (s_out s).

Definition set_s_gpr (g : Gpr) (b : option Loc) (n : option Z) (s : SymState) : SymState :=
  mkSym (s_zmm s) (<[g := b]> (s_gpr s)) (<[g := n]> (s_imm s)) (g :: s_written s) (s_kreg s) (s_out s).

Definition set_s_kreg (k : Z) (e : Expr) (s : SymState) : SymState :=
  mkSym (s_zmm s) (s_gpr s) (s_imm s) (s_written s) (<[k := e]> (s_kreg s)) (s_out s).

Definition set_s_out (d : Z) (e : Expr) (s : SymState) : SymState :=
  mkSym (s_zmm s) (s_gpr s) (s_imm s) (s_written s) (s_kreg s) (<[d := e]> (s_out s)).

(** The whole vector at [d] is in a buffer of [n] bytes. *)
Definition fits (d n : Z) : bool := (0 <=? d) && (d + 64 <=? n) && (d mod 64 =? 0).

Definition find_size (bs : list (Loc * Z)) (b : Loc) : option Z :=
  snd <$> List.find (fun p => bool_decide (p.1 = b)) bs.

Definition size_of (a : Area) : Loc -> option Z := find_size (reads a).
Definition loose_size (a : Area) : Loc -> option Z := find_size (loose a).

(** [w] bytes at [d] are in a buffer of [n], at a multiple of 4. *)
Definition fits4 (d w n : Z) : bool := (0 <=? d) && (d + w <=? n) && (d mod 4 =? 0).

(** The second source of an instruction. *)
Definition sym_src (a : Area) (x : Src) (s : SymState) : option Expr :=
  match x with
  | SrcReg (mkZmm r) => assert_ (zreg r) (s_zmm s !! r)
  | SrcMem m =>
      b ← s_gpr s (base m); n ← size_of a b;
      assert_ (mem_fits m && fits (disp m) n) (Some (Ld b (disp m)))
  | SrcMemConv _ _ => None
  end.

(** Under a write mask the destination keeps lanes. *)
Definition sym_merge (s : SymState) (wide : bool) (k d : Z) (e : Expr) : option Expr :=
  if k =? 0 then Some e
  else m ← s_kreg s !! k; old ← s_zmm s !! d; assert_ (mreg k) (Some (Merge wide m e old)).

(** The destination of a 64-bit operation, where it is also a source. *)
Definition pd_old (s : SymState) (o : Mnem) (d : Z) : option Expr :=
  if bool_decide (o = Vfmadd213pd) then s_zmm s !! d else Some (Old 0).

Definition is_store (c : Call) : option (Mem * Z) :=
  match c with
  | CFullStore o m (mkZmm r) =>
      assert_ (bool_decide (o = VmovapsS \/ o = Vmovnraps \/ o = Vmovnrngoaps)) (Some (m, r))
  | CStore VmovapdS m (mkZmm r) (mkK 0) => Some (m, r)
  | _ => None
  end.

Definition sym_call (a : Area) (c : Call) (s : SymState) : option SymState :=
  match is_store c with
  | Some (m, r) =>
      b ← s_gpr s (base m); e ← s_zmm s !! r;
      assert_ (zreg r && mem_fits m && bool_decide (b = writes a) && fits (disp m) (room a))
        (Some (set_s_out (disp m) e s))
  | None =>
  match c with
  | CMovaps (mkZmm r) m =>
      b ← s_gpr s (base m); n ← size_of a b;
      assert_ (zreg r && mem_fits m && fits (disp m) n) (Some (set_s_zmm r (Ld b (disp m)) s))
  | CLoad Vpbroadcastd (mkZmm r) m (mkK 0) =>
      b ← s_gpr s (base m); n ← loose_size a b;
      assert_ (zreg r && mem_fits m && fits4 (disp m) 4 n) (Some (set_s_zmm r (Splat b (disp m)) s))
  | CLoad Vloadunpackld (mkZmm r) m (mkK 0) =>
      b ← s_gpr s (base m); n ← loose_size a b; x ← s_zmm s !! r;
      assert_ (zreg r && mem_fits m && fits4 (disp m) 64 n)
        (Some (set_s_zmm r (Low b (disp m) x) s))
  | CLoad Vloadunpackhd (mkZmm r) m (mkK 0) =>
      b ← s_gpr s (base m); n ← loose_size a b; x ← s_zmm s !! r;
      match x with
      | Low b' d _ =>
          assert_ (zreg r && mem_fits m && fits4 d 64 n && bool_decide (b' = b) && (disp m =? d + 64))
            (Some (set_s_zmm r (Ld b d) s))
      | _ => None
      end
  | CThree o (mkZmm d) (mkZmm x) y (mkK k) =>
      ex ← s_zmm s !! x; ey ← sym_src a y s;
      if bool_decide (is_Some (lane_op o)) then
        e ← sym_merge s false k d (Op o ex ey);
        assert_ (zreg d && zreg x) (Some (set_s_zmm d e s))
      else
        ed ← pd_old s o d; e ← sym_merge s true k d (Pd o ed ex ey);
        assert_ (bool_decide (o ∈ [Vaddpd; Vsubpd; Vmulpd; Vfmadd213pd]) && zreg d && zreg x)
          (Some (set_s_zmm d e s))
  | CShift o (mkZmm d) x n (mkK k) =>
      ex ← sym_src a x s; e ← sym_merge s false k d (Shift o ex n);
      assert_ (bool_decide (is_Some (lane_shift o)) && zreg d && (0 <=? n) && (n <? 256))
        (Some (set_s_zmm d e s))
  | CMovapd (mkZmm d) x (mkK 0) =>
      ex ← sym_src a x s; assert_ (zreg d) (Some (set_s_zmm d ex s))
  | CCmp Vcmppd (mkK d) (mkZmm x) y CmpLt (mkK k) =>
      ex ← s_zmm s !! x; ey ← sym_src a y s;
      e ← (if k =? 0 then Some (Less ex ey) else m ← s_kreg s !! k; Some (Both m (Less ex ey)));
      assert_ (mreg d && zreg x && mreg k) (Some (set_s_kreg d e s))
  | _ => None
  end
  end.

(** A mask register loaded from a known constant, or read. *)
Definition sym_insn (o : option Insn) (s : SymState) : option SymState :=
  i ← o; op ← decode_k (bytes i);
  match op with
  | KTo k g => n ← s_imm s g; Some (set_s_kreg k (Bits (wrap 16 n)) s)
  | KFrom g _ => Some (set_s_gpr g None None s)
  | KTest _ _ => Some s
  end.

Definition sym_line (a : Area) (l : Line) (s : SymState) : option SymState :=
  match l with
  | Vec c => sym_call a c s
  | KInsn o => sym_insn o s
  | Scal (Leaq x g) => Some (set_s_gpr g (Some (Sym x)) None s)
  | Scal (MovlImm n g) => Some (set_s_gpr g None (Some (wrap 32 n)) s)
  | Scal (Xorl g) => Some (set_s_gpr g None (Some 0) s)
  | Label _ | Text _ => Some s
  | _ => None
  end.

Fixpoint sym_lines (a : Area) (ls : list Line) (s : SymState) : option SymState :=
  match ls with
  | [] => Some s
  | l :: ls => match sym_line a l s with Some s => sym_lines a ls s | None => None end
  end.

(** ** The simulation *)

Section Areas.
Context `{Space} (symbol : string -> Z) (a : Area) (at_ : Loc -> Z).

(** A buffer of [n] bytes is aligned, inside the address space and mapped. *)
Definition placed (b : Loc) (n : Z) : Prop := buffer_at (at_ b) n.

Definition apart (b : Loc) (n : Z) : Prop :=
  at_ b + n <= at_ (writes a) \/ at_ (writes a) + room a <= at_ b.

(** A buffer at any multiple of 4. *)
Definition loosely_placed (b : Loc) (n : Z) : Prop :=
  at_ b mod 4 = 0 /\ 0 <= at_ b /\ at_ b + n < 2 ^ 64 /\ mapped_range (at_ b) n /\ apart b n.

(** The buffers are placed, and what is read is not what is written. *)
Definition area_ok : Prop :=
  placed (writes a) (room a) /\
  (forall b n, (b, n) ∈ reads a -> placed b n /\ apart b n) /\
  (forall x, at_ (Sym x) = symbol x) /\
  foldr (fun p ok => loosely_placed p.1 p.2 /\ ok) True (loose a).

End Areas.

Section Simulation.
Context `{Vpu} (symbol : string -> Z) (a : Area) (at_ : Loc -> Z) (st0 : State).

Abbreviation placed := (placed at_).
Abbreviation apart := (apart a at_).
Abbreviation loosely_placed := (loosely_placed a at_).
Abbreviation area_ok := (area_ok symbol a at_).

Definition outside (x : Z) : Prop := ~ (at_ (writes a) <= x < at_ (writes a) + room a).

(** A mask register that was written holds sixteen bits. *)
Definition is_old (e : Expr) : bool := match e with OldK _ => true | _ => false end.

(** What the symbolic state says of the concrete one. *)
Record simulates (s : SymState) (st : State) : Prop := {
  sim_zmm r e l : s_zmm s !! r = Some e -> 0 <= l < LANES ->
    zmm st r l = eval at_ st0 l e;
  sim_gpr g b : s_gpr s g = Some b -> gpr st g = at_ b;
  sim_imm g n : s_imm s g = Some n -> gpr st g = n;
  sim_kept g : g ∉ s_written s -> gpr st g = gpr st0 g;
  sim_kreg k e l : s_kreg s !! k = Some e -> 0 <= l < LANES ->
    Z.testbit (kreg st k) l = negb (eval at_ st0 l e =? 0);
  sim_mask k e : s_kreg s !! k = Some e -> is_old e = false -> uint 16 (kreg st k);
  sim_out d e l : s_out s !! d = Some e -> 0 <= l < LANES ->
    ram st (at_ (writes a) + d + 4 * l) = eval at_ st0 l e;
  sim_aligned d e : s_out s !! d = Some e -> fits d (room a) = true;
  sim_frame x :
    (forall d e, s_out s !! d = Some e -> in_vector (at_ (writes a) + d) x = false) ->
    ram st x = ram st0 x
}.

Lemma sim_outside s st x : simulates s st -> outside x -> ram st x = ram st0 x.
Proof.
  intros Hs Hx. apply (sim_frame s st Hs). intros d e Hd. pose proof (sim_aligned s st Hs d e Hd).
  unfold in_vector, outside, fits in *. lia.
Qed.

Lemma find_size_elem bs b n : find_size bs b = Some n -> (b, n) ∈ bs.
Proof.
  unfold find_size. destruct (List.find _ _) as [[b' n']|] eqn:E; [|done].
  intros [= <-]. apply find_some in E as [Hin Hb]. apply bool_decide_eq_true in Hb. cbn in *.
  subst. by apply list_elem_of_In.
Qed.

Lemma fits_address st m b n :
  gpr st (base m) = at_ b -> placed b n -> fits (disp m) n = true ->
  address st m = at_ b + disp m /\ vector_ok (address st m) = true.
Proof.
  intros Hg (Ha & H0 & H1 & Hm) Hf. unfold fits in Hf. unfold address. rewrite Hg.
  rewrite wrap_small by (unfold uint; lia). split; [done|].
  apply vector_mapped; [|apply (mapped_sub (at_ b) n); [done|lia..]].
  rewrite Z.add_mod, Ha by lia. assert (disp m mod 64 = 0) as -> by lia. done.
Qed.

Lemma sim_set s st r e v :
  simulates s st ->
  (forall l, 0 <= l < LANES -> v l = eval at_ st0 l e) ->
  simulates (set_s_zmm r e s) (set_zmm r v st).
Proof.
  intros Hs Hv. destruct Hs as [Hz Hg Hi Hkept Hk Hu Ho Ha Hf]. split; cbn; try done.
  intros r' e' l Hr Hl. destruct (decide (r = r')) as [->|].
  - rewrite fn_lookup_insert. rewrite lookup_insert_eq in Hr. injection Hr as <-. by apply Hv.
  - rewrite fn_lookup_insert_ne by done. rewrite lookup_insert_ne in Hr by done. by apply Hz.
Qed.

(** Reading a buffer at the entry's contents. *)
Lemma get_read s st b n d l :
  area_ok -> simulates s st -> (b, n) ∈ reads a -> fits d n = true -> 0 <= l < LANES ->
  get_vector (at_ b + d) st l = ram st0 (at_ b + d + 4 * l).
Proof.
  intros (_ & Hr & _) Hf Hb Hd Hl. destruct (Hr b n Hb) as [(?&?&?&?) Hap].
  unfold get_vector. apply (sim_outside s); [done|]. unfold outside, apart, fits, LANES in *. lia.
Qed.

Lemma in_vector_lane x l : 0 <= l < LANES -> in_vector x (x + 4 * l) = true.
Proof.
  unfold LANES. intros. unfold in_vector.
  replace (x + 4 * l - x) with (l * 4) by lia. rewrite Z.mod_mul by lia. lia.
Qed.

Lemma lane_back x l : (x + 4 * l - x) / 4 = l.
Proof. replace (x + 4 * l - x) with (l * 4) by lia. by apply Z.div_mul. Qed.

Lemma sim_store s st r d e :
  area_ok -> simulates s st -> s_zmm s !! r = Some e -> fits d (room a) = true ->
  simulates (set_s_out d e s) (set_vector (at_ (writes a) + d) (zmm st r) st).
Proof.
  intros Hok Hs Hr Hd. destruct Hs as [Hz Hg Hi Hkept Hk Hu Ho Ha Hf]. split; cbn; try done.
  - intros d' e' l Hd' Hl. destruct (decide (d = d')) as [->|Hne].
    + rewrite in_vector_lane, lane_back by done. rewrite lookup_insert_eq in Hd'.
      injection Hd' as <-. by apply Hz.
    + rewrite lookup_insert_ne in Hd' by done. pose proof (Ha d' e' Hd') as Hf'.
      assert (in_vector (at_ (writes a) + d) (at_ (writes a) + d' + 4 * l) = false) as ->.
      { unfold in_vector, fits, LANES in *.
        pose proof (Z.div_mod d 64). pose proof (Z.div_mod d' 64). lia. }
      by apply Ho.
  - intros d' e' Hd'. destruct (decide (d = d')) as [->|Hne]; [done|].
    rewrite lookup_insert_ne in Hd' by done. by eapply Ha.
  - intros x Hx. rewrite (Hx d e) by apply lookup_insert_eq. apply Hf. intros d' e' Hd'.
    destruct (decide (d = d')) as [->|Hne]; [apply (Hx d' e), lookup_insert_eq|].
    apply (Hx d' e'). by rewrite lookup_insert_ne.
Qed.

Lemma assert_some {A} b (o : option A) x : assert_ b o = Some x -> b = true /\ o = Some x.
Proof. by destruct b. Qed.

(** Inverts the binds and checks of a symbolic step. *)
Ltac invert_step H :=
  repeat match type of H with
  | mbind _ _ = Some _ => apply bind_Some in H as (? & ? & H)
  | assert_ _ _ = Some _ => apply assert_some in H as [? H]
  end;
  injection H as <-; rewrite ?andb_true_iff, ?bool_decide_eq_true in *; destruct_and?.

Lemma loose_elem b n : area_ok -> (b, n) ∈ loose a -> loosely_placed b n.
Proof.
  intros (_ & _ & _ & Hl). induction (loose a) as [|p ps IH]; [by intros ?%not_elem_of_nil|].
  destruct Hl as [Hp Hps]. intros [<-|Hin]%elem_of_cons; [done|by apply IH].
Qed.

Lemma loose_mapped b n x w :
  loosely_placed b n -> at_ b <= x -> x + w <= at_ b + n -> mapped_range x w.
Proof. intros (_ & _ & _ & Hm & _) ??. by apply (mapped_sub (at_ b) n). Qed.

(** Addresses in a loosely placed buffer. *)
Lemma loose_address st m b n w :
  gpr st (base m) = at_ b -> loosely_placed b n -> 0 <= disp m <= n -> disp m mod 4 = 0 -> 
  w = at_ b + disp m -> address st m = w /\ w mod 4 = 0.
Proof.
  intros Hg (Ha & H0 & H1 & _ & _) Hd Hd4 ->. unfold address. rewrite Hg.
  rewrite wrap_small by (unfold uint; lia). split; [done|].
  rewrite Z.add_mod, Ha, Hd4 by lia. done.
Qed.

Lemma get_loose s st b n x :
  area_ok -> simulates s st -> loosely_placed b n -> at_ b <= x < at_ b + n -> ram st x = ram st0 x.
Proof.
  intros Hok Hs (_ & _ & _ & _ & Hap) Hx. apply (sim_outside s); [done|].
  unfold outside, apart in *. lia.
Qed.

(** The two halves of an unaligned load make the whole. *)
Lemma merge_whole (m : Z -> Z) (old x l : Z) :
  0 <= l < LANES ->
  (if (x + 4 * l) / 64 =? (x + 64) / 64 then m (x + 4 * l)
   else if (x + 4 * l) / 64 =? x / 64 then m (x + 4 * l) else old) = m (x + 4 * l).
Proof.
  unfold LANES. intros Hl. case_bool; [done|]. case_bool; [done|].
  exfalso. Z.to_euclidean_division_equations. lia.
Qed.

Lemma sim_loads o r m s st s' :
  area_ok -> simulates s st -> sym_call a (CLoad o (mkZmm r) m k0) s = Some s' ->
  exists st', exec_call (CLoad o (mkZmm r) m k0) st = Some st' /\ simulates s' st'.
Proof.
  intros Hok Hs Hc. pose proof Hs as [Hz Hg _ _ _ _ _ _ _].
  destruct o; try discriminate Hc; cbn [sym_call is_store k0] in Hc.
  - apply bind_Some in Hc as (b & Hb & Hc). apply bind_Some in Hc as (n & Hn%find_size_elem & Hc).
    apply bind_Some in Hc as (x & Hx & Hc). invert_step Hc. rename select (fits4 _ _ _ = true) into Hfit.
    unfold fits4 in Hfit. pose proof (loose_elem b n Hok Hn) as Hp.
    destruct (loose_address st m b n _ (Hg _ _ Hb) Hp ltac:(lia) ltac:(lia) eq_refl) as [He Hm4].
    eexists. split.
    + apply exec_loads; [by left|done..|]. unfold sem_load. rewrite He.
      rewrite line_mapped; [reflexivity|done|apply (loose_mapped b n); [done|lia..]].
    + apply sim_set; [done|]. intros l Hl. cbn [eval]. unfold merge_line, get_vector.
      rewrite (get_loose s st b n) by (done || unfold LANES in Hl; lia). by rewrite (Hz _ _ _ Hx).
  - apply bind_Some in Hc as (b & Hb & Hc). apply bind_Some in Hc as (n & Hn%find_size_elem & Hc).
    apply bind_Some in Hc as (x & Hx & Hc). destruct x as [| | |b' d x| | | | | | | |]; try discriminate Hc.
    invert_step Hc. rename select (fits4 _ _ _ = true) into Hfit. rename select (b' = b) into Hbb. subst b'.
    unfold fits4 in Hfit. pose proof (loose_elem b n Hok Hn) as Hp.
    assert (Hd : disp m = d + 64) by lia.
    destruct (loose_address st m b n (at_ b + d + 64) (Hg _ _ Hb) Hp) as [He Hm4];
      [lia|Z.to_euclidean_division_equations; lia|lia|].
    eexists. split.
    + apply exec_loads; [by right; left|done..|]. unfold sem_load. rewrite He.
      rewrite line_mapped; [reflexivity|Z.to_euclidean_division_equations; lia|].
      apply (loose_mapped b n); [done|lia..].
    + apply sim_set; [done|]. intros l Hl. cbn [eval]. unfold merge_line, get_vector.
      replace (at_ b + d + 64 - 64) with (at_ b + d) by lia.
      rewrite (Hz _ _ _ Hx Hl). cbn [eval].
      rewrite (get_loose s st b n) by (done || unfold LANES in Hl; lia).
      by apply (merge_whole (ram st0)).
  - apply bind_Some in Hc as (b & Hb & Hc). apply bind_Some in Hc as (n & Hn%find_size_elem & Hc).
    invert_step Hc. rename select (fits4 _ _ _ = true) into Hfit.
    unfold fits4 in Hfit. pose proof (loose_elem b n Hok Hn) as Hp.
    destruct (loose_address st m b n _ (Hg _ _ Hb) Hp ltac:(lia) ltac:(lia) eq_refl) as [He Hm4].
    eexists. split.
    + apply exec_loads; [by right; right|done..|]. unfold sem_load. rewrite He.
      rewrite word_mapped; [reflexivity|done|apply (loose_mapped b n); [done|lia..]].
    + apply sim_set; [done|]. intros l Hl. cbn [eval].
      by rewrite (get_loose s st b n) by (done || lia).
Qed.

(** The second source. *)
Lemma sim_src x s st e :
  area_ok -> simulates s st -> sym_src a x s = Some e ->
  src_fits x = true /\
  exists v, sem_src (src_rm x) st = Some v /\ forall l, 0 <= l < LANES -> v l = eval at_ st0 l e.
Proof.
  intros Hok Hs Hx. pose proof Hok as (_ & Hr & _). destruct x as [[r]|m|]; cbn [sym_src src_fits] in *; [| |done].
  - apply assert_some in Hx as [Hzr Hx]. split; [done|]. eexists. split; [done|].
    intros l Hl. by apply (sim_zmm s st Hs).
  - apply bind_Some in Hx as (b & Hb & Hx). apply bind_Some in Hx as (n & Hn%find_size_elem & Hx).
    apply assert_some in Hx as [Hfit [= <-]]. apply andb_true_iff in Hfit as [Hmf Hfit].
    split; [done|]. destruct (Hr b n Hn) as [Hp _].
    destruct (fits_address st m b n (sim_gpr s st Hs _ _ Hb) Hp Hfit) as [He Hm].
    eexists. cbn [src_rm sem_src]. rewrite Hm, He. split; [done|].
    intros l Hl. by eapply get_read.
Qed.

(** The merged result of an operation by 32-bit lanes. *)
Lemma sim_merge32 s st k d e e' new :
  simulates s st -> sym_merge s false k d e = Some e' ->
  (forall l, 0 <= l < LANES -> new l = eval at_ st0 l e) ->
  mreg k = true /\ forall l, 0 <= l < LANES -> merge32 st k (zmm st d) new l = eval at_ st0 l e'.
Proof.
  intros Hs He Hn. unfold sym_merge in He. unfold merge32, mask_bit. destruct (k =? 0) eqn:E.
  - injection He as <-. split; [unfold mreg; lia|]. intros l Hl. by apply Hn.
  - apply bind_Some in He as (m & Hm & He). apply bind_Some in He as (old & Ho & He).
    apply assert_some in He as [Hk [= <-]]. split; [done|]. intros l Hl. cbn [eval orb].
    rewrite (sim_kreg s st Hs _ _ _ Hm Hl), (sim_zmm s st Hs _ _ _ Ho Hl), Hn by done.
    by destruct (eval at_ st0 l m =? 0).
Qed.

(** Two vectors that agree have the same 64-bit lanes. *)
Lemma lane64_agree v e j :
  (forall l, 0 <= l < LANES -> v l = eval at_ st0 l e) -> 0 <= j < 8 ->
  lane64 v j = eval64 at_ st0 j e.
Proof. intros Hv Hj. unfold eval64, lane64. by rewrite !Hv by (unfold LANES; lia). Qed.

Lemma sim_merge64 s st k d e e' f :
  simulates s st -> sym_merge s true k d e = Some e' ->
  (forall l, 0 <= l < LANES -> of_lanes64 f l = eval at_ st0 l e) ->
  mreg k = true /\ forall l, 0 <= l < LANES -> merge64 st k (zmm st d) f l = eval at_ st0 l e'.
Proof.
  intros Hs He Hn. unfold sym_merge in He. unfold merge64, mask_bit. destruct (k =? 0) eqn:E.
  - injection He as <-. split; [unfold mreg; lia|]. intros l Hl. by apply Hn.
  - apply bind_Some in He as (m & Hm & He). apply bind_Some in He as (old & Ho & He).
    apply assert_some in He as [Hk [= <-]]. split; [done|]. intros l Hl. cbn [eval orb].
    rewrite (sim_kreg s st Hs _ _ (l / 2) Hm) by (unfold LANES in *; Z.to_euclidean_division_equations; lia).
    rewrite (sim_zmm s st Hs _ _ _ Ho Hl), Hn by done. by destruct (eval at_ st0 (l / 2) m =? 0).
Qed.

Lemma of_lanes64_ext f g l :
  (forall j, 0 <= j < 8 -> f j = g j) -> 0 <= l < LANES -> of_lanes64 f l = of_lanes64 g l.
Proof.
  intros Hfg Hl. unfold of_lanes64.
  rewrite Hfg by (unfold LANES in *; Z.to_euclidean_division_equations; lia). done.
Qed.

(** The effect of a 64-bit operation, whose destination is read when
    [pd_old] says so. *)
Lemma sim_pd s st o d ed ex ey va vb f :
  simulates s st -> pd_op o = Some f -> pd_old s o d = Some ed ->
  (forall l, 0 <= l < LANES -> va l = eval at_ st0 l ex) ->
  (forall l, 0 <= l < LANES -> vb l = eval at_ st0 l ey) ->
  forall l, 0 <= l < LANES ->
    of_lanes64 (fun j => f (lane64 (zmm st d) j) (lane64 va j) (lane64 vb j)) l =
    eval at_ st0 l (Pd o ed ex ey).
Proof.
  intros Hs Hf Hd Ha Hb l Hl. cbn [eval]. rewrite Hf. apply of_lanes64_ext; [|done]. intros j Hj.
  rewrite (lane64_agree va ex j Ha Hj), (lane64_agree vb ey j Hb Hj). fold (eval64 at_ st0 j ex) (eval64 at_ st0 j ey).
  unfold pd_old in Hd. case_bool_decide as Ho.
  - rewrite (lane64_agree (zmm st d) ed j) by (done || intros; by apply (sim_zmm s st Hs)). done.
  - destruct o; try discriminate Hf; try done; by injection Hf as <-.
Qed.

Lemma sim_store_call c m r s st s' :
  area_ok -> simulates s st -> is_store c = Some (m, r) -> sym_call a c s = Some s' ->
  exists st', exec_call c st = Some st' /\ simulates s' st'.
Proof.
  intros Hok Hs Hc Hr. pose proof Hok as (Hw & _). unfold sym_call in Hr. rewrite Hc in Hr. invert_step Hr.
  destruct (fits_address st m (writes a) (room a)) as [He Hm]; [subst; by apply (sim_gpr s st Hs)|done..|].
  assert (exec_call c st = Some (set_vector (address st m) (zmm st r) st)) as ->.
  { destruct c as [| | |o m' [r'] [[| |]]|o m' [r']| | | | | | | | | |]; try discriminate Hc; cbn [is_store] in Hc.
    - destruct o; try discriminate Hc. injection Hc as -> ->. by apply exec_storepd.
    - destruct o; discriminate Hc.
    - destruct o; discriminate Hc.
    - apply assert_some in Hc as [Ho%bool_decide_eq_true [= -> ->]]. by apply exec_store. }
  eexists. split; [done|]. rewrite He. by apply sim_store.
Qed.

Lemma sim_set_kreg s st k e v :
  simulates s st -> (forall l, 0 <= l < LANES -> Z.testbit v l = negb (eval at_ st0 l e =? 0)) ->
  uint 16 v -> simulates (set_s_kreg k e s) (set_kreg k v st).
Proof.
  intros Hs Hv Hv16. destruct Hs as [Hz Hg Hi Hkept Hk Hu Ho Ha Hf]. split; cbn; try done.
  1: intros k' e' l Hr Hl; destruct (decide (k = k')) as [->|].
  3: intros k' e' Hr Ho'; destruct (decide (k = k')) as [->|].
  - rewrite fn_lookup_insert. rewrite lookup_insert_eq in Hr. injection Hr as <-. by apply Hv.
  - rewrite fn_lookup_insert_ne by done. rewrite lookup_insert_ne in Hr by done. by apply Hk.
  - rewrite fn_lookup_insert. done.
  - rewrite fn_lookup_insert_ne by done. rewrite lookup_insert_ne in Hr by done. by apply (Hu k' e').
Qed.

Lemma negb_b2z b : negb (Z.b2z b =? 0) = b.
Proof. by destruct b. Qed.

Lemma sim_cmp d x y k s st s' :
  area_ok -> simulates s st -> sym_call a (CCmp Vcmppd (mkK d) (mkZmm x) y CmpLt (mkK k)) s = Some s' ->
  exists st', exec_call (CCmp Vcmppd (mkK d) (mkZmm x) y CmpLt (mkK k)) st = Some st' /\ simulates s' st'.
Proof.
  intros Hok Hs Hc. cbn [sym_call is_store] in Hc.
  apply bind_Some in Hc as (ex & Hx & Hc). apply bind_Some in Hc as (ey & Hy & Hc).
  apply bind_Some in Hc as (e & He & Hc). invert_step Hc.
  destruct (sim_src y s st ey Hok Hs Hy) as (Hfy & v & Hv & Hve).
  eexists. split; [by apply exec_cmp|]. apply sim_set_kreg; [done| |by apply compare_mask_uint]. intros l Hl.
  assert (Hp : forall l, 0 <= l < LANES -> Z.testbit (compare_mask st k
      (fun j => f64_lt (lane64 (zmm st x) j) (lane64 v j))) l =
    mask_bit st k l && negb (eval at_ st0 l (Less ex ey) =? 0)).
  { intros i Hi. rewrite compare_mask_bit by (unfold LANES in *; lia). cbn [eval]. rewrite negb_b2z.
    destruct (i <? 8) eqn:Ei; cbn [andb]; [|by rewrite andb_false_r].
    fold (eval64 at_ st0 i ex) (eval64 at_ st0 i ey).
    rewrite (lane64_agree (zmm st x) ex) by (try lia; intros; by apply (sim_zmm s st Hs)).
    by rewrite (lane64_agree v ey) by (done || lia). }
  rewrite Hp by done. unfold mask_bit. destruct (k =? 0) eqn:E.
  - by injection He as <-.
  - apply bind_Some in He as (m & Hm & [= <-]). cbn [orb]. 
    rewrite (sim_kreg s st Hs _ _ _ Hm Hl). cbn [eval]. by rewrite (negb_b2z (negb _ && _)).
Qed.

Lemma sim_three o d x y k s st s' :
  area_ok -> simulates s st -> sym_call a (CThree o (mkZmm d) (mkZmm x) y (mkK k)) s = Some s' ->
  exists st', exec_call (CThree o (mkZmm d) (mkZmm x) y (mkK k)) st = Some st' /\ simulates s' st'.
Proof.
  intros Hok Hs Hc. cbn [sym_call is_store] in Hc.
  apply bind_Some in Hc as (ex & Hx & Hc). apply bind_Some in Hc as (ey & Hy & Hc).
  destruct (sim_src y s st ey Hok Hs Hy) as (Hfy & v & Hv & Hve).
  pose proof (fun l => sim_zmm s st Hs x ex l Hx) as Hxe.
  case_bool_decide as Hop.
  - destruct (lane_op o) as [op|] eqn:Eo; [|by apply is_Some_None in Hop].
    apply bind_Some in Hc as (e & He & Hc). invert_step Hc.
    destruct (sim_merge32 s st k d _ e (fun l => op (zmm st x l) (v l)) Hs He) as [Hk Hm].
    { intros l Hl. cbn [eval]. by rewrite Eo, Hxe, Hve. }
    eexists. split; [by apply (exec_op o op d x y k st v Eo)|]. by apply sim_set.
  - destruct (pd_op o) as [op|] eqn:Eo.
    2: { apply bind_Some in Hc as (? & _ & Hc). apply bind_Some in Hc as (? & _ & Hc). invert_step Hc.
      rename select (o ∈ _) into Hin. set_unfold in Hin. by destruct Hin as [->|[->|[->|[->|[]]]]]. }
    apply bind_Some in Hc as (ed & Hd & Hc). apply bind_Some in Hc as (e & He & Hc). invert_step Hc.
    destruct (sim_merge64 s st k d _ e _ Hs He (sim_pd s st o d ed ex ey _ v op Hs Eo Hd Hxe Hve)) as [Hk Hm].
    eexists. split; [by apply (exec_pd o op d x y k st v Eo)|]. by apply sim_set.
Qed.

Lemma sim_shift o d x n k s st s' :
  area_ok -> simulates s st -> sym_call a (CShift o (mkZmm d) x n (mkK k)) s = Some s' ->
  exists st', exec_call (CShift o (mkZmm d) x n (mkK k)) st = Some st' /\ simulates s' st'.
Proof.
  intros Hok Hs Hc. cbn [sym_call is_store] in Hc.
  apply bind_Some in Hc as (ex & Hx & Hc). apply bind_Some in Hc as (e & He & Hc). invert_step Hc.
  destruct (sim_src x s st ex Hok Hs Hx) as (Hfy & v & Hv & Hve).
  match goal with Ho : is_Some (lane_shift _) |- _ => rename Ho into Hop end.
  destruct (lane_shift o) as [op|] eqn:Eo; [|by apply is_Some_None in Hop].
  destruct (sim_merge32 s st k d _ e (fun l => op (v l) n) Hs He) as [Hk Hm].
  { intros l Hl. cbn [eval]. by rewrite Eo, Hve. }
  eexists. split; [apply (exec_shift o op d x n k st v Eo); try done; unfold uint; lia|]. by apply sim_set.
Qed.

Lemma sim_call c s st s' :
  area_ok -> simulates s st -> sym_call a c s = Some s' ->
  exists st', exec_call c st = Some st' /\ simulates s' st'.
Proof.
  intros Hok Hs Hc. pose proof Hok as (_ & Hr & _).
  destruct (is_store c) as [[m r]|] eqn:Est; [by eapply sim_store_call|].
  destruct c as [o [d] [x] y [k]|o [r] m [[| |]]| | | |o [d] [x] y p [k]|o [d] x n [k]| | |[r] m
                |[d] x [[| |]]| | | |]; try (unfold sym_call in Hc; rewrite Est in Hc; discriminate Hc);
    try (by destruct o); try (by apply sim_loads with (s := s)).
  - by apply sim_three with (s := s).
  - destruct o; try discriminate Hc. destruct p; try discriminate Hc. by apply sim_cmp with (s := s).
  - by apply sim_shift with (s := s).
  - cbn [sym_call is_store] in Hc. invert_step Hc. destruct (Hr x x0) as [Hp _]; [by apply find_size_elem|].
    destruct (fits_address st m x x0) as [He Hm]; [by apply (sim_gpr s st Hs)|done..|].
    eexists. split; [by apply exec_load|]. apply sim_set; [done|]. intros l Hl. rewrite He.
    eapply get_read; eauto using find_size_elem.
  - cbn [sym_call is_store] in Hc. apply bind_Some in Hc as (ex & Hx & Hc). invert_step Hc.
    destruct (sim_src x s st ex Hok Hs Hx) as (Hfy & v & Hv & Hve).
    eexists. split; [by apply (exec_move _ _ _ v)|]. by apply sim_set.
Qed.

Lemma sim_set_gpr s st g b n v :
  simulates s st -> (forall b', b = Some b' -> v = at_ b') -> (forall n', n = Some n' -> v = n') ->
  simulates (set_s_gpr g b n s) (set_gpr g v st).
Proof.
  intros Hs Hb Hn. destruct Hs as [Hz Hg Hi Hkept Hk Hu Ho Ha Hf].
  split; cbn [set_s_gpr set_gpr s_gpr s_imm s_written gpr]; try done.
  3: { intros g' [Hne Hin]%not_elem_of_cons. rewrite fn_lookup_insert_ne by congruence. by apply Hkept. }
  all: intros g' x Hx;
    (destruct (decide (g = g')) as [->|];
      [rewrite fn_lookup_insert in Hx; rewrite fn_lookup_insert; auto
      |rewrite fn_lookup_insert_ne in Hx by done; rewrite fn_lookup_insert_ne by done; auto]).
Qed.

Lemma sim_insn o s st s' :
  simulates s st -> sym_insn o s = Some s' -> exists st', exec_insn o st = Some st' /\ simulates s' st'.
Proof.
  intros Hs Ho. unfold sym_insn in Ho. apply bind_Some in Ho as (i & -> & Ho).
  apply bind_Some in Ho as (op & Hd & Ho). exists (sem_k op st). split; [by apply exec_mask|].
  destruct op as [k g|g k|x y]; cbn [sem_k].
  - apply bind_Some in Ho as (n & Hn & [= <-]). apply sim_set_kreg; [done| |apply wrap_uint; lia]. intros l Hl.
    rewrite (sim_imm s st Hs _ _ Hn). cbn [eval]. by rewrite negb_b2z.
  - injection Ho as <-. by apply sim_set_gpr.
  - injection Ho as <-. by destruct Hs; split.
Qed.

(** The simulation of a kernel: if the symbolic run succeeds, so does every
    concrete one, without a fault, and ends in a state the symbolic result
    describes. *)
Lemma sim_lines ls s st s' :
  area_ok -> simulates s st -> sym_lines a ls s = Some s' ->
  exists st', exec_lines symbol ls st = Some st' /\ simulates s' st'.
Proof.
  intros Hok. revert s st. induction ls as [|l ls IH]; intros s st Hs Hl; cbn in Hl.
  { injection Hl as <-. by exists st. }
  destruct (sym_line a l s) as [s1|] eqn:E; [|done].
  assert (exists st1, exec_line symbol l st = Some st1 /\ simulates s1 st1) as (st1 & He & Hs1).
  { destruct l as [c|o|[]| | |]; try discriminate E; cbn [sym_line exec_line exec_scalar] in E |- *;
      try (injection E as <-; eexists; split; [done|]; try done; first [apply sim_set_gpr|idtac]; try done).
    - by apply sim_call with (s := s).
    - by apply sim_insn with (s := s).
    - intros b' [= <-]. symmetry. apply Hok.
    - intros n' [= <-]. done.
    - assert (Hsg : simulates (set_s_gpr r None (Some 0) s) (set_gpr r 0 st))
        by (apply sim_set_gpr; [done..|intros n' [= <-]; done]).
      by destruct Hsg; split. }
  destruct (IH s1 st1 Hs1 Hl) as (st' & H1 & H2). exists st'. cbn. by rewrite He.
Qed.

(** The arguments of the call. *)
Definition arguments (gs : list Gpr) : Prop := forall g, g ∈ gs -> gpr st0 g = at_ (Arg g).

Lemma sim_entry_masked gs rs ks : arguments gs -> simulates (entry_masked gs rs ks) st0.
Proof.
  intros Hg. split; cbn; try done.
  - intros r e l Hr _. apply elem_of_list_to_map_2, list_elem_of_fmap in Hr as (r' & [= -> ->] & _).
    done.
  - intros g b. case_bool_decide; [intros [= <-]; by apply Hg|done].
  - intros k e l Hk _. apply elem_of_list_to_map_2, list_elem_of_fmap in Hk as (k' & [= -> ->] & _).
    cbn [eval]. by rewrite negb_b2z.
  - intros k e Hk. apply elem_of_list_to_map_2, list_elem_of_fmap in Hk as (k' & [= -> ->] & _). done.
Qed.

Lemma sim_entry gs rs : arguments gs -> simulates (entry gs rs) st0.
Proof. apply sim_entry_masked. Qed.

(** A symbolic state in which the argument registers are untouched. *)
Definition keeps_arguments (gs : list Gpr) (s : SymState) : bool :=
  forallb (fun g => bool_decide (s_gpr s g = Some (Arg g))) gs.

Lemma sim_arguments gs s st : simulates s st -> keeps_arguments gs s = true ->
  forall g, g ∈ gs -> gpr st g = at_ (Arg g).
Proof.
  intros Hs Hk g Hg%list_elem_of_In. unfold keeps_arguments in Hk. rewrite forallb_forall in Hk.
  apply (sim_gpr _ _ Hs). by specialize (Hk g Hg) as ?%bool_decide_eq_true.
Qed.

(** A segment of a kernel, run from any state with the arguments in place. *)
Lemma segment_masked gs rs ks ls s :
  area_ok -> arguments gs -> sym_lines a ls (entry_masked gs rs ks) = Some s ->
  exists st', exec_lines symbol ls st0 = Some st' /\ simulates s st'.
Proof. intros. eapply sim_lines; eauto using sim_entry_masked. Qed.

Lemma segment gs rs ls s :
  area_ok -> arguments gs -> sym_lines a ls (entry gs rs) = Some s ->
  exists st', exec_lines symbol ls st0 = Some st' /\ simulates s st'.
Proof. apply segment_masked. Qed.
End Simulation.

(** ** Whole functions *)

(** The lines of a function: its head, its body and [ret]. *)
Definition called (body : list Line) (name sig : string) : list Line :=
  function name sig ++ body ++ end_function name.

(** A function whose body runs without control flow returns. *)
Lemma called_returns `{Vpu} symbol st body name sig st' :
  exec_lines symbol body st = Some st' ->
  ends symbol (called body name sig) 0 st (Returned st').
Proof.
  intros He. exists (length body + 2)%nat. replace (length body + 2)%nat with (1 + (length body + 1))%nat by lia.
  cbn [Nat.add run]. unfold called, function. cbn [app].
  unfold step at 1. cbn [lookup list_lookup mbind option_bind].
  change (run symbol (length body + 1) (?t :: body ++ ?e) 1 st) with
    (run symbol (length body + 1) ([t] ++ body ++ e) (length [t]) st).
  rewrite (run_lines symbol 1 [_] body (end_function name) st st' He).
  cbn [run]. unfold step. rewrite app_assoc, lookup_app_r by (rewrite length_app; cbn; lia).
  rewrite length_app, Nat.sub_diag. done.
Qed.
