(* ===== verification/Kernels.v ===== *)
(** The codec kernels are right: every unpack, pack and transform kernel the
    generator writes, at every width, run on the machine, computes the layout
    of Layout.v.  Each group of lines is run symbolically once; the
    simulation gives the rest. *)

From stdpp Require Import functions.
From S2P Require Import Prelude Bytes Mvex MvexDis MvexCalls Codegen Layout Fpu Vpu VpuCalls Symbolic.

Local Open Scope Z_scope.

(** ** What the kernels leave in memory, symbolically *)

Definition word_expr (w : Z) : Expr := Ld (Arg Rsi) (64 * w).

(** Value [v] of the words [word]: the scalar model's expression, with the
    mask register. *)
Definition value_of (word : Z -> Expr) (bits v : Z) : Expr :=
  let '(w, s) := place bits v in
  let lo := if s =? 0 then word w else Shift Vpsrld (word w) s in
  let e := if 32 <? s + bits then Op Vpord lo (Shift Vpslld (word (w + 1)) (32 - s)) else lo in
  if s + bits =? 32 then e else Op Vpandd e (Old 30).

Definition value_expr : Z -> Z -> Expr := value_of word_expr.

(** The running sum over the [n] values from [v0]. *)
Fixpoint sum_expr (bits v0 : Z) (n : nat) : Expr :=
  match n with
  | O => Old 27
  | S n => Op Vpaddd (sum_expr bits v0 n) (value_expr bits (v0 + Z.of_nat n))
  end.

(** The vector a group stores for its value [i]. *)
Definition out_expr (bits : Z) (mode : Mode) (start i : Z) : Expr :=
  match mode with
  | Plain => value_expr bits (start + i)
  | For => Op Vpaddd (Old 26) (value_expr bits (start + i))
  | Delta => sum_expr bits start (S (Z.to_nat i))
  end.

(** What a group needs: the packed words and the output. *)
Definition group_area (bits : Z) : Area := mkArea [(Arg Rsi, 128 * bits)] (Arg Rdi) 4096 [].

(** The stored vectors are exactly these, and the registers that carry over
    from group to group are as they should be. *)
Definition only_stores (s : SymState) (ds : list Z) : bool :=
  forallb (fun p => existsb (Z.eqb p.1) ds) (map_to_list (s_out s)).

Definition stores_exactly (s : SymState) (ds : list (Z * Expr)) : bool :=
  forallb (fun p => bool_decide (s_out s !! p.1 = Some p.2)) ds && only_stores s (fst <$> ds).

Definition keeps (s : SymState) (r : Z) (e : Expr) : bool := bool_decide (s_zmm s !! r = Some e).

Definition group_state (bits : Z) (mode : Mode) (start : Z) : option (list Line * SymState) :=
  ls ← unpack_group bits mode start;
  s ← sym_lines (group_area bits) ls (entry args [26; 27; 30]);
  Some (ls, s).

Definition group_ok (bits : Z) (mode : Mode) (start : Z) : bool :=
  match group_state bits mode start with
  | Some (_, s) =>
      keeps_arguments args s
      && stores_exactly s ((fun i => (64 * (start + i), out_expr bits mode start i)) <$> range 0 8)
      && keeps s 26 (Old 26) && keeps s 30 (Old 30)
      && keeps s 27 (if bool_decide (mode = Delta) then sum_expr bits start 8 else Old 27)
  | None => false
  end.

(** Every group of every unpack kernel. *)
Lemma groups_ok :
  forallb (fun mode => forallb (fun bits => forallb (fun g => group_ok bits mode (GROUP * g))
    (range 0 8)) (range 1 33)) [Plain; For; Delta] = true.
Proof. vm_cast_no_check (eq_refl true). Qed.

Lemma in_range x a b : List.In x (range a b) <-> a <= x < b.
Proof. rewrite <- list_elem_of_In. unfold range. rewrite elem_of_seqZ. lia. Qed.

Lemma range_at a b n x : range a b !! n = Some x -> x = a + Z.of_nat n /\ a <= x < b.
Proof. unfold range. intros [-> Hn]%lookup_seqZ. lia. Qed.

Lemma range_snoc n : 0 <= n -> range 0 (n + 1) = range 0 n ++ [n].
Proof.
  intros Hn. unfold range. rewrite !Z.sub_0_r. rewrite (seqZ_app 0 n 1) by lia.
  by rewrite Z.add_0_l.
Qed.

Lemma group_ok_at bits mode g :
  1 <= bits <= 32 -> 0 <= g < 8 -> group_ok bits mode (GROUP * g) = true.
Proof.
  intros Hb Hg. pose proof groups_ok as H. rewrite forallb_forall in H.
  specialize (H mode ltac:(destruct mode; cbn; tauto)). rewrite forallb_forall in H.
  specialize (H bits ltac:(by apply in_range; lia)). rewrite forallb_forall in H.
  apply H, in_range. lia.
Qed.

(** A check of the symbolic result of a segment. *)
Definition checked (a : Area) (ls : list Line) (s0 : SymState) (P : SymState -> bool) : bool :=
  match sym_lines a ls s0 with Some s => P s | None => false end.

Lemma checked_inv a ls s0 P : checked a ls s0 P = true -> exists s, sym_lines a ls s0 = Some s /\ P s = true.
Proof. unfold checked. destruct (sym_lines a ls s0) as [s|]; [by exists s|done]. Qed.

(** Lines collected from a list of parts, each of which runs and takes an
    invariant one step further. *)
Lemma collect_runs_from `{Vpu} symbol {A} (f : A -> option (list Line)) (P : nat -> State -> Prop) l :
  forall k, (forall n a st, l !! n = Some a -> P (k + n)%nat st ->
    exists ls st', f a = Some ls /\ exec_lines symbol ls st = Some st' /\ P (k + S n)%nat st') ->
  forall st, P k st -> exists ls st', collect f l = Some ls /\ exec_lines symbol ls st = Some st' /\
    P (k + length l)%nat st'.
Proof.
  induction l as [|a l IH]; intros k Hf st Hi.
  { exists [], st. by rewrite Nat.add_0_r. }
  destruct (Hf 0%nat a st eq_refl) as (ls & st1 & Hls & He & Hi1); [by rewrite Nat.add_0_r|].
  rewrite Nat.add_1_r in Hi1.
  destruct (IH (S k)) with (st := st1) as (ls' & st' & Hls' & He' & Hi'); [|done|].
  { intros n a' st2 Hn Hi2. rewrite Nat.add_succ_comm in Hi2 |- *. by apply (Hf (S n)). }
  exists (ls ++ ls'), st'. cbn [collect length]. rewrite Hls. cbn [mbind option_bind]. rewrite Hls'.
  cbn [mbind option_bind]. rewrite exec_lines_app, He, <- Nat.add_succ_comm. by split_and!.
Qed.

Lemma collect_runs `{Vpu} symbol {A} (f : A -> option (list Line)) (P : nat -> State -> Prop) l :
  (forall n a st, l !! n = Some a -> P n st ->
    exists ls st', f a = Some ls /\ exec_lines symbol ls st = Some st' /\ P (S n) st') ->
  forall st, P O st -> exists ls st', collect f l = Some ls /\ exec_lines symbol ls st = Some st' /\
    P (length l) st'.
Proof. intros Hf. apply (collect_runs_from symbol f P l 0). exact Hf. Qed.

(** ** Reading a symbolic result *)

Section Results.
Context `{Vpu} (symbol : string -> Z) (a : Area) (at_ : Loc -> Z).

Lemma stored_at s ds st0 st d e l :
  simulates a at_ st0 s st -> stores_exactly s ds = true -> (d, e) ∈ ds -> 0 <= l < LANES ->
  ram st (at_ (writes a) + d + 4 * l) = eval at_ st0 l e.
Proof.
  intros Hs Hx Hd Hl. unfold stores_exactly in Hx. rewrite andb_true_iff, !forallb_forall in Hx.
  destruct Hx as [Hx _]. eapply sim_out; [done| |done].
  specialize (Hx (d, e)). cbn in Hx. apply bool_decide_eq_true in Hx; [done|].
  by apply list_elem_of_In.
Qed.

Lemma stored_frame s ds st0 st x :
  simulates a at_ st0 s st -> only_stores s ds = true ->
  (forall d, d ∈ ds -> in_vector (at_ (writes a) + d) x = false) -> ram st x = ram st0 x.
Proof.
  intros Hs Hx Hd. unfold only_stores in Hx. rewrite forallb_forall in Hx.
  eapply sim_frame; [done|]. intros d e He.
  apply elem_of_map_to_list, list_elem_of_In in He. specialize (Hx (d, e) He).
  apply existsb_exists in Hx as (d' & Hin & Heq). cbn in Heq.
  apply Z.eqb_eq in Heq as ->. apply (Hd d'). by apply list_elem_of_In.
Qed.

Lemma exactly_only s ds : stores_exactly s ds = true -> only_stores s (fst <$> ds) = true.
Proof. intros [_ ?]%andb_true_iff. done. Qed.

Lemma kept_at s st0 st r e l :
  simulates a at_ st0 s st -> keeps s r e = true -> 0 <= l < LANES ->
  zmm st r l = eval at_ st0 l e.
Proof. intros Hs Hk Hl. apply bool_decide_eq_true in Hk. by eapply sim_zmm. Qed.
End Results.

(** ** The unpack kernels *)

(** Where the buffers of a call are. *)
Definition locate (symbol : string -> Z) (st : State) (b : Loc) : Z :=
  match b with Arg g => gpr st g | Sym x => symbol x end.

(** The memory holds 32-bit words. *)
Definition words_ok (st : State) : Prop := forall x, x mod 4 = 0 -> uint 32 (ram st x).

(** The words of lane [l] of the buffer at [p]. *)
Definition lane_words (m : Z -> Z) (p l w : Z) : Z := m (p + 64 * w + 4 * l).

Lemma lane_aligned p w l : p mod 64 = 0 -> (p + 64 * w + 4 * l) mod 4 = 0.
Proof. intros. Z.to_euclidean_division_equations. lia. Qed.

(** What an unpack kernel computes for position [v], from the lane's base
    and packed words. *)
Definition unpacked (bits : Z) (mode : Mode) (b : Z) (W : Z -> Z) (v : Z) : Z :=
  match mode with
  | Plain => lane_value bits W v
  | For => wrap 32 (b + lane_value bits W v)
  | Delta => running b (lane_value bits W) (S (Z.to_nat v))
  end.

(** The buffers of an unpack kernel. *)
Definition unpack_area (bits : Z) (mode : Mode) : Area :=
  mkArea ((Arg Rsi, 128 * bits)
          :: (if bool_decide (mode = Plain) then [] else [(Arg Rdx, 64)])
          ++ (if bits <? 32 then [(Sym (mask_name bits), 64)] else [])) (Arg Rdi) 4096 [].

(** The constants of [mask_constants] are in memory. *)
Definition constants_loaded (symbol : string -> Z) (st : State) (bits : Z) : Prop :=
  forall name ws i x, (name, ws) ∈ mask_rows [bits] -> ws !! i = Some x ->
    ram st (symbol name + 4 * Z.of_nat i) = x.

Lemma constants_mask symbol st bits l :
  constants_loaded symbol st bits -> 1 <= bits < 32 -> 0 <= l < LANES ->
  ram st (symbol (mask_name bits) + 4 * l) = low_mask bits.
Proof.
  unfold LANES. intros Hc Hb Hl. replace l with (Z.of_nat (Z.to_nat l)) by lia.
  rewrite low_mask_ones, <- mask_value_ones by lia.
  eapply Hc; [|apply lookup_replicate_2 with (n := 16%nat); lia].
  unfold mask_rows. cbn. rewrite (proj2 (Z.eqb_neq bits 32)) by lia. cbn. by left.
Qed.

(** A value depends on the words it is in. *)
Lemma lane_value_words bits W W' v n :
  1 <= bits <= 32 -> 0 <= v -> bits * (v + 1) <= 32 * n -> (forall w, 0 <= w < n -> W w = W' w) ->
  lane_value bits W v = lane_value bits W' v.
Proof.
  intros Hb Hv Hn HW. unfold lane_value. destruct (place_spec bits v) as (_&_&He&Hs).
  destruct (place bits v) as [w s]. cbn [fst snd] in He, Hs.
  assert (0 <= bits * v) by nia.
  rewrite HW by lia. case_bool; [|done]. by rewrite HW by lia.
Qed.

Lemma lane_value_ext bits W W' v :
  1 <= bits <= 32 -> 0 <= v < 64 -> (forall w, 0 <= w < 2 * bits -> W w = W' w) ->
  lane_value bits W v = lane_value bits W' v.
Proof. intros Hb Hv. apply lane_value_words; [lia..|nia]. Qed.

(** The expression of a value evaluates to the value, when those of the words
    evaluate to the words. *)
Lemma eval_value_of `{Fpu} at_ st word W bits l v n :
  1 <= bits <= 32 -> 0 <= v -> bits * (v + 1) <= 32 * n ->
  (bits < 32 -> zmm st 30 l = low_mask bits) ->
  (forall w, 0 <= w < n -> eval at_ st l (word w) = W w /\ uint 32 (W w)) ->
  eval at_ st l (value_of word bits v) = lane_value bits W v.
Proof.
  intros Hb Hv Hn Hm HW.
  unfold value_of, lane_value. destruct (place_spec bits v) as (_&_&He&Hs).
  destruct (place bits v) as [w s]. cbn [fst snd] in He, Hs. assert (0 <= bits * v) by nia.
  destruct (HW w) as [Hw Hu]; [lia|].
  set (lo := if s =? 0 then word w else _).
  assert (Hlo : eval at_ st l lo = W w ≫ s).
  { subst lo. destruct (s =? 0) eqn:E; cbn [eval lane_shift]; rewrite Hw.
    - assert (s = 0) as -> by lia. by rewrite Z.shiftr_0_r.
    - by rewrite (proj2 (Z.ltb_lt s 32)) by lia. }
  set (e := if 32 <? s + bits then _ else lo).
  assert (He' : eval at_ st l e =
    if 32 <? s + bits then Z.lor (W w ≫ s) (wrap 32 (W (w + 1) ≪ (32 - s))) else W w ≫ s).
  { subst e. case_bool; [|done]. cbn [eval lane_op lane_shift].
    rewrite Hlo, (proj1 (HW (w + 1) ltac:(lia))). by rewrite (proj2 (Z.ltb_lt (32 - s) 32)) by lia. }
  destruct (s + bits =? 32) eqn:E.
  - rewrite He'. rewrite (proj2 (Z.ltb_ge 32 (s + bits))) by lia.
    rewrite low_mask_ones by lia. apply Z.bits_inj'. intros i Hi.
    rewrite Z.land_spec, Z.shiftr_spec, Z.testbit_ones by lia.
    destruct (i <? bits) eqn:En; [by rewrite (proj2 (Z.leb_le 0 i)), andb_true_r by lia|].
    by rewrite (uint_testbit 32 (W w)) by (done || lia).
  - assert (bits < 32) by (destruct (decide (bits = 32)) as [->|]; lia).
    cbn [eval lane_op]. by rewrite He', Hm.
Qed.

Lemma eval_value `{Fpu} at_ st bits l v :
  1 <= bits <= 32 -> 0 <= v < 64 -> (bits < 32 -> zmm st 30 l = low_mask bits) ->
  (forall w, 0 <= w < 2 * bits -> uint 32 (lane_words (ram st) (at_ (Arg Rsi)) l w)) ->
  eval at_ st l (value_expr bits v) = lane_value bits (lane_words (ram st) (at_ (Arg Rsi)) l) v.
Proof. intros Hb Hv Hm HW. apply eval_value_of with (n := 2 * bits); [lia..|nia|done|auto]. Qed.

(** The running sum over a group continues the one before it. *)
Lemma eval_sum `{Fpu} at_ st bits l b U v0 n :
  0 <= v0 -> (forall v, v0 <= v < v0 + Z.of_nat n -> eval at_ st l (value_expr bits v) = U v) ->
  zmm st 27 l = running b U (Z.to_nat v0) ->
  eval at_ st l (sum_expr bits v0 n) = running b U (Z.to_nat v0 + n).
Proof.
  intros Hv0 HU Hacc. induction n as [|n IH].
  - by rewrite Nat.add_0_r.
  - cbn [sum_expr eval lane_op]. rewrite IH by (intros; apply HU; lia).
    rewrite Nat.add_succ_r. cbn [running]. rewrite HU by lia. do 3 f_equal. lia.
Qed.

(** ** Constants *)

Section Constants.
Context `{Vpu} (symbol : string -> Z) (bits : Z) (st0 : State) (Hbits : 1 <= bits <= 32).

Abbreviation at0 := (locate symbol st0).

(** A load of a whole aligned vector from a placed buffer. *)
Lemma exec_zload st r g :
  zreg r = true -> negb (gpr_n g .& 7 =? 4)%phi = true ->
  buffer_at (gpr st g) 64 ->
  exec_line symbol (zload r (mem g 0)) st = Some (set_zmm r (get_vector (gpr st g) st) st).
Proof.
  intros Hr Hg Ha. pose proof Ha as (_ & H0 & H1 & _).
  assert (Haddr : address st (mem g 0) = gpr st g).
  { unfold address. cbn. rewrite Z.add_0_r. apply wrap_small. unfold uint. lia. }
  unfold zload, exec_line.
  rewrite exec_load; [by rewrite Haddr|done| |rewrite Haddr; by apply (buffer_vector _ 64)].
  unfold mem_fits. cbn. by rewrite Hg.
Qed.

(** A vector constant is loaded through [rax], and nothing else changes. *)
Lemma exec_constant st name r :
  zreg r = true -> buffer_at (symbol name) 64 ->
  exists st', exec_lines symbol [Scal (Leaq name Rax); zload r (mem Rax 0)] st = Some st' /\
    ram st' = ram st /\ (forall g, g <> Rax -> gpr st' g = gpr st g) /\
    (forall r', r' <> r -> zmm st' r' = zmm st r') /\
    (forall l, zmm st' r l = ram st (symbol name + 4 * l)).
Proof.
  intros Hr Ha. set (st1 := set_gpr Rax (symbol name) st).
  assert (Hrax : gpr st1 Rax = symbol name) by (subst st1; cbn; by rewrite fn_lookup_insert).
  pose proof (exec_zload st1 r Rax) as Hx. rewrite Hrax in Hx.
  exists (set_zmm r (get_vector (symbol name) st1) st1). split_and!; [|done| | |].
  - cbn [exec_lines exec_line exec_scalar mbind option_bind]. fold st1. unfold exec_line in Hx |- *.
    by rewrite Hx.
  - intros g Hg. cbn. by rewrite fn_lookup_insert_ne.
  - intros r' Hr'. cbn. by rewrite fn_lookup_insert_ne.
  - intros l. cbn. by rewrite fn_lookup_insert.
Qed.

(** The mask constant is loaded into its register, and nothing else changes. *)
Lemma prologue_mask st :
  ram st = ram st0 -> gpr st = gpr st0 ->
  constants_loaded symbol st0 bits ->
  (bits < 32 -> placed at0 (Sym (mask_name bits)) 64) ->
  exists st', exec_lines symbol (load_mask bits) st = Some st' /\ ram st' = ram st0 /\
    arguments at0 st' args /\ (forall r, r <> 30 -> zmm st' r = zmm st r) /\
    (forall l, bits < 32 -> 0 <= l < LANES -> zmm st' 30 l = low_mask bits).
Proof.
  intros Hm Hg Hc Hp. unfold load_mask, arguments. case_bool.
  - destruct (exec_constant st (mask_name bits) 30 eq_refl (Hp E)) as (st' & He & Hm' & Hg' & Hz & H30).
    exists st'. split_and!; [done|congruence| |done|].
    + intros g Hin. rewrite Hg' by (intros ->; set_solver). by rewrite Hg.
    + intros l _ Hl. rewrite H30, Hm. apply constants_mask; [done|lia|done].
  - exists st. rewrite Hg. split_and!; try done. lia.
Qed.

End Constants.

Section UnpackRun.
Context `{Vpu} (symbol : string -> Z) (bits : Z) (mode : Mode) (st0 : State).
Context (Hbits : 1 <= bits <= 32) (Hram : words_ok st0).

Abbreviation at0 := (locate symbol st0).

Context (Harea : area_ok symbol (unpack_area bits mode) at0).

(** The words of a lane at the entry, its base, and its values. *)
Definition entry_words (l : Z) : Z -> Z := lane_words (ram st0) (gpr st0 Rsi) l.
Definition entry_base (l : Z) : Z := ram st0 (gpr st0 Rdx + 4 * l).
Definition entry_result (l v : Z) : Z := unpacked bits mode (entry_base l) (entry_words l) v.

(** After [g] groups: the arguments and constants are in their registers,
    the first [8 * g] positions are in the output, and nothing outside the
    output has changed. *)
Record unpack_inv (g : Z) (st : State) : Prop := {
  inv_args : arguments at0 st args;
  inv_mask l : bits < 32 -> 0 <= l < LANES -> zmm st 30 l = low_mask bits;
  inv_base l : mode = For -> 0 <= l < LANES -> zmm st 26 l = entry_base l;
  inv_sum l : mode = Delta -> 0 <= l < LANES ->
    zmm st 27 l = running (entry_base l) (lane_value bits (entry_words l)) (Z.to_nat (8 * g));
  inv_out v l : 0 <= v < 8 * g -> 0 <= l < LANES ->
    ram st (gpr st0 Rdi + 64 * v + 4 * l) = entry_result l v;
  inv_frame x : ~ (gpr st0 Rdi <= x < gpr st0 Rdi + 4096) -> ram st x = ram st0 x
}.

Lemma group_area_ok : area_ok symbol (group_area bits) at0.
Proof.
  destruct Harea as (Hw & Hr & Hs). split_and!; [done| |apply Hs|done].
  intros b n Hb. apply (Hr b n). cbn in Hb. apply list_elem_of_singleton in Hb as [= -> ->].
  by left.
Qed.

(** In a state of the invariant a value's expression is the value. *)
Lemma inv_value g st v l :
  unpack_inv g st -> 0 <= v < 64 -> 0 <= l < LANES ->
  eval at0 st l (value_expr bits v) = lane_value bits (entry_words l) v.
Proof.
  intros Hi Hv Hl.
  assert (HW : forall w, 0 <= w < 2 * bits ->
    lane_words (ram st) (gpr st0 Rsi) l w = entry_words l w).
  { intros w Hw. apply (inv_frame g st Hi).
    destruct group_area_ok as (_ & Hr & _). destruct (Hr (Arg Rsi) (128 * bits)) as [_ Ha]; [by left|].
    unfold apart in Ha. cbn in Ha |- *. unfold LANES in Hl. lia. }
  rewrite eval_value; [|done..| |].
  - by apply lane_value_ext.
  - intros. by apply (inv_mask g st Hi).
  - intros w Hw. cbn [locate]. rewrite HW by done. apply Hram.
    destruct group_area_ok as (_ & Hr & _). destruct (Hr (Arg Rsi) (128 * bits)) as [[Ha _] _]; [by left|].
    cbn [locate] in Ha. by apply lane_aligned.
Qed.

Lemma group_step g st :
  unpack_inv g st -> 0 <= g < 8 ->
  exists ls st', unpack_group bits mode (GROUP * g) = Some ls /\
    exec_lines symbol ls st = Some st' /\ unpack_inv (g + 1) st'.
Proof.
  intros Hi Hg. pose proof (group_ok_at bits mode g Hbits Hg) as Hk. unfold group_ok in Hk.
  destruct (group_state bits mode (GROUP * g)) as [[ls s]|] eqn:E; [|done].
  unfold group_state in E. apply bind_Some in E as (ls' & Hls & E).
  apply bind_Some in E as (s' & Hsym & [= -> ->]).
  rewrite !andb_true_iff in Hk. destruct Hk as ((((Hka & Hst) & Hk26) & Hk30) & Hk27).
  destruct (segment symbol (group_area bits) at0 st _ _ ls s group_area_ok (inv_args g st Hi) Hsym)
    as (st' & He & Hs).
  exists ls, st'. split_and!; [done..|]. change (GROUP * g) with (8 * g) in *.
  assert (Hval : forall v l, 0 <= v < 64 -> 0 <= l < LANES ->
    eval at0 st l (value_expr bits v) = lane_value bits (entry_words l) v)
    by (intros; by apply (inv_value g)).
  assert (Hsum : forall n l, (n <= 8)%nat -> mode = Delta -> 0 <= l < LANES ->
    eval at0 st l (sum_expr bits (8 * g) n) =
    running (entry_base l) (lane_value bits (entry_words l)) (Z.to_nat (8 * g) + n)).
  { intros n l Hn Hm Hl. apply eval_sum; [lia| |by apply (inv_sum g st Hi)].
    intros v Hv. apply Hval; [lia|done]. }
  split.
  - intros r Hr. by apply (sim_arguments _ _ _ _ _ _ Hs Hka).
  - intros l Hb Hl. rewrite (kept_at _ _ _ _ _ _ _ _ Hs Hk30 Hl). by apply (inv_mask g st Hi).
  - intros l Hm Hl. rewrite (kept_at _ _ _ _ _ _ _ _ Hs Hk26 Hl). by apply (inv_base g st Hi).
  - intros l Hm Hl. rewrite (kept_at _ _ _ _ _ _ _ _ Hs Hk27 Hl).
    rewrite bool_decide_eq_true_2, Hsum by done. f_equal. lia.
  - intros v l Hv Hl. destruct (decide (v < 8 * g)).
    + rewrite (stored_frame _ _ s _ st st' _ Hs (exactly_only _ _ Hst)); [by apply (inv_out g st Hi); lia|].
      intros d Hd. apply list_elem_of_fmap in Hd as (? & -> & Hd).
      apply list_elem_of_fmap in Hd as (i & -> & Hd%list_elem_of_In%in_range).
      cbn [fst writes group_area locate]. unfold in_vector, LANES in *. lia.
    + assert (Hin : (64 * v, out_expr bits mode (8 * g) (v - 8 * g)) ∈
        (fun i => (64 * (8 * g + i), out_expr bits mode (8 * g) i)) <$> range 0 8).
      { apply list_elem_of_fmap. exists (v - 8 * g). split; [do 2 f_equal; lia|].
        apply list_elem_of_In, in_range. lia. }
      pose proof (stored_at _ _ s _ st st' _ _ l Hs Hst Hin Hl) as Ho. cbn [writes group_area locate] in Ho.
      rewrite Ho. unfold entry_result, unpacked, out_expr.
      replace (8 * g + (v - 8 * g)) with v by lia. destruct mode eqn:Em.
      * apply Hval; lia.
      * cbn [eval lane_op]. rewrite (inv_base g st Hi) by done. rewrite Hval by lia. done.
      * rewrite Hsum by (done || lia). f_equal. lia.
  - intros x Hx. rewrite (sim_outside _ _ _ s st' x Hs); [by apply (inv_frame g st Hi)|done].
Qed.

(** The lines before the groups: the base and the mask constant. *)
Definition prologue : list Line :=
  (match mode with For => [zload 26 (mem Rdx 0)] | _ => [] end)
  ++ (match mode with Delta => [zload 27 (mem Rdx 0)] | _ => [] end)
  ++ load_mask bits.

Lemma base_placed : mode <> Plain -> placed at0 (Arg Rdx) 64.
Proof.
  intros Hm. destruct Harea as (_ & Hr & _). apply (Hr (Arg Rdx) 64). cbn.
  rewrite bool_decide_eq_false_2 by done. right. by left.
Qed.

Lemma mask_placed : bits < 32 -> placed at0 (Sym (mask_name bits)) 64.
Proof.
  intros Hm. destruct Harea as (_ & Hr & _). apply (Hr (Sym (mask_name bits)) 64). cbn.
  rewrite (proj2 (Z.ltb_lt bits 32)) by done. right. apply elem_of_app. right. by left.
Qed.

Lemma prologue_inv :
  constants_loaded symbol st0 bits ->
  exists st', exec_lines symbol prologue st0 = Some st' /\ unpack_inv 0 st'.
Proof.
  intros Hc. unfold prologue. rewrite app_assoc, exec_lines_app.
  assert (exists st1, exec_lines symbol
      ((match mode with For => [zload 26 (mem Rdx 0)] | _ => [] end)
       ++ (match mode with Delta => [zload 27 (mem Rdx 0)] | _ => [] end)) st0 = Some st1 /\
      ram st1 = ram st0 /\ gpr st1 = gpr st0 /\
      (mode = For -> forall l, zmm st1 26 l = entry_base l) /\
      (mode = Delta -> forall l, zmm st1 27 l = entry_base l))
    as (st1 & He & Hm & Hg & H26 & H27).
  { pose proof base_placed as Hp. destruct mode eqn:Em; [by exists st0| |];
      specialize (Hp ltac:(done)); cbn [app exec_lines]; rewrite exec_zload by done; cbn [mbind option_bind];
      eexists; split_and!; try done; cbn [set_zmm zmm]; by rewrite fn_lookup_insert. }
  rewrite He. cbn [mbind option_bind].
  destruct (prologue_mask symbol bits st0 Hbits st1 Hm Hg Hc mask_placed) as (st' & He' & Hm' & Ha' & Hz & H30).
  exists st'. split; [done|]. split; try done.
  - intros l Hmo Hl. rewrite Hz by done. by apply H26.
  - intros l Hmo Hl. rewrite Hz by done. by apply H27.
  - lia.
  - intros x _. by rewrite Hm'.
Qed.

(** The groups, one after the other. *)
Lemma groups_run st :
  unpack_inv 0 st ->
  exists ls st', collect (fun g => unpack_group bits mode (GROUP * g)) (range 0 8) = Some ls /\
    exec_lines symbol ls st = Some st' /\ unpack_inv 8 st'.
Proof.
  intros Hi. apply (collect_runs symbol _ (fun n st => unpack_inv (Z.of_nat n) st) (range 0 8)); [|done].
  intros n g st1 Hn%range_at Hi1. replace (Z.of_nat (S n)) with (g + 1) by lia.
  apply group_step; [by replace g with (Z.of_nat n) by lia|lia].
Qed.

(** The whole body of an unpack kernel. *)
Lemma unpack_body_run :
  constants_loaded symbol st0 bits ->
  exists body st', unpack_body bits mode = Some body /\
    exec_lines symbol body st0 = Some st' /\ unpack_inv 8 st'.
Proof.
  intros Hc. destruct (prologue_inv Hc) as (st1 & He & Hi).
  destruct (groups_run st1 Hi) as (ls & st' & Hls & He' & Hi').
  exists (prologue ++ ls), st'. split_and!; [|by rewrite exec_lines_app, He|done].
  unfold unpack_body. rewrite Hls.
  cbn [mbind option_bind]. unfold prologue. by rewrite <- !app_assoc.
Qed.
End UnpackRun.

(** ** The theorem *)

(** What an unpack kernel leaves behind. *)
Definition unpack_result (bits : Z) (mode : Mode) (st st' : State) : Prop :=
  (forall v l, 0 <= v < 64 -> 0 <= l < LANES ->
    ram st' (gpr st Rdi + 64 * v + 4 * l) =
    unpacked bits mode (ram st (gpr st Rdx + 4 * l)) (lane_words (ram st) (gpr st Rsi) l) v) /\
  (forall x, ~ (gpr st Rdi <= x < gpr st Rdi + 4096) -> ram st' x = ram st x).

(** What the caller guarantees: words in memory, buffers that are aligned,
    inside the address space and apart, and the constants of the library. *)
Definition unpack_ready `{Space} (symbol : string -> Z) (bits : Z) (mode : Mode) (st : State) : Prop :=
  1 <= bits <= 32 /\ words_ok st /\
  area_ok symbol (unpack_area bits mode) (locate symbol st) /\ constants_loaded symbol st bits.

Lemma unpack_runs `{Vpu} symbol bits mode st :
  unpack_ready symbol bits mode st ->
  exists prog st', unpack_kernel bits mode = Some prog /\
    ends symbol prog 0 st (Returned st') /\ unpack_result bits mode st st'.
Proof.
  intros (Hb & Hu & Ha & Hc).
  destruct (unpack_body_run symbol bits mode st Hb Hu Ha Hc) as (body & st' & Hbody & He & Hi).
  unfold unpack_kernel. rewrite Hbody. cbn [mbind option_bind].
  do 2 eexists. split; [reflexivity|]. split; [by apply called_returns|]. split.
  - intros v l Hv Hl. by apply (inv_out _ _ _ _ _ _ Hi).
  - by apply (inv_frame _ _ _ _ _ _ Hi).
Qed.

(** C2: every unpack kernel is right: for every width from 1 to 32, plain,
    frame of reference and delta, the generator writes a kernel without
    panicking; run on the vector unit from any state whose buffers are
    aligned, mapped and apart (nothing else need be mapped), it returns
    without a fault, position [v] of lane [l] of the
    output is the value the layout has there (plus the lane's base, or as the
    running sum from it), and nothing else in memory has changed.  The
    machine executes the emitted [.byte]s, decoded by the documented layout. *)
Theorem unpack_correct `{Vpu} symbol bits mode st :
  unpack_ready symbol bits mode st ->
  exists prog st', unpack_kernel bits mode = Some prog /\
    ends symbol prog 0 st (Returned st') /\ unpack_result bits mode st st'.
Proof. apply unpack_runs. Qed.

(** A caller's state: the output at 64 KiB, the packed words at 128 KiB, the
    base at 192 KiB, the constants of one width at 256 KiB. *)
Definition demo_symbol (s : string) : Z := 262144.
Definition demo_state (bits : Z) : State :=
  mkState (fun _ _ => 0)
    (fun g => match g with Rdi => 65536 | Rsi => 131072 | Rdx => 196608 | _ => 0 end)
    (fun a => if (262144 <=? a) && (a <? 262208) then mask_value bits else 3000000001)
    (fun _ => 0) false false false.

Lemma demo_ready mode : @unpack_ready demo_space demo_symbol 11 mode (demo_state 11).
Proof.
  split_and!; [lia|lia| | |].
  - intros x _. cbn. case_bool; concrete.
  - split_and!; [concrete| |done|done]. intros b n Hb.
    destruct mode; cbn in Hb; set_unfold in Hb; naive_solver concrete.
  - intros name ws i x Hr Hx. cbn in Hr. apply list_elem_of_singleton in Hr as [= -> ->].
    apply (lookup_replicate 16 (mask_value 11)) in Hx as [-> Hi]. cbn [ram demo_state demo_symbol]. unfold demo_symbol.
    by rewrite (proj2 (Z.leb_le _ _)), (proj2 (Z.ltb_lt _ _)) by lia.
Qed.

Lemma unpack_correct_witness :
  exists prog st', unpack_kernel 11 Delta = Some prog /\
    @ends reference_vpu demo_symbol prog 0 (demo_state 11) (Returned st') /\
    unpack_result 11 Delta (demo_state 11) st'.
Proof. apply (@unpack_correct reference_vpu demo_symbol 11 Delta (demo_state 11)), demo_ready. Defined.
