(* ===== verification/KernelsPack.v ===== *)
(** The pack and transform kernels are right: at every width the packed words
    hold every value's low bits at its place in the layout, and the two
    transforms compute the residues the unpack kernels undo. *)

From stdpp Require Import functions.
From S2P Require Import Prelude Bytes Mvex MvexDis MvexCalls Codegen Layout Fpu Vpu VpuCalls Symbolic Kernels.

Local Open Scope Z_scope.

(** ** Packed words, symbolically *)

(** A piece as the kernel computes it. *)
Definition piece_expr (bits : Z) (p : Piece) : Expr :=
  let x := Ld (Arg Rsi) (64 * value p) in
  let x := if bits <? 32 then Op Vpandd x (Old 30) else x in
  if amount p =? 0 then x else Shift (if left p then Vpslld else Vpsrld) x (amount p).

(** The operands of a tree of [vpord]s. *)
Fixpoint operands (e : Expr) : list Expr :=
  match e with Op Vpord x y => operands x ++ operands y | _ => [e] end.

Definition same_set (xs ys : list Expr) : bool :=
  forallb (fun x => existsb (fun y => bool_decide (x = y)) ys) xs
  && forallb (fun y => existsb (fun x => bool_decide (y = x)) xs) ys.

(** The stored word is the union of its pieces, however the accumulators
    split them. *)
Definition word_ok (bits : Z) (s : SymState) (w : Z) : bool :=
  match s_out s !! (64 * w) with
  | Some e => same_set (operands e) (piece_expr bits <$> pieces bits w)
  | None => false
  end.

(** The words of group [g]. *)
Definition group_words (bits g : Z) : list Z :=
  range (PACK_WORDS * g) (Z.min (PACK_WORDS * g + PACK_WORDS) (2 * bits)).

Definition pack_groups (bits : Z) : Z := (2 * bits + PACK_WORDS - 1) / PACK_WORDS.

Definition pack_area (bits : Z) : Area :=
  mkArea ((Arg Rsi, 4096) :: (if bits <? 32 then [(Sym (mask_name bits), 64)] else []))
    (Arg Rdi) (128 * bits) [].

Definition pack_group_area (bits : Z) : Area := mkArea [(Arg Rsi, 4096)] (Arg Rdi) (128 * bits) [].

Definition pack_group_ok (bits g : Z) : bool :=
  match sym_lines (pack_group_area bits) (pack_group bits (PACK_WORDS * g)) (entry args [30]) with
  | Some s =>
      keeps_arguments args s && keeps s 30 (Old 30)
      && only_stores s ((fun w => 64 * w) <$> group_words bits g)
      && forallb (word_ok bits s) (group_words bits g)
  | None => false
  end.

Lemma pack_groups_ok :
  forallb (fun bits => forallb (pack_group_ok bits) (range 0 (pack_groups bits))) (range 1 33) = true.
Proof. vm_cast_no_check (eq_refl true). Qed.

Lemma operands_bit `{Fpu} at_ st l e i :
  Z.testbit (eval at_ st l e) i = existsb (fun x => Z.testbit (eval at_ st l x) i) (operands e).
Proof.
  induction e as [| | | |m x IHx y IHy| | | | | | |]; try (cbn [operands existsb]; by rewrite orb_false_r).
  destruct m; try (cbn [operands existsb]; by rewrite orb_false_r).
  cbn [eval lane_op operands]. by rewrite existsb_app, Z.lor_spec, IHx, IHy.
Qed.

Lemma same_set_existsb f xs ys : same_set xs ys = true -> existsb f xs = existsb f ys.
Proof.
  intros [H1 H2]%andb_true_iff. rewrite forallb_forall in H1, H2.
  apply eq_iff_eq_true. rewrite !existsb_exists. split; intros (x & Hx & Hf).
  - specialize (H1 x Hx). apply existsb_exists in H1 as (y & Hy & ->%bool_decide_eq_true). by exists y.
  - specialize (H2 x Hx). apply existsb_exists in H2 as (y & Hy & ->%bool_decide_eq_true). by exists y.
Qed.

Lemma existsb_fmap {A B} (f : B -> bool) (g : A -> B) l :
  existsb f (g <$> l) = existsb (fun x => f (g x)) l.
Proof. induction l as [|x l IH]; [done|]. cbn. by rewrite <- IH. Qed.

Lemma existsb_ext_elem {A} (f g : A -> bool) l :
  (forall x, x ∈ l -> f x = g x) -> existsb f l = existsb g l.
Proof.
  induction l as [|x l IH]; intros Hfg; [done|]. cbn. rewrite Hfg by left. f_equal.
  apply IH. intros y Hy. apply Hfg. by right.
Qed.

(** A piece's expression is the piece. *)
Lemma eval_piece `{Fpu} at_ st bits l X w p :
  1 <= bits <= 32 -> 0 <= l < LANES -> (bits < 32 -> zmm st 30 l = low_mask bits) ->
  (forall v, 0 <= v < 64 -> uint 32 (X v) /\ ram st (at_ (Arg Rsi) + 64 * v + 4 * l) = X v) ->
  p ∈ pieces bits w -> eval at_ st l (piece_expr bits p) = piece_bits bits X p.
Proof.
  intros Hb Hl Hm HX Hp. apply pieces_elem in Hp as [Hv Hp].
  destruct (place_spec bits (value p)) as (_&_&_&Hs). destruct (place bits (value p)) as [w0 s].
  cbn [fst snd] in Hs. destruct (HX _ Hv) as [Hu Hr]. unfold piece_expr, piece_bits.
  set (x := if bits <? 32 then _ else _).
  assert (Hx : eval at_ st l x = Z.land (X (value p)) (low_mask bits)).
  { subst x. case_bool; cbn [eval lane_op]; rewrite Hr; [by rewrite Hm|].
    rewrite low_mask_ones, Z.land_ones by lia. symmetry. rewrite <- (wrap_small 32 (X (value p))) at 2 by done.
    by replace bits with 32 by lia. }
  assert (Hxu : uint 32 (eval at_ st l x)).
  { rewrite Hx. apply bits_uint; [lia|]. intros n Hn.
    by rewrite Z.land_spec, (uint_testbit 32 (X (value p))) by (done || lia). }
  destruct Hp as [(_&->&->)|(?&_&->&->)].
  - destruct (s =? 0) eqn:E; rewrite <- Hx.
    + assert (s = 0) as -> by lia. rewrite Z.shiftl_0_r. by rewrite wrap_small.
    + cbn [eval lane_shift]. by rewrite (proj2 (Z.ltb_lt s 32)) by lia.
  - rewrite (proj2 (Z.eqb_neq (32 - s) 0)) by lia. cbn [eval lane_shift]. rewrite <- Hx.
    by rewrite (proj2 (Z.ltb_lt (32 - s) 32)) by lia.
Qed.

(** A stored word is the packed word. *)
Lemma eval_word `{Fpu} at_ st bits l X s w :
  1 <= bits <= 32 -> 0 <= l < LANES -> (bits < 32 -> zmm st 30 l = low_mask bits) ->
  (forall v, 0 <= v < 64 -> uint 32 (X v) /\ ram st (at_ (Arg Rsi) + 64 * v + 4 * l) = X v) ->
  word_ok bits s w = true ->
  exists e, s_out s !! (64 * w) = Some e /\ eval at_ st l e = pack_word bits X w.
Proof.
  intros Hb Hl Hm HX Hw. unfold word_ok in Hw. destruct (s_out s !! (64 * w)) as [e|]; [|done].
  exists e. split; [done|]. apply Z.bits_inj'. intros i Hi.
  rewrite operands_bit, (same_set_existsb _ _ _ Hw), existsb_fmap.
  unfold pack_word. rewrite foldr_lor_bit. apply existsb_ext_elem. intros p Hp. f_equal.
  by eapply eval_piece.
Qed.

(** ** The pack kernels *)

Section PackRun.
Context `{Vpu} (symbol : string -> Z) (bits : Z) (st0 : State).
Context (Hbits : 1 <= bits <= 32) (Hram : words_ok st0).

Abbreviation at0 := (locate symbol st0).

Context (Harea : area_ok symbol (pack_area bits) at0).

(** The values of lane [l] at the entry. *)
Definition entry_values (l : Z) : Z -> Z := lane_words (ram st0) (gpr st0 Rsi) l.

(** After [g] groups of words. *)
Record pack_inv (g : Z) (st : State) : Prop := {
  pinv_args : arguments at0 st args;
  pinv_mask l : bits < 32 -> 0 <= l < LANES -> zmm st 30 l = low_mask bits;
  pinv_out w l : 0 <= w < Z.min (PACK_WORDS * g) (2 * bits) -> 0 <= l < LANES ->
    ram st (gpr st0 Rdi + 64 * w + 4 * l) = pack_word bits (entry_values l) w;
  pinv_frame x : ~ (gpr st0 Rdi <= x < gpr st0 Rdi + 128 * bits) -> ram st x = ram st0 x
}.

Lemma pack_group_area_ok : area_ok symbol (pack_group_area bits) at0.
Proof.
  destruct Harea as (Hw & Hr & Hs). split_and!; [done| |apply Hs|done].
  intros b n Hb. apply (Hr b n). cbn in Hb. apply list_elem_of_singleton in Hb as [= -> ->].
  by left.
Qed.

(** The values are still there while the words are written. *)
Lemma pinv_values g st l v :
  pack_inv g st -> 0 <= l < LANES -> 0 <= v < 64 ->
  uint 32 (entry_values l v) /\ ram st (at0 (Arg Rsi) + 64 * v + 4 * l) = entry_values l v.
Proof.
  intros Hi Hl Hv.
  destruct pack_group_area_ok as (_ & Hr & _). destruct (Hr (Arg Rsi) 4096) as [[Hal _] Ha]; [by left|].
  cbn [locate] in Hal. split; [by apply Hram, lane_aligned|]. apply (pinv_frame g st Hi).
  unfold apart in Ha. cbn in Ha |- *. unfold LANES in Hl. lia.
Qed.

Lemma pack_group_step g st :
  pack_inv g st -> 0 <= g < pack_groups bits ->
  exists st', exec_lines symbol (pack_group bits (PACK_WORDS * g)) st = Some st' /\
    pack_inv (g + 1) st'.
Proof.
  intros Hi Hg. assert (Hk : pack_group_ok bits g = true).
  { pose proof pack_groups_ok as Hall. rewrite forallb_forall in Hall.
    specialize (Hall bits ltac:(apply in_range; lia)). rewrite forallb_forall in Hall.
    apply Hall, in_range. lia. }
  unfold pack_group_ok in Hk. destruct (sym_lines _ _ _) as [s|] eqn:Hsym; [|done].
  rewrite !andb_true_iff, forallb_forall in Hk. destruct Hk as (((Hka & Hk30) & Hon) & Hws).
  destruct (segment symbol (pack_group_area bits) at0 st _ _ _ s pack_group_area_ok
    (pinv_args g st Hi) Hsym) as (st' & He & Hs).
  exists st'. split; [done|]. split.
  - intros r Hr. by apply (sim_arguments _ _ _ _ _ _ Hs Hka).
  - intros l Hb Hl. rewrite (kept_at _ _ _ _ _ _ _ _ Hs Hk30 Hl). by apply (pinv_mask g st Hi).
  - intros w l Hw Hl. destruct (decide (w < PACK_WORDS * g)).
    + rewrite (stored_frame _ _ s _ st st' _ Hs Hon); [apply (pinv_out g st Hi); lia|].
      intros d Hd. apply list_elem_of_fmap in Hd as (w' & -> & Hd%list_elem_of_In).
      apply in_range in Hd. cbn [writes pack_group_area locate]. unfold in_vector, LANES in *. lia.
    + destruct (eval_word at0 st bits l (entry_values l) s w) as (e & Hse & Hev); [done..| | | |].
      * intros. by apply (pinv_mask g st Hi).
      * intros v Hv. by apply (pinv_values g st l v).
      * apply Hws. apply in_range. unfold PACK_WORDS in *. lia.
      * rewrite <- Hev. apply (sim_out _ _ _ _ _ Hs (64 * w) e l Hse Hl).
  - intros x Hx. rewrite (sim_outside _ _ _ s st' x Hs); [by apply (pinv_frame g st Hi)|done].
Qed.

Lemma pack_groups_run n st :
  0 <= pack_groups bits - Z.of_nat n -> pack_inv (pack_groups bits - Z.of_nat n) st ->
  exists st', exec_lines symbol
    (concat ((fun g => pack_group bits (PACK_WORDS * g)) <$>
       range (pack_groups bits - Z.of_nat n) (pack_groups bits))) st = Some st' /\
    pack_inv (pack_groups bits) st'.
Proof.
  revert st. induction n as [|n IH]; intros st Hn Hi.
  { exists st. rewrite Z.sub_0_r in *. unfold range. rewrite Z.sub_diag. by split. }
  destruct (pack_group_step _ st Hi) as (st1 & He & Hi1); [lia|].
  replace (pack_groups bits - Z.of_nat (S n) + 1) with (pack_groups bits - Z.of_nat n) in Hi1 by lia.
  destruct (IH st1 ltac:(lia) Hi1) as (st' & He' & Hi').
  exists st'. split; [|done].
  assert (range (pack_groups bits - Z.of_nat (S n)) (pack_groups bits) =
    (pack_groups bits - Z.of_nat (S n)) :: range (pack_groups bits - Z.of_nat n) (pack_groups bits)) as ->.
  { unfold range. rewrite seqZ_cons by lia. f_equal. f_equal; lia. }
  cbn [fmap list_fmap concat]. by rewrite exec_lines_app, He.
Qed.

(** The whole body of a pack kernel. *)
Lemma pack_body_run :
  constants_loaded symbol st0 bits ->
  exists st', exec_lines symbol (pack_body bits) st0 = Some st' /\ pack_inv (pack_groups bits) st'.
Proof.
  intros Hc.
  assert (Hp : bits < 32 -> placed at0 (Sym (mask_name bits)) 64).
  { intros Hb. destruct Harea as (_ & Hr & _). apply (Hr (Sym (mask_name bits)) 64). cbn.
    rewrite (proj2 (Z.ltb_lt bits 32)) by done. right. by left. }
  destruct (prologue_mask symbol bits st0 Hbits st0 eq_refl eq_refl Hc Hp)
    as (st1 & He & Hm & Ha & _ & H30).
  assert (0 <= pack_groups bits) by (apply Z.div_pos; unfold PACK_WORDS; lia).
  destruct (pack_groups_run (Z.to_nat (pack_groups bits)) st1) as (st' & He' & Hi').
  - lia.
  - rewrite Z2Nat.id, Z.sub_diag by lia. split; try done; [unfold PACK_WORDS; lia|intros; by rewrite Hm].
  - exists st'. split; [|done]. unfold pack_body, pack_starts. rewrite exec_lines_app, He.
    cbn [mbind option_bind]. rewrite <- He'. f_equal.
    rewrite Z2Nat.id, Z.sub_diag, <- list_fmap_compose by lia. done.
Qed.
End PackRun.

(** ** The transforms *)

Definition transform_area : Area := mkArea [(Arg Rsi, 4096); (Arg Rdx, 64)] (Arg Rdi) 4096 [].

Definition transform_expr (mode : Mode) (v : Z) : Expr :=
  Op Vpsubd (Ld (Arg Rsi) (64 * v))
    (if bool_decide (mode = Delta) && negb (v =? 0) then Ld (Arg Rsi) (64 * (v - 1)) else Ld (Arg Rdx) 0).

Definition transform_ok (mode : Mode) : bool :=
  match sym_lines transform_area (transform_body mode) (entry args []) with
  | Some s => stores_exactly s ((fun v => (64 * v, transform_expr mode v)) <$> range 0 64)
  | None => false
  end.

Lemma transforms_ok : transform_ok For && transform_ok Delta = true.
Proof. vm_cast_no_check (eq_refl true). Qed.

(** The residue of position [v]. *)
Definition residue (mode : Mode) (b : Z) (X : Z -> Z) (v : Z) : Z :=
  wrap 32 (X v - match mode with Delta => before b X v | _ => b end).

Lemma transform_body_run `{Vpu} symbol mode st :
  mode <> Plain -> area_ok symbol transform_area (locate symbol st) ->
  exists st', exec_lines symbol (transform_body mode) st = Some st' /\
    (forall v l, 0 <= v < 64 -> 0 <= l < LANES ->
      ram st' (gpr st Rdi + 64 * v + 4 * l) =
      residue mode (ram st (gpr st Rdx + 4 * l)) (lane_words (ram st) (gpr st Rsi) l) v) /\
    (forall x, ~ (gpr st Rdi <= x < gpr st Rdi + 4096) -> ram st' x = ram st x).
Proof.
  intros Hm Ha. assert (Hk : transform_ok mode = true).
  { pose proof transforms_ok as [??]%andb_true_iff. by destruct mode. }
  unfold transform_ok in Hk. destruct (sym_lines _ _ _) as [s|] eqn:Hsym; [|done].
  destruct (segment symbol transform_area (locate symbol st) st args [] (transform_body mode) s Ha) as (st' & He & Hs); [done..|].
  exists st'. split; [done|]. split.
  - intros v l Hv Hl.
    assert (Hin : (64 * v, transform_expr mode v) ∈
      (fun v => (64 * v, transform_expr mode v)) <$> range 0 64).
    { apply list_elem_of_fmap. exists v. split; [done|]. apply list_elem_of_In, in_range. lia. }
    pose proof (stored_at _ _ s _ st st' _ _ l Hs Hk Hin Hl) as Ho.
    cbn [writes transform_area locate] in Ho. rewrite Ho.
    unfold transform_expr, residue, before, lane_words. cbn [eval lane_op locate].
    clear Hk Hsym Ho Hin Hs. destruct mode; [by destruct Hm| |].
    + rewrite bool_decide_eq_false_2 by done. cbn [andb eval locate]. by rewrite Z.add_0_r.
    + rewrite bool_decide_eq_true_2 by done. destruct (v =? 0); cbn [andb negb eval locate]; [|done].
      by rewrite Z.add_0_r.
  - intros x Hx. apply (sim_outside _ _ _ s st' x Hs). done.
Qed.

(** ** The theorems *)

Definition pack_ready `{Space} (symbol : string -> Z) (bits : Z) (st : State) : Prop :=
  1 <= bits <= 32 /\ words_ok st /\
  area_ok symbol (pack_area bits) (locate symbol st) /\ constants_loaded symbol st bits.

(** What a pack kernel leaves behind: in every lane the words hold the
    values' low bits. *)
Definition pack_result (bits : Z) (st st' : State) : Prop :=
  (forall l, 0 <= l < LANES ->
    (forall w, 0 <= w < 2 * bits -> uint 32 (lane_words (ram st') (gpr st Rdi) l w)) /\
    packs bits (lane_words (ram st') (gpr st Rdi) l) (lane_words (ram st) (gpr st Rsi) l)) /\
  (forall x, ~ (gpr st Rdi <= x < gpr st Rdi + 128 * bits) -> ram st' x = ram st x).

Lemma pack_runs `{Vpu} symbol bits st :
  pack_ready symbol bits st ->
  exists st', ends symbol (pack_kernel bits) 0 st (Returned st') /\ pack_result bits st st'.
Proof.
  intros (Hb & Hu & Ha & Hc). destruct (pack_body_run symbol bits st Hb Hu Ha Hc) as (st' & He & Hi).
  exists st'. split; [by apply called_returns|].
  assert (Hg : Z.min (PACK_WORDS * pack_groups bits) (2 * bits) = 2 * bits).
  { unfold pack_groups, PACK_WORDS. Z.to_euclidean_division_equations. lia. }
  assert (Hw : forall l w, 0 <= l < LANES -> 0 <= w < 2 * bits ->
    lane_words (ram st') (gpr st Rdi) l w = pack_word bits (lane_words (ram st) (gpr st Rsi) l) w).
  { intros l w Hl Hw. apply (pinv_out _ _ _ _ _ Hi); [by rewrite Hg|done]. }
  split; [|apply (pinv_frame _ _ _ _ _ Hi)].
  intros l Hl. split; [intros w Hw'; rewrite Hw by done; by apply pack_word_uint|].
  apply pack_word_packs; [done|]. intros w Hw'. by apply Hw.
Qed.

(** C3: every pack kernel is right: for every width from 1 to 32 the kernel,
    run on the vector unit from any state whose buffers are aligned, mapped
    and apart, returns without a fault, and bit [j] of the value at position [v]
    of a lane is bit [bits * v + j] of the lane's packed words, for every
    [j] below the width; values wider than that are truncated and disturb no
    neighbour; nothing outside the packed words has changed. *)
Theorem pack_correct `{Vpu} symbol bits st :
  pack_ready symbol bits st ->
  exists st', ends symbol (pack_kernel bits) 0 st (Returned st') /\ pack_result bits st st'.
Proof. apply pack_runs. Qed.

Lemma demo_pack_ready : @pack_ready demo_space demo_symbol 11 (demo_state 11).
Proof.
  destruct (demo_ready Plain) as (? & ? & ? & ?). split_and!; try done.
  split_and!; [concrete| |done|done]. intros b n Hb. cbn in Hb. set_unfold in Hb. naive_solver concrete.
Qed.

Lemma pack_correct_witness :
  exists st', @ends reference_vpu demo_symbol (pack_kernel 11) 0 (demo_state 11) (Returned st') /\
    pack_result 11 (demo_state 11) st'.
Proof. apply (@pack_correct reference_vpu demo_symbol 11 (demo_state 11)), demo_pack_ready. Defined.

(** What a transform leaves behind. *)
Definition transform_result (mode : Mode) (st st' : State) : Prop :=
  (forall v l, 0 <= v < 64 -> 0 <= l < LANES ->
    ram st' (gpr st Rdi + 64 * v + 4 * l) =
    residue mode (ram st (gpr st Rdx + 4 * l)) (lane_words (ram st) (gpr st Rsi) l) v) /\
  (forall x, ~ (gpr st Rdi <= x < gpr st Rdi + 4096) -> ram st' x = ram st x).

Lemma transform_runs `{Vpu} symbol mode st :
  mode <> Plain -> area_ok symbol transform_area (locate symbol st) ->
  exists prog st', transform_kernel mode = Some prog /\
    ends symbol prog 0 st (Returned st') /\ transform_result mode st st'.
Proof.
  intros Hm Ha. destruct (transform_body_run symbol mode st Hm Ha) as (st' & He & Hr).
  destruct mode; [by destruct Hm| |]; do 2 eexists; (split; [reflexivity|]);
    (split; [by apply (called_returns symbol st _ _ _ st')|done]).
Qed.

(** C34: the transforms are right: [knc_encode_for] leaves at every position
    the value less the lane's base, [knc_encode_delta] the value less the one
    before it in the lane (the base at position 0), modulo 2^32, and nothing
    else has changed. *)
Theorem transform_correct `{Vpu} symbol mode st :
  mode <> Plain -> area_ok symbol transform_area (locate symbol st) ->
  exists prog st', transform_kernel mode = Some prog /\
    ends symbol prog 0 st (Returned st') /\ transform_result mode st st'.
Proof. apply transform_runs. Qed.

Lemma transform_correct_witness :
  exists prog st', transform_kernel Delta = Some prog /\
    @ends reference_vpu demo_symbol prog 0 (demo_state 11) (Returned st') /\
    transform_result Delta (demo_state 11) st'.
Proof.
  apply (@transform_correct reference_vpu demo_symbol Delta (demo_state 11)); [done|].
  split_and!; [concrete| |done|done]. intros b n Hb. cbn in Hb. set_unfold in Hb. naive_solver concrete.
Defined.
