(* ===== verification/Roundtrip.v ===== *)
(** The codec as a whole: what was packed is unpacked, plain and through the
    frame transforms, and the kernels agree with the scalar model of
    card/lib/knc-rs/src/main.rs. *)

From stdpp Require Import functions.
From S2P Require Import Prelude Bytes Mvex MvexDis MvexCalls Codegen Layout Fpu Vpu VpuCalls Symbolic Kernels KernelsPack.

Local Open Scope Z_scope.

(** The words of a lane of an aligned buffer. *)
Lemma lane_words_ok st p l w : words_ok st -> p mod 64 = 0 -> uint 32 (lane_words (ram st) p l w).
Proof. intros Hw Hp. by apply Hw, lane_aligned. Qed.

(** Unpacking the packed residues gives the values back. *)
Lemma unpacked_residues bits mode b W U X v :
  1 <= bits <= 32 -> (forall w, uint 32 (W w)) -> packs bits W U ->
  (forall v, 0 <= v < 64 -> uint 32 (X v)) ->
  (forall v, 0 <= v < 64 -> U v = residue mode b X v /\ uint bits (U v)) ->
  mode <> Plain -> 0 <= v < 64 -> unpacked bits mode b W v = X v.
Proof.
  intros Hb HW Hp HX HU Hm Hv.
  assert (Hval : forall v, 0 <= v < 64 -> lane_value bits W v = U v).
  { intros v' Hv'. rewrite (packs_value bits W U v') by done. by apply wrap_small, HU. }
  destruct mode; [done| |]; unfold unpacked.
  - rewrite Hval by done. destruct (HU v Hv) as [-> _]. unfold residue.
    rewrite wrap_add_sub by lia. by apply wrap_small, HX.
  - rewrite (running_differences b X).
    + unfold before. rewrite (proj2 (Z.eqb_neq _ _)) by lia. f_equal. lia.
    + done.
    + intros v' Hv'. rewrite Hval by done. by apply HU.
    + lia.
Qed.

(** What was packed is unpacked: after a pack kernel at any width, the
    unpack kernel of that width, called later with the packed words in
    place, gives every value back truncated to the width; values that fit
    the width are given back exactly. *)
Theorem pack_unpack `{Vpu} symbol bits st :
  pack_ready symbol bits st ->
  exists st1, ends symbol (pack_kernel bits) 0 st (Returned st1) /\
    forall st2, ram st2 = ram st1 -> gpr st2 Rsi = gpr st Rdi -> unpack_ready symbol bits Plain st2 ->
    exists prog st3, unpack_kernel bits Plain = Some prog /\
      ends symbol prog 0 st2 (Returned st3) /\
      forall v l, 0 <= v < 64 -> 0 <= l < LANES ->
        ram st3 (gpr st2 Rdi + 64 * v + 4 * l) = wrap bits (ram st (gpr st Rsi + 64 * v + 4 * l)).
Proof.
  intros Hr. destruct (pack_runs symbol bits st Hr) as (st1 & He & Hp & _).
  exists st1. split; [done|]. intros st2 Hm Hs Hr2.
  destruct (unpack_runs symbol bits Plain st2 Hr2) as (prog & st3 & Hk & He3 & Ho & _).
  exists prog, st3. split_and!; [done..|]. intros v l Hv Hl. rewrite Ho by done.
  destruct (Hp l Hl) as [_ Hpk]. destruct Hr as (Hb & _ & (Ha & _) & _). unfold unpacked.
  rewrite Hm, Hs. apply packs_value with (X := lane_words (ram st) (gpr st Rsi) l); try done.
  intros w. rewrite <- Hm. apply lane_words_ok; [apply Hr2|]. apply Ha.
Qed.

(** The calls of a framed round trip: transform the values at [rsi] with the
    base at [rdx] into a staging buffer, pack that, unpack it with the base. *)
Definition framed_ready `{Space} (symbol : string -> Z) (bits : Z) (mode : Mode) (st : State) : Prop :=
  1 <= bits <= 32 /\ mode <> Plain /\ words_ok st /\
  area_ok symbol transform_area (locate symbol st) /\
  (forall v l, 0 <= v < 64 -> 0 <= l < LANES ->
    uint bits (residue mode (ram st (gpr st Rdx + 4 * l)) (lane_words (ram st) (gpr st Rsi) l) v)).

(** C5: the framed codec gives the values back: when every residue fits the
    width, transforming a block (frame of reference or delta), packing the
    residues and unpacking them with the same base reproduces every value
    exactly, at every width.  The base has to be where it was, outside the
    buffers written in between. *)
Theorem framed_roundtrip `{Vpu} symbol bits mode st :
  framed_ready symbol bits mode st ->
  exists tprog st1, transform_kernel mode = Some tprog /\
    ends symbol tprog 0 st (Returned st1) /\
    forall st2, ram st2 = ram st1 -> gpr st2 Rsi = gpr st Rdi -> pack_ready symbol bits st2 ->
      (gpr st Rdx + 64 <= gpr st2 Rdi \/ gpr st2 Rdi + 128 * bits <= gpr st Rdx) ->
    exists st3, ends symbol (pack_kernel bits) 0 st2 (Returned st3) /\
      forall st4, ram st4 = ram st3 -> gpr st4 Rsi = gpr st2 Rdi -> gpr st4 Rdx = gpr st Rdx ->
        unpack_ready symbol bits mode st4 ->
      exists uprog st5, unpack_kernel bits mode = Some uprog /\
        ends symbol uprog 0 st4 (Returned st5) /\
        forall v l, 0 <= v < 64 -> 0 <= l < LANES ->
          ram st5 (gpr st4 Rdi + 64 * v + 4 * l) = ram st (gpr st Rsi + 64 * v + 4 * l).
Proof.
  intros (Hb & Hmo & Hwo & Ha & Hfit).
  destruct (transform_runs symbol mode st Hmo Ha) as (tprog & st1 & Ht & He1 & Ho1 & Hf1).
  exists tprog, st1. split_and!; [done..|]. intros st2 Hm2 Hs2 Hr2 Hap.
  destruct (pack_runs symbol bits st2 Hr2) as (st3 & He3 & Hp3 & Hf3).
  exists st3. split; [done|]. intros st4 Hm4 Hs4 Hd4 Hr4.
  destruct (unpack_runs symbol bits mode st4 Hr4) as (uprog & st5 & Hu & He5 & Ho5 & _).
  exists uprog, st5. split_and!; [done..|]. intros v l Hv Hl. rewrite Ho5 by done.
  destruct Ha as (Hpl & Hrd & _).
  destruct (Hrd (Arg Rdx) 64) as [_ Hapb]; [right; by left|].
  destruct (Hrd (Arg Rsi) 4096) as [(Hal & _) _]; [by left|].
  unfold apart in Hapb. cbn [locate writes room transform_area] in Hapb, Hal.
  assert (Hbase : ram st4 (gpr st4 Rdx + 4 * l) = ram st (gpr st Rdx + 4 * l)).
  { unfold LANES in Hl. rewrite Hm4, Hd4, Hf3, Hm2, Hf1 by lia. done. }
  rewrite Hbase, Hm4, Hs4. destruct (Hp3 l Hl) as [_ Hpk]. rewrite Hm2, Hs2 in Hpk.
  apply (unpacked_residues bits mode _ _ (lane_words (ram st1) (gpr st Rdi) l)
           (lane_words (ram st) (gpr st Rsi) l)); try done.
  - intros w. rewrite <- Hm4. apply lane_words_ok; [apply Hr4|].
    destruct Hr2 as (_ & _ & ((Hal2 & _) & _) & _). exact Hal2.
  - intros v' Hv'. by apply lane_words_ok.
  - intros v' Hv'. unfold lane_words at 1 3. rewrite Ho1 by done. split; [done|]. by apply Hfit.
Qed.

(** ** The scalar model *)

(** The first [n] words of a buffer. *)
Definition buffer (m : Z -> Z) (p n : Z) : list Z := (fun i => m (p + 4 * i)) <$> seqZ 0 n.

Lemma buffer_lookup m p n j : 0 <= j < n -> buffer m p n !! Z.to_nat j = Some (m (p + 4 * j)).
Proof.
  intros Hj. unfold buffer. rewrite list_lookup_fmap, lookup_seqZ_lt by lia. cbn. do 2 f_equal. lia.
Qed.

(** The loop body of the model reads the words of its lane. *)
Lemma scalar_slot_lane m p bits v l :
  1 <= bits <= 32 -> 0 <= v < 64 -> 0 <= l < LANES ->
  scalar_slot (buffer m p (32 * bits)) bits (16 * v + l) =
  Some (signed 32 (lane_value bits (lane_words m p l) v)).
Proof.
  unfold LANES. intros Hb Hv Hl. unfold scalar_slot, lane_value, place, Layout.LANES.
  replace ((16 * v + l) mod 16) with l by (Z.to_euclidean_division_equations; lia).
  replace ((16 * v + l) / 16) with v by (Z.to_euclidean_division_equations; lia).
  rewrite (Z.mul_comm v bits).
  pose proof (Z.div_mod (bits * v) 32 ltac:(lia)). pose proof (Z.mod_pos_bound (bits * v) 32 ltac:(lia)).
  set (w := bits * v / 32) in *. set (s := bits * v mod 32) in *.
  clearbody w s. assert (0 <= bits * v <= bits * 63) by nia.
  assert (0 <= w < 2 * bits) by lia. rewrite (buffer_lookup _ _ _ (w * 16 + l)) by lia. cbn [mbind option_bind].
  assert (Hw : forall w, m (p + 4 * (w * 16 + l)) = lane_words m p l w)
    by (intros; unfold lane_words; f_equal; lia).
  rewrite Hw. case_bool; [|done]. rewrite buffer_lookup by lia. cbn [mbind option_bind]. by rewrite Hw.
Qed.

(** C26: the kernels agree with the scalar model: on the words the unpack
    kernel of a width reads, [scalar_unpack] of card/lib/knc-rs/src/main.rs
    does not index out of range and returns exactly the 1024 values the
    kernel stored, as signed integers.  The two are written independently:
    one walks the stream with divisions, the other is straight-line shifts
    and masks. *)
Theorem model_agrees `{Vpu} symbol bits st out :
  unpack_ready symbol bits Plain st -> len out = BLOCK ->
  exists prog st', unpack_kernel bits Plain = Some prog /\ ends symbol prog 0 st (Returned st') /\
    scalar_unpack out (buffer (ram st) (gpr st Rsi) (32 * bits)) bits =
    Some (signed 32 <$> buffer (ram st') (gpr st Rdi) BLOCK).
Proof.
  intros Hr Hout. destruct (unpack_runs symbol bits Plain st Hr) as (prog & st' & Hk & He & Ho & _).
  exists prog, st'. split_and!; [done..|]. unfold scalar_unpack. rewrite Hout, Z.min_id.
  assert (mapM (scalar_slot (buffer (ram st) (gpr st Rsi) (32 * bits)) bits) (seqZ 0 BLOCK) =
    Some (signed 32 <$> buffer (ram st') (gpr st Rdi) BLOCK)) as ->.
  { apply mapM_Some. unfold buffer at 2. rewrite <- list_fmap_compose.
    apply Forall2_fmap_r, Forall_Forall2_diag, Forall_forall. intros i Hi%elem_of_seqZ.
    unfold BLOCK in Hi.
    assert (Hd : i = 16 * (i / 16) + i mod 16 /\ 0 <= i / 16 < 64 /\ 0 <= i mod 16 < 16)
      by (Z.to_euclidean_division_equations; lia).
    destruct Hd as (Hd & Hv & Hl). destruct Hr as [Hb _].
    pose proof (scalar_slot_lane (ram st) (gpr st Rsi) bits (i / 16) (i mod 16) Hb Hv Hl) as Hs.
    rewrite <- Hd in Hs. rewrite Hs.
    unfold compose. do 2 f_equal. unfold unpacked in Ho. rewrite <- Ho by done. f_equal. lia. }
  cbn [mbind option_bind]. rewrite drop_ge, app_nil_r; [done|]. unfold len, BLOCK in *. lia.
Qed.

(** ** Concrete round trips *)

(** A memory of words stays one when a buffer is overwritten with words. *)
Lemma words_kept st st' p n :
  words_ok st -> p mod 64 = 0 ->
  (forall v l, 0 <= v < n -> 0 <= l < LANES -> uint 32 (lane_words (ram st') p l v)) ->
  (forall x, ~ (p <= x < p + 64 * n) -> ram st' x = ram st x) -> words_ok st'.
Proof.
  intros Hw Hp Hn Hf x Hx. destruct (decide (p <= x < p + 64 * n)) as [Hin|Hout].
  - assert (Hd : x = p + 64 * ((x - p) / 64) + 4 * ((x - p) mod 64 / 4) /\
      0 <= (x - p) / 64 < n /\ 0 <= (x - p) mod 64 / 4 < LANES).
    { unfold LANES. Z.to_euclidean_division_equations. lia. }
    destruct Hd as (Hx' & Hv & Hl). rewrite Hx'. by apply (Hn ((x - p) / 64) ((x - p) mod 64 / 4)).
  - rewrite Hf by done. by apply Hw.
Qed.

Lemma words_ok_ram st st' : ram st' = ram st -> words_ok st -> words_ok st'.
Proof. intros Hr Hw x Hx. rewrite Hr. by apply Hw. Qed.

Lemma pack_words_ok `{Space} symbol bits st st' :
  pack_ready symbol bits st -> pack_result bits st st' -> words_ok st'.
Proof.
  intros (_ & Hw & ((Ha & _) & _) & _) (Hl & Hf).
  apply (words_kept st st' (gpr st Rdi) (2 * bits)); [done|exact Ha| |].
  - intros w l Hw' Hll. by apply Hl.
  - intros x Hx. apply Hf. lia.
Qed.

Lemma transform_words_ok `{Space} symbol mode st st' :
  words_ok st -> area_ok symbol transform_area (locate symbol st) -> transform_result mode st st' ->
  words_ok st'.
Proof.
  intros Hw ((Ha & _) & _) (Ho & Hf).
  apply (words_kept st st' (gpr st Rdi) 64); [done|exact Ha| |].
  - intros v l Hv Hl. unfold lane_words. rewrite Ho by done. apply wrap_uint. lia.
  - intros x Hx. apply Hf. lia.
Qed.

(** The constants of the example are at 256 KiB. *)
Lemma demo_constants st :
  (forall x, 262144 <= x < 262208 -> ram st x = mask_value 11) -> constants_loaded demo_symbol st 11.
Proof.
  intros Hm name ws i x Hr Hx. cbn in Hr. apply list_elem_of_singleton in Hr as [= -> ->].
  apply (lookup_replicate 16 (mask_value 11)) in Hx as [-> Hi]. apply Hm. unfold demo_symbol. lia.
Qed.

(** The next call: what memory holds, with new arguments. *)
Definition next_call (st : State) (rdi rsi rdx : Z) : State :=
  mkState (fun _ _ => 0) (fun g => match g with Rdi => rdi | Rsi => rsi | Rdx => rdx | _ => 0 end)
    (ram st) (fun _ => 0) false false false.

Lemma demo_width : 1 <= 11 <= 32.
Proof. lia. Qed.

Ltac concrete_area :=
  split_and!; [concrete| |done|done]; intros b n Hb; cbn in Hb; set_unfold in Hb; naive_solver concrete.

Lemma demo_plain_area st :
  @area_ok demo_space demo_symbol (unpack_area 11 Plain) (locate demo_symbol (next_call st 327680 65536 0)).
Proof. concrete_area. Qed.

Lemma demo_pack_area st :
  @area_ok demo_space demo_symbol (pack_area 11) (locate demo_symbol (next_call st 327680 65536 0)).
Proof. concrete_area. Qed.

Lemma demo_for_area st :
  @area_ok demo_space demo_symbol (unpack_area 11 For) (locate demo_symbol (next_call st 393216 327680 196608)).
Proof. concrete_area. Qed.

Lemma pack_unpack_witness :
  exists st1, @ends reference_vpu demo_symbol (pack_kernel 11) 0 (demo_state 11) (Returned st1) /\
  exists prog st3, unpack_kernel 11 Plain = Some prog /\
    @ends reference_vpu demo_symbol prog 0 (next_call st1 327680 65536 0) (Returned st3) /\
    forall v l, 0 <= v < 64 -> 0 <= l < LANES ->
      ram st3 (327680 + 64 * v + 4 * l) = wrap 11 (ram (demo_state 11) (131072 + 64 * v + 4 * l)).
Proof.
  destruct (@pack_unpack reference_vpu demo_symbol 11 (demo_state 11) demo_pack_ready) as (st1 & He & Hn).
  destruct (@pack_runs reference_vpu demo_symbol 11 (demo_state 11) demo_pack_ready) as (st1' & He' & Hp).
  pose proof (@ends_unique reference_vpu _ _ _ _ _ _ He He') as [= <-].
  exists st1. split; [done|]. apply (Hn (next_call st1 327680 65536 0)); [done..|].
  refine (conj demo_width (conj _ (conj _ _))).
  - by apply (words_ok_ram st1), (@pack_words_ok demo_space demo_symbol 11 (demo_state 11)), Hp; [|apply demo_pack_ready].
  - apply demo_plain_area.
  - apply demo_constants. intros x Hx. destruct Hp as [_ Hf]. cbn [next_call ram].
    rewrite Hf by (cbn; lia). cbn [demo_state ram].
    by rewrite (proj2 (Z.leb_le _ _)), (proj2 (Z.ltb_lt _ _)) by lia.
Defined.

Lemma demo_framed : @framed_ready demo_space demo_symbol 11 For (demo_state 11).
Proof.
  split_and!; [lia|lia|done|apply demo_pack_ready| |].
  - concrete_area.
  - intros v l Hv Hl. unfold LANES in Hl. unfold residue, lane_words. cbn [demo_state ram gpr].
    rewrite !(proj2 (Z.leb_gt 262144 _)) by lia. concrete.
Qed.

Lemma framed_roundtrip_witness :
  exists tprog st1, transform_kernel For = Some tprog /\
    @ends reference_vpu demo_symbol tprog 0 (demo_state 11) (Returned st1) /\
  exists st3, @ends reference_vpu demo_symbol (pack_kernel 11) 0 (next_call st1 327680 65536 0) (Returned st3) /\
  exists uprog st5, unpack_kernel 11 For = Some uprog /\
    @ends reference_vpu demo_symbol uprog 0 (next_call st3 393216 327680 196608) (Returned st5) /\
    forall v l, 0 <= v < 64 -> 0 <= l < LANES -> ram st5 (393216 + 64 * v + 4 * l) = 3000000001.
Proof.
  destruct (@framed_roundtrip reference_vpu demo_symbol 11 For (demo_state 11) demo_framed)
    as (tprog & st1 & Ht & He & Hn).
  assert (Har : @area_ok demo_space demo_symbol transform_area (locate demo_symbol (demo_state 11))) by apply demo_framed.
  destruct (@transform_runs reference_vpu demo_symbol For (demo_state 11)) as (tprog' & st1' & Ht' & He' & Hr); [done..|].
  assert (tprog' = tprog) as -> by congruence.
  pose proof (@ends_unique reference_vpu _ _ _ _ _ _ He He') as [= <-].
  exists tprog, st1. split_and!; [done..|].
  assert (Hw1 : words_ok st1) by (eapply (@transform_words_ok demo_space); [apply demo_framed|done|done]).
  assert (Hm1 : forall x, 262144 <= x < 262208 -> ram st1 x = mask_value 11).
  { intros x Hx. destruct Hr as [_ Hf]. rewrite Hf by (cbn; lia). cbn [demo_state ram].
    by rewrite (proj2 (Z.leb_le _ _)), (proj2 (Z.ltb_lt _ _)) by lia. }
  assert (Hr2 : @pack_ready demo_space demo_symbol 11 (next_call st1 327680 65536 0)).
  { refine (conj demo_width (conj _ (conj _ _)));
      [by apply (words_ok_ram st1)|apply demo_pack_area|by apply demo_constants]. }
  destruct (Hn (next_call st1 327680 65536 0)) as (st3 & He3 & Hn3); [done|done|done|cbn; lia|].
  destruct (@pack_runs reference_vpu demo_symbol 11 _ Hr2) as (st3' & He3' & Hp).
  pose proof (@ends_unique reference_vpu _ _ _ _ _ _ He3 He3') as [= <-].
  exists st3. split; [done|].
  destruct (Hn3 (next_call st3 393216 327680 196608)) as (uprog & st5 & Hu & He5 & Ho); [done..| |].
  - refine (conj demo_width (conj _ (conj _ _))); [|apply demo_for_area|].
    + apply (words_ok_ram st3); [done|]. by eapply (@pack_words_ok demo_space).
    + apply demo_constants. intros x Hx. cbn [next_call ram]. destruct Hp as [_ Hf].
      rewrite Hf by (cbn; lia). by apply Hm1.
  - exists uprog, st5. split_and!; [done..|]. intros v l Hv Hl. cbn [next_call gpr] in Ho.
    rewrite Ho by done. cbn [demo_state ram gpr]. unfold LANES in Hl.
    by rewrite (proj2 (Z.leb_gt 262144 _)) by lia.
Defined.

Lemma model_agrees_witness :
  exists prog st', unpack_kernel 11 Plain = Some prog /\
    @ends reference_vpu demo_symbol prog 0 (demo_state 11) (Returned st') /\
    scalar_unpack (replicate 1024 0) (buffer (ram (demo_state 11)) 131072 352) 11 =
    Some (signed 32 <$> buffer (ram st') 65536 BLOCK).
Proof.
  apply (@model_agrees reference_vpu demo_symbol 11 (demo_state 11) (replicate 1024 0));
    [apply demo_ready|vm_compute; reflexivity].
Defined.
