(* ===== verification/Files.v ===== *)
(** The generator as a program (host/crates/knc-mvex/src/main.rs, [main]):
    every file it knows can be written, for all the kernels, thunks, tables
    and constants of each, and the kernel header with its inline assembly. *)

From S2P Require Import Prelude Bytes Mvex MvexDis MvexCalls Codegen CodegenFls CodegenProbe.

Local Open Scope Z_scope.
Local Open Scope phi_scope.

(** ** Lines and whole files *)

(** A line that can be written: its encoder call does not panic. *)
Definition line_ok (l : Line) : bool :=
  match l with
  | Vec c => call_in_range c
  | KInsn i => bool_decide (is_Some i)
  | _ => true
  end.

Lemma line_ok_text l : line_ok l = true -> is_Some (line_text l).
Proof.
  destruct l; cbn; try done.
  - intros Hc. destruct (run_call_returns c Hc) as [i ->]. by eexists.
  - intros Hc%bool_decide_eq_true. destruct Hc as [j ->]. by eexists.
Qed.

Lemma lines_ok_render ls : forallb line_ok ls = true -> is_Some (render ls).
Proof.
  induction ls as [|l ls IH]; cbn; [by eexists|]. intros [Hl Hls]%andb_true_iff.
  destruct (line_ok_text l Hl) as [t ->], (IH Hls) as [r ->]. by eexists.
Qed.

Lemma forallb_concat {A} (p : A -> bool) ls : forallb p (concat ls) = forallb (forallb p) ls.
Proof. induction ls as [|l ls IH]; [done|]. cbn. by rewrite forallb_app, IH. Qed.

Lemma forallb_fmap {A B} (p : B -> bool) (f : A -> B) l : forallb p (f <$> l) = forallb (fun x => p (f x)) l.
Proof. induction l as [|x l IH]; [done|]. cbn. by rewrite <- IH. Qed.

Lemma collect_ok {A} (f : A -> option (list Line)) l :
  forallb (fun x => match f x with Some ls => forallb line_ok ls | None => false end) l = true ->
  exists ls, collect f l = Some ls /\ forallb line_ok ls = true.
Proof.
  induction l as [|x l IH]; cbn; [by eexists|]. intros [Hx Hl]%andb_true_iff.
  destruct (f x) as [ls|]; [|done]. destruct (IH Hl) as (ls' & -> & Hls').
  eexists. split; [done|]. by rewrite forallb_app, Hx.
Qed.

Definition kernel_ok (o : option (list Line)) : bool :=
  match o with Some ls => forallb line_ok ls | None => false end.

Lemma unpack_lines_ok mode :
  forallb (fun bits => kernel_ok (unpack_kernel bits mode)) (range 1 33) = true.
Proof. destruct mode; vm_cast_no_check (eq_refl true). Qed.

Lemma pack_lines_ok : forallb (fun bits => forallb line_ok (pack_kernel bits)) (range 1 33) = true.
Proof. vm_cast_no_check (eq_refl true). Qed.

(** The rest of the file. *)
Lemma codec_tail_ok ts :
  collect transform_kernel [For; Delta] = Some ts ->
  forallb line_ok (ts ++ dispatch_thunks ++ dispatch_tables (range 1 33) ++ mask_constants (range 1 33) ++ note) = true.
Proof. intros Ht. cbn [collect transform_kernel mbind option_bind] in Ht. injection Ht as <-. vm_compute. reflexivity. Qed.

Lemma codec_lines_ok : exists ls, codec = Some ls /\ forallb line_ok ls = true.
Proof.
  unfold codec.
  destruct (collect_ok _ _ (unpack_lines_ok Plain)) as (u1 & E1 & O1),
    (collect_ok _ _ (unpack_lines_ok For)) as (u2 & E2 & O2),
    (collect_ok _ _ (unpack_lines_ok Delta)) as (u3 & E3 & O3).
  assert (exists us, collect (fun mode => collect (fun bits => unpack_kernel bits mode) (range 1 33))
      all_modes = Some us /\ forallb line_ok us = true) as (us & -> & Ous).
  { unfold all_modes. cbn [collect]. rewrite E1, E2, E3. cbn [mbind option_bind]. eexists. split; [reflexivity|].
    by rewrite !forallb_app, O1, O2, O3. }
  cbn [mbind option_bind].
  destruct (collect transform_kernel [For; Delta]) as [ts|] eqn:Et; [|discriminate Et].
  cbn [mbind option_bind]. eexists. split; [reflexivity|].
  rewrite (forallb_app _ (header _ _)), (forallb_app _ us), (forallb_app _ (concat _)), Ous, forallb_concat,
    forallb_fmap, pack_lines_ok, (codec_tail_ok ts Et). reflexivity.
Qed.


(** ** The other files *)

Lemma bitunpack_ok : kernel_ok bitunpack = true.
Proof. vm_cast_no_check (eq_refl true). Qed.

Lemma fastlanes_ok : kernel_ok fastlanes = true.
Proof. vm_cast_no_check (eq_refl true). Qed.

Lemma probe_ok : kernel_ok (Some probe) = true.
Proof. vm_cast_no_check (eq_refl true). Qed.

Lemma int_probe_ok : kernel_ok (Some int_probe) = true.
Proof. vm_cast_no_check (eq_refl true). Qed.

Lemma memcpy_kernel_ok : kernel_ok (Some memcpy_kernel) = true.
Proof. vm_cast_no_check (eq_refl true). Qed.

Lemma mandel_ok : kernel_ok (Some mandel) = true.
Proof. vm_cast_no_check (eq_refl true). Qed.

Lemma codec_ok : kernel_ok codec = true.
Proof. unfold kernel_ok. by destruct codec_lines_ok as (ls & -> & ->). Qed.

Lemma header_ok : bool_decide (is_Some kernel_header) = true.
Proof. vm_cast_no_check (eq_refl true). Qed.

(** The files of assembly, by the argument that asks for them. *)
Definition files : list (string * option (list Line)) :=
  [("probe", Some probe); ("int-probe", Some int_probe); ("bitunpack", bitunpack); ("codec", codec);
   ("fastlanes", fastlanes); ("memcpy", Some memcpy_kernel); ("mandel", Some mandel)]%string.

Lemma files_lines_ok : Forall (fun p => kernel_ok p.2 = true) files.
Proof.
  apply Forall_cons; split; [exact probe_ok|]. apply Forall_cons; split; [exact int_probe_ok|].
  apply Forall_cons; split; [exact bitunpack_ok|]. apply Forall_cons; split; [exact codec_ok|].
  apply Forall_cons; split; [exact fastlanes_ok|]. apply Forall_cons; split; [exact memcpy_kernel_ok|].
  apply Forall_cons; split; [exact mandel_ok|]. apply Forall_nil_2.
Qed.

#[export] Instance call_ok_dec c : Decision (call_ok c).
Proof.
  destruct c; cbn [call_ok]; unfold zmm_ok, mem_ok, k_ok, src_ok; repeat apply and_dec; try apply _;
    repeat case_match; apply _.
Defined.

(** The arguments of the encoder calls are within their types. *)
Definition calls_ok (ls : list Line) : bool :=
  forallb (fun l => match l with Vec c => bool_decide (call_ok c) | _ => true end) ls.

Lemma files_calls_ok : Forall (fun p => match p.2 with Some ls => calls_ok ls | None => false end = true) files.
Proof.
  assert (forallb (fun p => match p.2 with Some ls => calls_ok ls | None => false end) files = true) as Hf
    by vm_cast_no_check (eq_refl true).
  rewrite forallb_forall in Hf. apply Forall_forall. intros p Hp. apply Hf. by apply list_elem_of_In.
Qed.

Lemma files_ok what f : (what, f) ∈ files -> exists ls text, f = Some ls /\ render ls = Some text.
Proof.
  intros Hf. pose proof files_lines_ok as Hk. rewrite Forall_forall in Hk.
  specialize (Hk _ Hf). cbn in Hk. destruct f as [ls|]; [|done].
  destruct (lines_ok_render ls Hk) as [text Ht]. by exists ls, text.
Qed.

(** Evaluates the comparisons of the argument with the names. *)
Ltac compare_names :=
  repeat match goal with
  | |- context [String.eqb ?a ?b] =>
      let r := eval vm_compute in (String.eqb a b) in change (String.eqb a b) with r
  end; cbv beta iota.

Lemma main_file what f :
  (what, f) ∈ files -> main what = (t ← (l ← f; render l); Some (Ok t)).
Proof.
  unfold files. intros Hf.
  repeat (apply elem_of_cons in Hf as [[-> ->]%pair_equal_spec|Hf];
          [unfold main; cbv zeta; compare_names; reflexivity|]).
  by apply not_elem_of_nil in Hf.
Qed.

Lemma main_other what :
  Forall (fun p => p.1 <> what) files ->
  main what = if String.eqb what "kernel-header" then t ← kernel_header; Some (Ok t) else Some (Err 2).
Proof.
  unfold files. intros Hf. unfold main.
  repeat (apply Forall_cons in Hf as [Hw%not_eq_sym%String.eqb_neq Hf]; cbn [fst] in Hw; rewrite Hw; clear Hw).
  reflexivity.
Qed.

(** C33: the generator never panics: asked for one of the seven files of
    assembly it prints the text of all its lines, asked for the kernel header
    it prints the header, and with any other argument, or none, it prints
    nothing and exits with status 2. *)
Theorem main_total what :
  match list_find (fun p => p.1 = what) files with
  | Some (_, (_, f)) => exists ls text, f = Some ls /\ render ls = Some text /\ main what = Some (Ok text)
  | None => if String.eqb what "kernel-header"
            then exists text, kernel_header = Some text /\ main what = Some (Ok text)
            else main what = Some (Err 2)
  end.
Proof.
  destruct (list_find _ files) as [[i [w f]]|] eqn:E.
  - apply list_find_Some in E as (Hi & Hw & _). cbn in Hw. subst w.
    assert ((what, f) ∈ files) as Hf by (apply list_elem_of_lookup; by exists i).
    destruct (files_ok what f Hf) as (ls & text & -> & Ht). exists ls, text. split_and!; [done..|].
    rewrite (main_file _ _ Hf). cbn [mbind option_bind]. by rewrite Ht.
  - apply list_find_None in E. rewrite (main_other what E). destruct (String.eqb what _); [|done].
    pose proof header_ok as [t Ht]%bool_decide_eq_true. exists t. by rewrite Ht.
Qed.
