(* ===== verification/Blocks.v ===== *)
(** The block loops of host/crates/knc-mvex/src/main.rs, [memcpy_kernel]:
    [knc_memcpy64] copies and [knc_memset64] and [knc_memset64_ord] clear
    whole 64-byte blocks, four at a time and then one at a time, for any
    count. *)

From stdpp Require Import functions.
From S2P Require Import Prelude Bytes Mvex MvexDis MvexCalls Codegen Layout Fpu Vpu VpuCalls Symbolic Kernels.

Local Open Scope Z_scope.

(** ** The loops

    The three functions have one control structure: four blocks at a time
    from label 1 while four are left, then one at a time from label 3.  [Inv k]
    says that [k] of the [n] blocks are done. *)

Section Loops.
Context `{Vpu} (symbol : string -> Z) (prog : list Line) (n : Z) (Inv : Z -> State -> Prop).
(** The positions of the labels 1 to 4, and the lines of the two bodies. *)
Context (l1 l2 l3 l4 b4 b1 : nat).

Definition body_from (pc lines : nat) (st st' : State) : Prop :=
  exec_lines symbol (take lines (drop pc prog)) st = Some st' /\ (pc + lines <= length prog)%nat.

Context (four : forall k st, Inv k st -> k + 4 <= n ->
  exists st', body_from l1 b4 st st' /\ Inv (k + 4) st' /\ holds Jae st' = (4 <=? n - (k + 4))).
Context (one : forall k st, Inv k st -> k + 1 <= n ->
  exists st', body_from l3 b1 st st' /\ Inv (k + 1) st' /\ holds Jnz st' = negb (n - (k + 1) =? 0)).
Context (test : forall k st, Inv k st -> k <= n ->
  exists st', body_from l2 2 st st' /\ Inv k st' /\ holds Jz st' = (n - k =? 0)).
Context (jump4 : prog !! (l1 + b4)%nat = Some (Jump Jae 1 false))
  (to1 : target prog (l1 + b4) 1 false = Some l1) (next4 : S (l1 + b4) = l2).
Context (jump0 : prog !! (l2 + 2)%nat = Some (Jump Jz 4 true))
  (to4 : target prog (l2 + 2) 4 true = Some l4) (next0 : S (l2 + 2) = l3).
Context (jump1 : prog !! (l3 + b1)%nat = Some (Jump Jnz 3 false))
  (to3 : target prog (l3 + b1) 3 false = Some l3) (next1 : S (l3 + b1) = l4).

(** From this line the program reaches label 4 with everything done. *)
Definition finishes (pc : nat) (st : State) : Prop :=
  exists st', Inv n st' /\ forall o, ends symbol prog l4 st' o -> ends symbol prog pc st o.

Lemma finishes_body pc lines st st' pc' :
  body_from pc lines st st' -> finishes pc' st' ->
  (forall o, ends symbol prog pc' st' o -> ends symbol prog (pc + lines) st' o) -> finishes pc st.
Proof.
  intros [He Hl] (st2 & Hi & Hf) Hj. exists st2. split; [done|]. intros o Ho.
  eapply ends_lines; [exact He|done|]. by apply Hj, Hf.
Qed.

Lemma singles m k st : Inv k st -> k + 1 <= n -> n - k <= Z.of_nat m -> finishes l3 st.
Proof.
  revert k st. induction m as [|m IH]; intros k st Hi Hk Hm; [lia|].
  destruct (one k st Hi Hk) as (st' & Hb & Hi' & Hh).
  destruct (decide (n - (k + 1) = 0)) as [Hz|Hz].
  - eapply (finishes_body _ _ _ _ l4); [done|exists st'; split; [by replace n with (k + 1) by lia|done]|].
    intros o Ho. eapply ends_jump; [done..|]. rewrite Hh, Hz. cbn. by rewrite next1.
  - eapply (finishes_body _ _ _ _ l3); [done|apply (IH (k + 1)); [done|lia..]|].
    intros o Ho. eapply ends_jump; [done..|]. by rewrite Hh, (proj2 (Z.eqb_neq _ _) Hz).
Qed.

Lemma tail_finishes k st : Inv k st -> k <= n -> finishes l2 st.
Proof.
  intros Hi Hk. destruct (test k st Hi Hk) as (st' & Hb & Hi' & Hh).
  destruct (decide (n - k = 0)) as [Hz|Hz].
  - eapply (finishes_body _ _ _ _ l4); [done|exists st'; split; [by replace n with k by lia|done]|].
    intros o Ho. eapply ends_jump; [done..|]. by rewrite Hh, Hz.
  - eapply (finishes_body _ _ _ _ l3); [done|apply (singles (Z.to_nat (n - k)) k); [done|lia..]|].
    intros o Ho. eapply ends_jump; [done..|]. rewrite Hh, (proj2 (Z.eqb_neq _ _) Hz). by rewrite next0.
Qed.

Lemma fours m k st : Inv k st -> k + 4 <= n -> n - k <= Z.of_nat m -> finishes l1 st.
Proof.
  revert k st. induction m as [|m IH]; intros k st Hi Hk Hm; [lia|].
  destruct (four k st Hi Hk) as (st' & Hb & Hi' & Hh).
  destruct (4 <=? n - (k + 4)) eqn:E; bool_to_prop.
  - eapply (finishes_body _ _ _ _ l1); [done|apply (IH (k + 4)); [done|lia..]|].
    intros o Ho. eapply ends_jump; [done..|]. by rewrite Hh.
  - eapply (finishes_body _ _ _ _ l2); [done|apply (tail_finishes (k + 4)); [done|lia]|].
    intros o Ho. eapply ends_jump; [done..|]. rewrite Hh. by rewrite next4.
Qed.

(** The jump over the first loop. *)
Lemma blocks_finish pc st :
  Inv 0 st -> 0 <= n -> prog !! pc = Some (Jump Jb 2 true) -> target prog pc 2 true = Some l2 ->
  S pc = l1 -> holds Jb st = (n <? 4) -> finishes pc st.
Proof.
  intros Hi Hn Hj Ht Hs Hh. destruct (n <? 4) eqn:E; bool_to_prop.
  - destruct (tail_finishes 0 st) as (st' & Hi' & Hf); [done|lia|]. exists st'. split; [done|].
    intros o Ho. eapply ends_jump; [done..|]. rewrite Hh. by apply Hf.
  - destruct (fours (Z.to_nat n) 0 st) as (st' & Hi' & Hf); [done|lia..|]. exists st'. split; [done|].
    intros o Ho. eapply ends_jump; [done..|]. rewrite Hh, Hs. by apply Hf.
Qed.
End Loops.

(** ** The blocks written *)

Section Fill.
Context `{Vpu} (symbol : string -> Z) (st0 : State) (D n : Z) (V : Z -> Z).
Context (HD : D mod 64 = 0) (HD0 : 0 <= D) (HDn : D + 64 * n <= 2 ^ 64).

(** The first [k] blocks at [D] hold [V], the rest of the memory is
    untouched outside the [n] blocks. *)
Record filled (k : Z) (st : State) : Prop := {
  fill_rax : gpr st Rax = D;
  fill_rdi : gpr st Rdi = wrap 64 (D + 64 * k);
  fill_out i : 0 <= i < 64 * k -> i mod 4 = 0 -> ram st (D + i) = V i;
  fill_frame x : ~ (D <= x < D + 64 * n) -> ram st x = ram st0 x
}.

Definition fill_ok (a : Area) (rs : list Z) (ls : list Line) (b : Z) (E : Z -> Expr) : bool :=
  bool_decide (writes a = Arg Rdi) && (room a =? 64 * b)
  && match sym_lines a ls (entry [Rax; Rdi; Rsi; Rdx; Rsp] rs) with
     | Some s => keeps_arguments [Rax; Rdi; Rsi; Rdx; Rsp] s
                 && stores_exactly s ((fun i => (64 * i, E i)) <$> range 0 b)
                 && forallb (fun r => keeps s r (Old r)) rs
     | None => false
     end.

(** Writing the next [b] blocks. *)
Lemma fill_blocks a rs ls b E k st :
  fill_ok a rs ls b E = true -> area_ok symbol a (locate symbol st) ->
  filled k st -> 0 <= k -> 0 < b -> k + b <= n ->
  (forall i l, 0 <= i < b -> 0 <= l < LANES ->
    eval (locate symbol st) st l (E i) = V (64 * (k + i) + 4 * l)) ->
  exists st', exec_lines symbol ls st = Some st' /\
    (forall g, g ∈ [Rax; Rdi; Rsi; Rdx; Rsp] -> gpr st' g = gpr st g) /\
    (forall r l, r ∈ rs -> 0 <= l < LANES -> zmm st' r l = zmm st r l) /\
    (forall i, 0 <= i < 64 * (k + b) -> i mod 4 = 0 -> ram st' (D + i) = V i) /\
    (forall x, ~ (D <= x < D + 64 * n) -> ram st' x = ram st0 x).
Proof.
  intros Hf Ha Hi Hk Hb Hn HE. unfold fill_ok in Hf.
  destruct (sym_lines a ls _) as [s|] eqn:Hsym; [|by rewrite andb_false_r in Hf].
  rewrite !andb_true_iff, bool_decide_eq_true, Z.eqb_eq, forallb_forall in Hf.
  destruct Hf as ((Hw & Hr) & (Hka & Hst) & Hrs).
  destruct (segment symbol a (locate symbol st) st _ _ _ s Ha (fun g _ => eq_refl) Hsym) as (st' & He & Hs).
  assert (Hrdi : gpr st Rdi = D + 64 * k).
  { rewrite (fill_rdi k st Hi). apply wrap_small. unfold uint. lia. }
  exists st'. split_and!; [done| | | |].
  - intros g Hg. by apply (sim_arguments _ _ _ _ _ _ Hs Hka).
  - intros r l Hr' Hl. apply (kept_at _ _ _ _ _ r (Old r) l Hs); [|done].
    by apply Hrs, list_elem_of_In.
  - intros i Hi0 Him. destruct (decide (i < 64 * k)) as [Hlt|Hge].
    + rewrite (stored_frame _ _ s _ st st' _ Hs (exactly_only _ _ Hst)); [apply (fill_out k st Hi); [lia|done]|].
      intros d Hd. apply list_elem_of_fmap in Hd as (? & -> & Hd).
      apply list_elem_of_fmap in Hd as (j & -> & Hd%list_elem_of_In%in_range).
      cbn [fst]. rewrite Hw. cbn [locate]. unfold in_vector. lia.
    + set (j := (i - 64 * k) / 64). set (l := (i - 64 * k) mod 64 / 4).
      pose proof (Z.div_mod (i - 64 * k) 64 ltac:(lia)) as Hdm.
      pose proof (Z.mod_pos_bound (i - 64 * k) 64 ltac:(lia)).
      assert (Hl4 : (i - 64 * k) mod 64 = 4 * l).
      { subst l. Z.to_euclidean_division_equations. lia. }
      fold j in Hdm. assert (0 <= l < LANES) by (unfold LANES; lia). assert (0 <= j < b) by lia.
      assert (Hin : (64 * j, E j) ∈ (fun i => (64 * i, E i)) <$> range 0 b).
      { apply list_elem_of_fmap. exists j. split; [done|]. by apply list_elem_of_In, in_range. }
      pose proof (stored_at _ _ s _ st st' _ _ l Hs Hst Hin ltac:(done)) as Ho.
      rewrite Hw in Ho. cbn [locate] in Ho. rewrite HE in Ho by done.
      replace (D + i) with (gpr st Rdi + 64 * j + 4 * l) by lia. rewrite Ho. f_equal. lia.
  - intros x Hx. rewrite (sim_outside _ _ _ s st' x Hs); [by apply (fill_frame k st Hi)|].
    unfold outside. rewrite Hw, Hr. cbn [locate]. lia.
Qed.
End Fill.

(** The blocks from the [k]-th on are a buffer of their own. *)
Lemma buffer_part `{Space} n p k b :
  p mod 64 = 0 -> 0 <= p -> p + 64 * n <= 2 ^ 64 -> mapped_range p (64 * n) ->
  0 <= k -> k + b <= n -> buffer_at (p + 64 * k) (64 * b).
Proof.
  intros Hp H0 Hn Hm Hk Hb. split_and!; [|lia..|apply (mapped_sub p (64 * n)); [done|lia..]].
  rewrite Z.add_mod, Hp, Z.mul_comm, Z.mod_mul by lia. done.
Qed.

(** ** Copying *)

Definition copy_area (b : Z) : Area := mkArea [(Arg Rsi, 64 * b)] (Arg Rdi) (64 * b) [].

Definition copy_expr (i : Z) : Expr := Ld (Arg Rsi) (64 * i).

(** The loads and stores of the two loops. *)
Definition copy_lines4 : list Line := take 8 (drop 4 memcpy_body).
Definition copy_lines1 : list Line := take 2 (drop 21 memcpy_body).

Lemma copy_ok :
  fill_ok (copy_area 4) [] (Label 1 :: copy_lines4) 4 copy_expr
  && fill_ok (copy_area 1) [] (Label 3 :: copy_lines1) 1 copy_expr = true.
Proof. vm_compute. reflexivity. Qed.

Section Copy.
Context `{Vpu} (symbol : string -> Z) (st0 : State) (D S n : Z) (sig : string).
Context (HD : D mod 64 = 0) (HD0 : 0 <= D) (HDn : D + 64 * n <= 2 ^ 64).
Context (HS : S mod 64 = 0) (HS0 : 0 <= S) (HSn : S + 64 * n <= 2 ^ 64).
Context (HDm : mapped_range D (64 * n)) (HSm : mapped_range S (64 * n)).
Context (Happ : D + 64 * n <= S \/ S + 64 * n <= D) (Hn : 0 <= n).

Definition memcpy_prog : list Line := called memcpy_body "knc_memcpy64" sig.

(** After [k] blocks. *)
Definition copied (k : Z) (st : State) : Prop :=
  filled st0 D n (fun i => ram st0 (S + i)) k st /\ 0 <= k <= n /\
  gpr st Rsi = wrap 64 (S + 64 * k) /\ gpr st Rdx = n - k.

Lemma copy_step b ls k st :
  fill_ok (copy_area b) [] ls b copy_expr = true -> 0 < b -> copied k st -> k + b <= n ->
  exists st', exec_lines symbol ls st = Some st' /\
    (forall g, g ∈ [Rax; Rdi; Rsi; Rdx; Rsp] -> gpr st' g = gpr st g) /\
    (forall i, 0 <= i < 64 * (k + b) -> i mod 4 = 0 -> ram st' (D + i) = ram st0 (S + i)) /\
    (forall x, ~ (D <= x < D + 64 * n) -> ram st' x = ram st0 x).
Proof.
  intros Hok Hb (Hf & Hk & Hs & Hd) Hkb.
  assert (Hrdi : gpr st Rdi = D + 64 * k).
  { rewrite (fill_rdi _ _ _ _ k st Hf). apply wrap_small. unfold uint. lia. }
  assert (Hrsi : gpr st Rsi = S + 64 * k) by (rewrite Hs; apply wrap_small; unfold uint; lia).
  destruct (fill_blocks symbol st0 D n (fun i => ram st0 (S + i)) HD0 HDn (copy_area b) [] ls b copy_expr k st)
    as (st' & He & Hg & _ & Ho & Hfr); try done; try lia.
  - split_and!; [|intros b' m Hin|done|done].
    + unfold placed. cbn [writes room copy_area locate]. rewrite Hrdi. apply (buffer_part n); (done || lia).
    + apply list_elem_of_singleton in Hin as [= -> ->]. unfold placed, apart.
      cbn [writes room copy_area locate]. rewrite Hrdi, Hrsi. split; [apply (buffer_part n); (done || lia)|lia].
  - intros i l Hi Hl. cbn [eval copy_expr locate]. rewrite Hrsi.
    rewrite (fill_frame _ _ _ _ k st Hf) by (unfold LANES in Hl; lia). f_equal. lia.
  - by exists st'.
Qed.

Lemma wrap_add a b : wrap 64 (wrap 64 a + b) = wrap 64 (a + b).
Proof. unfold wrap. apply Zplus_mod_idemp_l. Qed.

Lemma copied_advance b k st st1 st2 :
  0 < b -> copied k st -> k + b <= n ->
  (forall g, g ∈ [Rax; Rdi; Rsi; Rdx; Rsp] -> gpr st1 g = gpr st g) ->
  (forall i, 0 <= i < 64 * (k + b) -> i mod 4 = 0 -> ram st1 (D + i) = ram st0 (S + i)) ->
  (forall x, ~ (D <= x < D + 64 * n) -> ram st1 x = ram st0 x) ->
  ram st2 = ram st1 -> gpr st2 Rax = gpr st1 Rax ->
  gpr st2 Rsi = wrap 64 (gpr st1 Rsi + 64 * b) -> gpr st2 Rdi = wrap 64 (gpr st1 Rdi + 64 * b) ->
  gpr st2 Rdx = wrap 64 (gpr st1 Rdx - b) ->
  copied (k + b) st2.
Proof.
  intros Hb (Hf & Hk & Hs & Hd) Hkb Hg Ho Hfr Hm Hrax Hrsi Hrdi Hrdx.
  rewrite Hg in Hrax, Hrsi, Hrdi, Hrdx by set_solver.
  split_and!; try lia.
  - split.
    + by rewrite Hrax, (fill_rax _ _ _ _ k st Hf).
    + rewrite Hrdi, (fill_rdi _ _ _ _ k st Hf), wrap_add. f_equal. lia.
    + intros i Hi Him. rewrite Hm. by apply Ho.
    + intros x Hx. rewrite Hm. by apply Hfr.
  - rewrite Hrsi, Hs, wrap_add. f_equal. lia.
  - rewrite Hrdx, Hd. rewrite wrap_small; [lia|]. unfold uint. lia.
Qed.

Lemma copied_count k st : copied k st -> gpr st Rdx = n - k /\ uint 64 (n - k) /\ 0 <= k <= n.
Proof. intros (_ & Hk & _ & ->). unfold uint. lia. Qed.

(** The scalar lines at the end of each loop. *)
Lemma advance_four st :
  exists st', exec_lines symbol
      [Scal (Addq 256 Rsi); Scal (Addq 256 Rdi); Scal (Subq 4 Rdx); Scal (Cmpq 4 Rdx)] st = Some st' /\
    ram st' = ram st /\ gpr st' Rax = gpr st Rax /\ gpr st' Rsi = wrap 64 (gpr st Rsi + 256) /\
    gpr st' Rdi = wrap 64 (gpr st Rdi + 256) /\ gpr st' Rdx = wrap 64 (gpr st Rdx - 4) /\
    holds Jae st' = negb (wrap 64 (gpr st' Rdx) <? 4).
Proof. eexists. by split. Qed.

Lemma advance_one st :
  exists st', exec_lines symbol
      [Scal (Addq 64 Rsi); Scal (Addq 64 Rdi); Scal (Decq Rdx)] st = Some st' /\
    ram st' = ram st /\ gpr st' Rax = gpr st Rax /\ gpr st' Rsi = wrap 64 (gpr st Rsi + 64) /\
    gpr st' Rdi = wrap 64 (gpr st Rdi + 64) /\ gpr st' Rdx = wrap 64 (gpr st Rdx - 1) /\
    holds Jnz st' = negb (gpr st' Rdx =? 0).
Proof. eexists. by split. Qed.

Lemma copied_four k st :
  copied k st -> k + 4 <= n ->
  exists st', body_from symbol memcpy_prog 4 13 st st' /\ copied (k + 4) st' /\
    holds Jae st' = (4 <=? n - (k + 4)).
Proof.
  intros Hi Hk. pose proof copy_ok as [Hok _]%andb_true_iff.
  destruct (copy_step 4 _ k st Hok ltac:(lia) Hi Hk) as (st1 & He & Hg & Ho & Hfr).
  destruct (advance_four st1) as (st2 & He2 & Hm & Ha & Hs & Hd & Hx & Hh).
  assert (Hc : copied (k + 4) st2) by (eapply (copied_advance 4 k st st1); done || lia).
  exists st2. split_and!; [split|done|].
  - change (take 13 (drop 4 memcpy_prog)) with
      ((Label 1 :: copy_lines4)
       ++ [Scal (Addq 256 Rsi); Scal (Addq 256 Rdi); Scal (Subq 4 Rdx); Scal (Cmpq 4 Rdx)]).
    by rewrite exec_lines_app, He.
  - by apply Nat.leb_le.
  - destruct (copied_count _ _ Hc) as (Hr & Hu & _). rewrite Hh, Hr, wrap_small by done. lia.
Qed.

Lemma copied_one k st :
  copied k st -> k + 1 <= n ->
  exists st', body_from symbol memcpy_prog 21 6 st st' /\ copied (k + 1) st' /\
    holds Jnz st' = negb (n - (k + 1) =? 0).
Proof.
  intros Hi Hk. pose proof copy_ok as [_ Hok]%andb_true_iff.
  destruct (copy_step 1 _ k st Hok ltac:(lia) Hi Hk) as (st1 & He & Hg & Ho & Hfr).
  destruct (advance_one st1) as (st2 & He2 & Hm & Ha & Hs & Hd & Hx & Hh).
  assert (Hc : copied (k + 1) st2) by (eapply (copied_advance 1 k st st1); done || lia).
  exists st2. split_and!; [split|done|].
  - change (take 6 (drop 21 memcpy_prog)) with
      ((Label 3 :: copy_lines1) ++ [Scal (Addq 64 Rsi); Scal (Addq 64 Rdi); Scal (Decq Rdx)]).
    by rewrite exec_lines_app, He.
  - by apply Nat.leb_le.
  - destruct (copied_count _ _ Hc) as (Hr & Hu & _). by rewrite Hh, Hr.
Qed.

Lemma copied_test k st :
  copied k st -> k <= n ->
  exists st', body_from symbol memcpy_prog 18 2 st st' /\ copied k st' /\ holds Jz st' = (n - k =? 0).
Proof.
  intros Hi Hk. exists (set_flags (gpr st Rdx =? 0) false (signed 64 (gpr st Rdx) <? 0) st).
  destruct (copied_count k st Hi) as (Hr & _).
  split_and!; [split; [done|by apply Nat.leb_le]| |by rewrite Hr].
  destruct Hi as ([? ? ? ?]&Hk0&?&?). split_and!; [by split|lia..|done|done].
Qed.

(** The whole function. *)
Lemma memcpy_run :
  gpr st0 Rdi = D -> gpr st0 Rsi = S -> gpr st0 Rdx = n -> D < 2 ^ 64 -> S < 2 ^ 64 ->
  exists st', ends symbol memcpy_prog 0 st0 (Returned st') /\ copied n st'.
Proof.
  intros Hd Hs Hx HD64 HS64.
  set (st1 := flags_sub 64 (gpr st0 Rdx) 4 (set_gpr Rax (gpr st0 Rdi) st0)).
  assert (Hi : copied 0 st1).
  { split_and!; [split|lia|lia| |]; cbn.
    - done.
    - change (gpr st0 Rdi = wrap 64 (D + 0)). rewrite Z.add_0_r, wrap_small; [done|unfold uint; lia].
    - lia.
    - done.
    - change (gpr st0 Rsi = wrap 64 (S + 0)). rewrite Z.add_0_r, wrap_small; [done|unfold uint; lia].
    - change (gpr st0 Rdx = n - 0). lia. }
  destruct (blocks_finish symbol memcpy_prog n copied 4 18 21 28 13 6) with (pc := 3%nat) (st := st1)
    as (st' & Hi' & Hf); try done.
  - apply copied_four.
  - apply copied_one.
  - apply copied_test.
  - cbn [holds cf st1 flags_sub set_flags]. rewrite Hx, wrap_small by (unfold uint; lia). done.
  - exists st'. split; [|done].
    eapply ends_line; [reflexivity|reflexivity|].
    eapply (ends_lines symbol 2 _ _ _ st1); [|by apply Nat.leb_le|].
    + done.
    + apply Hf. eapply ends_line; [reflexivity|reflexivity|]. by apply ends_ret.
Qed.
End Copy.

(** ** Clearing *)

Definition clear_area (b : Z) : Area := mkArea [] (Arg Rdi) (64 * b) [].

(** The stores of the two loops. *)
Definition clear_lines4 (ngo : bool) : list Line := take 4 (drop 5 (memset_insns ngo)).
Definition clear_lines1 (ngo : bool) : list Line := take 1 (drop 17 (memset_insns ngo)).

Lemma clear_ok :
  forallb (fun ngo =>
    fill_ok (clear_area 4) [0] (Label 1 :: clear_lines4 ngo) 4 (fun _ => Old 0)
    && fill_ok (clear_area 1) [0] (Label 3 :: clear_lines1 ngo) 1 (fun _ => Old 0)) [false; true] = true.
Proof. vm_compute. reflexivity. Qed.

(** The top of the stack, which the fence locks. *)
Definition stack_ok `{Space} (st : State) : Prop :=
  gpr st Rsp mod 4 = 0 /\ mapped_range (gpr st Rsp) 8.

#[export] Instance stack_ok_dec `{Space} st : Decision (stack_ok st).
Proof. unfold stack_ok; apply _. Defined.

(** The end of the function: the fence of the unordered form, and [ret]. *)
Lemma memset_end `{Vpu} symbol ngo name sig st :
  (ngo = true -> stack_ok st) ->
  exists st', ends symbol (called (memset_insns ngo) name sig) 22 st (Returned st') /\
    ram st' = ram st /\ zmm st' = zmm st /\ gpr st' = gpr st.
Proof.
  intros Hst.
  exists (if ngo then set_flags (qword st (gpr st Rsp) =? 0) false (signed 64 (qword st (gpr st Rsp)) <? 0) st else st).
  split; [|by destruct ngo].
  destruct ngo; (eapply ends_line; [reflexivity|reflexivity|]); [|by apply ends_ret].
  destruct (Hst eq_refl) as [Hs4 Hsm].
  eapply ends_line; [reflexivity| |by apply ends_ret]. cbn. by rewrite qword_mapped.
Qed.

Section Clear.
Context `{Vpu} (symbol : string -> Z) (ngo : bool) (st0 : State) (D n : Z) (name sig : string).
Context (HD : D mod 64 = 0) (HD0 : 0 <= D) (HDn : D + 64 * n <= 2 ^ 64) (Hn : 0 <= n).
Context (HDm : mapped_range D (64 * n)).

Definition memset_prog : list Line := called (memset_insns ngo) name sig.

(** After [k] blocks. *)
Definition cleared (k : Z) (st : State) : Prop :=
  filled st0 D n (fun _ => 0) k st /\ 0 <= k <= n /\ gpr st Rsi = n - k /\
  (forall l, 0 <= l < LANES -> zmm st 0 l = 0) /\ gpr st Rsp = gpr st0 Rsp.

Lemma clear_step b ls k st :
  fill_ok (clear_area b) [0] ls b (fun _ => Old 0) = true -> 0 < b -> cleared k st -> k + b <= n ->
  exists st', exec_lines symbol ls st = Some st' /\
    (forall g, g ∈ [Rax; Rdi; Rsi; Rdx; Rsp] -> gpr st' g = gpr st g) /\
    (forall l, 0 <= l < LANES -> zmm st' 0 l = 0) /\
    (forall i, 0 <= i < 64 * (k + b) -> i mod 4 = 0 -> ram st' (D + i) = 0) /\
    (forall x, ~ (D <= x < D + 64 * n) -> ram st' x = ram st0 x).
Proof.
  intros Hok Hb (Hf & Hk & Hs & Hz & _) Hkb.
  assert (Hrdi : gpr st Rdi = D + 64 * k).
  { rewrite (fill_rdi _ _ _ _ k st Hf). apply wrap_small. unfold uint. lia. }
  destruct (fill_blocks symbol st0 D n (fun _ => 0) HD0 HDn (clear_area b) [0] ls b (fun _ => Old 0) k st)
    as (st' & He & Hg & Hzm & Ho & Hfr); try done; try lia.
  - split_and!; [|intros b' m Hin; by apply not_elem_of_nil in Hin|done|done].
    unfold placed. cbn [writes room clear_area locate]. rewrite Hrdi. apply (buffer_part n); (done || lia).
  - intros i l Hi Hl. by apply Hz.
  - exists st'. split_and!; try done. intros l Hl. rewrite Hzm by (done || by left). by apply Hz.
Qed.

Lemma cleared_advance b k st st1 st2 :
  0 < b -> cleared k st -> k + b <= n ->
  (forall g, g ∈ [Rax; Rdi; Rsi; Rdx; Rsp] -> gpr st1 g = gpr st g) ->
  (forall l, 0 <= l < LANES -> zmm st1 0 l = 0) ->
  (forall i, 0 <= i < 64 * (k + b) -> i mod 4 = 0 -> ram st1 (D + i) = 0) ->
  (forall x, ~ (D <= x < D + 64 * n) -> ram st1 x = ram st0 x) ->
  ram st2 = ram st1 -> zmm st2 = zmm st1 -> gpr st2 Rax = gpr st1 Rax -> gpr st2 Rsp = gpr st1 Rsp ->
  gpr st2 Rdi = wrap 64 (gpr st1 Rdi + 64 * b) -> gpr st2 Rsi = wrap 64 (gpr st1 Rsi - b) ->
  cleared (k + b) st2.
Proof.
  intros Hb (Hf & Hk & Hs & _ & Hsp) Hkb Hg Hz Ho Hfr Hm Hzm Hrax Hrsp Hrdi Hrsi.
  rewrite Hg in Hrax, Hrsp, Hrsi, Hrdi by set_solver.
  split_and!; try lia.
  - split.
    + by rewrite Hrax, (fill_rax _ _ _ _ k st Hf).
    + rewrite Hrdi, (fill_rdi _ _ _ _ k st Hf), wrap_add. f_equal. lia.
    + intros i Hi Him. rewrite Hm. by apply Ho.
    + intros x Hx. rewrite Hm. by apply Hfr.
  - rewrite Hrsi, Hs. rewrite wrap_small; [lia|]. unfold uint. lia.
  - intros l Hl. rewrite Hzm. by apply Hz.
Qed.

Lemma cleared_count k st : cleared k st -> gpr st Rsi = n - k /\ uint 64 (n - k).
Proof. intros (_ & Hk & -> & _). unfold uint. lia. Qed.

Lemma clear_advance_four st :
  exists st', exec_lines symbol
      [Scal (Addq 256 Rdi); Scal (Subq 4 Rsi); Scal (Cmpq 4 Rsi)] st = Some st' /\
    ram st' = ram st /\ zmm st' = zmm st /\ gpr st' Rax = gpr st Rax /\ gpr st' Rsp = gpr st Rsp /\
    gpr st' Rdi = wrap 64 (gpr st Rdi + 256) /\ gpr st' Rsi = wrap 64 (gpr st Rsi - 4) /\
    holds Jae st' = negb (wrap 64 (gpr st' Rsi) <? 4).
Proof. eexists. by split. Qed.

Lemma clear_advance_one st :
  exists st', exec_lines symbol [Scal (Addq 64 Rdi); Scal (Decq Rsi)] st = Some st' /\
    ram st' = ram st /\ zmm st' = zmm st /\ gpr st' Rax = gpr st Rax /\ gpr st' Rsp = gpr st Rsp /\
    gpr st' Rdi = wrap 64 (gpr st Rdi + 64) /\ gpr st' Rsi = wrap 64 (gpr st Rsi - 1) /\
    holds Jnz st' = negb (gpr st' Rsi =? 0).
Proof. eexists. by split. Qed.

Lemma clear_checks :
  fill_ok (clear_area 4) [0] (Label 1 :: clear_lines4 ngo) 4 (fun _ => Old 0) = true /\
  fill_ok (clear_area 1) [0] (Label 3 :: clear_lines1 ngo) 1 (fun _ => Old 0) = true.
Proof.
  pose proof clear_ok as Hc. rewrite forallb_forall in Hc. apply andb_true_iff, Hc.
  destruct ngo; cbn; tauto.
Qed.

Lemma cleared_four k st :
  cleared k st -> k + 4 <= n ->
  exists st', body_from symbol memset_prog 5 8 st st' /\ cleared (k + 4) st' /\
    holds Jae st' = (4 <=? n - (k + 4)).
Proof.
  intros Hi Hk. destruct clear_checks as [Hok _].
  destruct (clear_step 4 _ k st Hok ltac:(lia) Hi Hk) as (st1 & He & Hg & Hz & Ho & Hfr).
  destruct (clear_advance_four st1) as (st2 & He2 & Hm & Hzm & Ha & Hp & Hd & Hs & Hh).
  assert (Hc : cleared (k + 4) st2) by (eapply (cleared_advance 4 k st st1); done || lia).
  exists st2. split_and!; [split|done|].
  - change (take 8 (drop 5 memset_prog)) with
      ((Label 1 :: clear_lines4 ngo) ++ [Scal (Addq 256 Rdi); Scal (Subq 4 Rsi); Scal (Cmpq 4 Rsi)]).
    by rewrite exec_lines_app, He.
  - by apply Nat.leb_le.
  - destruct (cleared_count _ _ Hc) as (Hr & Hu). rewrite Hh, Hr, wrap_small by done. lia.
Qed.

Lemma cleared_one k st :
  cleared k st -> k + 1 <= n ->
  exists st', body_from symbol memset_prog 17 4 st st' /\ cleared (k + 1) st' /\
    holds Jnz st' = negb (n - (k + 1) =? 0).
Proof.
  intros Hi Hk. destruct clear_checks as [_ Hok].
  destruct (clear_step 1 _ k st Hok ltac:(lia) Hi Hk) as (st1 & He & Hg & Hz & Ho & Hfr).
  destruct (clear_advance_one st1) as (st2 & He2 & Hm & Hzm & Ha & Hp & Hd & Hs & Hh).
  assert (Hc : cleared (k + 1) st2) by (eapply (cleared_advance 1 k st st1); done || lia).
  exists st2. split_and!; [split|done|].
  - change (take 4 (drop 17 memset_prog)) with
      ((Label 3 :: clear_lines1 ngo) ++ [Scal (Addq 64 Rdi); Scal (Decq Rsi)]).
    by rewrite exec_lines_app, He.
  - by apply Nat.leb_le.
  - destruct (cleared_count _ _ Hc) as (Hr & Hu). by rewrite Hh, Hr.
Qed.

Lemma cleared_test k st :
  cleared k st -> k <= n ->
  exists st', body_from symbol memset_prog 14 2 st st' /\ cleared k st' /\ holds Jz st' = (n - k =? 0).
Proof.
  intros Hi Hk. exists (set_flags (gpr st Rsi =? 0) false (signed 64 (gpr st Rsi) <? 0) st).
  destruct (cleared_count k st Hi) as (Hr & _).
  split_and!; [split; [done|by apply Nat.leb_le]| |by rewrite Hr].
  destruct Hi as ([? ? ? ?]&Hk0&?&?&?). split_and!; [by split|lia..|done|done|done].
Qed.

(** The register the stores use is cleared first. *)
Lemma exec_clear st :
  exists st', exec_lines symbol [Scal (Movq Rdi Rax); zop Vpxord 0 0 0; Scal (Cmpq 4 Rsi)] st = Some st' /\
    ram st' = ram st /\ gpr st' Rax = gpr st Rdi /\ gpr st' Rdi = gpr st Rdi /\
    gpr st' Rsi = gpr st Rsi /\ gpr st' Rsp = gpr st Rsp /\ (forall l, zmm st' 0 l = 0) /\
    holds Jb st' = (wrap 64 (gpr st Rsi) <? wrap 64 4).
Proof.
  pose proof (exec_op Vpxord Z.lxor 0 0 (SrcReg (mkZmm 0)) 0 (set_gpr Rax (gpr st Rdi) st) _
    eq_refl eq_refl eq_refl eq_refl eq_refl eq_refl) as Hx. fold k0 in Hx.
  cbn [exec_lines exec_line exec_scalar mbind option_bind]. unfold zop at 1. cbn [exec_line].
  rewrite Hx. cbn [mbind option_bind]. eexists. split; [reflexivity|]. split_and!; try done.
  intros l. cbn [zmm flags_sub set_flags set_zmm set_gpr]. rewrite fn_lookup_insert. unfold merge32. cbn.
  apply Z.lxor_nilpotent.
Qed.

(** The whole function. *)
Lemma memset_run :
  gpr st0 Rdi = D -> gpr st0 Rsi = n -> D < 2 ^ 64 -> (ngo = true -> stack_ok st0) ->
  exists st', ends symbol memset_prog 0 st0 (Returned st') /\ cleared n st'.
Proof.
  intros Hd Hs HD64 Hst.
  destruct (exec_clear st0) as (st1 & He & Hm & Hrax & Hrdi & Hrsi & Hrsp & Hz & Hh).
  assert (Hi : cleared 0 st1).
  { split_and!; [split|lia|lia| | |done].
    - by rewrite Hrax.
    - rewrite Hrdi, Hd, Z.add_0_r, wrap_small; [done|unfold uint; lia].
    - lia.
    - intros x _. by rewrite Hm.
    - lia.
    - intros l _. apply Hz. }
  destruct (blocks_finish symbol memset_prog n cleared 5 14 17 22 8 4) with (pc := 4%nat) (st := st1)
    as (st' & Hi' & Hf); try done.
  - apply cleared_four.
  - apply cleared_one.
  - apply cleared_test.
  - rewrite Hh, Hs, wrap_small by (unfold uint; lia). done.
  - destruct Hi' as ([? ? ? ?]&?&?&?&Hsp').
    destruct (memset_end symbol ngo name sig st') as (st2 & Hend & Hm2 & Hz2 & Hg2);
      [unfold stack_ok; by rewrite Hsp'|].
    exists st2. split.
    + eapply ends_line; [reflexivity|reflexivity|].
      eapply (ends_lines symbol 3 _ _ _ st1); [exact He|by apply Nat.leb_le|]. by apply Hf.
    + unfold cleared.
      split_and!; [split; by rewrite ?Hg2, ?Hm2|lia..|by rewrite Hg2|by rewrite Hz2|by rewrite Hg2].
Qed.
End Clear.

(** ** The theorems *)

(** A region of whole blocks inside the address space, mapped. *)
Definition blocks_at `{Space} (p n : Z) : Prop :=
  p mod 64 = 0 /\ 0 <= p < 2 ^ 64 /\ 0 <= n /\ p + 64 * n <= 2 ^ 64 /\ mapped_range p (64 * n).

#[export] Instance blocks_at_dec `{Space} p n : Decision (blocks_at p n).
Proof. unfold blocks_at; apply _. Defined.

(** What [knc_memcpy64] leaves behind. *)
Definition memcpy_result (st st' : State) : Prop :=
  gpr st' Rax = gpr st Rdi /\
  (forall i, 0 <= i < 64 * gpr st Rdx -> i mod 4 = 0 ->
     ram st' (gpr st Rdi + i) = ram st (gpr st Rsi + i)) /\
  (forall x, ~ (gpr st Rdi <= x < gpr st Rdi + 64 * gpr st Rdx) -> ram st' x = ram st x).

(** What it needs: aligned regions that do not overlap. *)
Definition memcpy_ready `{Space} (st : State) : Prop :=
  blocks_at (gpr st Rdi) (gpr st Rdx) /\ blocks_at (gpr st Rsi) (gpr st Rdx) /\
  (gpr st Rdi + 64 * gpr st Rdx <= gpr st Rsi \/ gpr st Rsi + 64 * gpr st Rdx <= gpr st Rdi).

Lemma memcpy_runs `{Vpu} symbol sig st :
  memcpy_ready st ->
  exists st', ends symbol (memcpy_prog sig) 0 st (Returned st') /\ memcpy_result st st'.
Proof.
  intros ((HD & HDu & Hn & HDn & HDm) & (HS & HSu & _ & HSn & HSm) & Hap).
  destruct (memcpy_run symbol st (gpr st Rdi) (gpr st Rsi) (gpr st Rdx) sig) as (st' & He & [? ? ? ?] & _);
    try done; try lia.
  by exists st'.
Qed.

(** C28: [knc_memcpy64] copies: for every count of blocks, zero included, the
    function returns without a fault, with the destination in [rax], every
    word of the blocks copied, and the rest of memory unchanged, when the two
    regions are aligned, mapped and do not overlap. *)
Theorem memcpy_correct `{Vpu} symbol sig st :
  memcpy_ready st ->
  exists st', ends symbol (memcpy_prog sig) 0 st (Returned st') /\ memcpy_result st st'.
Proof. apply memcpy_runs. Qed.

Definition demo_blocks (n : Z) : State :=
  mkState (fun _ _ => 0) (fun g => match g with Rdi => 65536 | Rsi => 131072 | Rdx => n | Rsp => 1040384 | _ => 0 end)
    (fun a => a mod 1000) (fun _ => 0) false false false.

Lemma memcpy_correct_witness :
  exists st', @ends reference_vpu (fun _ => 0) (memcpy_prog "") 0 (demo_blocks 7) (Returned st') /\
    gpr st' Rax = 65536 /\ ram st' (65536 + 444) = (131072 + 444) mod 1000.
Proof.
  destruct (@memcpy_correct reference_vpu (fun _ => 0) "" (demo_blocks 7)) as (st' & He & Ha & Ho & _).
  - concrete.
  - exists st'. split_and!; [done|done|]. apply (Ho 444); concrete.
Defined.

Lemma memset_returns (V : Vpu) symbol ngo name sig st :
  blocks_at (gpr st Rdi) (gpr st Rsi) -> (ngo = true -> stack_ok st) ->
  exists st', ends symbol (memset_prog ngo name sig) 0 st (Returned st') /\ gpr st' Rax = gpr st Rdi /\
    (forall i, 0 <= i < 64 * gpr st Rsi -> i mod 4 = 0 -> ram st' (gpr st Rdi + i) = 0) /\
    (forall x, ~ (gpr st Rdi <= x < gpr st Rdi + 64 * gpr st Rsi) -> ram st' x = ram st x).
Proof.
  intros (HD & HDu & Hn & HDn & HDm) Hst.
  destruct (memset_run symbol ngo st (gpr st Rdi) (gpr st Rsi) name sig) as (st' & He & [? ? ? ?] & _);
    try done; try lia.
  by exists st'.
Qed.

(** The two [memset] functions clear: for every count of blocks they
    return without a fault, with the destination in [rax], every word of the
    blocks zero, and the rest of memory unchanged; the unordered form, which
    stores without reading and ends with a fence on the top of the stack,
    leaves the same memory. *)
Theorem memset_correct `{Vpu} symbol ngo name sig st :
  blocks_at (gpr st Rdi) (gpr st Rsi) -> (ngo = true -> stack_ok st) ->
  exists st', ends symbol (memset_prog ngo name sig) 0 st (Returned st') /\ gpr st' Rax = gpr st Rdi /\
    (forall i, 0 <= i < 64 * gpr st Rsi -> i mod 4 = 0 -> ram st' (gpr st Rdi + i) = 0) /\
    (forall x, ~ (gpr st Rdi <= x < gpr st Rdi + 64 * gpr st Rsi) -> ram st' x = ram st x).
Proof. apply memset_returns. Qed.

Lemma memset_correct_witness :
  exists st', @ends reference_vpu (fun _ => 0) (memset_prog true "knc_memset64" "") 0
      (set_gpr Rsi 9 (demo_blocks 0)) (Returned st') /\
    gpr st' Rax = 65536 /\ ram st' (65536 + 572) = 0.
Proof.
  destruct (@memset_correct reference_vpu (fun _ => 0) true "knc_memset64" "" (set_gpr Rsi 9 (demo_blocks 0)))
    as (st' & He & Ha & Ho & _).
  - concrete.
  - intros _. concrete.
  - exists st'. split_and!; [done|done|]. apply (Ho 572); concrete.
Defined.
