(* ===== verification/Knc.v ===== *)
(** The entry points of libknc (the thunks of
    host/crates/knc-mvex/src/main.rs, [dispatch_thunks]) and the crate that
    calls them (card/lib/knc-rs/src/lib.rs): the dispatch on the width, the
    copy and clear loops, [Codec] with its width check, and [memcpy64] with
    its checks. *)

From stdpp Require Import functions.
From S2P Require Import Prelude Bytes Mvex MvexDis MvexCalls Codegen Layout Fpu Vpu VpuCalls Symbolic Kernels KernelsPack Blocks.

Local Open Scope Z_scope.

(** ** The dispatch thunks *)

Section Dispatch.
Context `{Vpu} (symbol : string -> Z).

Definition thunk (what : string) (base : bool) (sig : string) : list Line :=
  called (thunk_body what base) ("knc_" +:+ what) sig.

(** The width argument, an [unsigned] in [edx]. *)
Definition width (st : State) : Z := wrap 32 (gpr st Rdx).
Definition valid_width (bits : Z) : bool := (1 <=? bits) && (bits <=? 32).

(** [decl], [cmpl $31], [ja]: the jump is taken exactly for a width outside
    1 to 32. *)
Lemma width_test bits :
  uint 32 bits ->
  negb (wrap 32 (wrap 32 (bits - 1)) <? wrap 32 31) && negb (wrap 32 (wrap 32 (bits - 1)) =? wrap 32 31)
  = negb (valid_width bits).
Proof.
  intros [??]. unfold valid_width.
  rewrite (wrap_small 32 (wrap 32 (bits - 1))) by (apply wrap_uint; lia).
  change (wrap 32 31) with 31. destruct (decide (bits = 0)) as [->|]; [done|].
  rewrite wrap_small by (unfold uint; lia). lia.
Qed.

(** The state in which a thunk leaves for the kernel: the base is in [rdx]
    for the kernels that take one, nothing else the kernels use has
    changed. *)
Definition dispatched (base : bool) (st st' : State) : Prop :=
  ram st' = ram st /\ zmm st' = zmm st /\
  gpr st' Rdi = gpr st Rdi /\ gpr st' Rsi = gpr st Rsi /\
  gpr st' Rdx = gpr st (if base then Rcx else Rdx).

(** The address in the dispatch table at a width. *)
Definition table_address (what : string) (bits : Z) : Z := symbol (table_name what) + 8 * bits.

(** What the first three lines do: the width less one in [rax], compared. *)
Lemma thunk_test st :
  exists st', exec_lines symbol [Scal (Movl Rdx Rax); Scal (Decl Rax); Scal (Cmpl 31 Rax)] st = Some st' /\
    holds Ja st' = negb (valid_width (width st)) /\ gpr st' Rax = wrap 32 (width st - 1) /\
    ram st' = ram st /\ zmm st' = zmm st /\ (forall g, g <> Rax -> gpr st' g = gpr st g).
Proof.
  eexists. split; [reflexivity|]. split_and!; try done.
  - rewrite <- (width_test (width st)) by (apply wrap_uint; lia). done.
  - intros g Hg. cbn [gpr flags_sub set_flags set_gpr]. by rewrite !fn_lookup_insert_ne.
Qed.

(** What a thunk does before it jumps through its table. *)
Lemma thunk_load what base st :
  exists st', exec_lines symbol
      ((if base : bool then [Scal (Movq Rcx Rdx)] else []) ++ [Scal (Leaq (table_name what) R9)]) st = Some st' /\
    dispatched base st st' /\ gpr st' R9 = symbol (table_name what) /\ gpr st' Rax = gpr st Rax.
Proof. destruct base; eexists; by (split; [reflexivity|]). Qed.

Lemma thunk_jumps what base sig st :
  symbol (table_name what) mod 8 = 0 -> 0 <= symbol (table_name what) ->
  symbol (table_name what) + 264 <= 2 ^ 64 -> mapped_range (symbol (table_name what)) 264 ->
  valid_width (width st) = true ->
  exists st', dispatched base st st' /\
    ends symbol (thunk what base sig) 0 st (Left (qword st (table_address what (width st))) st').
Proof.
  intros Hal Hlo Hhi Hmp Hw.
  destruct (thunk_test st) as (st1 & H1 & Hj & Ha & Hm & Hz & Hg).
  destruct (thunk_load what base st1) as (st2 & H2 & (Hm2 & Hz2 & Hd & Hs & Hx) & H9 & Ha2).
  assert (dispatched base st st2).
  { unfold dispatched. rewrite Hm2, Hz2, Hd, Hs, Hx, !Hg by (by destruct base). done. }
  exists st2. split; [done|].
  replace (qword st (table_address what (width st))) with (qword st2 (table_address what (width st)))
    by (unfold qword; by rewrite Hm2, Hm).
  unfold valid_width in Hw.
  assert (Hta : table_address what (width st) = wrap 64 (gpr st2 R9 + 8 * gpr st2 Rax + 8)).
  { rewrite H9, Ha2, Ha, (wrap_small 32) by (unfold uint; lia).
    unfold table_address. rewrite wrap_small by (unfold uint; lia). lia. }
  assert (Hm4 : table_address what (width st) mod 4 = 0).
  { unfold table_address. pose proof (Z.div_mod (symbol (table_name what)) 8).
    symmetry. apply (Z.mod_unique _ 4 (2 * (symbol (table_name what) / 8) + 2 * width st)); lia. }
  assert (Hq : qword_ok (table_address what (width st)) = true).
  { apply qword_mapped; [done|]. unfold table_address. apply (mapped_sub _ _ _ _ Hmp); lia. }
  eapply ends_line; [reflexivity|reflexivity|].
  eapply (ends_lines symbol 3); [exact H1|cbn; lia|].
  destruct base.
  - eapply ends_jump; [reflexivity|reflexivity|]. rewrite Hj. unfold valid_width. rewrite Hw. cbn [negb].
    eapply (ends_lines symbol 2); [exact H2|cbn; lia|]. by eapply ends_table.
  - eapply ends_jump; [reflexivity|reflexivity|]. rewrite Hj. unfold valid_width. rewrite Hw. cbn [negb].
    eapply (ends_lines symbol 1); [exact H2|cbn; lia|]. by eapply ends_table.
Qed.

Lemma thunk_refuses what base sig st :
  valid_width (width st) = false ->
  exists st', ram st' = ram st /\ ends symbol (thunk what base sig) 0 st (Returned st').
Proof.
  intros Hw. destruct (thunk_test st) as (st1 & H1 & Hj & _ & Hm & _).
  exists st1. split; [done|].
  eapply ends_line; [reflexivity|reflexivity|].
  eapply (ends_lines symbol 3); [exact H1|cbn; lia|].
  destruct base; (eapply ends_jump; [reflexivity|reflexivity|]); rewrite Hj, Hw; cbn [negb];
    (eapply ends_line; [reflexivity|reflexivity|]); by apply ends_ret.
Qed.
End Dispatch.

(** ** The library, linked *)

(** The functions and dispatch tables of libknc in an image: the code at each
    function's address, and the table entries of one width. *)
Record linked `{Vpu} (symbol : string -> Z) (code : Z -> option (list Line)) (bits : Z) : Prop := {
  link_unpack mode prog : unpack_kernel bits mode = Some prog ->
    code (symbol (unpack_name mode bits)) = Some prog;
  link_pack : code (symbol (pack_name bits)) = Some (pack_kernel bits);
  link_thunk what base sig : (what, base, sig) ∈ thunk_specs ->
    code (symbol ("knc_" +:+ what)) = Some (thunk what base sig)
}.

Record tables_loaded `{Space} (symbol : string -> Z) (st : State) (bits : Z) : Prop := {
  table_placed what base sig : (what, base, sig) ∈ thunk_specs ->
    symbol (table_name what) mod 8 = 0 /\ 0 <= symbol (table_name what) /\
    symbol (table_name what) + 264 <= 2 ^ 64 /\ mapped_range (symbol (table_name what)) 264;
  table_entry what base sig name : (what, base, sig) ∈ thunk_specs ->
    table_entries what (range 1 33) !! Z.to_nat bits = Some (Some name) ->
    qword st (table_address symbol what bits) = symbol name
}.

(** A call to an address: the code there runs until it returns; leaving for
    another address is a tail call. *)
Inductive call `{Vpu} (symbol : string -> Z) (code : Z -> option (list Line)) :
  Z -> State -> State -> Prop :=
| call_returns a prog st st' :
    code a = Some prog -> ends symbol prog 0 st (Returned st') -> call symbol code a st st'
| call_leaves a prog st b st1 st' :
    code a = Some prog -> ends symbol prog 0 st (Left b st1) -> call symbol code b st1 st' ->
    call symbol code a st st'.

(** ** [Codec] *)

(** [Codec]: a width that was checked once. *)
Record Codec := mkCodec { c_bits : Z }.

(** [Codec::new]; the error is [WidthError]. *)
Definition codec_new (bits : Z) : result Z Codec :=
  if (1 <=? bits) && (bits <=? 32) then Ok (mkCodec bits) else Err bits.

Definition words (c : Codec) : Z := BLOCK * c_bits c / 32.
Definition packed_bytes (c : Codec) : Z := words c * 4.

(** The state a kernel starts from: the thunk moved the base. *)
Definition with_base (base : bool) (st : State) : State :=
  set_gpr Rdx (gpr st (if base then Rcx else Rdx)) st.

Definition takes_base (mode : Mode) : bool := match mode with Plain => false | _ => true end.

(** What the kernels need depends on memory and on the argument registers
    only. *)
Lemma area_ok_ext `{Space} symbol a st st' :
  (forall b n, (b, n) ∈ (writes a, room a) :: reads a ++ loose a ->
    locate symbol st' b = locate symbol st b) ->
  area_ok symbol a (locate symbol st) -> area_ok symbol a (locate symbol st').
Proof.
  intros He (Hw & Hr & Hs & Hl). assert (Hwr := He (writes a) (room a) (list_elem_of_here _ _)).
  assert (Hin : forall b n, (b, n) ∈ reads a ++ loose a -> locate symbol st' b = locate symbol st b)
    by (intros b n Hb; apply (He b n); by right).
  split_and!; [by unfold placed in *; rewrite Hwr| |done|].
  - intros b n Hb. destruct (Hr b n Hb). unfold placed, apart in *.
    rewrite Hwr, (Hin b n) by (apply elem_of_app; by left). done.
  - assert (Hlo : forall b n, (b, n) ∈ loose a -> locate symbol st' b = locate symbol st b)
      by (intros b n Hb; apply (Hin b n), elem_of_app; by right).
    clear He Hin Hr. induction (loose a) as [|[b n] ps IH]; [done|]. destruct Hl as [Hp Hps].
    split; [|apply IH; [done|]; intros b' n' Hb; apply (Hlo b' n'); by right].
    unfold loosely_placed, apart in *. cbn [fst snd] in *.
    rewrite Hwr, (Hlo b n) by left. done.
Qed.

Section Entry.
Context `{Vpu} (symbol : string -> Z) (code : Z -> option (list Line)).

Lemma ready_dispatched bits mode base st st1 :
  dispatched base st st1 -> unpack_ready symbol bits mode (with_base base st) ->
  unpack_ready symbol bits mode st1.
Proof.
  intros (Hm & Hz & Hd & Hs & Hx) (Hb & Hu & Ha & Hc). split_and!; [lia|lia| | |].
  - intros x Hx4. rewrite Hm. by apply Hu.
  - apply (area_ok_ext _ _ (with_base base st)); [|done]. intros b n Hin.
    assert (b = Arg Rdi \/ b = Arg Rsi \/ b = Arg Rdx \/ exists x, b = Sym x) as Hcase.
    { destruct mode; cbn in Hin; destruct (bits <? 32); set_solver. }
    destruct Hcase as [->|[->|[->|[x ->]]]]; cbn [locate with_base set_gpr gpr]; try done.
  - intros name ws i x Hn Hi. rewrite Hm. by eapply (Hc name).
Qed.

Lemma result_dispatched bits mode base st st1 st' :
  dispatched base st st1 -> unpack_result bits mode st1 st' ->
  unpack_result bits mode (with_base base st) st'.
Proof.
  intros (Hm & Hz & Hd & Hs & Hx) (Ho & Hf). split.
  - intros v l Hv Hl. cbn [with_base set_gpr gpr ram]. rewrite fn_lookup_insert.
    rewrite !fn_lookup_insert_ne by done. rewrite <- Hd, <- Hs, <- Hx, <- Hm. by apply Ho.
  - intros x Hout. rewrite Hf; [by rewrite Hm|]. by rewrite Hd.
Qed.

Lemma entry_name what bits :
  1 <= bits <= 32 ->
  table_entries what (range 1 33) !! Z.to_nat bits = Some (Some ("knc_" +:+ what +:+ "_b" +:+ dec bits)).
Proof.
  intros Hb. unfold table_entries, range. replace (Z.to_nat bits) with (S (Z.to_nat (bits - 1))) by lia.
  change (((fun b => Some ("knc_" +:+ what +:+ "_b" +:+ dec b)) <$> seqZ 1 (33 - 1)) !! Z.to_nat (bits - 1) =
    Some (Some ("knc_" +:+ what +:+ "_b" +:+ dec bits))).
  rewrite list_lookup_fmap, lookup_seqZ_lt by lia. cbn [fmap option_fmap option_map].
  by replace (1 + Z.of_nat (Z.to_nat (bits - 1))) with bits by lia.
Qed.

(** Every thunk jumps to the table's entry for a valid width. *)
Lemma thunk_leaves what base sig st (bits := width st) :
  (what, base, sig) ∈ thunk_specs -> linked symbol code bits -> tables_loaded symbol st bits ->
  valid_width bits = true ->
  exists st1, dispatched base st st1 /\
    forall st', call symbol code (symbol ("knc_" +:+ what +:+ "_b" +:+ dec bits)) st1 st' ->
      call symbol code (symbol ("knc_" +:+ what)) st st'.
Proof.
  intros Hin Hl Ht Hw. destruct (table_placed _ _ _ Ht what base sig Hin) as (Hal & Hlo & Hhi & Hmp).
  destruct (thunk_jumps symbol what base sig st Hal Hlo Hhi Hmp Hw) as (st1 & Hd & He).
  exists st1. split; [done|]. intros st' Hc. fold bits in He.
  rewrite (table_entry _ _ _ Ht what base sig ("knc_" +:+ what +:+ "_b" +:+ dec bits) Hin) in He.
  - eapply call_leaves; [by apply (link_thunk _ _ _ Hl what base sig)|exact He|done].
  - apply entry_name. unfold valid_width in Hw. lia.
Qed.

Definition what_of (mode : Mode) : string := "unpack" +:+ suffix mode.

Lemma unpack_spec mode : exists sig, (what_of mode, takes_base mode, sig) ∈ thunk_specs.
Proof.
  destruct mode; eexists.
  - by left.
  - right. right. by left.
  - right. right. right. by left.
Qed.

Lemma pack_spec : exists sig, ("pack"%string, false, sig) ∈ thunk_specs.
Proof. eexists. right. by left. Qed.

(** The call of an unpack function at a valid width. *)
Lemma call_unpack mode st (bits := width st) :
  linked symbol code bits -> tables_loaded symbol st bits -> valid_width bits = true ->
  unpack_ready symbol bits mode (with_base (takes_base mode) st) ->
  exists st', call symbol code (symbol ("knc_" +:+ what_of mode)) st st' /\
    unpack_result bits mode (with_base (takes_base mode) st) st'.
Proof.
  intros Hl Ht Hw Hr. destruct (unpack_spec mode) as [sig Hin].
  destruct (thunk_leaves (what_of mode) _ sig st Hin Hl Ht Hw) as (st1 & Hd & Hc).
  destruct (unpack_runs symbol bits mode st1) as (prog & st' & Hk & He & Hres);
    [by eapply ready_dispatched|].
  exists st'. split; [|by eapply result_dispatched].
  apply Hc. eapply call_returns; [|exact He].
  rewrite <- (link_unpack _ _ _ Hl mode prog Hk). by destruct mode.
Qed.

(** The call of the pack function at a valid width. *)
Lemma call_pack st (bits := width st) :
  linked symbol code bits -> tables_loaded symbol st bits -> valid_width bits = true ->
  pack_ready symbol bits st ->
  exists st', call symbol code (symbol "knc_pack") st st' /\ pack_result bits st st'.
Proof.
  intros Hl Ht Hw (Hb & Hu & Ha & Hcs). destruct pack_spec as [sig Hin].
  destruct (thunk_leaves "pack" false sig st Hin Hl Ht Hw) as (st1 & (Hm & Hz & Hd & Hs & Hx) & Hc).
  destruct (pack_runs symbol bits st1) as (st' & He & Ho & Hf).
  { split_and!; [lia|lia| | |].
    - intros x Hx4. rewrite Hm. by apply Hu.
    - apply (area_ok_ext _ _ st); [|done]. intros b n Hin'.
      assert (b = Arg Rdi \/ b = Arg Rsi \/ exists x, b = Sym x) as [->|[->|[x ->]]]; try done.
      cbn in Hin'. destruct (bits <? 32); set_solver.
    - intros name ws i x Hn Hi. rewrite Hm. by eapply (Hcs name). }
  exists st'. split; [apply Hc; eapply call_returns; [apply (link_pack _ _ _ Hl)|exact He]|].
  rewrite Hd in Ho, Hf. rewrite Hs, Hm in Ho. rewrite Hm in Hf. by split.
Qed.

(** C6: the entry points do what [Codec] relies on: when the width passes
    [Codec::new], calling [knc_unpack], [knc_unpack_for] or [knc_unpack_delta]
    (which take the base as their fourth argument) has the effect of that
    width's kernel, and [knc_pack] that of its pack kernel; when it does not,
    [new] returns the width as its error, and each of the four entry points,
    called with it anyway, returns having written nothing. *)
Theorem codec_entry st :
  linked symbol code (width st) -> tables_loaded symbol st (width st) ->
  match codec_new (width st) with
  | Ok c =>
      (forall mode, unpack_ready symbol (c_bits c) mode (with_base (takes_base mode) st) ->
        exists st', call symbol code (symbol ("knc_" +:+ what_of mode)) st st' /\
          unpack_result (c_bits c) mode (with_base (takes_base mode) st) st') /\
      (pack_ready symbol (c_bits c) st ->
        exists st', call symbol code (symbol "knc_pack") st st' /\ pack_result (c_bits c) st st') /\
      0 < packed_bytes c <= 4096 /\ packed_bytes c = 128 * c_bits c
  | Err e =>
      e = width st /\
      forall what base sig, (what, base, sig) ∈ thunk_specs ->
        exists st', call symbol code (symbol ("knc_" +:+ what)) st st' /\ ram st' = ram st
  end.
Proof.
  intros Hl Ht. unfold codec_new. fold (valid_width (width st)).
  destruct (valid_width (width st)) eqn:Hw.
  - cbn [c_bits]. split_and!; [intros; by apply call_unpack|intros; by apply call_pack|..];
      unfold packed_bytes, words, BLOCK, valid_width in *; cbn [c_bits];
      Z.to_euclidean_division_equations; lia.
  - split; [done|]. intros what base sig Hin.
    destruct (thunk_refuses symbol what base sig st Hw) as (st' & Hm & He).
    exists st'. split; [|done]. eapply call_returns; [by apply (link_thunk _ _ _ Hl what base sig)|exact He].
Qed.
End Entry.

(** ** An image

    The library at width 11, its tables and constants, in a small address
    space. *)

Definition image_symbols : list (string * Z) :=
  [("knc_mask_b11", 262144); ("knc_unpack_table", 524288); ("knc_pack_table", 528384);
   ("knc_unpack_for_table", 532480); ("knc_unpack_delta_table", 536576);
   ("knc_unpack", 1048576); ("knc_pack", 1048640); ("knc_unpack_for", 1048704);
   ("knc_unpack_delta", 1048768); ("knc_unpack_b11", 2097152); ("knc_pack_b11", 2097216);
   ("knc_unpack_for_b11", 2097280); ("knc_unpack_delta_b11", 2097344)]%string.

Definition image_symbol (s : string) : Z :=
  match List.find (fun p => String.eqb p.1 s) image_symbols with Some p => p.2 | None => 0 end.

Definition image_code (a : Z) : option (list Line) :=
  if a =? 1048576 then (fun t => thunk t.1.1 t.1.2 t.2) <$> thunk_specs !! 0%nat
  else if a =? 1048640 then (fun t => thunk t.1.1 t.1.2 t.2) <$> thunk_specs !! 1%nat
  else if a =? 1048704 then (fun t => thunk t.1.1 t.1.2 t.2) <$> thunk_specs !! 2%nat
  else if a =? 1048768 then (fun t => thunk t.1.1 t.1.2 t.2) <$> thunk_specs !! 3%nat
  else if a =? 2097152 then unpack_kernel 11 Plain
  else if a =? 2097216 then Some (pack_kernel 11)
  else if a =? 2097280 then unpack_kernel 11 For
  else if a =? 2097344 then unpack_kernel 11 Delta
  else None.

Definition image_ram (a : Z) : Z :=
  if a =? 524376 then 2097152 else if a =? 524380 then 0
  else if a =? 528472 then 2097216 else if a =? 528476 then 0
  else if a =? 532568 then 2097280 else if a =? 532572 then 0
  else if a =? 536664 then 2097344 else if a =? 536668 then 0
  else if (262144 <=? a) && (a <? 262208) then mask_value 11
  else 3000000001.

Definition image_state : State :=
  mkState (fun _ _ => 0)
    (fun g => match g with Rdi => 65536 | Rsi => 131072 | Rdx => 11 | Rcx => 196608 | _ => 0 end)
    image_ram (fun _ => 0) false false false.

Lemma image_linked : @linked reference_vpu image_symbol image_code 11.
Proof.
  split.
  - intros [] prog Hk.
    + assert (image_symbol (unpack_name Plain 11) = 2097152) as -> by (vm_compute; reflexivity). exact Hk.
    + assert (image_symbol (unpack_name For 11) = 2097280) as -> by (vm_compute; reflexivity). exact Hk.
    + assert (image_symbol (unpack_name Delta 11) = 2097344) as -> by (vm_compute; reflexivity). exact Hk.
  - assert (image_symbol (pack_name 11) = 2097216) as -> by (vm_compute; reflexivity). reflexivity.
  - intros what base sig Hin. unfold thunk_specs in Hin.
    repeat (apply elem_of_cons in Hin as [[= -> -> ->]|Hin]; [reflexivity|]).
    by apply not_elem_of_nil in Hin.
Qed.

Lemma image_tables : @tables_loaded demo_space image_symbol image_state 11.
Proof.
  split.
  - intros what base sig Hin. unfold thunk_specs in Hin.
    repeat (apply elem_of_cons in Hin as [[= -> -> ->]|Hin]; [concrete|]).
    by apply not_elem_of_nil in Hin.
  - intros what base sig name Hin Hn. unfold thunk_specs in Hin.
    repeat (apply elem_of_cons in Hin as [[= -> -> ->]|Hin];
      [rewrite entry_name in Hn by lia; injection Hn as <-; vm_compute; reflexivity|]).
    by apply not_elem_of_nil in Hin.
Qed.

Lemma image_words base : words_ok (with_base base image_state).
Proof.
  intros x _. cbn [with_base set_gpr ram image_state]. unfold image_ram.
  repeat case_match; concrete.
Qed.

Lemma image_constants base : constants_loaded image_symbol (with_base base image_state) 11.
Proof.
  intros name ws i x Hr Hx. cbn in Hr. apply list_elem_of_singleton in Hr as [= -> ->].
  apply (lookup_replicate 16 (mask_value 11)) in Hx as [-> Hi].
  assert (image_symbol (mask_name 11) = 262144) as -> by (vm_compute; reflexivity).
  cbn [with_base set_gpr ram image_state]. unfold image_ram.
  rewrite !(proj2 (Z.eqb_neq _ _)) by lia.
  by rewrite (proj2 (Z.leb_le _ _)), (proj2 (Z.ltb_lt _ _)) by lia.
Qed.

Lemma image_ready mode : @unpack_ready demo_space image_symbol 11 mode (with_base (takes_base mode) image_state).
Proof.
  split_and!; [lia|lia|apply image_words| |apply image_constants].
  split_and!; [destruct mode; concrete| |done|done]. intros b n Hb.
  destruct mode; cbn in Hb; set_unfold in Hb; naive_solver concrete.
Qed.

Lemma codec_entry_witness :
  (exists st', @call reference_vpu image_symbol image_code (image_symbol "knc_unpack") image_state st' /\
    unpack_result 11 Plain (with_base false image_state) st') /\
  (exists st', @call reference_vpu image_symbol image_code (image_symbol "knc_unpack_delta") image_state st' /\
    unpack_result 11 Delta (with_base true image_state) st').
Proof.
  destruct (@codec_entry reference_vpu image_symbol image_code image_state) as [Hu _];
    [exact image_linked|exact image_tables|].
  split; [apply (Hu Plain (image_ready Plain))|apply (Hu Delta (image_ready Delta))].
Defined.

(** ** [memcpy64] *)

(** The checks of [memcpy64]: [checks] says whether arithmetic overflow
    panics (a debug build) or wraps (the release build build.sh makes).
    [None] is the panic; [Ok] means that [knc_memcpy64] is called with that
    count of blocks. *)
Definition memcpy64 (checks : bool) (dst_len src_len dst_ptr src_ptr blocks : Z)
  : option (result string Z) :=
  bytes ← (if checks && (2 ^ 64 <=? blocks * 64) then None else Some (wrap 64 (blocks * 64)));
  Some (if (dst_len <? bytes) || (src_len <? bytes)
        then Err "knc::memcpy64: slice shorter than blocks * 64"%string
        else if negb (dst_ptr mod 64 =? 0) || negb (src_ptr mod 64 =? 0)
        then Err "knc::memcpy64: both pointers must be 64-byte aligned"%string
        else Ok blocks).

(** What Rust guarantees of the two slices: they are inside the address
    space, mapped, and a mutable one overlaps no other. *)
Definition slices `{Space} (dst_ptr dst_len src_ptr src_len : Z) : Prop :=
  0 <= dst_len < 2 ^ 63 /\ 0 <= src_len < 2 ^ 63 /\
  0 <= dst_ptr < 2 ^ 64 /\ 0 <= src_ptr < 2 ^ 64 /\
  dst_ptr + dst_len <= 2 ^ 64 /\ src_ptr + src_len <= 2 ^ 64 /\
  mapped_range dst_ptr dst_len /\ mapped_range src_ptr src_len /\
  (dst_ptr + dst_len <= src_ptr \/ src_ptr + src_len <= dst_ptr).

(** The [unsafe] call of [memcpy64]. *)
Definition memcpy_call (dst_ptr src_ptr blocks : Z) (st : State) : State :=
  set_gpr Rdi dst_ptr (set_gpr Rsi src_ptr (set_gpr Rdx blocks st)).

(** C30: [memcpy64] is safe for every count whose size in bytes is a [usize]
    (and, where overflow panics, for every count): it passes its checks
    exactly when both slices hold that many blocks and are aligned, and then
    the function it calls copies them, without a fault and without writing
    outside the destination slice. *)
Theorem memcpy64_safe `{Vpu} symbol sig checks dst_len src_len dst_ptr src_ptr blocks st :
  slices dst_ptr dst_len src_ptr src_len -> uint 64 blocks -> checks = true \/ blocks < 2 ^ 58 ->
  (memcpy64 checks dst_len src_len dst_ptr src_ptr blocks = Some (Ok blocks) <->
   64 * blocks <= dst_len /\ 64 * blocks <= src_len /\ dst_ptr mod 64 = 0 /\ src_ptr mod 64 = 0) /\
  (memcpy64 checks dst_len src_len dst_ptr src_ptr blocks = Some (Ok blocks) ->
   exists st', ends symbol (memcpy_prog sig) 0 (memcpy_call dst_ptr src_ptr blocks st) (Returned st') /\
     (forall i, 0 <= i < 64 * blocks -> i mod 4 = 0 -> ram st' (dst_ptr + i) = ram st (src_ptr + i)) /\
     (forall x, ~ (dst_ptr <= x < dst_ptr + dst_len) -> ram st' x = ram st x)).
Proof.
  intros (Hdl & Hsl & Hdp & Hsp & Hde & Hse & Hdm & Hsm & Hap) Hu Hc.
  assert (Hiff : memcpy64 checks dst_len src_len dst_ptr src_ptr blocks = Some (Ok blocks) <->
    64 * blocks <= dst_len /\ 64 * blocks <= src_len /\ dst_ptr mod 64 = 0 /\ src_ptr mod 64 = 0).
  { unfold memcpy64. destruct (checks && (2 ^ 64 <=? blocks * 64)) eqn:E; cbn [mbind option_bind].
    - split; [done|]. intros (?&?&_). apply andb_true_iff in E. lia.
    - assert (blocks * 64 < 2 ^ 64) by (destruct Hc; [subst; cbn in E; lia|lia]).
      rewrite wrap_small by (unfold uint in *; lia).
      destruct ((dst_len <? _) || (src_len <? _)) eqn:E1; [split; [done|lia]|].
      destruct (negb (dst_ptr mod 64 =? 0) || _) eqn:E2; [split; [done|lia]|]. split; [lia|done]. }
  split; [done|]. intros (Hd & Hs & Had & Has)%Hiff.
  destruct (memcpy_runs symbol sig (memcpy_call dst_ptr src_ptr blocks st)) as (st' & He & _ & Ho & Hf).
  - change (blocks_at dst_ptr blocks /\ blocks_at src_ptr blocks /\
      (dst_ptr + 64 * blocks <= src_ptr \/ src_ptr + 64 * blocks <= dst_ptr)).
    unfold blocks_at, uint in *. split_and!; try lia;
      [apply (mapped_sub _ _ _ _ Hdm)|apply (mapped_sub _ _ _ _ Hsm)]; lia.
  - exists st'. split_and!; [done|exact Ho|]. intros x Hx. apply Hf.
    change (~ (dst_ptr <= x < dst_ptr + 64 * blocks)). lia.
Qed.

Lemma memcpy64_safe_witness :
  memcpy64 false 448 500 65536 131072 7 = Some (Ok 7) /\
  exists st', @ends reference_vpu (fun _ => 0) (memcpy_prog "") 0
      (memcpy_call 65536 131072 7 (demo_blocks 0)) (Returned st') /\
    ram st' (65536 + 444) = (131072 + 444) mod 1000.
Proof.
  destruct (@memcpy64_safe reference_vpu (fun _ => 0) "" false 448 500 65536 131072 7 (demo_blocks 0))
    as [Hiff Hrun]; [unfold slices; concrete|unfold uint; lia|by right; lia|].
  assert (memcpy64 false 448 500 65536 131072 7 = Some (Ok 7)) as Hok by (vm_compute; reflexivity).
  split; [done|]. destruct (Hrun Hok) as (st' & He & Ho & _). exists st'. split; [done|].
  apply (Ho 444); concrete.
Defined.

(** The number of bytes a count is checked for where arithmetic wraps. *)
Lemma wrapped_bytes blocks : wrap 64 (blocks * 64) = 64 * (blocks mod 2 ^ 58).
Proof.
  unfold wrap. change (2 ^ 64) with (2 ^ 58 * 64).
  rewrite Z.mul_mod_distr_r by lia. apply Z.mul_comm.
Qed.

(** C40: what [memcpy64] does with every count, on every branch and in both
    builds.  A count of [2 ^ 58] blocks or more panics where overflow does.
    Elsewhere the slices are compared with the size modulo [2 ^ 64], then the
    pointers are checked.  So the bound of [memcpy64_safe] is exact: the
    unsafe function is called with more blocks than the destination holds
    precisely in a build that wraps, for the aligned slices that hold
    [blocks mod 2 ^ 58] blocks; for any aligned slices [2 ^ 58] is such a
    count. *)
Theorem memcpy64_overruns `{Space} checks dst_len src_len dst_ptr src_ptr blocks :
  slices dst_ptr dst_len src_ptr src_len -> uint 64 blocks ->
  let r := memcpy64 checks dst_len src_len dst_ptr src_ptr blocks in
  let panics := checks = true /\ 2 ^ 58 <= blocks in
  let fits := 64 * (blocks mod 2 ^ 58) <= dst_len /\ 64 * (blocks mod 2 ^ 58) <= src_len in
  let aligned := dst_ptr mod 64 = 0 /\ src_ptr mod 64 = 0 in
  (r = None <-> panics) /\
  (r = Some (Err "knc::memcpy64: slice shorter than blocks * 64"%string) <-> ~ panics /\ ~ fits) /\
  (r = Some (Err "knc::memcpy64: both pointers must be 64-byte aligned"%string) <-> ~ panics /\ fits /\ ~ aligned) /\
  (r = Some (Ok blocks) /\ dst_len < 64 * blocks <-> checks = false /\ 2 ^ 58 <= blocks /\ fits /\ aligned) /\
  (checks = false -> aligned -> memcpy64 checks dst_len src_len dst_ptr src_ptr (2 ^ 58) = Some (Ok (2 ^ 58))).
Proof.
  intros (Hd & Hs & _) Hb. cbv zeta. pose proof (Z.mod_pos_bound blocks (2 ^ 58) ltac:(lia)) as Hm.
  assert (blocks < 2 ^ 58 -> blocks mod 2 ^ 58 = blocks) as Hsmall by (intros; apply Z.mod_small; unfold uint in Hb; lia).
  split_and!.
  5: { intros -> [Had Has]. unfold memcpy64. cbn [andb mbind option_bind]. rewrite wrapped_bytes, Z.mod_same, Z.mul_0_r, Had, Has by lia.
       rewrite !(proj2 (Z.ltb_ge _ 0)) by lia. done. }
  all: unfold memcpy64; rewrite wrapped_bytes; set (m := blocks mod 2 ^ 58) in *; clearbody m.
  all: destruct (Z.leb_spec (2 ^ 64) (blocks * 64)), checks; cbn [andb mbind option_bind];
    try (destruct (Z.ltb_spec dst_len (64 * m)), (Z.ltb_spec src_len (64 * m)); cbn [orb]);
    try (destruct (Z.eqb_spec (dst_ptr mod 64) 0), (Z.eqb_spec (src_ptr mod 64) 0); cbn [negb orb]).
  all: split; intros Hr; repeat match goal with H : _ /\ _ |- _ => destruct H end; try discriminate; try (split_and?; lia || tauto || done).
Qed.

Lemma memcpy64_overruns_witness :
  memcpy64 true 448 500 65536 131072 (2 ^ 58) = None /\
  memcpy64 false 448 500 65536 131072 (2 ^ 58 + 7) = Some (Ok (2 ^ 58 + 7)) /\ 448 < 64 * (2 ^ 58 + 7).
Proof.
  assert (@slices {| mapped := fun _ => true |} 65536 448 131072 500) as Hs by (unfold slices; split_and!; done || lia).
  split.
  - apply (@memcpy64_overruns _ true 448 500 65536 131072 (2 ^ 58) Hs); [unfold uint; lia|]. by split.
  - apply (@memcpy64_overruns _ false 448 500 65536 131072 (2 ^ 58 + 7) Hs); [unfold uint; lia|].
    split_and!; vm_compute; done.
Defined.
