(* ===== verification/Libknc.v ===== *)
(** The crate's view of libknc (card/lib/knc-rs/src/lib.rs): the block types,
    the foreign functions as an interface on their contents, with the laws
    the crate relies on, the methods of [Codec] over it, and the round trips
    that follow from the laws alone.  [reference_libknc] implements the
    interface by the layout; KncCalls.v shows that the machine code does. *)

From S2P Require Import Prelude Bytes Mvex MvexDis MvexCalls Codegen Layout Fpu Vpu VpuCalls Symbolic Kernels KernelsPack Roundtrip Knc.

Local Open Scope Z_scope.
Local Open Scope phi_scope.

(** ** Blocks *)

(** [Block], [Packed] and [Base] are arrays of [i32], [u32] and [i32]; their
    slices are the arrays. *)
Definition MAX_WORDS : Z := BLOCK.

Definition Block_zeroed : list Z := replicate (Z.to_nat BLOCK) 0.
Definition Packed_zeroed : list Z := replicate (Z.to_nat MAX_WORDS) 0.
Definition Base_zeroed : list Z := replicate (Z.to_nat LANES) 0.

Definition is_block (xs : list Z) : Prop := len xs = BLOCK /\ Forall (sint 32) xs.
Definition is_packed (ws : list Z) : Prop := len ws = MAX_WORDS /\ Forall (uint 32) ws.
Definition is_base (bs : list Z) : Prop := len bs = LANES /\ Forall (sint 32) bs.

(** [WidthError]'s [Display]. *)
Definition width_error_text (e : Z) : string :=
  "knc: bit width " +:+ dec e +:+ " is not in 1 to 32".

(** Value [i] is position [i / 16] of lane [i mod 16]. *)
Definition lane (xs : list Z) (l v : Z) : Z := nth (Z.to_nat (16 * v + l)) xs 0.
Definition of_lanes (n : Z) (f : Z -> Z -> Z) : list Z := (fun i => f (i mod 16) (i / 16)) <$> range 0 n.

Lemma len_of_lanes n f : 0 <= n -> len (of_lanes n f) = n.
Proof. intros Hn. unfold len, of_lanes, range. rewrite length_fmap, length_seqZ. lia. Qed.

Lemma of_lanes_lookup n f i : 0 <= i < n -> of_lanes n f !! Z.to_nat i = Some (f (i mod 16) (i / 16)).
Proof.
  intros Hi. unfold of_lanes, range. rewrite list_lookup_fmap, lookup_seqZ_lt by lia.
  cbn [fmap option_fmap option_map]. by rewrite Z.add_0_l, Z2Nat.id by lia.
Qed.

Lemma lane_index v l : 0 <= l < LANES -> (16 * v + l) mod 16 = l /\ (16 * v + l) / 16 = v.
Proof. unfold LANES. intros Hl. Z.to_euclidean_division_equations. lia. Qed.

Lemma lane_app_l xs ys l v : 0 <= v -> 0 <= l -> 16 * v + l < len xs -> lane (xs ++ ys) l v = lane xs l v.
Proof. unfold lane, len. intros. by rewrite app_nth1 by lia. Qed.

Lemma lane_of_lanes n f l v : 0 <= l < LANES -> 0 <= v -> 16 * v + l < n -> lane (of_lanes n f) l v = f l v.
Proof.
  intros Hl Hv Hn. unfold lane. unfold LANES in Hl. apply nth_lookup_Some.
  rewrite of_lanes_lookup by lia. by destruct (lane_index v l) as [-> ->].
Qed.

Lemma of_lanes_ext n f g :
  (forall l v, 0 <= l < LANES -> 0 <= v -> 16 * v + l < n -> f l v = g l v) -> of_lanes n f = of_lanes n g.
Proof.
  intros Hfg. apply list_fmap_ext. intros i x Hx. apply range_at in Hx as [_ Hx].
  apply Hfg; unfold LANES; Z.to_euclidean_division_equations; lia.
Qed.

(** A list is what its lanes are. *)
Lemma lanes_of xs : of_lanes (len xs) (lane xs) = xs.
Proof.
  apply list_eq. intros i. destruct (decide (i < length xs)%nat) as [Hi|Hi].
  - pose proof (of_lanes_lookup (len xs) (lane xs) (Z.of_nat i)) as Hl. rewrite Nat2Z.id in Hl.
    rewrite Hl by (unfold len; lia). unfold lane.
    replace (Z.to_nat (16 * (Z.of_nat i / 16) + Z.of_nat i mod 16)) with i
      by (Z.to_euclidean_division_equations; lia).
    destruct (lookup_lt_is_Some_2 xs i Hi) as [x Hx]. rewrite Hx. f_equal. by apply nth_lookup_Some.
  - rewrite !lookup_ge_None_2; [done|lia|]. pose proof (len_of_lanes (len xs) (lane xs)). unfold len in *. lia.
Qed.

Lemma lane_elem (P : Z -> Prop) xs l v :
  Forall P xs -> 0 <= l -> 0 <= v -> 16 * v + l < len xs -> P (lane xs l v).
Proof.
  intros Hx Hl Hv Hn. unfold lane, len in *.
  destruct (lookup_lt_is_Some_2 xs (Z.to_nat (16 * v + l))) as [x Hi]; [lia|].
  rewrite (nth_lookup_Some _ _ _ _ Hi). by apply (Forall_lookup_1 _ _ _ _ Hx Hi).
Qed.

Lemma of_lanes_Forall (P : Z -> Prop) n f :
  (forall l v, 0 <= l < LANES -> 0 <= v -> 16 * v + l < n -> P (f l v)) -> Forall P (of_lanes n f).
Proof.
  intros Hf. apply Forall_fmap, Forall_forall. intros i Hi. cbn. apply list_elem_of_In, in_range in Hi.
  apply Hf; unfold LANES; Z.to_euclidean_division_equations; lia.
Qed.

(** ** The interface *)

(** The foreign functions, on the contents of the buffers: what the written
    one holds afterwards. *)
Class Libknc := {
  knc_unpack : list Z -> list Z -> Z -> list Z;
  knc_pack : list Z -> list Z -> Z -> list Z;
  knc_unpack_for : list Z -> list Z -> Z -> list Z -> list Z;
  knc_unpack_delta : list Z -> list Z -> Z -> list Z -> list Z;
  knc_encode_for : list Z -> list Z -> list Z -> list Z;
  knc_encode_delta : list Z -> list Z -> list Z -> list Z
}.

Section Methods.
Context `{Libknc}.

(** [Codec::pack], [Codec::unpack], [Codec::unpack_for] and
    [Codec::unpack_delta]. *)
Definition pack (c : Codec) (packed values : list Z) : list Z := knc_pack packed values (c_bits c).
Definition unpack (c : Codec) (out packed : list Z) : list Z := knc_unpack out packed (c_bits c).
Definition unpack_for (c : Codec) (out packed base : list Z) : list Z :=
  knc_unpack_for out packed (c_bits c) base.
Definition unpack_delta (c : Codec) (out packed base : list Z) : list Z :=
  knc_unpack_delta out packed (c_bits c) base.

Definition encode_for (out values base : list Z) : list Z := knc_encode_for out values base.
Definition encode_delta (out values base : list Z) : list Z := knc_encode_delta out values base.

(** The three unpack functions, and the two encoders, by mode. *)
Definition knc_unpack_mode (mode : Mode) (out packed : list Z) (bits : Z) (base : list Z) : list Z :=
  match mode with
  | Plain => knc_unpack out packed bits
  | For => knc_unpack_for out packed bits base
  | Delta => knc_unpack_delta out packed bits base
  end.

Definition knc_encode (mode : Mode) (out values base : list Z) : list Z :=
  match mode with
  | Plain => values
  | For => knc_encode_for out values base
  | Delta => knc_encode_delta out values base
  end.
End Methods.

(** What knc.md documents of them.  The base of a plain call is not read. *)
Class LibkncLaws `{Libknc} : Prop := {
  unpack_law mode out packed bits base :
    valid_width bits = true -> is_block out -> is_packed packed -> is_base base ->
    knc_unpack_mode mode out packed bits base =
    of_lanes BLOCK (fun l v => signed 32 (unpacked bits mode (lane base l 0) (lane packed l) v));
  pack_law packed values bits :
    valid_width bits = true -> is_packed packed -> is_block values ->
    is_packed (knc_pack packed values bits) /\
    drop (Z.to_nat (32 * bits)) (knc_pack packed values bits) = drop (Z.to_nat (32 * bits)) packed /\
    forall l, 0 <= l < LANES -> packs bits (lane (knc_pack packed values bits) l) (lane values l);
  encode_law mode out values base :
    mode <> Plain -> is_block out -> is_block values -> is_base base ->
    knc_encode mode out values base =
    of_lanes BLOCK (fun l v => signed 32 (residue mode (lane base l 0) (lane values l) v));
  refused_law mode out packed values bits base :
    valid_width bits = false ->
    knc_unpack_mode mode out packed bits base = out /\ knc_pack packed values bits = packed
}.

(** ** The reference implementation *)

Definition reference_unpack (mode : Mode) (out packed : list Z) (bits : Z) (base : list Z) : list Z :=
  if valid_width bits
  then of_lanes BLOCK (fun l v => signed 32 (unpacked bits mode (lane base l 0) (lane packed l) v))
  else out.

Definition reference_pack (packed values : list Z) (bits : Z) : list Z :=
  if valid_width bits
  then of_lanes (32 * bits) (fun l w => pack_word bits (lane values l) w) ++ drop (Z.to_nat (32 * bits)) packed
  else packed.

Definition reference_encode (mode : Mode) (out values base : list Z) : list Z :=
  of_lanes BLOCK (fun l v => signed 32 (residue mode (lane base l 0) (lane values l) v)).

#[export] Instance reference_libknc : Libknc := {|
  knc_unpack out packed bits := reference_unpack Plain out packed bits Base_zeroed;
  knc_pack := reference_pack;
  knc_unpack_for := reference_unpack For;
  knc_unpack_delta := reference_unpack Delta;
  knc_encode_for := reference_encode For;
  knc_encode_delta := reference_encode Delta
|}.

Lemma len_drop {A} n (xs : list A) : len (drop n xs) = Z.max 0 (len xs - Z.of_nat n).
Proof. unfold len. rewrite length_drop. lia. Qed.

Lemma valid_width_range bits : valid_width bits = true <-> 1 <= bits <= 32.
Proof. unfold valid_width. lia. Qed.

Lemma reference_pack_law packed values bits :
  valid_width bits = true -> is_packed packed ->
  is_packed (reference_pack packed values bits) /\
  drop (Z.to_nat (32 * bits)) (reference_pack packed values bits) = drop (Z.to_nat (32 * bits)) packed /\
  forall l, 0 <= l < LANES -> packs bits (lane (reference_pack packed values bits) l) (lane values l).
Proof.
  intros Hb [Hlen Hws]. unfold reference_pack. rewrite Hb. apply valid_width_range in Hb.
  set (f := fun l w => pack_word bits (lane values l) w).
  pose proof (len_of_lanes (32 * bits) f ltac:(lia)) as Hl. split_and!.
  - split.
    + rewrite len_app, Hl, len_drop, Hlen. unfold MAX_WORDS, BLOCK in *. lia.
    + apply Forall_app. split; [|by apply Forall_drop].
      apply of_lanes_Forall. intros l v _ _ _. by apply pack_word_uint.
  - rewrite drop_app_length'; [done|]. unfold len in Hl. lia.
  - intros l Hll. unfold LANES in Hll. apply pack_word_packs; [done|]. intros w Hw.
    rewrite lane_app_l by (rewrite ?Hl; lia). by rewrite lane_of_lanes by (unfold LANES; lia).
Qed.

#[export] Instance reference_laws : LibkncLaws.
Proof.
  split.
  - intros mode out packed bits base Hb _ _ _.
    destruct mode; cbn [knc_unpack_mode reference_libknc knc_unpack knc_unpack_for knc_unpack_delta];
      unfold reference_unpack; by rewrite Hb.
  - intros packed values bits Hb Hp _. by apply reference_pack_law.
  - intros mode out values base Hm _ _ _. by destruct mode.
  - intros mode out packed values bits base Hb.
    destruct mode; cbn; unfold reference_unpack, reference_pack; by rewrite Hb.
Qed.

(** ** Round trips *)

Section Client.
Context `{LibkncLaws}.

Lemma codec_valid bits c : codec_new bits = Ok c -> c_bits c = bits /\ valid_width bits = true.
Proof.
  unfold codec_new, valid_width. destruct ((1 <=? bits) && (bits <=? 32)); [|done]. by intros [= <-].
Qed.

(** Truncation to the width, then to a signed word. *)
Lemma wrap_wrap_low w bits x : 0 <= bits <= w -> wrap bits (wrap w x) = wrap bits x.
Proof.
  intros Hb. apply Z.bits_inj'. intros n Hn. rewrite !testbit_wrap by lia.
  destruct (n <? bits) eqn:E; [|done]. by rewrite (proj2 (Z.ltb_lt n w)) by lia.
Qed.

Lemma packed_words ws l w : is_packed ws -> uint 32 (lane ws l w) \/ lane ws l w = 0.
Proof.
  intros [_ Hw]. unfold lane. destruct (nth_in_or_default (Z.to_nat (16 * w + l)) ws 0) as [Hi| ->]; [|by right].
  left. rewrite Forall_forall in Hw. by apply Hw, list_elem_of_In.
Qed.

Lemma packed_uint ws l w : is_packed ws -> uint 32 (lane ws l w).
Proof. intros Hw. destruct (packed_words ws l w Hw) as [Hu| ->]; [done|]. unfold uint; lia. Qed.

Lemma unpack_is_block mode out packed bits base :
  valid_width bits = true -> is_block out -> is_packed packed -> is_base base ->
  is_block (knc_unpack_mode mode out packed bits base).
Proof.
  intros. rewrite unpack_law by done. split; [by apply len_of_lanes|].
  apply of_lanes_Forall. intros. apply signed_sint. lia.
Qed.

Lemma encode_is_block mode out values base :
  mode <> Plain -> is_block out -> is_block values -> is_base base ->
  is_block (knc_encode mode out values base).
Proof.
  intros. rewrite encode_law by done. split; [by apply len_of_lanes|].
  apply of_lanes_Forall. intros. apply signed_sint. lia.
Qed.

(** What was packed is unpacked, each value truncated to the width. *)
Lemma plain_roundtrip bits out packed values :
  valid_width bits = true -> is_block out -> is_packed packed -> is_block values ->
  knc_unpack out (knc_pack packed values bits) bits =
  of_lanes BLOCK (fun l v => signed 32 (wrap bits (lane values l v))).
Proof.
  intros Hb Ho Hp Hv. destruct (pack_law packed values bits Hb Hp Hv) as (Hp' & _ & Hk).
  assert (is_base Base_zeroed) as Hz by (split; [done|by apply Forall_replicate]).
  etransitivity; [apply (unpack_law Plain out (knc_pack packed values bits) bits Base_zeroed); done|].
  apply of_lanes_ext. intros l v Hl Hv0 Hn. unfold BLOCK, LANES in *. f_equal. unfold unpacked.
  apply packs_value; [by apply valid_width_range|intros; by apply packed_uint|by apply Hk|lia].
Qed.

(** The residues depend on the values modulo [2 ^ 32] only. *)
Lemma residue_wrap mode b X v : residue mode b (fun v => wrap 32 (X v)) v = residue mode b X v.
Proof.
  unfold residue, before, wrap. destruct mode; [by rewrite Zminus_mod_idemp_l..|].
  destruct (v =? 0); [by rewrite Zminus_mod_idemp_l|]. by rewrite <- Zminus_mod.
Qed.

Lemma residue_ext mode b X Y v :
  X v = Y v -> (0 < v -> X (v - 1) = Y (v - 1)) -> 0 <= v -> residue mode b X v = residue mode b Y v.
Proof.
  intros E1 E2 Hv. unfold residue, before. rewrite E1. destruct mode; try done.
  destruct (v =? 0) eqn:E; [done|]. by rewrite E2 by lia.
Qed.

(** Values whose residues fit the width come back exactly. *)
Lemma framed_values mode bits out packed staged values base :
  mode <> Plain -> valid_width bits = true ->
  is_block out -> is_packed packed -> is_block staged -> is_block values -> is_base base ->
  (forall v l, 0 <= v < 64 -> 0 <= l < LANES -> uint bits (residue mode (lane base l 0) (lane values l) v)) ->
  knc_unpack_mode mode out (knc_pack packed (knc_encode mode staged values base) bits) bits base = values.
Proof.
  intros Hm Hb Ho Hp Hs Hv Hba Hfit.
  pose proof (encode_is_block mode staged values base Hm Hs Hv Hba) as He.
  destruct (pack_law packed _ bits Hb Hp He) as (Hp' & _ & Hk). rewrite unpack_law by done.
  transitivity (of_lanes (len values) (lane values)); [|apply lanes_of].
  assert (len values = BLOCK) as Hlen by apply Hv. rewrite Hlen.
  apply of_lanes_ext. intros l v Hl Hv0 Hn. unfold BLOCK in *.
  assert (0 <= v < 64) as Hv64 by (unfold LANES in *; lia). apply valid_width_range in Hb.
  set (U := residue mode (lane base l 0) (lane values l)).
  assert (HE : forall v, 0 <= v < 64 ->
    lane (knc_encode mode staged values base) l v = signed 32 (U v)).
  { intros v' Hv'. rewrite encode_law by done.
    apply (lane_of_lanes _ (fun l v => signed 32 (residue mode (lane base l 0) (lane values l) v)));
      unfold LANES, BLOCK in *; lia. }
  assert (HU : forall v, 0 <= v < 64 -> uint bits (U v)) by (intros v' Hv'; exact (Hfit v' l Hv' Hl)).
  transitivity (signed 32 (wrap 32 (lane values l v))).
  - f_equal. apply (unpacked_residues bits mode _ _ U (fun v => wrap 32 (lane values l v))); try done.
    + intros w. by apply packed_uint.
    + intros v' j Hv' Hj. rewrite Hk, HE by done.
      rewrite <- (Z.mod_pow2_bits_low (signed 32 (U v')) 32) by lia.
      change (signed 32 (U v') mod 2 ^ 32) with (wrap 32 (signed 32 (U v'))).
      rewrite wrap_signed; [done|lia|]. destruct (HU v' Hv'). split; [lia|].
      assert (2 ^ bits <= 2 ^ 32) by (apply Z.pow_le_mono_r; lia). lia.
    + intros v' _. apply wrap_uint. lia.
    + intros v' Hv'. split; [by rewrite residue_wrap|by apply HU].
  - apply signed_wrap; [lia|]. apply (lane_elem (sint 32) values l v); [apply Hv|apply Hl|lia|].
    by rewrite Hlen.
Qed.

(** C23: a codec gives back what it was given, by the laws of the interface
    alone: for every width [Codec::new] accepts, [unpack] after [pack]
    returns every value truncated to the width (as the [i32] it then is),
    whatever the buffers held before, and values whose residues fit the width
    come back exactly through [encode_for] and [unpack_for], and through
    [encode_delta] and [unpack_delta]. *)
Theorem codec_roundtrip bits c out packed staged values base :
  codec_new bits = Ok c ->
  is_block out -> is_packed packed -> is_block staged -> is_block values -> is_base base ->
  unpack c out (pack c packed values) = of_lanes BLOCK (fun l v => signed 32 (wrap bits (lane values l v))) /\
  ((forall v l, 0 <= v < 64 -> 0 <= l < LANES ->
      uint bits (residue For (lane base l 0) (lane values l) v)) ->
   unpack_for c out (pack c packed (encode_for staged values base)) base = values) /\
  ((forall v l, 0 <= v < 64 -> 0 <= l < LANES ->
      uint bits (residue Delta (lane base l 0) (lane values l) v)) ->
   unpack_delta c out (pack c packed (encode_delta staged values base)) base = values).
Proof.
  intros Hc Ho Hp Hs Hv Hb. destruct (codec_valid bits c Hc) as [E Hw].
  unfold unpack, unpack_for, unpack_delta, pack, encode_for, encode_delta. rewrite E. split_and!.
  - by apply plain_roundtrip.
  - by apply (framed_values For).
  - by apply (framed_values Delta).
Qed.
End Client.

(** Ascending values at width 3, truncated; steps of five, exact. *)
Lemma codec_roundtrip_witness :
  @unpack reference_libknc (mkCodec 3) Block_zeroed
    (@pack reference_libknc (mkCodec 3) Packed_zeroed (of_lanes BLOCK (fun l v => 5 * v))) =
  of_lanes BLOCK (fun l v => (5 * v) mod 8) /\
  @unpack_delta reference_libknc (mkCodec 3) Block_zeroed
    (@pack reference_libknc (mkCodec 3) Packed_zeroed
      (@encode_delta reference_libknc Block_zeroed (of_lanes BLOCK (fun l v => 5 * v)) Base_zeroed)) Base_zeroed =
  of_lanes BLOCK (fun l v => 5 * v).
Proof.
  destruct (@codec_roundtrip reference_libknc reference_laws 3 (mkCodec 3) Block_zeroed Packed_zeroed Block_zeroed
    (of_lanes BLOCK (fun l v => 5 * v)) Base_zeroed) as (H1 & _ & H2); [done|concrete..|].
  split.
  { rewrite H1. apply of_lanes_ext. intros l v Hl Hv Hn. rewrite lane_of_lanes by done.
    unfold wrap. change (2 ^ 3) with 8. pose proof (Z.mod_pos_bound (5 * v) 8 ltac:(lia)).
    apply signed_small; lia. }
  apply H2. intros v l Hv Hl.
  unfold residue, before. rewrite lane_of_lanes by (unfold LANES, BLOCK in *; lia).
  destruct (v =? 0) eqn:E.
  - assert (v = 0) as -> by lia. unfold LANES in Hl.
    assert (lane Base_zeroed l 0 = 0) as -> by (unfold lane; apply nth_lookup_Some, lookup_replicate; split; [done|unfold Layout.LANES; lia]). concrete.
  - rewrite lane_of_lanes by (unfold LANES, BLOCK in *; lia).
    replace (5 * v - 5 * (v - 1)) with 5 by lia. concrete.
Defined.
