(* ===== verification/Demo.v ===== *)
(** The demo program of the crate (card/lib/knc-rs/src/main.rs), against the
    interface of Libknc.v: the check of every width, of the two cascades, the
    measurement and [main], in a build with or without overflow checks.  The
    time that passed, what the system grants a thread and the size of the
    standard library's thread handle are parameters.  For every library that
    keeps the laws the checks find nothing; [demo_passes] says when the
    program ends, and with what. *)

From S2P Require Import Prelude Bytes Mvex MvexDis MvexCalls Codegen Layout Fpu Vpu VpuCalls Symbolic Kernels KernelsPack Roundtrip Knc Libknc.

Local Open Scope Z_scope.
Local Open Scope phi_scope.

(** ** Values and texts *)

(** [0x9E37_79B9u32.wrapping_mul(i as u32 + 1) & m]. *)
Definition golden (bits i : Z) : Z := wrap 32 (0x9E3779B9 * (i + 1)) .& low_mask bits.

(** [0x5BF0_3635u32.wrapping_mul(i as u32 + 1) as i32]. *)
Definition base_value (i : Z) : Z := signed 32 (wrap 32 (0x5BF03635 * (i + 1))).

(** A loop over [iter_mut().enumerate()] that overwrites every element;
    [None] is a panic of its body. *)
Definition fill (n : Z) (f : Z -> option Z) : option (list Z) := mapM f (range 0 n).

(** [Codec::new(bits).expect(..)]. *)
Definition expect_codec (bits : Z) : option Codec :=
  match codec_new bits with Ok c => Some c | Err _ => None end.

(** [assert_eq!(Codec::new(bits).unwrap_err().0, bits)]. *)
Definition assert_refused (bits : Z) : option unit :=
  match codec_new bits with Ok _ => None | Err e => if e =? bits then Some tt else None end.

Definition verdict (failed : Z) : string := if failed =? 0 then "all OK" else "FAILED".

(** The loop of a check: [failed] and the lines it printed. *)
Record Checked := mkChecked { failed : Z; printed : list string }.

Definition outcome (ok : bool) (line : string) (c : Checked) : Checked :=
  if ok then c else mkChecked (failed c + 1) (printed c ++ [line]).

Section Program.
Context `{Libknc}.

(** ** [check_every_width] *)

Record Buffers := mkBuffers { b_values : list Z; b_staged : list Z; b_packed : list Z; b_out : list Z; b_model : list Z }.

Definition zeroed_buffers : Buffers :=
  mkBuffers Block_zeroed Block_zeroed Packed_zeroed Block_zeroed (replicate 1024 0).

(** The body of the loop over the widths. *)
Definition check_width (st : Buffers * Checked) (bits : Z) : option (Buffers * Checked) :=
  let '(b, c) := st in
  codec ← expect_codec bits;
  values ← fill (len (b_values b)) (fun i => Some (signed 32 (golden bits i)));
  let packed := pack codec (b_packed b) values in
  let out := unpack codec (b_out b) packed in
  model ← scalar_unpack (b_model b) packed bits;
  let ok := negb (negb (bool_decide (out = values)) || negb (bool_decide (model = values))) in
  Some (mkBuffers values (b_staged b) packed out model,
        outcome ok ("  " +:+ right_align 2 (dec bits) +:+ " FAILED") c).

(** ** [check_cascades] *)

(** The values of the frame of reference. *)
Definition for_value (bits : Z) (base : list Z) (i : Z) : option Z :=
  b ← base !! Z.to_nat (i mod LANES);
  Some (signed 32 (wrap 32 (golden bits i + wrap 32 b))).

(** One step of the loop that makes the values of the delta. *)
Definition delta_step (bits : Z) (base : list Z) (values : list Z) (i : Z) : option (list Z) :=
  prev ← (if i <? LANES then b ← base !! Z.to_nat i; Some (wrap 32 b)
          else x ← values !! Z.to_nat (i - LANES); Some (wrap 32 x));
  if i <? len values
  then Some (<[Z.to_nat i := signed 32 (wrap 32 (prev + golden bits i))]> values)
  else None.

(** The two halves of the body of the loop over the widths. *)
Definition check_for (base : list Z) (bits : Z) (st : Buffers * Checked) : option (Buffers * Checked) :=
  let '(b, c) := st in
  codec ← expect_codec bits;
  values ← fill (len (b_values b)) (for_value bits base);
  let staged := encode_for (b_staged b) values base in
  let packed := pack codec (b_packed b) staged in
  let out := unpack_for codec (b_out b) packed base in
  Some (mkBuffers values staged packed out (b_model b),
        outcome (bool_decide (out = values)) ("  FOR " +:+ right_align 2 (dec bits) +:+ " FAILED") c).

Definition check_delta (base : list Z) (bits : Z) (st : Buffers * Checked) : option (Buffers * Checked) :=
  let '(b, c) := st in
  codec ← expect_codec bits;
  values ← foldl (fun v i => v ← v; delta_step bits base v i) (Some (b_values b)) (range 0 BLOCK);
  let staged := encode_delta (b_staged b) values base in
  let packed := pack codec (b_packed b) staged in
  let out := unpack_delta codec (b_out b) packed base in
  Some (mkBuffers values staged packed out (b_model b),
        outcome (bool_decide (out = values)) ("  DELTA " +:+ right_align 2 (dec bits) +:+ " FAILED") c).

Definition cascade_line (failed : Z) : string :=
  "frame of reference and delta, widths 1 to 32: " +:+ verdict failed.

Definition check_cascades : option Checked :=
  base ← fill (len Base_zeroed) (fun i => Some (base_value i));
  '(_, c) ← foldl (fun st bits => st ← st; st ← check_for base bits st; check_delta base bits st)
               (Some (zeroed_buffers, mkChecked 0 [])) (range 1 33);
  Some (mkChecked (failed c) (printed c ++ [cascade_line (failed c)])).

Definition width_line (failed : Z) : string := "widths 1 to 32: " +:+ verdict failed.

Definition check_every_width : option Checked :=
  '(_, c) ← foldl (fun st bits => st ← st; check_width st bits) (Some (zeroed_buffers, mkChecked 0 [])) (range 1 33);
  _ ← assert_refused 0;
  _ ← assert_refused 33;
  d ← check_cascades;
  Some (mkChecked (failed c + failed d) (printed c ++ [width_line (failed c)] ++ printed d)).

(** ** [measure] *)

(** The build: whether an overflow panics.  The size of a [JoinHandle].
    Whether the system grants the [i]th thread of a width's measurement, with
    the memory of its buffers: otherwise the program panics or is aborted. *)
Context (checks : bool) (handle : Z) (granted : Z -> Z -> bool).

Definition add_u64 (a b : Z) : option Z :=
  if checks && (2 ^ 64 <=? a + b) then None else Some (wrap 64 (a + b)).
Definition mul_usize (a b : Z) : option Z :=
  if checks && (2 ^ 64 <=? a * b) then None else Some (wrap 64 (a * b)).

(** [Vec::with_capacity(n)] of elements of a size and an alignment: beyond
    [isize::MAX] bytes, less the padding, it panics. *)
Definition capacity_fits (size align n : Z) : bool := n * size <=? 2 ^ 63 - align.

(** [vec![x; n]] of a [Block] or a [Packed]. *)
Definition vec_of {A} (x : A) (n : Z) : option (list A) :=
  assert_ (capacity_fits 4096 64 n) (Some (replicate (Z.to_nat n) x)).

(** [codec.unpack(&mut out[b], &packed[b])]. *)
Definition unpack_at (codec : Codec) (packed out : list (list Z)) (b : Z) : option (list (list Z)) :=
  o ← out !! Z.to_nat b;
  p ← packed !! Z.to_nat b;
  Some (<[Z.to_nat b := unpack codec o p]> out).

(** The closure of a thread. *)
Definition worker (codec : Codec) (source : list Z) (blocks reps : Z) : option Z :=
  out ← vec_of Block_zeroed blocks;
  packed ← vec_of source blocks;
  out ← Nat.iter (Z.to_nat reps)
    (fun out => out ← out; foldl (fun out b => out ← out; unpack_at codec packed out b) (Some out) (range 0 blocks))
    (Some out);
  o ← out !! 0%nat; x ← o !! 0%nat;
  p ← packed !! 0%nat; y ← p !! 0%nat;
  add_u64 (wrap 64 x) y.

(** The line of a width.  [rate] is the text of the rate for a number of
    values in the time that passed. *)
Definition measure (rate : Z -> string) (threads blocks reps bits : Z) : option string :=
  codec ← expect_codec bits;
  seed ← fill (len Block_zeroed) (fun i => Some (signed 32 (golden bits i)));
  let source := pack codec Packed_zeroed seed in
  assert_ (capacity_fits handle 8 threads) (
    _ ← mapM (fun i => assert_ (granted bits i) (worker codec source blocks reps)) (range 0 threads);
    n1 ← mul_usize threads reps; n2 ← mul_usize n1 blocks; total ← mul_usize n2 BLOCK;
    Some (right_align 5 (dec bits) +:+ " " +:+ right_align 8 (dec threads) +:+ " " +:+ rate total
          +:+ " " +:+ right_align 10 (dec (words codec)) +:+ " words")).

(** ** [main] *)

(** [str::parse::<usize>]: an optional plus, then digits, below [2 ^ 64]. *)
Fixpoint digits (acc : Z) (s : string) : option Z :=
  match s with
  | EmptyString => Some acc
  | String c s =>
      let d := Z.of_nat (Ascii.nat_of_ascii c) - 48 in
      if (0 <=? d) && (d <=? 9) && (acc * 10 + d <? 2 ^ 64) then digits (acc * 10 + d) s else None
  end.

Definition parse_usize (s : string) : option Z :=
  match s with
  | EmptyString => None
  | String c r =>
      if Ascii.eqb c (Ascii.ascii_of_nat 43)
      then match r with EmptyString => None | _ => digits 0 r end
      else digits 0 s
  end.

(** [args.get(n).and_then(|s| s.parse().ok()).unwrap_or(d)]. *)
Definition argument (args : list string) (n : nat) (d : Z) : Z :=
  default d (s ← args !! n; parse_usize s).

Definition title : string := "knc-demo: Rust on the card, through libknc".

Definition table_head : string :=
  nl +:+ left_align 5 "bits" +:+ " " +:+ left_align 8 "threads" +:+ " "
  +:+ right_align 12 "unpack M/s" +:+ " " +:+ right_align 16 "packed".

Definition measured_widths : list Z := [1; 8; 11; 16; 32].

(** The lines of the output and the exit status; [None] is a panic or an
    abort. *)
Definition demo_main (rate : Z -> string) (args : list string) : option (list string * Z) :=
  let threads := argument args 1 1 in
  let blocks := argument args 2 64 in
  let reps := argument args 3 128 in
  c ← check_every_width;
  rows ← mapM (measure rate threads blocks reps) measured_widths;
  Some ([title] ++ printed c ++ [table_head] ++ rows, if failed c =? 0 then 0 else 1).
End Program.

(** ** Loops *)

Lemma bind_some {A B} (f : A -> option B) o x : o = Some x -> (o ≫= f) = f x.
Proof. by intros ->. Qed.

Lemma fill_some n f g : (forall i, 0 <= i < n -> f i = Some (g i)) -> fill n f = Some (g <$> range 0 n).
Proof.
  intros Hf. unfold fill. apply mapM_Some, Forall2_fmap_r, Forall_Forall2_diag, Forall_forall.
  intros i Hi. apply Hf, in_range. by apply list_elem_of_In.
Qed.

(** A loop whose body succeeds and keeps an invariant. *)
Lemma loop_ok {S A} (P : S -> Prop) (f : S -> A -> option S) l s :
  P s -> (forall s a, a ∈ l -> P s -> exists s', f s a = Some s' /\ P s') ->
  exists s', foldl (fun st a => st ← st; f st a) (Some s) l = Some s' /\ P s'.
Proof.
  revert s. induction l as [|a l IH]; intros s Hs Hf; [by exists s|].
  destruct (Hf s a) as (s1 & H1 & Hs1); [by left|done|]. cbn [foldl mbind option_bind]. rewrite H1.
  apply IH; [done|]. intros s' a' Ha. apply Hf. by right.
Qed.

Lemma iter_ok {S} (P : S -> Prop) (f : S -> option S) n s :
  P s -> (forall s, P s -> exists s', f s = Some s' /\ P s') ->
  exists s', Nat.iter n (fun st => st ← st; f st) (Some s) = Some s' /\ P s'.
Proof.
  intros Hs Hf. induction n as [|n (s' & IH & Hs')]; [by exists s|].
  cbn [Nat.iter]. change (exists s'0, (st ← Nat.iter n (fun st => st ← st; f st) (Some s); f st) = Some s'0 /\ P s'0).
  rewrite IH. cbn [mbind option_bind]. by apply Hf.
Qed.

(** A block made from the index of each value. *)
Lemma indexed_lanes n f : f <$> range 0 n = of_lanes n (fun l v => f (16 * v + l)).
Proof.
  apply list_fmap_ext. intros i x _. cbv beta. f_equal. clear i. Z.to_euclidean_division_equations; lia.
Qed.

Lemma block_of_lanes f : is_block (of_lanes BLOCK (fun l v => signed 32 (f l v))).
Proof.
  split; [by apply len_of_lanes|]. apply of_lanes_Forall. intros. apply signed_sint. lia.
Qed.

Lemma zeroed_block : is_block Block_zeroed.
Proof. split; [done|]. by apply Forall_replicate. Qed.

Lemma zeroed_packed : is_packed Packed_zeroed.
Proof. split; [done|]. by apply Forall_replicate. Qed.

Lemma expect_valid bits : valid_width bits = true -> expect_codec bits = Some (mkCodec bits).
Proof. unfold expect_codec, codec_new, valid_width. by intros ->. Qed.

Lemma golden_uint bits i : 1 <= bits <= 32 -> uint bits (golden bits i).
Proof.
  intros Hb. unfold golden. apply bits_uint; [lia|]. intros n Hn.
  rewrite Z.land_spec, low_mask_ones, Z.testbit_ones by lia.
  rewrite (proj2 (Z.ltb_ge n bits)) by lia. by rewrite !andb_false_r.
Qed.

(** A value of at most 32 bits, through [i32] and back to the width. *)
Lemma narrow_back bits u : 1 <= bits <= 32 -> uint bits u -> wrap bits (signed 32 u) = u.
Proof.
  intros Hb Hu. assert (uint 32 u) as Hu32.
  { destruct Hu. assert (2 ^ bits <= 2 ^ 32) by (apply Z.pow_le_mono_r; lia). split; lia. }
  rewrite <- (wrap_wrap_low 32 bits) by lia. rewrite wrap_signed by (done || lia). by apply wrap_small.
Qed.

(** The scalar model on a whole packed block. *)
Lemma model_slot packed bits v l :
  is_packed packed -> 1 <= bits <= 32 -> 0 <= v < 64 -> 0 <= l < LANES ->
  scalar_slot packed bits (16 * v + l) = Some (signed 32 (lane_value bits (lane packed l) v)).
Proof.
  unfold LANES. intros [Hlen _] Hb Hv Hl. unfold MAX_WORDS, BLOCK in Hlen.
  unfold scalar_slot, lane_value, place, Layout.LANES.
  destruct (lane_index v l Hl) as [-> ->]. rewrite (Z.mul_comm v bits).
  pose proof (Z.div_mod (bits * v) 32 ltac:(lia)). pose proof (Z.mod_pos_bound (bits * v) 32 ltac:(lia)).
  set (w := bits * v / 32) in *. set (s := bits * v mod 32) in *.
  clearbody w s. assert (0 <= bits * v <= bits * 63) by nia.
  assert (Hat : forall w, 0 <= w < 64 -> packed !! Z.to_nat (w * 16 + l) = Some (lane packed l w)).
  { intros w' Hw'. unfold lane. rewrite (Z.mul_comm 16).
    destruct (lookup_lt_is_Some_2 packed (Z.to_nat (w' * 16 + l))) as [x Hx]; [unfold len in Hlen; lia|].
    by rewrite (nth_lookup_Some _ _ _ _ Hx). }
  assert (0 <= w < 64) by nia. rewrite (Hat w) by done. cbn [mbind option_bind]. case_bool; [|done].
  by rewrite Hat by nia.
Qed.

Lemma scalar_unpack_lanes out packed bits :
  is_packed packed -> 1 <= bits <= 32 -> len out = BLOCK ->
  scalar_unpack out packed bits =
  Some (of_lanes BLOCK (fun l v => signed 32 (lane_value bits (lane packed l) v))).
Proof.
  intros Hp Hb Hlen. unfold scalar_unpack. rewrite Hlen, Z.min_id.
  pose proof (fill_some BLOCK (scalar_slot packed bits)
    (fun i => signed 32 (lane_value bits (lane packed (i mod 16)) (i / 16)))) as Hf.
  unfold fill, range in Hf. rewrite Z.sub_0_r in Hf. rewrite Hf; clear Hf.
  - cbn [mbind option_bind]. rewrite drop_ge, app_nil_r by (unfold len, BLOCK in *; lia).
    unfold of_lanes, range. by rewrite Z.sub_0_r.
  - intros i Hi. unfold BLOCK in Hi.
    assert (i = 16 * (i / 16) + i mod 16 /\ 0 <= i / 16 < 64 /\ 0 <= i mod 16 < 16) as (Hd & Hv & Hl)
      by (Z.to_euclidean_division_equations; lia).
    rewrite Hd at 1. by apply model_slot.
Qed.

(** ** The checks pass *)

(** The values of a block by their index. *)
Definition golden_block (bits : Z) : list Z := of_lanes BLOCK (fun l v => signed 32 (golden bits (16 * v + l))).

Lemma golden_filled bits : fill BLOCK (fun i => Some (signed 32 (golden bits i))) = Some (golden_block bits).
Proof. rewrite (fill_some _ _ (fun i => signed 32 (golden bits i))) by done. by rewrite indexed_lanes. Qed.

(** The buffers between two widths. *)
Definition buffers_ok (b : Buffers) : Prop :=
  is_block (b_values b) /\ is_block (b_staged b) /\ is_packed (b_packed b) /\ is_block (b_out b) /\
  len (b_model b) = BLOCK.

Lemma zeroed_ok : buffers_ok zeroed_buffers.
Proof.
  pose proof zeroed_block. pose proof zeroed_packed.
  split_and!; try done; by cbn [zeroed_buffers b_values b_staged b_packed b_out].
Qed.

(** Nothing has failed, nothing was printed. *)
Definition passing (st : Buffers * Checked) : Prop := buffers_ok st.1 /\ st.2 = mkChecked 0 [].

Section Passes.
Context `{LibkncLaws}.

(** Values of the width itself come back from the kernels. *)
Lemma golden_unpacked bits out packed :
  valid_width bits = true -> is_block out -> is_packed packed ->
  knc_unpack out (knc_pack packed (golden_block bits) bits) bits = golden_block bits.
Proof.
  intros Hb Ho Hp. rewrite plain_roundtrip by (done || apply block_of_lanes).
  apply valid_width_range in Hb. apply of_lanes_ext. intros l v Hl Hv Hn. f_equal.
  unfold golden_block. rewrite lane_of_lanes by done. apply narrow_back; [done|by apply golden_uint].
Qed.

(** And from the model. *)
Lemma golden_modelled bits packed model :
  valid_width bits = true -> is_packed packed -> len model = BLOCK ->
  scalar_unpack model (knc_pack packed (golden_block bits) bits) bits = Some (golden_block bits).
Proof.
  intros Hb Hp Hm. destruct (pack_law packed (golden_block bits) bits Hb Hp (block_of_lanes _)) as (Hp' & _ & Hk).
  apply valid_width_range in Hb. rewrite scalar_unpack_lanes by done. f_equal.
  apply of_lanes_ext. intros l v Hl Hv Hn. f_equal. unfold BLOCK, LANES in *.
  rewrite (packs_value bits _ (lane (golden_block bits) l)); [|done|intros; by apply packed_uint|by apply Hk|lia].
  unfold golden_block. rewrite lane_of_lanes by (unfold LANES, BLOCK; lia). apply narrow_back; [done|by apply golden_uint].
Qed.

Lemma check_width_ok st bits :
  passing st -> valid_width bits = true -> exists st', check_width st bits = Some st' /\ passing st'.
Proof.
  intros [(Hv & Hs & Hp & Ho & Hm) Hc] Hb. destruct st as [b c]. cbn [fst snd] in *.
  unfold check_width. rewrite (expect_valid _ Hb). cbn [mbind option_bind].
  destruct Hv as [-> _]. rewrite golden_filled. cbn [mbind option_bind].
  unfold pack, unpack. cbn [c_bits]. rewrite golden_modelled, golden_unpacked by done. cbn [mbind option_bind].
  eexists. split; [reflexivity|]. rewrite !bool_decide_eq_true_2 by done. split; [|done].
  pose proof (block_of_lanes (fun l v => golden bits (16 * v + l))) as Hg.
  destruct (pack_law (b_packed b) (golden_block bits) bits Hb Hp Hg) as (Hp' & _ & _).
  split_and!; try done; apply Hg.
Qed.

(** The base of the cascades. *)
Definition demo_base : list Z := of_lanes LANES (fun l v => base_value (16 * v + l)).

Lemma demo_base_filled : fill (len Base_zeroed) (fun i => Some (base_value i)) = Some demo_base.
Proof. change (len Base_zeroed) with LANES. rewrite (fill_some _ _ base_value) by done. by rewrite indexed_lanes. Qed.

Lemma demo_base_ok : is_base demo_base.
Proof. split; [by apply len_of_lanes|]. apply of_lanes_Forall. intros. apply signed_sint. lia. Qed.

Lemma demo_base_at l : 0 <= l < LANES -> demo_base !! Z.to_nat l = Some (lane demo_base l 0).
Proof.
  intros Hl. unfold demo_base. rewrite of_lanes_lookup by done.
  rewrite lane_of_lanes by (unfold LANES in *; lia). unfold LANES in Hl.
  rewrite Z.mod_small, Z.div_small by lia. done.
Qed.

Definition for_block (bits : Z) : list Z :=
  of_lanes BLOCK (fun l v => signed 32 (wrap 32 (golden bits (16 * v + l) + wrap 32 (lane demo_base l 0)))).

Lemma for_filled bits : fill BLOCK (for_value bits demo_base) = Some (for_block bits).
Proof.
  rewrite (fill_some _ _ (fun i => signed 32 (wrap 32 (golden bits i + wrap 32 (lane demo_base (i mod 16) 0))))).
  - rewrite indexed_lanes. apply (f_equal Some), of_lanes_ext. intros l v Hl _ _. by destruct (lane_index v l Hl) as [-> _].
  - intros i Hi. unfold for_value. rewrite demo_base_at; [done|]. apply Z.mod_pos_bound. unfold LANES. lia.
Qed.

(** The delta values: running sums of the residues from the base. *)
Definition delta_value (bits l v : Z) : Z :=
  signed 32 (running (lane demo_base l 0) (fun v => golden bits (16 * v + l)) (S (Z.to_nat v))).

Definition delta_block (bits : Z) : list Z := of_lanes BLOCK (delta_value bits).

Lemma running_wrap b U n : running b U (S n) = wrap 32 (running b U n + U (Z.of_nat n)).
Proof. done. Qed.

Lemma delta_length bits : len (delta_block bits) = BLOCK.
Proof. by apply len_of_lanes. Qed.

(** The value the delta loop computes from the one before. *)
Lemma delta_value_step bits l v :
  0 <= v ->
  delta_value bits l v =
  signed 32 (wrap 32 (wrap 32 (if v =? 0 then lane demo_base l 0 else delta_value bits l (v - 1))
                      + golden bits (16 * v + l))).
Proof.
  intros Hv. unfold delta_value at 1. f_equal. rewrite running_wrap, Z2Nat.id by done.
  unfold wrap at 1 2 3. rewrite Zplus_mod_idemp_l. fold (wrap 32 (running (lane demo_base l 0)
    (fun v => golden bits (16 * v + l)) (Z.to_nat v) + golden bits (16 * v + l))).
  destruct (v =? 0) eqn:E; [by assert (v = 0) as -> by lia|].
  unfold delta_value. replace (S (Z.to_nat (v - 1))) with (Z.to_nat v) by lia.
  rewrite <- (Zplus_mod_idemp_l (signed 32 _)).
  change (signed 32 ?x mod 2 ^ 32) with (wrap 32 (signed 32 x)).
  destruct (Z.to_nat v) as [|n] eqn:En; [lia|].
  rewrite wrap_signed by (lia || rewrite running_wrap; apply wrap_uint; lia). done.
Qed.

(** After the positions below [n], the first [n] values are in place. *)
Lemma delta_loop bits values n :
  len values = BLOCK -> Z.of_nat n <= BLOCK ->
  foldl (fun v i => v ← v; delta_step bits demo_base v i) (Some values) (range 0 (Z.of_nat n)) =
  Some (take n (delta_block bits) ++ drop n values).
Proof.
  intros Hlen Hn. pose proof (delta_length bits) as Hd. unfold len, BLOCK in *.
  induction n as [|n IH]; [done|].
  rewrite Nat2Z.inj_succ, <- Z.add_1_r, range_snoc, foldl_app, IH by lia. cbn [foldl mbind option_bind].
  set (l := Z.of_nat n mod 16). set (v := Z.of_nat n / 16).
  assert (Hlv : Z.of_nat n = 16 * v + l /\ 0 <= l < LANES /\ 0 <= v)
    by (unfold LANES, l, v; Z.to_euclidean_division_equations; lia). destruct Hlv as (Hi & Hl & Hv).
  assert (Hat : forall i, (i < n)%nat -> (take n (delta_block bits) ++ drop n values) !! i =
    Some (delta_value bits (Z.of_nat i mod 16) (Z.of_nat i / 16))).
  { intros i Hin. rewrite lookup_app_l by (rewrite length_take; lia). rewrite lookup_take_lt by done.
    pose proof (of_lanes_lookup BLOCK (delta_value bits) (Z.of_nat i)) as Ho. rewrite Nat2Z.id in Ho.
    apply Ho. unfold BLOCK. lia. }
  assert (Hx : delta_block bits !! n = Some (delta_value bits l v)).
  { pose proof (of_lanes_lookup BLOCK (delta_value bits) (Z.of_nat n)) as Ho. rewrite Nat2Z.id in Ho.
    apply Ho. unfold BLOCK. lia. }
  unfold delta_step. cbn [mbind option_bind].
  assert (Hlen' : len (take n (delta_block bits) ++ drop n values) = BLOCK)
    by (unfold len, BLOCK; rewrite length_app, length_take, length_drop; lia).
  assert (Hres : <[n := delta_value bits l v]> (take n (delta_block bits) ++ drop n values) =
    take (S n) (delta_block bits) ++ drop (S n) values).
  { destruct (lookup_lt_is_Some_2 values n) as [y Hy]; [lia|].
    rewrite (drop_S values y n Hy), (take_S_r _ _ _ Hx), <- app_assoc.
    rewrite insert_app_r_alt by (rewrite length_take; lia).
    rewrite length_take, Nat.min_l, Nat.sub_diag by lia. done. }
  rewrite Hlen'. rewrite (proj2 (Z.ltb_lt (Z.of_nat n) BLOCK)) by (unfold BLOCK; lia). rewrite Nat2Z.id.
  rewrite (delta_value_step bits l v Hv), <- Hi in Hres.
  destruct (Z.of_nat n <? LANES) eqn:E; unfold LANES in *.
  - assert (l = Z.of_nat n /\ v = 0) as [Hl' Hv'] by (unfold l, v; Z.to_euclidean_division_equations; lia).
    pose proof (demo_base_at l ltac:(unfold LANES; lia)) as Hb. rewrite Hl', Nat2Z.id in Hb. rewrite Hb.
    cbn [mbind option_bind]. rewrite <- Hres, Hv', Hl'. done.
  - assert ((v =? 0) = false) as Hv0 by (unfold v in *; Z.to_euclidean_division_equations; lia).
    rewrite Hat by lia. cbn [mbind option_bind].
    replace (Z.of_nat (Z.to_nat (Z.of_nat n - 16)) mod 16) with l
      by (unfold l; Z.to_euclidean_division_equations; lia).
    replace (Z.of_nat (Z.to_nat (Z.of_nat n - 16)) / 16) with (v - 1)
      by (unfold v; Z.to_euclidean_division_equations; lia).
    by rewrite <- Hres, Hv0.
Qed.

Lemma delta_filled bits values :
  len values = BLOCK ->
  foldl (fun v i => v ← v; delta_step bits demo_base v i) (Some values) (range 0 BLOCK) = Some (delta_block bits).
Proof.
  intros Hlen. pose proof (delta_loop bits values (Z.to_nat BLOCK) Hlen) as Hl.
  rewrite Z2Nat.id in Hl by done. rewrite Hl by done. pose proof (delta_length bits) as Hd.
  unfold len in *. rewrite take_ge, drop_ge, app_nil_r by lia. done.
Qed.

(** The residues of the two kinds of values are the golden ones. *)
Lemma for_residue bits l v :
  1 <= bits <= 32 -> 0 <= v < 64 -> 0 <= l < LANES ->
  residue For (lane demo_base l 0) (lane (for_block bits) l) v = golden bits (16 * v + l).
Proof.
  intros Hb Hv Hl. unfold residue, for_block. rewrite lane_of_lanes by (unfold LANES, BLOCK in *; lia).
  unfold wrap at 1. rewrite <- Zminus_mod_idemp_l. fold (wrap 32 (signed 32 (wrap 32
    (golden bits (16 * v + l) + wrap 32 (lane demo_base l 0))))).
  rewrite wrap_signed by (lia || apply wrap_uint; lia).
  unfold wrap. rewrite Zminus_mod_idemp_l, Zminus_mod, Zplus_mod_idemp_r, <- Zminus_mod.
  replace (golden bits (16 * v + l) + lane demo_base l 0 - lane demo_base l 0) with (golden bits (16 * v + l)) by lia.
  apply (wrap_small 32). pose proof (golden_uint bits (16 * v + l) Hb) as [? ?].
  assert (2 ^ bits <= 2 ^ 32) by (apply Z.pow_le_mono_r; lia). split; lia.
Qed.

Lemma delta_residue bits l v :
  1 <= bits <= 32 -> 0 <= v < 64 -> 0 <= l < LANES ->
  residue Delta (lane demo_base l 0) (lane (delta_block bits) l) v = golden bits (16 * v + l).
Proof.
  intros Hb Hv Hl. unfold residue, before.
  assert (Hat : forall v, 0 <= v < 64 -> lane (delta_block bits) l v = delta_value bits l v)
    by (intros; apply lane_of_lanes; unfold LANES, BLOCK in *; lia).
  rewrite Hat by done. rewrite delta_value_step by lia.
  replace (if v =? 0 then lane demo_base l 0 else lane (delta_block bits) l (v - 1))
    with (if v =? 0 then lane demo_base l 0 else delta_value bits l (v - 1))
    by (destruct (v =? 0) eqn:E; [done|by rewrite Hat by lia]).
  set (p := if v =? 0 then lane demo_base l 0 else delta_value bits l (v - 1)).
  unfold wrap at 1. rewrite <- Zminus_mod_idemp_l.
  fold (wrap 32 (signed 32 (wrap 32 (wrap 32 p + golden bits (16 * v + l))))).
  rewrite wrap_signed by (lia || apply wrap_uint; lia).
  unfold wrap. rewrite Zminus_mod_idemp_l, Zminus_mod, Zplus_mod_idemp_l, <- Zminus_mod.
  replace (p + golden bits (16 * v + l) - p) with (golden bits (16 * v + l)) by lia.
  apply (wrap_small 32). pose proof (golden_uint bits (16 * v + l) Hb) as [? ?].
  assert (2 ^ bits <= 2 ^ 32) by (apply Z.pow_le_mono_r; lia). split; lia.
Qed.

(** One half of the body: encode, pack, unpack, compare. *)
Lemma framed_passes mode bits b values line :
  mode <> Plain -> valid_width bits = true -> buffers_ok b -> is_block values ->
  (forall v l, 0 <= v < 64 -> 0 <= l < LANES ->
     residue mode (lane demo_base l 0) (lane values l) v = golden bits (16 * v + l)) ->
  let staged := knc_encode mode (b_staged b) values demo_base in
  let packed := knc_pack (b_packed b) staged bits in
  let out := knc_unpack_mode mode (b_out b) packed bits demo_base in
  passing (mkBuffers values staged packed out (b_model b),
           outcome (bool_decide (out = values)) line (mkChecked 0 [])).
Proof.
  intros Hm Hb (Hv & Hs & Hp & Ho & Hmo) Hval Hres staged packed out.
  pose proof demo_base_ok as Hba.
  assert (out = values) as Hout.
  { apply framed_values; try done. intros v l Hv' Hl. rewrite Hres by done.
    apply golden_uint. by apply valid_width_range. }
  pose proof (encode_is_block mode (b_staged b) values demo_base Hm Hs Hval Hba) as He.
  destruct (pack_law (b_packed b) _ bits Hb Hp He) as (Hp' & _ & _).
  split; [|cbn [snd]; by rewrite bool_decide_eq_true_2]. split_and!; try done; cbn; by rewrite Hout || apply Hval.
Qed.

Lemma check_for_ok st bits :
  passing st -> valid_width bits = true -> exists st', check_for demo_base bits st = Some st' /\ passing st'.
Proof.
  intros [Hok Hc] Hb. destruct st as [b c]. cbn [fst snd] in *. subst c.
  unfold check_for. rewrite (expect_valid _ Hb). cbn [mbind option_bind].
  assert (len (b_values b) = BLOCK) as -> by apply Hok. rewrite for_filled. cbn [mbind option_bind].
  eexists. split; [reflexivity|].
  apply (framed_passes For bits b (for_block bits)); [done|done|done|apply block_of_lanes|].
  intros v l Hv Hl. apply for_residue; [by apply valid_width_range|done..].
Qed.

Lemma check_delta_ok st bits :
  passing st -> valid_width bits = true -> exists st', check_delta demo_base bits st = Some st' /\ passing st'.
Proof.
  intros [Hok Hc] Hb. destruct st as [b c]. cbn [fst snd] in *. subst c.
  unfold check_delta. rewrite (expect_valid _ Hb). cbn [mbind option_bind].
  assert (len (b_values b) = BLOCK) as Hlen by apply Hok. rewrite delta_filled by done.
  cbn [mbind option_bind].
  eexists. split; [reflexivity|].
  apply (framed_passes Delta bits b (delta_block bits)); [done|done|done|apply block_of_lanes|].
  intros v l Hv Hl'. apply delta_residue; [by apply valid_width_range|done..].
Qed.

Lemma width_in bits : bits ∈ range 1 33 -> valid_width bits = true.
Proof. intros Hb%list_elem_of_In%in_range. apply valid_width_range. lia. Qed.

Lemma initially_passing : passing (zeroed_buffers, mkChecked 0 []).
Proof. split; [apply zeroed_ok|done]. Qed.

Lemma cascades_loop :
  exists b, foldl (fun st bits => st ← st; st ← check_for demo_base bits st; check_delta demo_base bits st)
    (Some (zeroed_buffers, mkChecked 0 [])) (range 1 33) = Some (b, mkChecked 0 []).
Proof.
  destruct (loop_ok passing (fun st bits => st ← check_for demo_base bits st; check_delta demo_base bits st)
    (range 1 33) (zeroed_buffers, mkChecked 0 [])) as ([b c] & Hl & _ & Hc); [apply initially_passing| |].
  - intros st bits Hb%width_in Hp. destruct (check_for_ok st bits Hp Hb) as (st1 & -> & Hp1).
    by apply check_delta_ok.
  - cbn [snd] in Hc. subst c. by exists b.
Qed.

Lemma widths_loop :
  exists b, foldl (fun st bits => st ← st; check_width st bits) (Some (zeroed_buffers, mkChecked 0 [])) (range 1 33) =
    Some (b, mkChecked 0 []).
Proof.
  destruct (loop_ok passing check_width (range 1 33) (zeroed_buffers, mkChecked 0 []))
    as ([b c] & Hl & _ & Hc); [apply initially_passing| |].
  - intros st bits Hb%width_in Hp. by apply check_width_ok.
  - cbn [snd] in Hc. subst c. by exists b.
Qed.

Lemma check_cascades_ok : check_cascades = Some (mkChecked 0 [cascade_line 0]).
Proof.
  unfold check_cascades. rewrite (bind_some _ _ _ demo_base_filled). destruct cascades_loop as [b Hl].
  by rewrite (bind_some _ _ _ Hl).
Qed.

Lemma check_every_width_ok : check_every_width = Some (mkChecked 0 [width_line 0; cascade_line 0]).
Proof.
  unfold check_every_width. destruct widths_loop as [b Hl]. rewrite (bind_some _ _ _ Hl).
  rewrite (bind_some _ (assert_refused 0) tt), (bind_some _ (assert_refused 33) tt) by done.
  by rewrite (bind_some _ _ _ check_cascades_ok).
Qed.

(** ** The measurement *)

(** The output buffers of a thread. *)
Definition outputs_ok (blocks : Z) (out : list (list Z)) : Prop :=
  length out = Z.to_nat blocks /\ Forall is_block out.

Lemma unpack_at_ok bits source blocks out b :
  valid_width bits = true -> is_packed source -> outputs_ok blocks out -> 0 <= b < blocks ->
  exists out', unpack_at (mkCodec bits) (replicate (Z.to_nat blocks) source) out b = Some out' /\
    outputs_ok blocks out'.
Proof.
  intros Hb Hs [Hlen Hall] Hi. unfold unpack_at.
  destruct (lookup_lt_is_Some_2 out (Z.to_nat b)) as [o Ho]; [lia|]. rewrite (bind_some _ _ _ Ho).
  rewrite (bind_some _ _ source) by (apply lookup_replicate; split; [done|lia]).
  eexists. split; [reflexivity|]. split; [by rewrite length_insert|].
  apply Forall_insert; [done|].
  assert (is_base Base_zeroed) as Hz by (split; [done|by apply Forall_replicate]).
  apply (unpack_is_block Plain o source bits Base_zeroed); try done. apply (Forall_lookup_1 _ _ _ _ Hall Ho).
Qed.

(** What the loop of a thread leaves: the first block is the source's values,
    or still zero when nothing was decoded. *)
Definition first_block (reps bits : Z) : list Z := if reps =? 0 then Block_zeroed else golden_block bits.

Definition the_source (bits : Z) : list Z := knc_pack Packed_zeroed (golden_block bits) bits.

Lemma source_ok bits : valid_width bits = true -> is_packed (the_source bits).
Proof. intros Hb. by apply pack_law; [done|apply zeroed_packed|apply block_of_lanes]. Qed.

Lemma unpack_at_lookup bits blocks out b c out' x :
  valid_width bits = true -> outputs_ok blocks out -> 0 <= b < blocks -> 0 <= c < blocks ->
  unpack_at (mkCodec bits) (replicate (Z.to_nat blocks) (the_source bits)) out b = Some out' ->
  out !! Z.to_nat c = Some x ->
  out' !! Z.to_nat c = Some (if c =? b then golden_block bits else x).
Proof.
  intros Hb [Hlen Hall] Hi Hc Hu Hx. unfold unpack_at in Hu.
  destruct (lookup_lt_is_Some_2 out (Z.to_nat b)) as [o Ho]; [lia|]. rewrite (bind_some _ _ _ Ho) in Hu.
  rewrite (bind_some _ _ (the_source bits)) in Hu by (apply lookup_replicate; split; [done|lia]).
  injection Hu as <-. destruct (Z.eqb_spec c b) as [->|Hne].
  - rewrite list_lookup_insert_eq by lia. f_equal. unfold unpack. cbn [c_bits]. apply golden_unpacked; [done| |apply zeroed_packed].
    apply (Forall_lookup_1 _ _ _ _ Hall Ho).
  - by rewrite list_lookup_insert_ne by lia.
Qed.

(** One pass over the blocks. *)
Lemma pass_ok bits blocks out :
  valid_width bits = true -> 0 < blocks -> outputs_ok blocks out ->
  exists out', foldl (fun out b => out ← out; unpack_at (mkCodec bits) (replicate (Z.to_nat blocks) (the_source bits)) out b)
      (Some out) (range 0 blocks) = Some out' /\
    outputs_ok blocks out' /\ out' !! 0%nat = Some (golden_block bits).
Proof.
  intros Hb Hbl Ho. pose proof (source_ok bits Hb) as Hs.
  unfold range. rewrite seqZ_cons by lia. cbn [foldl mbind option_bind].
  destruct (unpack_at_ok bits _ blocks out 0 Hb Hs Ho) as (out1 & Hu & Ho1); [lia|]. rewrite Hu.
  assert (out1 !! 0%nat = Some (golden_block bits)) as Hg.
  { destruct (lookup_lt_is_Some_2 out (Z.to_nat 0)) as [x Hx]; [destruct Ho; lia|].
    by apply (unpack_at_lookup bits blocks out 0 0 out1 x Hb Ho ltac:(lia) ltac:(lia) Hu Hx). }
  apply (loop_ok (fun out => outputs_ok blocks out /\ out !! 0%nat = Some (golden_block bits))); [done|].
  intros out2 b Hin%elem_of_seqZ [Ho2 Hg2].
  destruct (unpack_at_ok bits _ blocks out2 b Hb Hs Ho2) as (out3 & Hu3 & Ho3); [lia|].
  exists out3. split_and!; [done..|].
  pose proof (unpack_at_lookup bits blocks out2 b 0 out3 _ Hb Ho2 ltac:(lia) ltac:(lia) Hu3 Hg2) as Hl.
  rewrite (proj2 (Z.eqb_neq 0 b)) in Hl by lia. done.
Qed.

Lemma passes_ok bits blocks reps :
  valid_width bits = true -> 0 < blocks -> 0 <= reps ->
  exists out', Nat.iter (Z.to_nat reps)
      (fun out => out ← out; foldl (fun out b => out ← out; unpack_at (mkCodec bits) (replicate (Z.to_nat blocks) (the_source bits)) out b)
        (Some out) (range 0 blocks))
      (Some (replicate (Z.to_nat blocks) Block_zeroed)) = Some out' /\
    out' !! 0%nat = Some (first_block reps bits).
Proof.
  intros Hb Hbl Hr. set (f := fun out => foldl _ (Some out) (range 0 blocks)).
  set (start := replicate (Z.to_nat blocks) Block_zeroed).
  assert (outputs_ok blocks start) as Hstart.
  { split; [apply length_replicate|]. apply Forall_replicate, zeroed_block. }
  unfold first_block. destruct (Z.eqb_spec reps 0) as [->|Hne].
  - exists start. split; [done|]. apply lookup_replicate. split; [done|lia].
  - replace (Z.to_nat reps) with (S (Z.to_nat (reps - 1))) by lia.
    destruct (iter_ok (outputs_ok blocks) f (Z.to_nat (reps - 1)) start Hstart) as (out & Hit & Ho).
    { intros out Ho. destruct (pass_ok bits blocks out Hb Hbl Ho) as (out' & ? & ? & _). by exists out'. }
    destruct (pass_ok bits blocks out Hb Hbl Ho) as (out' & Hf & _ & Hg). exists out'. split; [|done].
    rewrite Nat.iter_succ. exact (eq_trans (f_equal (fun st => st ← st; f st) Hit) Hf).
Qed.

Lemma whole_word W : uint 32 (W 0) -> lane_value 32 W 0 = W 0.
Proof.
  intros Hw. unfold lane_value. change (place 32 0) with (0, 0). cbv iota beta.
  change (32 <? 0 + 32) with false. cbv iota.
  rewrite Z.shiftr_0_r, low_mask_ones, Z.land_ones by lia. by apply wrap_small.
Qed.

(** The first word of the source. *)
Lemma source_head bits :
  valid_width bits = true -> exists y ws, the_source bits = y :: ws /\ uint 32 y /\ (bits = 32 -> y = 0x9E3779B9).
Proof.
  intros Hb. pose proof (source_ok bits Hb) as [Hlen Hall].
  destruct (the_source bits) as [|y ws] eqn:E; [discriminate Hlen|]. exists y, ws.
  apply Forall_cons in Hall as [Hy _]. split_and!; [done..|]. intros ->.
  destruct (pack_law Packed_zeroed (golden_block 32) 32 Hb zeroed_packed (block_of_lanes _)) as (Hp & _ & Hk).
  fold (the_source 32) in Hp, Hk. specialize (Hk 0 ltac:(unfold LANES; lia)).
  assert (forall w, uint 32 (lane (the_source 32) 0 w)) as Hu by (intros; by apply packed_uint).
  pose proof (packs_value 32 _ _ 0 ltac:(lia) Hu Hk ltac:(lia)) as Hv.
  unfold golden_block in Hv. rewrite lane_of_lanes in Hv by (unfold LANES, BLOCK; lia).
  rewrite narrow_back in Hv by (lia || by apply golden_uint).
  rewrite whole_word in Hv by done. rewrite E in Hv. exact Hv.
Qed.

Lemma golden_head bits : exists xs, golden_block bits = signed 32 (golden bits 0) :: xs.
Proof. eexists. unfold golden_block, of_lanes, range, BLOCK. rewrite seqZ_cons by lia. reflexivity. Qed.

(** The sum a thread returns: it overflows at width 32, where the first value
    is negative and [as u64] extends its sign. *)
Lemma sum_ok checks bits reps y :
  valid_width bits = true -> uint 32 y -> (bits = 32 -> y = 0x9E3779B9) ->
  exists x xs, first_block reps bits = x :: xs /\
    (is_Some (add_u64 checks (wrap 64 x) y) <-> ~ (checks = true /\ reps <> 0 /\ bits = 32)).
Proof.
  intros Hb Hy Hy32. apply valid_width_range in Hb as Hr.
  assert (forall x, 0 <= x < 2 ^ 32 -> is_Some (add_u64 checks (wrap 64 x) y)) as Hsmall.
  { intros x Hx. unfold add_u64. rewrite (wrap_small 64 x) by (split; lia).
    destruct Hy. rewrite (proj2 (Z.leb_gt (2 ^ 64) (x + y))) by lia. rewrite andb_false_r. by eexists. }
  unfold first_block. destruct (Z.eqb_spec reps 0) as [->|Hne].
  - exists 0. eexists. split; [reflexivity|]. split; [lia|]. intros _. apply Hsmall. lia.
  - destruct (golden_head bits) as [xs ->]. eexists _, xs. split; [done|].
    destruct (decide (bits = 32)) as [->|Hn].
    + rewrite (Hy32 eq_refl). destruct checks.
      * split; [intros [? Ha]; vm_compute in Ha; discriminate|intros Hc; destruct Hc; by split_and!].
      * split; [intros _ [? _]; done|intros _; by eexists].
    + pose proof (golden_uint bits 0 ltac:(lia)) as [Hg0 Hg].
      assert (2 ^ bits <= 2 ^ 31) by (apply Z.pow_le_mono_r; lia).
      rewrite signed_small by (cbn in *; lia). split; [lia|]. intros _. apply Hsmall. cbn in *. lia.
Qed.

(** A thread runs to its end exactly when its buffers fit, it has a block to
    read back, and its sum does not overflow. *)
Definition thread_ends (checks : bool) (blocks reps bits : Z) : bool :=
  capacity_fits 4096 64 blocks && negb (blocks =? 0) && negb (checks && negb (reps =? 0) && (bits =? 32)).

Lemma worker_ok checks bits blocks reps :
  valid_width bits = true -> 0 <= blocks -> 0 <= reps ->
  is_Some (worker checks (mkCodec bits) (the_source bits) blocks reps) <-> thread_ends checks blocks reps bits = true.
Proof.
  intros Hb Hbl Hr. unfold worker, thread_ends, vec_of, assert_.
  destruct (capacity_fits 4096 64 blocks); [|split; [by intros []|done]]. cbn [mbind option_bind andb].
  destruct (Z.eqb_spec blocks 0) as [->|Hne].
  { split; [|done]. intros [n Hn]. exfalso. clear -Hn.
    assert (forall n, Nat.iter n (fun out : option (list (list Z)) => out ← out; foldl (fun out b => out ← out;
      unpack_at (mkCodec bits) [] out b) (Some out) (range 0 0)) (Some []) = Some []) as He.
    { intros n'. induction n' as [|n' IH]; [done|]. rewrite Nat.iter_succ, IH. done. }
    apply bind_Some in Hn as (out & Ho & Hn). change (replicate (Z.to_nat 0) _) with (@nil (list Z)) in Ho.
    rewrite He in Ho. injection Ho as <-. discriminate Hn. }
  destruct (passes_ok bits blocks reps Hb ltac:(lia) Hr) as (out & Hit & Hf).
  destruct (source_head bits Hb) as (y & ws & Hs & Hy & Hy32).
  destruct (sum_ok checks bits reps y Hb Hy Hy32) as (x & xs & Hx & Hsum).
  change (mbind ?f ?o) with (option_bind _ _ f o). rewrite (bind_some _ _ _ Hit), (bind_some _ _ _ Hf), Hx, (bind_some _ _ x) by done.
  rewrite (bind_some _ _ (the_source bits)) by (apply lookup_replicate; split; [done|lia]).
  rewrite Hs, (bind_some _ _ y), Hsum by done. cbn [negb andb].
  destruct checks, (Z.eqb_spec reps 0), (Z.eqb_spec bits 32); cbn; intuition congruence.
Qed.

(** The line of a width. *)
Definition row (rate : Z -> string) (threads blocks reps bits : Z) : string :=
  right_align 5 (dec bits) +:+ " " +:+ right_align 8 (dec threads) +:+ " "
  +:+ rate (wrap 64 (threads * reps * blocks * BLOCK)) +:+ " " +:+ right_align 10 (dec (32 * bits)) +:+ " words".

Lemma wrap_mul_l w a b : wrap w (wrap w a * b) = wrap w (a * b).
Proof. apply Zmult_mod_idemp_l. Qed.

Definition products_fit (checks : bool) (threads blocks reps : Z) : bool :=
  negb (checks && (2 ^ 64 <=? threads * reps)) && negb (checks && (2 ^ 64 <=? threads * reps * blocks))
  && negb (checks && (2 ^ 64 <=? threads * reps * blocks * BLOCK)).

(** When the line of a width is reached. *)
Definition measurable (checks : bool) (handle : Z) (granted : Z -> Z -> bool) (threads blocks reps bits : Z) : bool :=
  capacity_fits handle 8 threads && forallb (granted bits) (range 0 threads)
  && ((threads =? 0) || thread_ends checks blocks reps bits) && products_fit checks threads blocks reps.

Lemma mul_checked a b : 0 <= a -> 0 <= b ->
  mul_usize true a b = if negb (2 ^ 64 <=? a * b) then Some (a * b) else None.
Proof.
  intros Ha Hb. unfold mul_usize. cbn [andb]. destruct (Z.leb_spec (2 ^ 64) (a * b)); [done|].
  cbn [negb]. by rewrite wrap_small by (split; nia).
Qed.

Lemma total_ok checks threads blocks reps :
  0 <= threads -> 0 <= blocks -> 0 <= reps ->
  (n1 ← mul_usize checks threads reps; n2 ← mul_usize checks n1 blocks; mul_usize checks n2 BLOCK) =
  if products_fit checks threads blocks reps then Some (wrap 64 (threads * reps * blocks * BLOCK)) else None.
Proof.
  intros Ht Hb Hr. unfold products_fit. destruct checks; cbn [andb negb].
  - rewrite mul_checked by done. destruct (Z.leb_spec (2 ^ 64) (threads * reps)); [done|]. cbn [negb mbind option_bind andb].
    rewrite mul_checked by nia. destruct (Z.leb_spec (2 ^ 64) (threads * reps * blocks)); [done|]. cbn [negb mbind option_bind andb].
    rewrite mul_checked by (unfold BLOCK; nia). destruct (Z.leb_spec (2 ^ 64) (threads * reps * blocks * BLOCK)); [done|]. cbn [negb].
    by rewrite wrap_small by (unfold BLOCK in *; split; nia).
  - unfold mul_usize. cbn [andb mbind option_bind].
    by rewrite wrap_mul_l, Zmult_assoc_reverse, wrap_mul_l, <- Zmult_assoc_reverse.
Qed.

(** The threads of a width all end, or the first that does not ends it. *)
Lemma threads_ok {A} (granted : Z -> bool) (o : option A) (b : bool) n :
  0 <= n -> (is_Some o <-> b = true) ->
  is_Some (mapM (fun i => assert_ (granted i) o) (range 0 n)) <->
  forallb granted (range 0 n) && ((n =? 0) || b) = true.
Proof.
  intros Hn Ho. rewrite mapM_is_Some, andb_true_iff, forallb_forall, Forall_forall. split.
  - intros Hall. assert (forall i, i ∈ range 0 n -> granted i = true /\ is_Some o) as Hi.
    { clear -Hall. intros i Hi%Hall. unfold compose, assert_ in Hi. destruct (granted i); [by split|by destruct Hi]. }
    split; [intros i Hin%list_elem_of_In; by apply Hi|].
    destruct (Z.eqb_spec n 0); [done|]. apply Ho, (Hi 0), elem_of_seqZ. lia.
  - intros [Hg Hb] i Hi. unfold compose. rewrite (Hg i) by (by apply list_elem_of_In). cbn [assert_].
    apply Ho. apply elem_of_seqZ in Hi. destruct (Z.eqb_spec n 0); [lia|done].
Qed.

Lemma measure_ok checks handle granted rate threads blocks reps bits :
  valid_width bits = true -> 0 <= threads -> 0 <= blocks -> 0 <= reps ->
  measure checks handle granted rate threads blocks reps bits =
  if measurable checks handle granted threads blocks reps bits
  then Some (row rate threads blocks reps bits) else None.
Proof.
  intros Hb Ht Hbl Hr. unfold measure, measurable. rewrite (bind_some _ _ _ (expect_valid bits Hb)).
  change (len Block_zeroed) with BLOCK. rewrite (bind_some _ _ _ (golden_filled bits)). cbv zeta.
  unfold pack. cbn [c_bits]. fold (the_source bits).
  assert (words (mkCodec bits) = 32 * bits) as Hwords
    by (unfold words, BLOCK; cbn [c_bits]; Z.to_euclidean_division_equations; lia).
  destruct (capacity_fits handle 8 threads); [|done]. cbn [assert_ andb].
  pose proof (threads_ok (granted bits) _ _ threads Ht (worker_ok checks bits blocks reps Hb Hbl Hr)) as Hw.
  pose proof (total_ok checks threads blocks reps Ht Hbl Hr) as Htot.
  destruct (forallb (granted bits) (range 0 threads) && ((threads =? 0) || thread_ends checks blocks reps bits)).
  - destruct (proj2 Hw eq_refl) as [l Hl]. rewrite (bind_some _ _ _ Hl). cbn [andb].
    rewrite Hwords. unfold row. destruct (products_fit checks threads blocks reps).
    + apply bind_Some in Htot as (n1 & H1 & Htot). apply bind_Some in Htot as (n2 & H2 & H3).
      by rewrite (bind_some _ _ _ H1), (bind_some _ _ _ H2), (bind_some _ _ _ H3).
    + destruct (mul_usize checks threads reps) as [n1|]; [|done]. cbn [mbind option_bind] in *.
      destruct (mul_usize checks n1 blocks) as [n2|]; [|done]. cbn [mbind option_bind] in *.
      by rewrite Htot.
  - cbn [andb]. destruct (mapM _ _) as [l|]; [|done]. exfalso. discriminate (proj1 Hw (mk_is_Some (Some l) l eq_refl)).
Qed.

(** ** The program *)

Lemma digits_nonneg acc s n : 0 <= acc -> digits acc s = Some n -> 0 <= n.
Proof.
  revert acc. induction s as [|c s IH]; intros acc Ha Hd; cbn in Hd; [by injection Hd as <-|].
  destruct ((0 <=? _) && _ && _) eqn:E; [|done]. apply (IH _) in Hd; [done|]. lia.
Qed.

Lemma parse_nonneg s n : parse_usize s = Some n -> 0 <= n.
Proof.
  destruct s as [|c r]; [done|]. cbn [parse_usize]. destruct (Ascii.eqb _ _).
  - destruct r; [done|]. by apply digits_nonneg.
  - by apply digits_nonneg.
Qed.

Lemma argument_nonneg args n d : 0 <= d -> 0 <= argument args n d.
Proof.
  intros Hd. unfold argument. destruct (s ← args !! n; parse_usize s) as [x|] eqn:E; [|done].
  apply bind_Some in E as (s & _ & Hs). by apply parse_nonneg in Hs.
Qed.

Lemma measured_valid bits : bits ∈ measured_widths -> valid_width bits = true.
Proof.
  intros Hb. assert (Forall (fun b => valid_width b = true) measured_widths) as Hall by repeat constructor.
  rewrite Forall_forall in Hall. by apply Hall.
Qed.

(** A list of lines is complete when every line is reached. *)
Lemma mapM_if {A B} (p : A -> bool) (g : A -> B) l :
  mapM (fun x => if p x then Some (g x) else None) l = if forallb p l then Some (g <$> l) else None.
Proof.
  induction l as [|x l IH]; [done|]. cbn [mapM forallb]. destruct (p x); [|done]. cbn [mbind option_bind andb].
  rewrite IH. by destruct (forallb p l).
Qed.

(** When the program runs to its end. *)
Definition completes (checks : bool) (handle : Z) (granted : Z -> Z -> bool) (threads blocks reps : Z) : bool :=
  capacity_fits handle 8 threads
  && forallb (fun bits => forallb (granted bits) (range 0 threads)) measured_widths
  && ((threads =? 0)
      || negb (blocks =? 0) && capacity_fits 4096 64 blocks && negb (checks && negb (reps =? 0))).

(** Whenever the threads and their sums do not stop a checking build, its
    products are zero. *)
Lemma products_fit_idle checks threads blocks reps :
  threads = 0 \/ checks = false \/ reps = 0 -> products_fit checks threads blocks reps = true.
Proof.
  unfold products_fit. intros [-> | [-> | ->]]; [|done|rewrite Z.mul_0_r]; by destruct checks.
Qed.

Lemma all_measurable checks handle granted threads blocks reps :
  forallb (measurable checks handle granted threads blocks reps) measured_widths =
  completes checks handle granted threads blocks reps.
Proof.
  unfold measurable, completes, thread_ends, measured_widths. cbn [forallb].
  destruct (capacity_fits handle 8 threads); [cbn [andb]|done].
  pose proof (products_fit_idle checks threads blocks reps) as Hp.
  generalize (forallb (granted 1) (range 0 threads)), (forallb (granted 8) (range 0 threads)),
    (forallb (granted 11) (range 0 threads)), (forallb (granted 16) (range 0 threads)),
    (forallb (granted 32) (range 0 threads)).
  intros [] [] [] [] []; rewrite ?andb_false_r; try done;
  destruct (Z.eqb_spec threads 0); try (rewrite Hp by tauto; done);
  destruct (capacity_fits 4096 64 blocks), (blocks =? 0), checks; try done; try (rewrite Hp by tauto; done);
  destruct (Z.eqb_spec reps 0); try (rewrite Hp by tauto; done); by destruct (products_fit _ _ _ _).
Qed.

(** C10: the demo program is right about any library that keeps the documented
    laws, in both builds, whatever its arguments and whatever the system
    grants.  Both checks report no failure at any width.  The program runs to
    its end exactly when the list of threads can be as long as asked, the
    system grants every thread, and, unless there are none, each has a block
    to decode, its buffers can be as long as asked and, in a build with
    overflow checks, nothing is decoded (the sum a thread returns then
    overflows at width 32); otherwise it panics or is aborted.  When it ends
    the lines are exactly these, up to the rate, and the status is 0. *)
Theorem demo_passes checks handle granted rate args :
  let threads := argument args 1 1 in let blocks := argument args 2 64 in let reps := argument args 3 128 in
  demo_main checks handle granted rate args =
  if completes checks handle granted threads blocks reps
  then Some ([title; width_line 0; cascade_line 0; table_head] ++ (row rate threads blocks reps <$> measured_widths), 0)
  else None.
Proof.
  intros threads blocks reps. unfold demo_main. fold threads blocks reps.
  rewrite (bind_some _ _ _ check_every_width_ok).
  assert (0 <= threads /\ 0 <= blocks /\ 0 <= reps) as (Ht & Hb & Hr) by (split_and!; by apply argument_nonneg).
  assert (mapM (measure checks handle granted rate threads blocks reps) measured_widths =
          if completes checks handle granted threads blocks reps
          then Some (row rate threads blocks reps <$> measured_widths) else None) as ->.
  { rewrite <- all_measurable, <- mapM_if. apply Forall_mapM_ext, Forall_forall. intros bits Hin%measured_valid. by apply measure_ok. }
  by destruct (completes _ _ _ _ _ _).
Qed.
End Passes.

Lemma demo_passes_witness :
  @demo_main reference_libknc false 24 (fun _ _ => true) (fun n => right_align 12 (dec n)) ["knc-demo"; "2"; "3"; "+5"]%string =
  Some ([title; "widths 1 to 32: all OK"; "frame of reference and delta, widths 1 to 32: all OK";
         nl +:+ "bits  threads    unpack M/s           packed";
         "    1        2        30720         32 words"; "    8        2        30720        256 words";
         "   11        2        30720        352 words"; "   16        2        30720        512 words";
         "   32        2        30720       1024 words"]%string, 0) /\
  @demo_main reference_libknc true 24 (fun _ _ => true) (fun n => right_align 12 (dec n)) ["knc-demo"; "2"; "3"; "+5"]%string = None /\
  @demo_main reference_libknc false 24 (fun _ _ => true) (fun n => right_align 12 (dec n)) ["knc-demo"; "1"; "2251799813685248"]%string = None.
Proof.
  split_and!; (etransitivity; [apply (@demo_passes reference_libknc reference_laws)|]); vm_compute; reflexivity.
Defined.
