(* ===== verification/KncCalls.v ===== *)
(** The machine code keeps the interface of the crate: a call of an entry
    point of libknc, on objects in memory laid out and aligned as the types
    of card/lib/knc-rs/src/lib.rs lay them out and apart as Rust's borrows
    keep them, leaves in the written object what [reference_libknc] says. *)

From stdpp Require Import functions.
From S2P Require Import Prelude Bytes Mvex MvexDis MvexCalls Codegen Layout Fpu Vpu VpuCalls Symbolic Kernels KernelsPack Roundtrip Knc Libknc.

Local Open Scope Z_scope.
Local Open Scope phi_scope.

(** ** Objects in memory *)

(** An array of [i32]s or [u32]s at an address, in a type aligned to 64. *)
Record object `{Space} (st : State) (p : Z) (xs : list Z) : Prop := {
  ob_aligned : p mod 64 = 0;
  ob_room : 0 <= p /\ p + 4 * len xs <= 2 ^ 64;
  ob_mapped : mapped_range p (4 * len xs);
  ob_words : buffer (ram st) p (len xs) = wrap 32 <$> xs
}.

Definition separate (p n q m : Z) : Prop := p + n <= q \/ q + m <= p.

Lemma object_at `{Space} st p xs v l :
  object st p xs -> 0 <= v -> 0 <= l < LANES -> 16 * v + l < len xs ->
  ram st (p + 64 * v + 4 * l) = wrap 32 (lane xs l v).
Proof.
  intros Ho Hv Hl Hn. pose proof (ob_words st p xs Ho) as Hb. unfold LANES in Hl.
  pose proof (buffer_lookup (ram st) p (len xs) (16 * v + l) ltac:(lia)) as Hx.
  rewrite Hb, list_lookup_fmap in Hx. unfold lane.
  destruct (xs !! Z.to_nat (16 * v + l)) as [x|] eqn:E; [|discriminate Hx].
  rewrite (nth_lookup_Some _ _ _ _ E). cbn in Hx. injection Hx as ->. f_equal. lia.
Qed.

Lemma buffer_lanes m p xs :
  (forall v l, 0 <= v -> 0 <= l < LANES -> 16 * v + l < len xs ->
     m (p + 64 * v + 4 * l) = wrap 32 (lane xs l v)) ->
  buffer m p (len xs) = wrap 32 <$> xs.
Proof.
  intros Hm. rewrite <- (lanes_of xs) at 2. unfold of_lanes. rewrite <- list_fmap_compose.
  unfold buffer, range. rewrite Z.sub_0_r. apply list_fmap_ext. intros i x Hx.
  apply lookup_seqZ in Hx as [Hx Hi]. unfold compose. rewrite <- Hm.
  - f_equal. clear Hm. Z.to_euclidean_division_equations. lia.
  - Z.to_euclidean_division_equations. lia.
  - unfold LANES. Z.to_euclidean_division_equations. lia.
  - clear Hm. assert (x < len xs) by (unfold len in *; lia). Z.to_euclidean_division_equations. lia.
Qed.

Lemma object_buffer `{Space} st p xs n : object st p xs -> n <= 4 * len xs -> buffer_at p n.
Proof. intros [Ha [H0 H1] Hm _] Hn. by apply (buffer_shrink p (4 * len xs)). Qed.

(** The object that was written. *)
Lemma object_written `{Space} st st' p xs ys :
  object st p xs -> len ys = len xs ->
  (forall v l, 0 <= v -> 0 <= l < LANES -> 16 * v + l < len ys ->
     ram st' (p + 64 * v + 4 * l) = wrap 32 (lane ys l v)) ->
  object st' p ys.
Proof.
  intros Ho Hlen Hm. destruct Ho as [Ha Hr Hmp _].
  split; [done|by rewrite Hlen|by rewrite Hlen|by apply buffer_lanes].
Qed.

(** ** Words and bases, as the machine has them *)

Lemma running_base b U n : running (wrap 32 b) U (S n) = running b U (S n).
Proof.
  induction n as [|n IH]; [apply Zplus_mod_idemp_l|].
  change (running (wrap 32 b) U (S (S n))) with (wrap 32 (running (wrap 32 b) U (S n) + U (Z.of_nat (S n)))).
  by rewrite IH.
Qed.

Lemma running_ext b U U' n : (forall k, 0 <= k < Z.of_nat n -> U k = U' k) -> running b U n = running b U' n.
Proof.
  induction n as [|n IH]; intros HU; [done|]. cbn [running]. rewrite IH, HU; [done|lia|].
  intros k Hk. apply HU. lia.
Qed.

(** An unpacked value depends on the base modulo [2 ^ 32] and on the words of
    the block only, and is a word. *)
Lemma unpacked_memory bits mode b b' W W' v :
  1 <= bits <= 32 -> 0 <= v < 64 -> (mode <> Plain -> b = wrap 32 b') ->
  (forall w, 0 <= w < 64 -> W w = W' w) -> (forall w, uint 32 (W' w)) ->
  unpacked bits mode b W v = wrap 32 (signed 32 (unpacked bits mode b' W' v)).
Proof.
  intros Hb Hv Hbase HW Hu.
  assert (HL : forall v, 0 <= v < 64 -> lane_value bits W v = lane_value bits W' v).
  { intros v' Hv'. apply lane_value_ext; [done..|]. intros w Hw. apply HW. lia. }
  assert (uint 32 (unpacked bits mode b' W' v)) as Huv.
  { destruct mode; cbn [unpacked]; [|apply wrap_uint; lia..].
    destruct (lane_value_uint bits W' v Hb Hu). assert (2 ^ bits <= 2 ^ 32) by (apply Z.pow_le_mono_r; lia).
    split; lia. }
  rewrite wrap_signed by (done || lia). destruct mode; unfold unpacked.
  - by apply HL.
  - rewrite HL, Hbase by done. apply Zplus_mod_idemp_l.
  - rewrite Hbase, running_base by done. apply running_ext. intros k Hk. apply HL. lia.
Qed.

(** Words that pack the same values are the same. *)
Lemma packs_unique bits W W' X X' w :
  1 <= bits <= 32 -> 0 <= w < 2 * bits -> uint 32 (W w) -> uint 32 (W' w) ->
  packs bits W X -> packs bits W' X' ->
  (forall v, 0 <= v < 64 -> wrap 32 (X v) = wrap 32 (X' v)) -> W w = W' w.
Proof.
  intros Hb Hw Hu Hu' Hp Hp' HX. apply Z.bits_inj'. intros n Hn.
  destruct (Z.lt_ge_cases n 32); [|by rewrite !(uint_testbit 32) by (done || lia)].
  set (v := (32 * w + n) / bits). set (j := (32 * w + n) mod bits).
  assert (0 <= j < bits) by (apply Z.mod_pos_bound; lia).
  assert (32 * w + n = bits * v + j) as He by (apply Z.div_mod; lia).
  assert (0 <= v < 64) as Hv by (split; [apply Z.div_pos; lia|apply Z.div_lt_upper_bound; lia]).
  pose proof (Hp v j Hv ltac:(lia)) as H1. pose proof (Hp' v j Hv ltac:(lia)) as H2.
  unfold stream_bit in H1, H2. rewrite <- He in H1, H2.
  destruct (word_bit w 0 n) as [E1 E2]; [lia|]. rewrite !Z.add_0_r in E1, E2. rewrite Z.add_0_l in E2.
  rewrite E1, E2 in H1, H2. rewrite H1, H2.
  assert (Z.testbit (wrap 32 (X v)) j = Z.testbit (wrap 32 (X' v)) j) as Hj by by rewrite HX.
  rewrite !testbit_wrap, (proj2 (Z.ltb_lt j 32)) in Hj by lia. exact Hj.
Qed.

(** A residue depends on its arguments modulo [2 ^ 32]. *)
Lemma residue_memory mode b b' X X' v :
  b = wrap 32 b' -> (forall v, 0 <= v < 64 -> X v = wrap 32 (X' v)) -> 0 <= v < 64 ->
  residue mode b X v = residue mode b' X' v.
Proof.
  intros -> HX Hv. unfold residue, before, wrap in *. rewrite HX by done.
  rewrite Zminus_mod_idemp_l.
  destruct mode; [by rewrite Zminus_mod_idemp_r..|].
  destruct (v =? 0) eqn:E; [by rewrite Zminus_mod_idemp_r|].
  rewrite HX by lia. by rewrite Zminus_mod_idemp_r.
Qed.

(** ** The calls *)

Section Calls.
Context `{Vpu} (symbol : string -> Z) (code : Z -> option (list Line)) (st : State).

(** The constants of the width are in memory, apart from what is written. *)
Definition constants_placed (bits p n : Z) : Prop :=
  constants_loaded symbol st bits /\
  (bits < 32 -> buffer_at (symbol (mask_name bits)) 64 /\ separate p n (symbol (mask_name bits)) 64).

(** The objects of an unpack: [&mut Block], [&Packed] and, for the framed
    ones, [&Base]. *)
Definition unpack_objects (mode : Mode) (out packed base : list Z) : Prop :=
  is_block out /\ is_packed packed /\ is_base base /\
  object st (gpr st Rdi) out /\ object st (gpr st Rsi) packed /\
  separate (gpr st Rdi) 4096 (gpr st Rsi) 4096 /\
  (mode <> Plain -> object st (gpr st Rcx) base /\ separate (gpr st Rdi) 4096 (gpr st Rcx) 64).

(** The objects of a pack: [&mut Packed] and [&Block]. *)
Definition pack_objects (packed values : list Z) : Prop :=
  is_packed packed /\ is_block values /\
  object st (gpr st Rdi) packed /\ object st (gpr st Rsi) values /\
  separate (gpr st Rdi) 4096 (gpr st Rsi) 4096.

(** The objects of an encoder: [&mut Block], [&Block] and [&Base]. *)
Definition encode_objects (out values base : list Z) : Prop :=
  is_block out /\ is_block values /\ is_base base /\
  object st (gpr st Rdi) out /\ object st (gpr st Rsi) values /\ object st (gpr st Rdx) base /\
  separate (gpr st Rdi) 4096 (gpr st Rsi) 4096 /\ separate (gpr st Rdi) 4096 (gpr st Rdx) 64.

(** The call ends with this object written, and nothing outside it. *)
Definition call_writes (name : string) (ys : list Z) : Prop :=
  exists st', call symbol code (symbol name) st st' /\ object st' (gpr st Rdi) ys /\
    forall x, ~ (gpr st Rdi <= x < gpr st Rdi + 4096) -> ram st' x = ram st x.

Lemma len_block xs : is_block xs -> len xs = 1024.
Proof. by intros [-> _]. Qed.

Lemma len_packed xs : is_packed xs -> len xs = 1024.
Proof. by intros [-> _]. Qed.

Lemma len_base xs : is_base xs -> len xs = 16.
Proof. by intros [-> _]. Qed.

Lemma unpack_area_placed bits mode out packed base :
  1 <= bits <= 32 -> unpack_objects mode out packed base -> constants_placed bits (gpr st Rdi) 4096 ->
  area_ok symbol (unpack_area bits mode) (locate symbol (with_base (takes_base mode) st)).
Proof.
  intros Hb (Hout & Hpk & Hba & Ho & Hp & Hs & Hbase) [_ Hc]. unfold separate in *.
  pose proof (len_block _ Hout). pose proof (len_packed _ Hpk). pose proof (len_base _ Hba).
  set (at1 := locate symbol (with_base (takes_base mode) st)).
  assert (at1 (Arg Rdi) = gpr st Rdi /\ at1 (Arg Rsi) = gpr st Rsi /\ forall x, at1 (Sym x) = symbol x)
    as (Ed & Es & Ey) by done.
  unfold area_ok, placed, apart. cbn [writes room reads unpack_area].
  split; [rewrite Ed; apply (object_buffer st _ out); [done|lia]|]. split; [|by split].
  intros b n Hin. rewrite Ed. apply elem_of_cons in Hin as [[= -> ->]|[Hin|Hin]%elem_of_app].
  - rewrite Es. split; [apply (object_buffer st _ packed); [done|lia]|lia].
  - case_bool_decide as Hm; [by apply not_elem_of_nil in Hin|].
    apply list_elem_of_singleton in Hin as [= -> ->]. destruct (Hbase Hm) as [Hob Hsb].
    assert (at1 (Arg Rdx) = gpr st Rcx) as -> by by destruct mode.
    split; [apply (object_buffer st _ base); [done|lia]|lia].
  - destruct (bits <? 32) eqn:E; [|by apply not_elem_of_nil in Hin].
    apply list_elem_of_singleton in Hin as [= -> ->]. rewrite Ey.
    destruct Hc as [Hcb Hcs]; [lia|]. split; [done|lia].
Qed.

(** The three unpack functions, at any width. *)
Lemma unpack_writes mode out packed base (bits := width st) :
  linked symbol code bits -> tables_loaded symbol st bits -> words_ok st ->
  unpack_objects mode out packed base -> constants_placed bits (gpr st Rdi) 4096 ->
  call_writes ("knc_" +:+ what_of mode) (knc_unpack_mode mode out packed bits base).
Proof.
  intros Hl Ht Hw Hobj Hc. pose proof Hobj as (Hout & Hpk & Hba & Ho & Hp & Hs & Hbase).
  destruct (valid_width bits) eqn:Hb.
  - rewrite unpack_law by done. pose proof (proj1 (valid_width_range bits) Hb) as Hr.
    destruct (call_unpack symbol code mode st Hl Ht Hb) as (st' & Hcall & Hres & Hf).
    { split; [lia|]. split; [done|]. split; [by eapply unpack_area_placed|apply Hc]. }
    exists st'. split; [done|]. split; [|exact Hf].
    apply (object_written st st' _ out); [done|rewrite (len_block _ Hout); by apply len_of_lanes|].
    intros v l Hv Hll Hn. rewrite len_of_lanes in Hn by done. unfold BLOCK, LANES in Hn, Hll.
    rewrite lane_of_lanes by (unfold LANES, BLOCK; lia).
    cbn [with_base set_gpr gpr ram] in Hres. rewrite Hres by (unfold LANES; lia).
    apply unpacked_memory; [done|lia| | |by intros; apply packed_uint].
    + intros Hm. destruct (Hbase Hm) as [Hob _]. rewrite fn_lookup_insert.
      replace (takes_base mode) with true by by destruct mode.
      rewrite <- (object_at st (gpr st Rcx) base 0 l); [f_equal; lia|done|lia|unfold LANES; lia|].
      rewrite (len_base _ Hba). lia.
    + intros w Hw'. unfold lane_words. rewrite fn_lookup_insert_ne by done.
      rewrite (object_at st (gpr st Rsi) packed w l) by (rewrite ?(len_packed _ Hpk); unfold LANES; lia || done).
      apply wrap_small. by apply packed_uint.
  - destruct (refused_law mode out packed out bits base Hb) as [-> _].
    destruct (unpack_spec mode) as [sig Hin].
    destruct (thunk_refuses symbol (what_of mode) (takes_base mode) sig st Hb) as (st' & Hm & He).
    exists st'. split; [|split; [|by intros; rewrite Hm]].
    + eapply call_returns; [by apply (link_thunk _ _ _ Hl (what_of mode) (takes_base mode) sig)|exact He].
    + destruct Ho as [H1 H2 H3 H4]. split; [done..|]. by rewrite Hm.
Qed.

(** [knc_pack], at any width. *)
Lemma pack_writes packed values (bits := width st) :
  linked symbol code bits -> tables_loaded symbol st bits -> words_ok st ->
  pack_objects packed values -> constants_placed bits (gpr st Rdi) 4096 ->
  call_writes "knc_pack" (knc_pack packed values bits).
Proof.
  intros Hl Ht Hw (Hpk & Hva & Ho & Hv & Hs) [Hc Hcs]. destruct (valid_width bits) eqn:Hb.
  - pose proof (proj1 (valid_width_range bits) Hb) as Hr.
    destruct (pack_law packed values bits Hb Hpk Hva) as ([Hlen Hu] & Hd & Hk).
    pose proof (ob_room _ _ _ Ho) as Ro. pose proof (ob_room _ _ _ Hv) as Rv.
    rewrite (len_packed _ Hpk) in Ro. rewrite (len_block _ Hva) in Rv.
    pose proof (ob_aligned _ _ _ Ho). pose proof (ob_aligned _ _ _ Hv). unfold separate in *.
    destruct (call_pack symbol code st Hl Ht Hb) as (st' & Hcall & Hres & Hf).
    { split; [lia|]. split; [done|]. split; [|done].
      split; [apply (object_buffer st _ packed); [done|rewrite (len_packed _ Hpk); cbn [room pack_area]; lia]|].
      split; [|by split].
      intros b n Hin. cbn [reads pack_area] in Hin. fold bits in Hin. unfold placed, apart. cbn [writes room pack_area].
      apply elem_of_cons in Hin as [[= -> ->]|Hin].
      { split; [apply (object_buffer st _ values); [done|rewrite (len_block _ Hva); lia]|cbn; lia]. }
      destruct (bits <? 32) eqn:E; [|by apply not_elem_of_nil in Hin].
      apply list_elem_of_singleton in Hin as [= -> ->]. destruct Hcs as [Hcb Hcs]; [lia|].
      split; [done|cbn; lia]. }
    exists st'. split; [done|]. split; [|intros x Hx; apply Hf; lia].
    apply (object_written st st' _ packed); [done|by rewrite Hlen, (len_packed _ Hpk)|].
    intros w l Hw' Hll Hn. rewrite Hlen in Hn. unfold MAX_WORDS, BLOCK in Hn.
    rewrite (wrap_small 32 (lane _ l w)) by (apply packed_uint; by split).
    destruct (Hres l Hll) as [Hres1 Hres2]. unfold LANES in Hll.
    destruct (Z.lt_ge_cases w (2 * bits)) as [Hin|Hin].
    + apply (packs_unique bits (lane_words (ram st') (gpr st Rdi) l) _
        (lane_words (ram st) (gpr st Rsi) l) (lane values l) w); try done; try lia.
      * by apply Hres1.
      * apply packed_uint. by split.
      * by apply Hk.
      * intros v Hv64. unfold lane_words.
        rewrite (object_at st (gpr st Rsi) values v l) by (rewrite ?(len_block _ Hva); unfold LANES; lia || done).
        apply wrap_small, wrap_uint. lia.
    + rewrite Hf by lia.
      rewrite (object_at st (gpr st Rdi) packed w l) by (rewrite ?(len_packed _ Hpk); unfold LANES; lia || done).
      rewrite wrap_small by (by apply packed_uint). unfold lane.
      assert (forall xs, nth (Z.to_nat (16 * w + l)) xs 0 =
        nth (Z.to_nat (16 * w + l - 32 * bits)) (drop (Z.to_nat (32 * bits)) xs) 0) as Hnth.
      { intros xs. rewrite !nth_lookup, lookup_drop. do 2 f_equal. lia. }
      by rewrite (Hnth packed), (Hnth (knc_pack _ _ _)), Hd.
  - destruct (refused_law Plain values packed values bits values Hb) as [_ ->].
    destruct pack_spec as [sig Hin].
    destruct (thunk_refuses symbol "pack" false sig st Hb) as (st' & Hm & He).
    exists st'. split; [|split; [|by intros; rewrite Hm]].
    + eapply call_returns; [by apply (link_thunk _ _ _ Hl "pack"%string false sig)|exact He].
    + destruct Ho as [H1 H2 H3 H4]. split; [done..|]. by rewrite Hm.
Qed.

(** The two encoders. *)
Lemma encode_writes mode out values base :
  mode <> Plain -> code (symbol ("knc_encode" +:+ suffix mode)) = transform_kernel mode ->
  encode_objects out values base ->
  call_writes ("knc_encode" +:+ suffix mode) (knc_encode mode out values base).
Proof.
  intros Hm Hcode (Hout & Hva & Hba & Ho & Hv & Hob & Hs & Hsb).
  rewrite encode_law by done.
  pose proof (ob_room _ _ _ Ho) as Ro. pose proof (ob_room _ _ _ Hv) as Rv. pose proof (ob_room _ _ _ Hob) as Rb.
  rewrite (len_block _ Hout) in Ro. rewrite (len_block _ Hva) in Rv. rewrite (len_base _ Hba) in Rb.
  pose proof (ob_aligned _ _ _ Ho). pose proof (ob_aligned _ _ _ Hv). pose proof (ob_aligned _ _ _ Hob).
  unfold separate in *.
  destruct (transform_runs symbol mode st Hm) as (prog & st' & Hk & He & Hres & Hf).
  { split; [apply (object_buffer st _ out); [done|rewrite (len_block _ Hout); cbn [room transform_area]; lia]|].
    split; [|by split].
    intros b n Hin. cbn [reads transform_area] in Hin. unfold placed, apart.
    apply elem_of_cons in Hin as [[= -> ->]|[= -> ->]%list_elem_of_singleton].
    - split; [apply (object_buffer st _ values); [done|rewrite (len_block _ Hva); lia]|cbn; lia].
    - split; [apply (object_buffer st _ base); [done|rewrite (len_base _ Hba); lia]|cbn; lia]. }
  exists st'. split; [eapply call_returns; [by rewrite Hcode|exact He]|]. split; [|exact Hf].
  apply (object_written st st' _ out); [done|rewrite (len_block _ Hout); by apply len_of_lanes|].
  intros v l Hv0 Hll Hn. rewrite len_of_lanes in Hn by done. unfold BLOCK, LANES in Hn, Hll.
  rewrite lane_of_lanes by (unfold LANES, BLOCK; lia).
  rewrite Hres by (unfold LANES; lia). rewrite wrap_signed by (lia || apply wrap_uint; lia).
  apply residue_memory; [| |lia].
  - rewrite <- (object_at st (gpr st Rdx) base 0 l); [f_equal; lia|done|lia|unfold LANES; lia|].
    rewrite (len_base _ Hba). lia.
  - intros v' Hv'. apply object_at; [done|lia|unfold LANES; lia|]. rewrite (len_block _ Hva). lia.
Qed.
End Calls.

(** C9: libknc keeps the interface the crate uses it through.  In an image
    with the library linked and its tables and constants loaded, called on
    objects of the crate's types that are mapped and apart, every entry point returns:
    [knc_unpack], [knc_unpack_for] and [knc_unpack_delta] leave in the output
    block, and [knc_pack] in the packed one, what the reference
    implementation computes from the contents of the objects, at every width,
    the refused ones included, where the object is as it was; so do the two
    encoders; no byte outside the written object changes. *)
Theorem libknc_refines `{Vpu} symbol code st :
  linked symbol code (width st) -> tables_loaded symbol st (width st) -> words_ok st ->
  (forall mode out packed base,
     unpack_objects st mode out packed base -> constants_placed symbol st (width st) (gpr st Rdi) 4096 ->
     call_writes symbol code st ("knc_" +:+ what_of mode) (knc_unpack_mode mode out packed (width st) base)) /\
  (forall packed values,
     pack_objects st packed values -> constants_placed symbol st (width st) (gpr st Rdi) 4096 ->
     call_writes symbol code st "knc_pack" (knc_pack packed values (width st))) /\
  (forall mode out values base,
     mode <> Plain -> code (symbol ("knc_encode" +:+ suffix mode)) = transform_kernel mode ->
     encode_objects st out values base ->
     call_writes symbol code st ("knc_encode" +:+ suffix mode) (knc_encode mode out values base)).
Proof.
  intros Hl Ht Hw. split; [|split].
  - intros. by apply unpack_writes.
  - intros. by apply pack_writes.
  - intros. by apply encode_writes.
Qed.

(** The words of the image, as the [i32]s and [u32]s they are. *)
Definition image_block : list Z := replicate 1024 (-1294967295).
Definition image_packed : list Z := replicate 1024 3000000001.
Definition image_base : list Z := replicate 16 (-1294967295).

Lemma image_object p n x :
  p mod 64 = 0 -> 4096 <= p /\ p + 4 * Z.of_nat n <= 262144 -> wrap 32 x = 3000000001 ->
  @object demo_space image_state p (replicate n x).
Proof.
  intros Ha Hr Hx. split; [done|unfold len; rewrite length_replicate; lia| |].
  { unfold len. rewrite length_replicate. intros y Hy. cbn [mapped demo_space]. lia. }
  rewrite fmap_replicate, Hx. unfold len. rewrite length_replicate.
  apply list_eq. intros i. unfold buffer. rewrite list_lookup_fmap.
  destruct (decide (i < n)%nat) as [Hi|Hi].
  - rewrite lookup_seqZ_lt by lia. cbn [fmap option_fmap option_map]. symmetry.
    rewrite lookup_replicate_2 by done. f_equal. cbn [ram image_state]. unfold image_ram.
    rewrite !(proj2 (Z.eqb_neq _ _)), (proj2 (Z.leb_gt _ _)) by lia. done.
  - rewrite lookup_seqZ_ge by lia. symmetry. apply lookup_replicate_None. lia.
Qed.

Lemma libknc_refines_witness :
  @call_writes reference_vpu image_symbol image_code image_state "knc_unpack_delta"
    (knc_unpack_delta image_block image_packed 11 image_base) /\
  @call_writes reference_vpu image_symbol image_code image_state "knc_pack"
    (knc_pack image_packed image_block 11).
Proof.
  destruct (@libknc_refines reference_vpu image_symbol image_code image_state) as (Hu & Hp & _);
    [exact image_linked|exact image_tables|exact (image_words false)|].
  assert (@constants_placed reference_vpu image_symbol image_state 11 65536 4096) as Hc.
  { split; [exact (image_constants false)|]. intros _. unfold separate. concrete. }
  assert (is_block image_block /\ is_packed image_packed /\ is_base image_base) as (Hb & Hk & Hs).
  { split_and!; (split; [done|apply Forall_replicate; concrete]). }
  assert (@object demo_space image_state 65536 image_block /\ @object demo_space image_state 65536 image_packed /\
    @object demo_space image_state 131072 image_block /\ @object demo_space image_state 131072 image_packed /\
    @object demo_space image_state 196608 image_base) as (O1 & O2 & O3 & O4 & O5).
  { split_and!; apply image_object; concrete. }
  assert (separate 65536 4096 131072 4096 /\ separate 65536 4096 196608 64) as [S1 S2]
    by (unfold separate; concrete).
  split.
  - apply (Hu Delta image_block image_packed image_base); [|exact Hc].
    exact (conj Hb (conj Hk (conj Hs (conj O1 (conj O4 (conj S1 (fun _ => conj O5 S2))))))).
  - apply (Hp image_packed image_block); [|exact Hc].
    exact (conj Hk (conj Hb (conj O2 (conj O3 S1)))).
Defined.
