(* ===== verification/BuildScript.v ===== *)
(** The build script of the card crate (card/lib/knc-rs/build.rs): where the
    linker is pointed at, from the environment and the file system, which are
    arguments; what it prints to cargo, or its panic. *)

From S2P Require Import Prelude.

Local Open Scope Z_scope.
Local Open Scope phi_scope.

(** [Path::join]: an absolute path replaces the base; a relative one follows
    it, after a separator where the base has none at its end. *)
Definition slash : Ascii.ascii := Ascii.ascii_of_nat 47.

Fixpoint ends_in (c : Ascii.ascii) (s : string) : bool :=
  match s with
  | EmptyString => false
  | String a EmptyString => Ascii.eqb a c
  | String _ s => ends_in c s
  end.

Definition is_absolute (p : string) : bool :=
  match p with String a _ => Ascii.eqb a slash | EmptyString => false end.

Definition join_path (base p : string) : string :=
  if is_absolute p then p
  else if String.eqb base "" || ends_in slash base then base +:+ p
  else base +:+ "/" +:+ p.

(** [PHI_SYSROOT], or the default below the crate; a variable that is not set
    or not Unicode is [None]. *)
Definition sysroot (phi_sysroot : option string) (manifest_dir : string) : string :=
  default (join_path manifest_dir "../../../toolchain/build/sysroot") phi_sysroot.

(** [main]: the lines it prints, or the message it panics with. *)
Definition build_main (phi_sysroot : option string) (manifest_dir : string) (path_exists : string -> bool)
  : result string (list string) :=
  let lib := join_path (sysroot phi_sysroot manifest_dir) "usr/lib" in
  if negb (path_exists (join_path lib "libknc.a")) then
    Err ("libknc.a not found in " +:+ lib +:+ ": run card/lib/knc/build.sh first")
  else
    Ok ["cargo:rustc-link-search=native=" +:+ lib;
        "cargo:rustc-link-lib=static=knc";
        "cargo:rerun-if-env-changed=PHI_SYSROOT";
        "cargo:rerun-if-changed=" +:+ join_path lib "libknc.a"].

(** The crate is only ever linked against a library that is there: the search
    directory printed holds the archive, and where it does not the script
    stops, naming the directory it looked in. *)
Theorem links_what_is_there phi_sysroot manifest_dir path_exists :
  match build_main phi_sysroot manifest_dir path_exists with
  | Ok ls => exists lib, path_exists (join_path lib "libknc.a") = true /\
      lib = join_path (sysroot phi_sysroot manifest_dir) "usr/lib" /\
      ls !! 0%nat = Some ("cargo:rustc-link-search=native=" +:+ lib) /\
      ls !! 3%nat = Some ("cargo:rerun-if-changed=" +:+ join_path lib "libknc.a")
  | Err e => path_exists (join_path (join_path (sysroot phi_sysroot manifest_dir) "usr/lib") "libknc.a") = false /\
      e = "libknc.a not found in " +:+ join_path (sysroot phi_sysroot manifest_dir) "usr/lib"
            +:+ ": run card/lib/knc/build.sh first"
  end.
Proof.
  unfold build_main. cbv zeta. destruct (path_exists _) eqn:E; cbn [negb]; [|done].
  eexists. by split_and!.
Qed.

Lemma links_what_is_there_example :
  build_main None "/home/phi/card/lib/knc-rs" (fun p => String.eqb p "/home/phi/card/lib/knc-rs/../../../toolchain/build/sysroot/usr/lib/libknc.a")
  = Ok ["cargo:rustc-link-search=native=/home/phi/card/lib/knc-rs/../../../toolchain/build/sysroot/usr/lib";
        "cargo:rustc-link-lib=static=knc"; "cargo:rerun-if-env-changed=PHI_SYSROOT";
        "cargo:rerun-if-changed=/home/phi/card/lib/knc-rs/../../../toolchain/build/sysroot/usr/lib/libknc.a"]%string /\
  build_main (Some "/srv/root/"%string) "/x" (fun _ => false) =
  Err "libknc.a not found in /srv/root/usr/lib: run card/lib/knc/build.sh first"%string.
Proof. split; vm_compute; reflexivity. Qed.
