(* ===== verification/HelloRs.v ===== *)
(** The Rust half of the toolchain's smoke test
    (toolchain/check/hello_rs/src/lib.rs): [rust_hypot] on binary64 numbers,
    [describe], and the unit test.  The floating-point operations are the
    IEEE 754 ones of the Standard Library, each rounded to binary64; the text
    of a float is a parameter. *)

From Stdlib Require Import SpecFloat.
From S2P Require Import Prelude Mvex Fpu.

Local Open Scope Z_scope.
Local Open Scope phi_scope.

Definition f64 : Type := spec_float.

Definition sf_mul (a b : f64) : f64 := SFmul prec64 emax64 a b.
Definition sf_add (a b : f64) : f64 := SFadd prec64 emax64 a b.
Definition sf_sqrt (a : f64) : f64 := SFsqrt prec64 emax64 a.
Definition sf_gt (a b : f64) : bool := SFltb b a.

(** An integer of fewer than 53 bits. *)
Definition f64_of (n : Z) : f64 := binary_normalize prec64 emax64 n 0 false.

(** [as i64]: towards zero, saturating, zero for a NaN. *)
Definition truncate (a : f64) : Z :=
  match a with
  | S754_zero _ | S754_nan => 0
  | S754_infinity s => if s then - 2 ^ 63 else 2 ^ 63 - 1
  | S754_finite s m e =>
      let v := if 0 <=? e then Z.pos m * 2 ^ e else Z.pos m / 2 ^ (- e) in
      if s then - v else v
  end.

Definition as_i64 (a : f64) : Z := Z.max (- 2 ^ 63) (Z.min (2 ^ 63 - 1) (truncate a)).

(** [describe], with the [Display] of a float. *)
Definition describe (display : f64 -> string) (a b : f64) : string :=
  let larger := if sf_gt a b then as_i64 a else as_i64 b in
  let parts := [display a; display b] in
  "larger=" +:+ (if larger <? 0 then "-" +:+ dec (- larger) else dec larger) +:+ " parts=" +:+ join "," parts.

(** [rust_hypot]: [describe] is computed and dropped. *)
Definition rust_hypot (a b : f64) : f64 := sf_sqrt (sf_add (sf_mul a a) (sf_mul b b)).

(** [tests::hypot_is_five]. *)
Definition hypot_is_five : Prop := SFeqb (rust_hypot (f64_of 3) (f64_of 4)) (f64_of 5) = true.

Lemma hypot_is_five_passes : hypot_is_five.
Proof. unfold hypot_is_five. vm_compute. reflexivity. Qed.

(** The conversion gives an [i64] for every float, NaN and infinities
    included, and loses less than one of the magnitude of those within
    range. *)
Theorem as_i64_spec a :
  sint 64 (as_i64 a) /\ (sint 64 (truncate a) -> as_i64 a = truncate a) /\
  (forall s m e, a = S754_finite s m e -> e < 0 ->
     Z.abs (truncate a) * 2 ^ (- e) <= Z.pos m < (Z.abs (truncate a) + 1) * 2 ^ (- e)).
Proof.
  unfold as_i64, sint. split; [lia|]. split; [lia|].
  intros s m e -> He. cbn [truncate]. rewrite (proj2 (Z.leb_gt 0 e)) by done.
  assert (0 < 2 ^ (- e)) as Hp by (apply Z.pow_pos_nonneg; lia).
  assert (0 <= Z.pos m / 2 ^ (- e)) as Hq by (apply Z.div_pos; lia).
  pose proof (Z.mul_div_le (Z.pos m) (2 ^ (- e)) Hp). pose proof (Z.mul_succ_div_gt (Z.pos m) (2 ^ (- e)) Hp).
  destruct s; [rewrite Z.abs_opp|]; rewrite Z.abs_eq by done; split; lia.
Qed.

(** The larger of the two, as the text has it. *)
Lemma describe_example :
  describe (fun _ => "x"%string) (f64_of (-7)) (f64_of (-9)) = "larger=-7 parts=x,x"%string.
Proof. vm_compute. reflexivity. Qed.
