(* ===== verification/Probe.v ===== *)
(** The instruction probes are right: [vpu_int_probe] leaves in each slot what
    the scalar program beside it (card/examples/vpu_int.c, [reference])
    computes, [vpu_int_unaligned] is an unaligned copy, and [vpu_probe] its
    float64 twin. *)

From stdpp Require Import functions.
From S2P Require Import Prelude Bytes Mvex MvexDis MvexCalls Codegen CodegenFls CodegenProbe Layout Fpu Vpu VpuCalls Symbolic Kernels.

Local Open Scope Z_scope.
Local Open Scope phi_scope.

(** ** A probe run symbolically

    A probe is one segment of lines; what it stores is checked by
    evaluation, and the simulation carries it over to every run. *)

Definition probe_ok (a : Area) (ls : list Line) (ds : list (Z * Expr)) : bool :=
  match sym_lines a ls (entry args []) with
  | Some s => stores_exactly s ds
  | None => false
  end.

Lemma probe_runs `{Vpu} symbol a ls ds st :
  probe_ok a ls ds = true -> area_ok symbol a (locate symbol st) ->
  exists st', exec_lines symbol ls st = Some st' /\
    (forall d e l, (d, e) ∈ ds -> 0 <= l < LANES ->
      ram st' (locate symbol st (writes a) + d + 4 * l) = eval (locate symbol st) st l e) /\
    (forall x, outside a (locate symbol st) x -> ram st' x = ram st x).
Proof.
  intros Hok Ha. unfold probe_ok in Hok. destruct (sym_lines _ _ _) as [s|] eqn:Hsym; [|done].
  destruct (segment symbol a (locate symbol st) st args [] ls s Ha) as (st' & He & Hs); [done..|].
  exists st'. split; [done|]. split.
  - intros d e l Hd Hl. by apply (stored_at _ _ s ds).
  - intros x Hx. by apply (sim_outside _ _ _ s st' x Hs).
Qed.

(** ** The integer probe *)

Definition int_area : Area := mkArea [(Arg Rdi, 128)] (Arg Rsi) 1152 [(Arg Rdi, 128)].

(** [reference] of vpu_int.c: what slot [n] holds for the words [a], [b] of
    its lane, [l] the lane and [b1] lane 1 of the second block. *)
Definition int_reference (b1 a b n l : Z) : Z :=
  if n =? 0 then wrap 32 (a + b)
  else if n =? 1 then wrap 32 (a - b)
  else if n =? 2 then a .& b
  else if n =? 3 then Z.ldiff b a
  else if n =? 4 then a .| b
  else if n =? 5 then Z.lxor a b
  else if n =? 6 then wrap 32 (a ≪ 1)
  else if n =? 7 then wrap 32 (a ≪ 11)
  else if n =? 8 then a ≫ 11
  else if n =? 9 then wrap 32 (signed 32 a ≫ 11)
  else if n =? 10 then wrap 32 (signed 32 a ≫ 31)
  else if n =? 11 then wrap 32 (a ≪ 11)
  else if n =? 12 then if 31 <? b then 0 else wrap 32 (a ≪ b)
  else if n =? 13 then if 31 <? b then 0 else a ≫ b
  else if n =? 14 then if Z.testbit 0x00ff l then wrap 32 (a + b) else a
  else if n =? 15 then if Z.testbit 0x0f0f l then wrap 32 (b ≪ 3) else a
  else if n =? 16 then b1
  else a.

Definition word_a : Expr := Ld (Arg Rdi) 0.
Definition word_b : Expr := Ld (Arg Rdi) 64.

(** What the slots hold, symbolically. *)
Definition int_slots : list Expr :=
  [Op Vpaddd word_a word_b; Op Vpsubd word_a word_b; Op Vpandd word_a word_b;
   Op Vpandnd word_a word_b; Op Vpord word_a word_b; Op Vpxord word_a word_b;
   Shift Vpslld word_a 1; Shift Vpslld word_a 11; Shift Vpsrld word_a 11;
   Shift Vpsrad word_a 11; Shift Vpsrad word_a 31; Shift Vpslld word_a 11;
   Op Vpsllvd word_a word_b; Op Vpsrlvd word_a word_b;
   Merge false (Bits 255) (Op Vpaddd word_a word_b) word_a;
   Merge false (Bits 3855) (Shift Vpslld word_b 3) word_a;
   Splat (Arg Rdi) 68; word_a].

Definition int_stores : list (Z * Expr) := (fun p => (64 * p.1, p.2)) <$> enumerate int_slots.

Lemma int_probe_checked : probe_ok int_area int_probe_body int_stores = true.
Proof. vm_cast_no_check (eq_refl true). Qed.

(** The stores, slot by slot. *)
Lemma int_stores_elem n e : int_slots !! n = Some e -> (64 * Z.of_nat n, e) ∈ int_stores.
Proof.
  intros Hn. unfold int_stores, enumerate. apply list_elem_of_fmap. exists (Z.of_nat n, e).
  split; [done|]. apply list_elem_of_lookup. exists n.
  rewrite lookup_zip_with. pose proof (lookup_lt_Some _ _ _ Hn) as Hlt. unfold len.
  rewrite lookup_seqZ_lt by lia. cbn [mbind option_bind]. by rewrite Hn.
Qed.

Lemma b2z_zero b : (Z.b2z b =? 0) = negb b.
Proof. by destruct b. Qed.

(** The slots evaluate to the reference. *)
Lemma int_slot_value `{Fpu} at_ st n e l :
  int_slots !! n = Some e ->
  eval at_ st l e =
  int_reference (ram st (at_ (Arg Rdi) + 68)) (ram st (at_ (Arg Rdi) + 4 * l))
    (ram st (at_ (Arg Rdi) + 64 + 4 * l)) (Z.of_nat n) l.
Proof.
  intros Hn. unfold int_slots in Hn. set (p := at_ (Arg Rdi)).
  do 18 (destruct n as [|n]; [injection Hn as <-; cbn [eval lane_op lane_shift word_a word_b];
    fold p; rewrite ?Z.add_0_r, ?b2z_zero; unfold int_reference; cbn;
    rewrite ?(Z.ltb_antisym 32), ?Z.ltb_antisym; repeat case_match; try done; lia|]).
  done.
Qed.

Definition unaligned_area : Area := mkArea [] (Arg Rsi) 64 [(Arg Rdi, 64)].

Lemma unaligned_checked :
  match sym_lines unaligned_area unaligned_body (entry args [0]) with
  | Some s => stores_exactly s [(0, word_a)]
  | None => false
  end = true.
Proof. vm_cast_no_check (eq_refl true). Qed.

(** C31: both functions of the integer probe, on buffers that are mapped and
    apart, return without a fault and write
    what the scalar program they are compared with computes.  Every lane of
    each of the eighteen slots is the scalar result of that slot: arithmetic
    modulo [2 ^ 32], variable shifts that give zero for a count above 31, the
    arithmetic right shift, the two masked instructions that keep the clear
    lanes, the splat and the load pair.  The unaligned copy reads from any
    multiple of four.  Neither changes anything outside its output. *)
Theorem int_probe_correct `{Vpu} symbol st :
  (area_ok symbol int_area (locate symbol st) ->
   exists st', ends symbol (called int_probe_body "vpu_int_probe" int_probe_sig) 0 st (Returned st') /\
     (forall n l, 0 <= n < 18 -> 0 <= l < LANES ->
       ram st' (gpr st Rsi + 64 * n + 4 * l) =
       int_reference (ram st (gpr st Rdi + 68)) (ram st (gpr st Rdi + 4 * l))
         (ram st (gpr st Rdi + 64 + 4 * l)) n l) /\
     (forall x, ~ (gpr st Rsi <= x < gpr st Rsi + 1152) -> ram st' x = ram st x)) /\
  (forall sig, area_ok symbol unaligned_area (locate symbol st) ->
   exists st', ends symbol (called unaligned_body "vpu_int_unaligned" sig) 0 st (Returned st') /\
     (forall l, 0 <= l < LANES -> ram st' (gpr st Rsi + 4 * l) = ram st (gpr st Rdi + 4 * l)) /\
     (forall x, ~ (gpr st Rsi <= x < gpr st Rsi + 64) -> ram st' x = ram st x)).
Proof.
  split.
  - intros Ha. destruct (probe_runs symbol _ _ _ st int_probe_checked Ha) as (st' & He & Ho & Hf).
    exists st'. split; [by apply called_returns|]. split; [|exact Hf]. intros n l Hn Hl.
    destruct (lookup_lt_is_Some_2 int_slots (Z.to_nat n)) as [e Hx]; [cbn; lia|].
    pose proof (int_stores_elem _ _ Hx) as Hin. rewrite Z2Nat.id in Hin by lia.
    specialize (Ho _ _ l Hin Hl). cbn [writes int_area locate] in Ho. rewrite Ho.
    rewrite (int_slot_value _ _ _ _ _ Hx), Z2Nat.id by lia. done.
  - intros sig Ha. pose proof unaligned_checked as Hok. destruct (sym_lines _ _ _) as [s|] eqn:Hsym; [|done].
    destruct (segment symbol _ (locate symbol st) st args [0] unaligned_body s Ha) as (st' & He & Hs); [done..|].
    exists st'. split; [by apply called_returns|]. split.
    + intros l Hl. pose proof (stored_at _ _ s _ st st' 0 word_a l Hs Hok (list_elem_of_here _ _) Hl) as Ho.
      cbn [writes unaligned_area locate eval word_a] in Ho. by rewrite !Z.add_0_r in Ho.
    + intros x Hx. by apply (sim_outside _ _ _ s st' x Hs).
Qed.

(** Inputs at 64 KiB, output at 128 KiB. *)
Definition probe_state (rdi : Z) : State :=
  mkState (fun _ _ => 0) (fun g => match g with Rdi => rdi | Rsi => 131072 | Rdx => 262144 | _ => 0 end)
    (fun a => wrap 32 (0x9e3779b9 * a)) (fun _ => 0) false false false.

Lemma int_probe_correct_witness :
  (exists st', @ends reference_vpu (fun _ => 0) (called int_probe_body "vpu_int_probe" int_probe_sig) 0
      (probe_state 65536) (Returned st') /\
    ram st' (131072 + 64 * 14 + 4 * 9) = ram (probe_state 65536) (65536 + 4 * 9)) /\
  (exists st', @ends reference_vpu (fun _ => 0) (called unaligned_body "vpu_int_unaligned" "") 0
      (probe_state 65556) (Returned st') /\ ram st' 131076 = wrap 32 (0x9e3779b9 * 65560)).
Proof.
  destruct (@int_probe_correct reference_vpu (fun _ => 0) (probe_state 65536)) as [Hp _].
  destruct (@int_probe_correct reference_vpu (fun _ => 0) (probe_state 65556)) as [_ Hu].
  split.
  - destruct Hp as (st' & He & Ho & _).
    + split; [concrete|]. split; [|split; [intros x|concrete]].
      * intros b n Hb. apply list_elem_of_singleton in Hb as [= -> ->]. concrete.
      * done.
    + exists st'. split; [done|]. apply (Ho 14 9); concrete.
  - destruct (Hu ""%string) as (st' & He & Ho & _).
    + split; [concrete|]. split; [|split; [intros x; done|concrete]]. by intros b n ?%not_elem_of_nil.
    + exists st'. split; [done|]. apply (Ho 1); concrete.
Defined.

(** ** The float64 probe *)

(** The lines before the mask is stored. *)
Definition probe_vectors : list Line := take 19 probe_body.
Definition probe_mask : list Line := drop 19 probe_body.

Definition probe_area : Area := mkArea [(Arg Rdi, 128)] (Arg Rsi) 384 [].

Definition pd_slots : list Expr :=
  let sum := Pd Vaddpd (Old 0) word_a word_b in
  [sum; Pd Vmulpd (Old 0) word_a word_b; Pd Vfmadd213pd word_a word_b word_a;
   Pd Vsubpd (Old 0) word_a word_b; sum;
   Merge true (Bits 15) (Pd Vaddpd (Old 0) word_a word_a) word_b].

Lemma probe_checked :
  match sym_lines probe_area probe_vectors (entry args []) with
  | Some s =>
      keeps_arguments args s
      && stores_exactly s ((fun p => (64 * p.1, p.2)) <$> enumerate pd_slots)
      && bool_decide (s_kreg s !! 2 = Some (Less word_a word_b))
  | None => false
  end = true.
Proof. vm_cast_no_check (eq_refl true). Qed.

(** Double [j] of the buffer at [p]. *)
Definition double_at (m : Z -> Z) (p j : Z) : Z := m (p + 8 * j) + m (p + 8 * j + 4) ≪ 32.

(** What slot [n] holds for the doubles [a], [b] of lane [j]. *)
Definition pd_reference `{Fpu} (a b n j : Z) : Z :=
  if n =? 0 then f64_add a b
  else if n =? 1 then f64_mul a b
  else if n =? 2 then f64_fma b a a
  else if n =? 3 then f64_sub a b
  else if n =? 4 then f64_add a b
  else if j <? 4 then f64_add a a else b.

Lemma eval64_double `{Fpu} at_ st b d j : eval64 at_ st j (Ld b d) = double_at (ram st) (at_ b + d) j.
Proof. unfold eval64, lane64, double_at. cbn [eval]. do 2 f_equal; f_equal; lia. Qed.

Lemma eval64_pd `{Fpu} at_ st o d x y j f :
  pd_op o = Some f -> (forall u v w, uint 64 (f u v w)) ->
  eval64 at_ st j (Pd o d x y) = f (eval64 at_ st j d) (eval64 at_ st j x) (eval64 at_ st j y).
Proof.
  intros Hf Hu. unfold eval64 at 1. cbn [eval]. rewrite Hf.
  rewrite (of_lanes64_lane (fun j => f (lane64 (fun i => eval at_ st i d) j)
    (lane64 (fun i => eval at_ st i x) j) (lane64 (fun i => eval at_ st i y) j)) j) by apply Hu.
  done.
Qed.

Lemma eval64_merge `{Fpu} at_ st m x y j :
  eval64 at_ st j (Merge true m x y) =
  if eval at_ st j m =? 0 then eval64 at_ st j y else eval64 at_ st j x.
Proof.
  unfold eval64, lane64. cbn [eval]. replace (2 * j / 2) with j by (apply (Z.div_unique _ 2 j 0); lia).
  replace ((2 * j + 1) / 2) with j by (apply (Z.div_unique _ 2 j 1); lia). by destruct (_ =? 0).
Qed.

(** Evaluates 64-bit lanes of expressions. *)
Ltac eval64_tac :=
  repeat first [ rewrite eval64_double
               | rewrite eval64_merge
               | erewrite eval64_pd by
                   (first [reflexivity
                          |intros; first [apply f64_add_uint|apply f64_mul_uint|apply f64_sub_uint|apply f64_fma_uint]]) ].

Lemma pd_slot_value `{Fpu} at_ st n e j :
  pd_slots !! n = Some e -> 0 <= j < 8 ->
  eval64 at_ st j e =
  pd_reference (double_at (ram st) (at_ (Arg Rdi)) j) (double_at (ram st) (at_ (Arg Rdi) + 64) j)
    (Z.of_nat n) j.
Proof.
  intros Hn Hj. unfold pd_slots in Hn.
  do 6 (destruct n as [|n]; [injection Hn as <-; unfold word_a, word_b; eval64_tac;
    rewrite ?Z.add_0_r; unfold pd_reference; cbn [Z.of_nat Z.eqb Pos.of_succ_nat Pos.succ Pos.eqb]; try done|]);
    [|done].
  cbn [eval]. rewrite b2z_zero.
  assert (j = 0 \/ j = 1 \/ j = 2 \/ j = 3 \/ j = 4 \/ j = 5 \/ j = 6 \/ j = 7) as Hc by lia.
  repeat destruct Hc as [->|Hc]; subst; done.
Qed.

(** The comparison's mask goes through [eax] to the third argument. *)
Lemma exec_probe_mask `{Vpu} symbol st :
  word_ok (gpr st Rdx) = true ->
  exists st', exec_lines symbol probe_mask st = Some st' /\
    ram st' = <[gpr st Rdx := wrap 32 (kreg st 2)]> (ram st).
Proof.
  intros Hd. eexists. unfold probe_mask. cbn [drop probe_body app exec_lines exec_line].
  rewrite exec_kmov_from by done. cbn [mbind option_bind exec_scalar set_gpr gpr].
  rewrite !fn_lookup_insert_ne, Hd by done. cbn [mbind option_bind]. split; [reflexivity|].
  cbn [set_word set_gpr ram gpr]. by rewrite fn_lookup_insert.
Qed.

(** C32: the float64 probe, on buffers that are mapped and apart, returns
    without a fault; each of its six slots holds,
    in every double, the sum, product, fused [b * a + a], difference, the
    copied sum and the sum masked to the low four lanes; the word at the
    third argument has a one exactly for the lanes below 8 where [a] is less
    than [b]; and nothing else has changed. *)
Theorem probe_correct `{Vpu} symbol sig st :
  area_ok symbol probe_area (locate symbol st) -> word_ok (gpr st Rdx) = true ->
  gpr st Rdx + 4 <= gpr st Rsi \/ gpr st Rsi + 384 <= gpr st Rdx ->
  exists st', ends symbol (called probe_body "vpu_probe" sig) 0 st (Returned st') /\
    (forall n j, 0 <= n < 6 -> 0 <= j < 8 ->
      double_at (ram st') (gpr st Rsi + 64 * n) j =
      pd_reference (double_at (ram st) (gpr st Rdi) j) (double_at (ram st) (gpr st Rdi + 64) j) n j) /\
    (forall j, 0 <= j < 16 ->
      Z.testbit (ram st' (gpr st Rdx)) j =
      (j <? 8) && f64_lt (double_at (ram st) (gpr st Rdi) j) (double_at (ram st) (gpr st Rdi + 64) j)) /\
    (forall x, ~ (gpr st Rsi <= x < gpr st Rsi + 384) -> x <> gpr st Rdx -> ram st' x = ram st x).
Proof.
  intros Ha Hd Hap. pose proof probe_checked as Hk. destruct (sym_lines _ _ _) as [s|] eqn:Hsym; [|done].
  rewrite !andb_true_iff in Hk. destruct Hk as [[Hka Hst] Hmask%bool_decide_eq_true].
  destruct (segment symbol _ (locate symbol st) st args [] probe_vectors s Ha) as (st1 & He & Hs); [done..|].
  assert (Hrdx : gpr st1 Rdx = gpr st Rdx).
  { apply (sim_arguments _ _ _ _ _ _ Hs Hka). right. right. by left. }
  destruct (exec_probe_mask symbol st1) as (st' & He' & Hram); [by rewrite Hrdx|]. rewrite Hrdx in Hram.
  exists st'. split_and!.
  - apply called_returns. change probe_body with (probe_vectors ++ probe_mask).
    by rewrite exec_lines_app, He.
  - intros n j Hn Hj. destruct (lookup_lt_is_Some_2 pd_slots (Z.to_nat n)) as [e Hx]; [cbn; lia|].
    pose proof (pd_slot_value (locate symbol st) st _ _ j Hx Hj) as Hv. rewrite Z2Nat.id in Hv by lia.
    cbn [locate] in Hv. rewrite <- Hv. unfold eval64, lane64, double_at.
    assert (Hout : forall l, 0 <= l < LANES ->
      ram st' (gpr st Rsi + 64 * n + 4 * l) = eval (locate symbol st) st l e).
    { intros l Hl. rewrite Hram, fn_lookup_insert_ne by (unfold LANES in Hl; lia).
      pose proof (stored_at _ _ s _ st st1 (64 * n) e l Hs Hst) as Ho. cbn [writes probe_area locate] in Ho.
      apply Ho; [|done]. apply list_elem_of_fmap. exists (n, e). split; [done|].
      apply list_elem_of_lookup. exists (Z.to_nat n). unfold enumerate. rewrite lookup_zip_with.
      unfold len. rewrite lookup_seqZ_lt by (cbn; lia). cbn [mbind option_bind]. rewrite Hx.
      cbn [fmap option_fmap option_map mbind option_bind]. do 2 f_equal. lia. }
    rewrite <- !Hout by (unfold LANES; lia). do 2 f_equal; f_equal; lia.
  - intros j Hj. rewrite Hram, fn_lookup_insert, testbit_wrap by lia.
    rewrite (proj2 (Z.ltb_lt j 32)) by lia. cbn [andb].
    rewrite (sim_kreg _ _ _ s st1 Hs _ _ j Hmask) by (unfold LANES; lia).
    cbn [eval]. rewrite b2z_zero, negb_involutive. fold (eval64 (locate symbol st) st j word_a).
    fold (eval64 (locate symbol st) st j word_b). unfold word_a, word_b. rewrite !eval64_double.
    cbn [locate]. by rewrite Z.add_0_r.
  - intros x Hx Hne. rewrite Hram, fn_lookup_insert_ne by done.
    by apply (sim_outside _ _ _ s st1 x Hs).
Qed.

(** The doubles 1.0 to 8.0 and 2.0 in every lane. *)
Definition double_state : State :=
  mkState (fun _ _ => 0) (fun g => match g with Rdi => 65536 | Rsi => 131072 | Rdx => 262144 | _ => 0 end)
    (fun a => if a mod 8 =? 0 then 0 else if a <? 65600 then 0x3ff00000 + 0x40000 * (a / 8 - 8192)
              else 0x40000000) (fun _ => 0) false false false.

Lemma probe_correct_witness :
  exists st', @ends reference_vpu (fun _ => 0) (called probe_body "vpu_probe" "") 0 double_state (Returned st') /\
    double_at (ram st') 131072 0 = 0x4008000000000000 /\ Z.testbit (ram st' 262144) 0 = true.
Proof.
  destruct (@probe_correct reference_vpu (fun _ => 0) "" double_state) as (st' & He & Ho & Hm & _).
  - split; [concrete|]. split; [|split; [intros x; done|done]].
    intros b n Hb. apply list_elem_of_singleton in Hb as [= -> ->]. concrete.
  - concrete.
  - concrete.
  - exists st'. split; [done|]. split.
    + etransitivity; [apply (Ho 0 0); lia|]. vm_compute. reflexivity.
    + etransitivity; [apply (Hm 0); lia|]. vm_compute. reflexivity.
Defined.
