(* ===== verification/RegFile.v ===== *)
(** The vector unit's register file in memory: the inline assembly of the
    kernel header ([knc_vpu_save], [knc_vpu_restore]) and the functions
    [vpu_get] and [vpu_set] of the probe file store and load the 32 vector
    and 8 mask registers.  What was saved is restored, whatever ran in
    between. *)

From stdpp Require Import functions.
From S2P Require Import Prelude Bytes Mvex MvexDis MvexCalls Codegen CodegenFls CodegenProbe Layout Fpu Vpu VpuCalls Symbolic Kernels.

Local Open Scope Z_scope.
Local Open Scope phi_scope.

(** ** Sixteen-bit halves of words *)

Lemma half_word a : a mod 2 = 0 -> a mod 4 = 0 \/ a mod 4 = 2.
Proof. intros. Z.to_euclidean_division_equations. lia. Qed.

(** A stored half is read back; the other halves are as they were. *)
Lemma half_stored st a v : a mod 2 = 0 -> half_at (set_half a v st) a = wrap 16 v.
Proof.
  intros Ha. unfold half_at, set_half. cbn [set_word ram]. rewrite fn_lookup_insert.
  apply Z.bits_inj'. intros n Hn. rewrite !testbit_wrap by lia.
  destruct (n <? 16) eqn:E; [|done]. cbn [andb]. rewrite Z.shiftr_spec by done.
  destruct (half_word a Ha) as [->| ->]; cbn [Z.eqb Z.mul Pos.mul].
  - rewrite Z.add_0_r, Z.lor_spec, Z.shiftl_spec, testbit_wrap by lia.
    rewrite (Z.testbit_neg_r _ (n - 16)) by lia. rewrite E. done.
  - change (8 * 2) with 16. rewrite Z.lor_spec, Z.shiftl_spec, !testbit_wrap by lia.
    replace (n + 16 - 16) with n by lia. rewrite E, (proj2 (Z.ltb_ge _ _)) by lia.
    cbn [andb]. by rewrite orb_false_r.
Qed.

Lemma half_other st a b v :
  a mod 2 = 0 -> b mod 2 = 0 -> a <> b -> half_at (set_half a v st) b = half_at st b.
Proof.
  intros Ha Hb Hne. unfold half_at, set_half. cbn [set_word ram].
  destruct (decide (a - a mod 4 = b - b mod 4)) as [Heq|]; [|by rewrite fn_lookup_insert_ne].
  rewrite <- Heq, fn_lookup_insert. apply Z.bits_inj'. intros n Hn. rewrite !testbit_wrap by lia.
  destruct (n <? 16) eqn:E; [|done]. cbn [andb]. rewrite !Z.shiftr_spec by done.
  destruct (half_word a Ha) as [Ea|Ea], (half_word b Hb) as [Eb|Eb]; rewrite Ea, Eb in *; try lia;
    cbn [Z.eqb Z.mul Pos.mul].
  - change (8 * 2) with 16. rewrite Z.lor_spec, Z.shiftl_spec, testbit_wrap by lia.
    rewrite Z.shiftr_spec by lia. replace (n + 16 - 16 + 16) with (n + 16) by lia.
    rewrite (proj2 (Z.ltb_ge _ _)) by lia. cbn [andb]. by rewrite orb_false_r.
  - change (8 * 0) with 0. rewrite Z.add_0_r, Z.lor_spec, Z.shiftl_spec by lia.
    rewrite (Z.testbit_neg_r _ (n - 16)) by lia. cbn [orb]. by rewrite testbit_wrap, E by lia.
Qed.

(** Storing a half changes its word only. *)
Lemma half_frame st a v x : x <> a - a mod 4 -> ram (set_half a v st) x = ram st x.
Proof. intros Hx. unfold set_half. cbn [set_word ram]. by rewrite fn_lookup_insert_ne. Qed.

(** ** The two loops

    [b] points to the area, [g] is scratch. *)

Section RegFile.
Context `{Vpu} (symbol : string -> Z) (b g : Gpr).
Context (Hb : (gpr_n b .& 7 =? 4) = false) (Hg : (gpr_n g <? 8) = true) (Hbg : b <> g).

Definition store_mask (k : Z) : list Line :=
  [KInsn (kmov_r32_k g (mkK k)); Scal (Movw g (KNC_VPU_K_OFFSET + 2 * k) b)].

Definition load_mask_reg (k : Z) : list Line :=
  [Scal (Movzwl (KNC_VPU_K_OFFSET + 2 * k) b g); KInsn (kmov_k_r32 (mkK k) g)].

(** An area for the state. *)
Definition state_area (p : Z) : Prop := buffer_at p KNC_VPU_STATE_SIZE.

(** The offset of a mask register's half in the area at [p]. *)
Definition mask_address (p k : Z) : Z := p + KNC_VPU_K_OFFSET + 2 * k.

Lemma mask_address_ok p k :
  state_area p -> 0 <= k < 8 ->
  wrap 64 (p + (KNC_VPU_K_OFFSET + 2 * k)) = mask_address p k /\ mask_address p k mod 2 = 0 /\
  half_ok (mask_address p k) = true.
Proof.
  unfold state_area, mask_address, KNC_VPU_K_OFFSET, KNC_VPU_STATE_SIZE. intros (Ha & H0 & H1 & Hmp) Hk.
  assert ((p + 2048 + 2 * k) mod 2 = 0) as Hm by (Z.to_euclidean_division_equations; lia).
  rewrite wrap_small by (unfold uint; lia). split_and!; [lia|done|].
  apply half_mapped; [done|apply (mapped_sub _ _ _ _ Hmp); lia].
Qed.

Lemma concat_range_snoc {A} (f : Z -> list A) n :
  0 <= n -> concat (f <$> range 0 (n + 1)) = concat (f <$> range 0 n) ++ f n.
Proof. intros Hn. rewrite range_snoc, fmap_app, concat_app by done. cbn. by rewrite app_nil_r. Qed.

(** After the masks below [n] are stored. *)
Lemma store_masks p n st :
  (n <= 8)%nat -> state_area p -> gpr st b = p ->
  exists st', exec_lines symbol (concat (store_mask <$> range 0 (Z.of_nat n))) st = Some st' /\
    gpr st' b = p /\ zmm st' = zmm st /\ kreg st' = kreg st /\
    (forall k, 0 <= k < Z.of_nat n -> half_at st' (mask_address p k) = wrap 16 (kreg st k)) /\
    (forall x, ~ (p + KNC_VPU_K_OFFSET <= x < p + KNC_VPU_STATE_SIZE) -> ram st' x = ram st x).
Proof.
  intros Hn Hp Hb0. induction n as [|n IH]; [exists st; split_and!; [done..|lia|done]|].
  destruct IH as (st1 & He & Hb1 & Hz & Hk & Hm & Hf); [lia|].
  destruct (mask_address_ok p (Z.of_nat n) Hp) as (Hw & Ha & Hab); [lia|].
  exists (set_half (mask_address p (Z.of_nat n)) (kreg st1 (Z.of_nat n)) (set_gpr g (kreg st1 (Z.of_nat n)) st1)).
  rewrite Nat2Z.inj_succ, <- Z.add_1_r, concat_range_snoc, exec_lines_app, He by lia.
  cbn [mbind option_bind store_mask exec_lines exec_line].
  rewrite exec_kmov_from by (unfold mreg; done || lia). cbn [mbind option_bind exec_scalar set_gpr gpr].
  rewrite fn_lookup_insert_ne by done. rewrite Hb1, Hw, Hab, fn_lookup_insert. cbn [mbind option_bind].
  split; [done|]. split_and!; [|done|done| |].
  - unfold set_half. cbn [set_word set_gpr gpr]. by rewrite fn_lookup_insert_ne.
  - intros k Hkn. destruct (decide (k = Z.of_nat n)) as [->|Hne].
    + rewrite half_stored by done. by rewrite Hk.
    + destruct (mask_address_ok p k Hp) as (_ & Ha' & _); [lia|].
      rewrite half_other by (done || unfold mask_address; lia). apply Hm. lia.
  - intros x Hx. etransitivity; [apply half_frame|by apply Hf].
    unfold state_area, mask_address, KNC_VPU_K_OFFSET, KNC_VPU_STATE_SIZE in *. destruct Hp as (?&_&_&_).
    Z.to_euclidean_division_equations. lia.
Qed.

(** After the masks below [n] are loaded. *)
Lemma load_masks p n st :
  (n <= 8)%nat -> state_area p -> gpr st b = p ->
  exists st', exec_lines symbol (concat (load_mask_reg <$> range 0 (Z.of_nat n))) st = Some st' /\
    gpr st' b = p /\ zmm st' = zmm st /\ ram st' = ram st /\
    (forall k, 0 <= k < Z.of_nat n -> kreg st' k = half_at st (mask_address p k)).
Proof.
  intros Hn Hp Hb0. induction n as [|n IH]; [exists st; split_and!; [done..|lia]|].
  destruct IH as (st1 & He & Hb1 & Hz & Hm & Hk); [lia|].
  destruct (mask_address_ok p (Z.of_nat n) Hp) as (Hw & Ha & Hab); [lia|].
  set (v := half_at st (mask_address p (Z.of_nat n))).
  exists (set_kreg (Z.of_nat n) v (set_gpr g v st1)).
  rewrite Nat2Z.inj_succ, <- Z.add_1_r, concat_range_snoc, exec_lines_app, He by lia.
  cbn [mbind option_bind load_mask_reg exec_lines exec_line exec_scalar].
  rewrite Hb1, Hw, Hab. cbn [mbind option_bind].
  rewrite exec_kmov_to by (unfold mreg; done || lia). cbn [mbind option_bind set_gpr gpr].
  rewrite fn_lookup_insert. 
  assert (Hv : half_at st1 (mask_address p (Z.of_nat n)) = v) by (unfold v, half_at; by rewrite Hm).
  rewrite Hv. assert (wrap 16 v = v) as -> by (apply wrap_small, wrap_uint; lia).
  split; [done|]. split_and!; [|done|done|].
  - cbn [set_kreg set_gpr gpr]. by rewrite fn_lookup_insert_ne.
  - intros k Hkn. cbn [set_kreg kreg]. destruct (decide (k = Z.of_nat n)) as [->|Hne].
    + by rewrite fn_lookup_insert.
    + rewrite fn_lookup_insert_ne by congruence. apply Hk. lia.
Qed.
End RegFile.

(** ** The whole register file *)

Definition save_area (b : Gpr) : Area := mkArea [] (Arg b) KNC_VPU_STATE_SIZE [].

(** The vectors of the registers, stored in order. *)
Definition vectors_stored (b : Gpr) (ls : list Line) : bool :=
  match sym_lines (save_area b) ls (entry_masked [b] (range 0 32) (range 0 8)) with
  | Some s =>
      stores_exactly s ((fun r => (64 * r, Old r)) <$> range 0 32)
      && keeps_arguments [b] s
      && forallb (fun r => keeps s r (Old r)) (range 0 32)
      && forallb (fun k => bool_decide (s_kreg s !! k = Some (OldK k))) (range 0 8)
  | None => false
  end.

Definition load_area (b : Gpr) : Area := mkArea [(Arg b, KNC_VPU_STATE_SIZE)] (Arg b) 0 [].

Definition vectors_loaded (b : Gpr) (ls : list Line) : bool :=
  match sym_lines (load_area b) ls (entry [b] []) with
  | Some s =>
      keeps_arguments [b] s && forallb (fun r => keeps s r (Ld (Arg b) (64 * r))) (range 0 32)
  | None => false
  end.

(** The registers are those of the first state; mask registers have sixteen
    bits. *)
Definition registers_of (st st' : State) : Prop :=
  (forall r l, 0 <= r < 32 -> 0 <= l < LANES -> zmm st' r l = zmm st r l) /\
  (forall k, 0 <= k < 8 -> wrap 16 (kreg st' k) = wrap 16 (kreg st k)).

(** The area at [p] holds the registers of a state. *)
Definition holds_registers (p : Z) (st st' : State) : Prop :=
  (forall r l, 0 <= r < 32 -> 0 <= l < LANES -> ram st' (p + 64 * r + 4 * l) = zmm st r l) /\
  (forall k, 0 <= k < 8 -> half_at st' (mask_address p k) = wrap 16 (kreg st k)).

(** The area is read in its words only. *)
Lemma area_kept `{Vpu} p st0 st st' :
  state_area p -> holds_registers p st0 st ->
  (forall x, p <= x < p + KNC_VPU_STATE_SIZE -> ram st' x = ram st x) -> holds_registers p st0 st'.
Proof.
  intros (Hp & _) [Hv Hm] Hx. unfold KNC_VPU_STATE_SIZE in Hx. split.
  - intros r l Hr Hl. rewrite Hx by (unfold LANES in Hl; lia). by apply Hv.
  - intros k Hk. rewrite <- Hm by done. unfold half_at. rewrite Hx; [done|].
    unfold mask_address, KNC_VPU_K_OFFSET. Z.to_euclidean_division_equations. lia.
Qed.

Section Whole.
Context `{Vpu} (symbol : string -> Z) (b g : Gpr).
Context (Hb : (gpr_n b .& 7 =? 4) = false) (Hg : (gpr_n g <? 8) = true) (Hbg : b <> g).

Lemma save_runs ls st p :
  vectors_stored b ls = true -> state_area p -> gpr st b = p ->
  exists st', exec_lines symbol (ls ++ concat (store_mask b g <$> range 0 8)) st = Some st' /\
    gpr st' b = p /\ registers_of st st' /\ holds_registers p st st' /\
    (forall x, ~ (p <= x < p + KNC_VPU_STATE_SIZE) -> ram st' x = ram st x).
Proof.
  intros Hok Hp Hbp. unfold vectors_stored in Hok.
  destruct (sym_lines _ _ _) as [s|] eqn:Hsym; [|done]. rewrite !andb_true_iff, !forallb_forall in Hok.
  destruct Hok as [[[Hst Hka] Hz] Hk].
  assert (Hat : locate symbol st (Arg b) = p) by done. 
  destruct (segment_masked symbol (save_area b) (locate symbol st) st [b] (range 0 32) (range 0 8) ls s)
    as (st1 & He & Hs).
  { split; [cbn [writes room save_area]; unfold placed; by rewrite Hat|].
    split; [|done]. by intros b' n ?%not_elem_of_nil. }
  { by intros g' _. }
  { done. }
  assert (Hb1 : gpr st1 b = p).
  { rewrite <- Hbp. apply (sim_arguments _ _ _ _ _ _ Hs Hka). by left. }
  assert (Hz1 : forall r l, 0 <= r < 32 -> 0 <= l < LANES -> zmm st1 r l = zmm st r l).
  { intros r l Hr Hl. apply (kept_at _ _ s st st1 r (Old r) l Hs); [|done]. by apply Hz, in_range. }
  assert (Hk1 : forall k, 0 <= k < 8 -> wrap 16 (kreg st1 k) = wrap 16 (kreg st k)).
  { intros k Hk8. specialize (Hk k ltac:(by apply in_range)). apply bool_decide_eq_true in Hk.
    apply Z.bits_inj'. intros n Hn. rewrite !testbit_wrap by lia. destruct (n <? 16) eqn:E; [|done].
    rewrite (sim_kreg _ _ _ s st1 Hs k _ n Hk) by (unfold LANES; lia). cbn [eval andb]. by rewrite negb_b2z. }
  destruct (store_masks symbol b g Hg Hbg p 8 st1) as (st' & He' & Hb' & Hz' & Hk' & Hm & Hf); [lia|done..|].
  exists st'. rewrite exec_lines_app, He. cbn [mbind option_bind]. split; [exact He'|].
  split; [done|]. split; [|split].
  - split; [intros; by rewrite Hz', Hz1|]. intros k Hk8. by rewrite Hk', Hk1.
  - split; [|intros k Hk8; rewrite Hm by lia; by apply Hk1]. intros r l Hr Hl.
    rewrite Hf by (unfold KNC_VPU_K_OFFSET, LANES in *; lia).
    pose proof (stored_at _ _ s _ st st1 (64 * r) (Old r) l Hs Hst) as Ho. cbn [writes save_area] in Ho.
    rewrite Hat in Ho. apply Ho; [|done]. apply list_elem_of_fmap. exists r. split; [done|].
    by apply list_elem_of_In, in_range.
  - intros x Hx. rewrite Hf by (unfold KNC_VPU_K_OFFSET in *; lia).
    apply (sim_outside _ _ _ s st1 x Hs). unfold outside. cbn [writes room save_area]. by rewrite Hat.
Qed.

Lemma restore_runs ls st0 st p :
  vectors_loaded b ls = true -> state_area p -> gpr st b = p -> holds_registers p st0 st ->
  exists st', exec_lines symbol (ls ++ concat (load_mask_reg b g <$> range 0 8)) st = Some st' /\
    registers_of st0 st' /\ (forall x, ram st' x = ram st x).
Proof.
  intros Hok Hp Hbp [Hv Hm]. unfold vectors_loaded in Hok.
  destruct (sym_lines _ _ _) as [s|] eqn:Hsym; [|done]. rewrite !andb_true_iff, !forallb_forall in Hok.
  destruct Hok as [Hka Hz].
  assert (Hat : locate symbol st (Arg b) = p) by done.
  destruct (segment symbol (load_area b) (locate symbol st) st [b] [] ls s) as (st1 & He & Hs).
  { split; [cbn [writes room load_area]; unfold placed; rewrite Hat; by apply (buffer_shrink _ _ _ Hp)|].
    split; [|done]. intros b' n Hin. apply list_elem_of_singleton in Hin as [= -> ->].
    unfold placed, apart. cbn [writes room load_area]. rewrite Hat. split; [done|lia]. }
  { by intros g' _. }
  { done. }
  assert (Hb1 : gpr st1 b = p).
  { rewrite <- Hbp. apply (sim_arguments _ _ _ _ _ _ Hs Hka). by left. }
  assert (Hram : forall x, ram st1 x = ram st x).
  { intros x. apply (sim_outside _ _ _ s st1 x Hs). unfold outside. cbn [writes room load_area]. lia. }
  destruct (load_masks symbol b g Hg Hbg p 8 st1) as (st' & He' & Hb' & Hz' & Hm' & Hk'); [lia|done..|].
  exists st'. rewrite exec_lines_app, He. cbn [mbind option_bind]. split; [exact He'|].
  split; [split|intros x; by rewrite Hm'].
  - intros r l Hr Hl. rewrite Hz', <- Hv by done.
    rewrite (kept_at _ _ s st st1 r (Ld (Arg b) (64 * r)) l Hs) by (done || by apply Hz, in_range).
    cbn [eval]. by rewrite Hat.
  - intros k Hk8. rewrite Hk' by lia. unfold half_at. rewrite Hram. fold (half_at st (mask_address p k)).
    rewrite Hm by done. by rewrite (wrap_small 16 (wrap 16 _)) by (apply wrap_uint; lia).
Qed.
End Whole.

(** ** Save and restore *)

Lemma save_checked :
  vectors_stored Rax (take 32 save_body) && vectors_loaded Rax (take 32 restore_body)
  && vectors_stored Rdi (take 32 get_body) && vectors_loaded Rdi (take 32 set_body) = true.
Proof. vm_cast_no_check (eq_refl true). Qed.

(** The second halves are the loops over the mask registers. *)
Lemma mask_loops :
  save_body = take 32 save_body ++ concat (store_mask Rax Rcx <$> range 0 8) /\
  restore_body = take 32 restore_body ++ concat (load_mask_reg Rax Rcx <$> range 0 8) /\
  get_body = take 32 get_body ++ concat (store_mask Rdi Rax <$> range 0 8) /\
  set_body = take 32 set_body ++ concat (load_mask_reg Rdi Rax <$> range 0 8).
Proof. done. Qed.

(** C8: the state of the vector unit survives a task switch.  From any state
    with [rax] at an aligned and mapped area, [knc_vpu_save] runs without a fault, keeps
    every vector and mask register, and writes nothing outside the 2112 bytes;
    and from every later state in which the area still holds the same words,
    whatever the registers hold by then, [knc_vpu_restore] runs without a
    fault, changes no memory, and leaves every vector and mask register as it
    was when it was saved.  The functions [vpu_get] and [vpu_set], which
    return, do the same through [rdi]. *)
Theorem vpu_state_kept `{Vpu} symbol st p :
  state_area p ->
  (gpr st Rax = p ->
   exists st1, exec_lines symbol save_body st = Some st1 /\ registers_of st st1 /\
     (forall x, ~ (p <= x < p + KNC_VPU_STATE_SIZE) -> ram st1 x = ram st x) /\
     forall st2, gpr st2 Rax = p ->
       (forall x, p <= x < p + KNC_VPU_STATE_SIZE -> ram st2 x = ram st1 x) ->
       exists st3, exec_lines symbol restore_body st2 = Some st3 /\ registers_of st st3 /\
         (forall x, ram st3 x = ram st2 x)) /\
  (forall name sig, gpr st Rdi = p ->
   exists st1, ends symbol (called get_body name sig) 0 st (Returned st1) /\ registers_of st st1 /\
     (forall x, ~ (p <= x < p + KNC_VPU_STATE_SIZE) -> ram st1 x = ram st x) /\
     forall name sig st2, gpr st2 Rdi = p ->
       (forall x, p <= x < p + KNC_VPU_STATE_SIZE -> ram st2 x = ram st1 x) ->
       exists st3, ends symbol (called set_body name sig) 0 st2 (Returned st3) /\ registers_of st st3 /\
         (forall x, ram st3 x = ram st2 x)).
Proof.
  intros Hp. pose proof save_checked as Hc. rewrite !andb_true_iff in Hc. destruct Hc as [[[H1 H2] H3] H4].
  destruct mask_loops as (L1 & L2 & L3 & L4). split.
  - intros Hb. rewrite L1, L2.
    destruct (save_runs symbol Rax Rcx eq_refl ltac:(done) (take 32 save_body) st p) as (st1 & He & _ & Hr & Hh & Hf);
      [done..|].
    exists st1. split_and!; [done..|]. intros st2 Hb2 Hsame.
    apply (restore_runs symbol Rax Rcx eq_refl ltac:(done) (take 32 restore_body) st st2 p H2 Hp Hb2).
    by apply (area_kept p st st1).
  - intros name sig Hb.
    destruct (save_runs symbol Rdi Rax eq_refl ltac:(done) (take 32 get_body) st p) as (st1 & He & _ & Hr & Hh & Hf);
      [done..|].
    exists st1. rewrite L3. split_and!; [by apply called_returns|done..|]. intros name' sig' st2 Hb2 Hsame.
    destruct (restore_runs symbol Rdi Rax eq_refl ltac:(done) (take 32 set_body) st st2 p H4 Hp Hb2)
      as (st3 & He3 & Hr3 & Hf3); [by apply (area_kept p st st1)|].
    exists st3. rewrite L4. split_and!; [by apply called_returns|done..].
Qed.

(** Registers that all differ, saved at 64 KiB, restored with none left. *)
Definition busy_state : State :=
  mkState (fun r l => 1000 * r + l) (fun g => match g with Rax => 65536 | _ => 0 end) (fun _ => 0)
    (fun k => 257 * k) false false false.

Lemma vpu_state_kept_witness :
  exists st1, @exec_lines reference_vpu (fun _ => 0) save_body busy_state = Some st1 /\
    exists st3, @exec_lines reference_vpu (fun _ => 0) restore_body
        (mkState (fun _ _ => 0) (gpr busy_state) (ram st1) (fun _ => 0) false false false) = Some st3 /\
      zmm st3 31 15 = 31015 /\ wrap 16 (kreg st3 7) = 1799.
Proof.
  destruct (@vpu_state_kept reference_vpu (fun _ => 0) busy_state 65536) as [Hs _];
    [unfold state_area; concrete|].
  destruct (Hs eq_refl) as (st1 & He & _ & _ & Hr). exists st1. split; [exact He|].
  destruct (Hr (mkState (fun _ _ => 0) (gpr busy_state) (ram st1) (fun _ => 0) false false false) eq_refl)
    as (st3 & He3 & [Hz Hk] & _); [intros x _; reflexivity|].
  exists st3. split; [exact He3|]. split; [apply (Hz 31 15); concrete|apply (Hk 7); concrete].
Defined.
