(* ===== verification/Mandel.v ===== *)
(** The Mandelbrot kernel is right: [mandel8_vpu] runs eight points under a
    write mask until every one has escaped or the count is reached, and each
    lane of its result is what the scalar loop computes for its point alone,
    whatever the other lanes do. *)

From stdpp Require Import functions.
From S2P Require Import Prelude Bytes Mvex MvexDis MvexCalls Codegen CodegenFls CodegenProbe Layout Fpu Vpu VpuCalls Symbolic Kernels Probe.

Local Open Scope Z_scope.
Local Open Scope phi_scope.

(** ** The scalar loop

    One point: the doubles of its orbit and its count. *)

Definition two : Z := 0x4000000000000000.
Definition four : Z := 0x4010000000000000.
Definition one : Z := 0x3ff0000000000000.

Record Orbit := mkOrbit { o_zr : Z; o_zi : Z; o_zr2 : Z; o_zi2 : Z; o_n : Z }.

Section Scalar.
Context `{Fpu}.

(** One iteration of the point [cr + ci i], in the order of the kernel. *)
Definition iterate (cr ci : Z) (o : Orbit) : Orbit :=
  let zi := f64_fma (f64_mul (o_zr o) two) (o_zi o) ci in
  let zr := f64_add (f64_sub (o_zr2 o) (o_zi2 o)) cr in
  mkOrbit zr zi (f64_mul zr zr) (f64_mul zi zi) (f64_add (o_n o) one).

(** [|z|^2 < 4]. *)
Definition magnitude (o : Orbit) : Z := f64_add (o_zr2 o) (o_zi2 o).
Definition bounded (o : Orbit) : bool := f64_lt (magnitude o) four.

(** At most [n] iterations, stopping when the point has escaped. *)
Fixpoint escape (n : nat) (cr ci : Z) (o : Orbit) : Orbit :=
  match n with
  | O => o
  | S n => if bounded o then escape n cr ci (iterate cr ci o) else o
  end.

Definition origin : Orbit := mkOrbit 0 0 0 0 0.

(** An orbit that has escaped stays as it is. *)
Lemma escape_stuck n cr ci o : bounded o = false -> escape n cr ci o = o.
Proof. intros Ho. destruct n; [done|]. cbn. by rewrite Ho. Qed.

Lemma escape_S n cr ci o :
  escape (S n) cr ci o =
  if bounded (escape n cr ci o) then iterate cr ci (escape n cr ci o) else escape n cr ci o.
Proof.
  revert o. induction n as [|n IH]; intros o; [done|].
  change (escape (S (S n)) cr ci o) with (if bounded o then escape (S n) cr ci (iterate cr ci o) else o).
  destruct (bounded o) eqn:E.
  - rewrite IH. cbn [escape]. by rewrite E.
  - rewrite !(escape_stuck _ _ _ o) by done. by rewrite E.
Qed.

Lemma escape_more n m cr ci o :
  bounded (escape n cr ci o) = false -> (n <= m)%nat -> escape m cr ci o = escape n cr ci o.
Proof.
  intros Hb Hm. replace m with (n + (m - n))%nat by lia. generalize (m - n)%nat. clear m Hm.
  intros k. induction k as [|k IH]; [by rewrite Nat.add_0_r|].
  rewrite Nat.add_succ_r, escape_S, IH. by rewrite Hb.
Qed.
End Scalar.

(** ** The kernel's segments, symbolically *)

Definition mandel_area : Area :=
  mkArea [(Arg Rdi, 128); (Sym "mandel8_consts", 256)] (Arg Rsi) 128 [].

Definition const (d : Z) : Expr := Ld (Sym "mandel8_consts") d.

(** The registers the head loads. *)
Definition head_regs : list (Z * Expr) :=
  [(0, Ld (Arg Rdi) 0); (1, Ld (Arg Rdi) 64); (2, const 192); (3, const 192); (4, const 192);
   (5, const 192); (6, const 192); (7, const 0); (8, const 64); (9, const 128)].

Definition keeps_all (s : SymState) (rs : list (Z * Expr)) : bool :=
  forallb (fun p => keeps s p.1 p.2) rs.

Definition head_post (s : SymState) : bool :=
  keeps_arguments args s && keeps_all s head_regs
  && bool_decide (s_kreg s !! 1 = Some (Bits 255)) && bool_decide (s_imm s R8 = Some 0)
  && only_stores s [].

Lemma head_checked : checked mandel_area mandel_head (entry args []) head_post = true.
Proof. vm_cast_no_check (eq_refl true). Qed.

Definition unchanged (rs : list Z) : list (Z * Expr) := (fun r => (r, Old r)) <$> rs.

(** The test, up to the comparison. *)
Definition test_mask : Expr := Both (OldK 1) (Less (Pd Vaddpd (Old 0) (Old 4) (Old 5)) (Old 8)).

Definition test_post (s : SymState) : bool :=
  bool_decide (s_written s = []) && keeps_all s (unchanged (range 0 10))
  && bool_decide (s_kreg s !! 1 = Some test_mask) && only_stores s [].

Lemma test_checked :
  checked mandel_area (take 2 mandel_test) (entry_masked args (range 0 10) [1]) test_post = true.
Proof. vm_cast_no_check (eq_refl true). Qed.

(** The iteration under the mask [k1], by its lanes. *)
Definition masked (x : Expr) (r : Z) : Expr := Merge true (OldK 1) x (Old r).
Definition next_t : Expr := masked (Pd Vmulpd (Old 0) (Old 2) (Old 7)) 11.
Definition next_zi : Expr := masked (Pd Vfmadd213pd (Old 3) next_t (Old 1)) 3.
Definition next_zr : Expr :=
  Merge true (OldK 1) (Pd Vaddpd (Old 0) (masked (Pd Vsubpd (Old 0) (Old 4) (Old 5)) 2) (Old 0))
    (masked (Pd Vsubpd (Old 0) (Old 4) (Old 5)) 2).
Definition next_zr2 : Expr := masked (Pd Vmulpd (Old 0) next_zr next_zr) 4.
Definition next_zi2 : Expr := masked (Pd Vmulpd (Old 0) next_zi next_zi) 5.
Definition next_n : Expr := masked (Pd Vaddpd (Old 0) (Old 6) (Old 9)) 6.

Definition step_post (s : SymState) : bool :=
  bool_decide (s_written s = [])
  && keeps_all s ([(2, next_zr); (3, next_zi); (4, next_zr2); (5, next_zi2); (6, next_n)]
                  ++ unchanged [0; 1; 7; 8; 9])
  && bool_decide (s_kreg s !! 1 = Some (OldK 1)) && only_stores s [].

Lemma step_checked :
  checked mandel_area (take 7 mandel_step) (entry_masked args (range 0 12) [1]) step_post = true.
Proof. vm_cast_no_check (eq_refl true). Qed.

Definition tail_stores : list (Z * Expr) :=
  [(0, Old 6); (64, Pd Vaddpd (Old 0) (Old 4) (Old 5))].

Lemma tail_checked :
  checked mandel_area mandel_tail (entry args (range 0 10)) (fun s => stores_exactly s tail_stores) = true.
Proof. vm_cast_no_check (eq_refl true). Qed.

(** ** The loop *)

(** Membership in a list that is written out. *)
Ltac listed := solve [repeat first [apply list_elem_of_here|apply list_elem_of_further]].

Definition mandel_prog : list Line := called mandel_body "mandel8_vpu" mandel_sig.

(** The constants of the file are in memory. *)
Definition mandel_consts_loaded (symbol : string -> Z) (st : State) : Prop :=
  forall i t v j, mandel_consts !! i = Some (t, v) -> 0 <= j < 8 ->
    double_at (ram st) (symbol "mandel8_consts" + 64 * Z.of_nat i) j = v.

Lemma eval64_old `{Fpu} at_ st r j : eval64 at_ st j (Old r) = lane64 (zmm st r) j.
Proof. done. Qed.

(** The masks, one constructor at a time. *)
Lemma eval_both `{Fpu} at_ st j x y :
  eval at_ st j (Both x y) = Z.b2z (negb (eval at_ st j x =? 0) && negb (eval at_ st j y =? 0)).
Proof. done. Qed.

Lemma eval_less `{Fpu} at_ st j x y :
  eval at_ st j (Less x y) = Z.b2z ((j <? 8) && f64_lt (eval64 at_ st j x) (eval64 at_ st j y)).
Proof. done. Qed.

Lemma eval_oldk `{Fpu} at_ st j k : eval at_ st j (OldK k) = Z.b2z (Z.testbit (kreg st k) j).
Proof. done. Qed.

Section Loop.
Context `{Vpu} (symbol : string -> Z) (st0 : State).

Abbreviation at0 := (locate symbol st0).

Context (Harea : area_ok symbol mandel_area at0) (Hconsts : mandel_consts_loaded symbol st0).

(** The point of a lane, and its orbit after [i] iterations. *)
Definition point_re (j : Z) : Z := double_at (ram st0) (gpr st0 Rdi) j.
Definition point_im (j : Z) : Z := double_at (ram st0) (gpr st0 Rdi + 64) j.
Definition orbit (i : nat) (j : Z) : Orbit := escape i (point_re j) (point_im j) origin.

(** The orbit in the registers of a lane. *)
Definition orbit_in (st : State) (j : Z) : Orbit :=
  mkOrbit (lane64 (zmm st 2) j) (lane64 (zmm st 3) j) (lane64 (zmm st 4) j) (lane64 (zmm st 5) j)
    (lane64 (zmm st 6) j).

(** After [i] iterations; a lane whose mask bit is clear has escaped. *)
Record mandel_inv (i : nat) (st : State) : Prop := {
  mi_args : arguments at0 st args;
  mi_count : gpr st R8 = Z.of_nat i;
  mi_orbit j : 0 <= j < 8 -> orbit_in st j = orbit i j;
  mi_point j : 0 <= j < 8 -> lane64 (zmm st 0) j = point_re j /\ lane64 (zmm st 1) j = point_im j;
  mi_consts j : 0 <= j < 8 ->
    lane64 (zmm st 7) j = two /\ lane64 (zmm st 8) j = four /\ lane64 (zmm st 9) j = one;
  mi_mask j : 0 <= j < 8 -> Z.testbit (kreg st 1) j = false -> bounded (orbit i j) = false;
  mi_frame x : ram st x = ram st0 x
}.

Lemma kept_lane s st st1 r e j :
  simulates mandel_area at0 st s st1 -> keeps s r e = true -> 0 <= j < 8 ->
  lane64 (zmm st1 r) j = eval64 at0 st j e.
Proof.
  intros Hs Hk Hj. unfold eval64, lane64.
  by rewrite !(kept_at _ _ s st st1 r e _ Hs Hk) by (unfold LANES; lia).
Qed.

Lemma keeps_all_at s rs r e : keeps_all s rs = true -> (r, e) ∈ rs -> keeps s r e = true.
Proof.
  unfold keeps_all. rewrite forallb_forall. intros Hk Hin%list_elem_of_In. apply (Hk _ Hin).
Qed.

(** A lane a segment leaves alone. *)
Lemma lane_unchanged s st st1 rs r j :
  simulates mandel_area at0 st s st1 -> keeps_all s (unchanged rs) = true -> r ∈ rs -> 0 <= j < 8 ->
  lane64 (zmm st1 r) j = lane64 (zmm st r) j.
Proof.
  intros Hs Hk Hr Hj. rewrite <- (eval64_old at0 st). apply (kept_lane s); [done| |done].
  apply (keeps_all_at s _ _ _ Hk), list_elem_of_fmap. by exists r.
Qed.

Lemma const_value i t v j :
  mandel_consts !! i = Some (t, v) -> 0 <= j < 8 -> eval64 at0 st0 j (const (64 * Z.of_nat i)) = v.
Proof. intros Hi Hj. unfold const. rewrite eval64_double. by apply (Hconsts i t v). Qed.

(** The head: the invariant before the first iteration. *)
Lemma head_run :
  arguments at0 st0 args ->
  exists st1, exec_lines symbol mandel_head st0 = Some st1 /\ mandel_inv 0 st1.
Proof.
  intros Hargs. destruct (checked_inv _ _ _ _ head_checked) as (s & Hsym & Hc). unfold head_post in Hc.
  rewrite !andb_true_iff in Hc. destruct Hc as ((((Hka & Hk) & Hm) & Hi) & Hst).
  apply bool_decide_eq_true in Hm, Hi.
  destruct (segment symbol mandel_area at0 st0 args [] mandel_head s Harea) as (st1 & He & Hs); [done..|].
  exists st1. split; [done|].
  assert (Hl : forall r e j, (r, e) ∈ head_regs -> 0 <= j < 8 -> lane64 (zmm st1 r) j = eval64 at0 st0 j e).
  { intros r e j Hin Hj. apply (kept_lane s); [done| |done]. by apply (keeps_all_at s _ _ _ Hk). }
  pose proof (fun j => const_value 0 "2.0" two j eq_refl) as C0.
  pose proof (fun j => const_value 1 "4.0" four j eq_refl) as C1.
  pose proof (fun j => const_value 2 "1.0" one j eq_refl) as C2.
  pose proof (fun j => const_value 3 "0.0" 0 j eq_refl) as C3.
  change (64 * Z.of_nat 0) with 0 in C0. change (64 * Z.of_nat 1) with 64 in C1.
  change (64 * Z.of_nat 2) with 128 in C2. change (64 * Z.of_nat 3) with 192 in C3. split.
  - intros g Hg. by apply (sim_arguments _ _ _ _ _ _ Hs Hka).
  - apply (sim_imm _ _ _ s st1 Hs R8 0 Hi).
  - intros j Hj. unfold orbit_in, orbit, origin. cbn [escape].
    rewrite !(Hl _ (const 192) j) by (done || listed). by rewrite C3.
  - intros j Hj. rewrite (Hl 0 (Ld (Arg Rdi) 0) j), (Hl 1 (Ld (Arg Rdi) 64) j)
      by (done || listed).
    rewrite !eval64_double. cbn [locate]. by rewrite Z.add_0_r.
  - intros j Hj. rewrite (Hl 7 (const 0) j), (Hl 8 (const 64) j), (Hl 9 (const 128) j)
      by (done || listed). by rewrite C0, C1, C2.
  - intros j Hj Hbit. rewrite (sim_kreg _ _ _ s st1 Hs 1 _ j Hm) in Hbit by (unfold LANES; lia).
    cbn [eval] in Hbit. rewrite b2z_zero, negb_involutive in Hbit.
    assert (Z.testbit 255 j = true); [|congruence]. change 255 with (Z.ones 8).
    rewrite Z.testbit_ones by lia. lia.
  - intros x. apply (stored_frame mandel_area at0 s [] st0 st1 x Hs Hst). by intros d ?%not_elem_of_nil.
Qed.

(** A segment that only computes: what it leaves is the symbolic state, and
    the arguments, the count and the memory are as they were. *)
Lemma segment_run i st ls rs P :
  mandel_inv i st -> checked mandel_area ls (entry_masked args rs [1]) P = true ->
  (forall s, P s = true -> bool_decide (s_written s = []) = true /\ only_stores s [] = true) ->
  exists s st1, P s = true /\ exec_lines symbol ls st = Some st1 /\ simulates mandel_area at0 st s st1 /\
    (forall g, gpr st1 g = gpr st g) /\ (forall x, ram st1 x = ram st0 x).
Proof.
  intros Hi Hc HP. destruct (checked_inv _ _ _ _ Hc) as (s & Hsym & Hs).
  destruct (segment_masked symbol mandel_area at0 st args rs [1] ls s Harea (mi_args i st Hi) Hsym)
    as (st1 & He & Hsim).
  destruct (HP s Hs) as [Hw%bool_decide_eq_true Ho]. exists s, st1. split_and!; [done..| |].
  - intros g. apply (sim_kept _ _ _ s st1 Hsim). rewrite Hw. by apply not_elem_of_nil.
  - intros x. rewrite <- (mi_frame i st Hi).
    apply (stored_frame mandel_area at0 s [] st st1 x Hsim Ho). by intros d ?%not_elem_of_nil.
Qed.

Lemma mask_bit_at i st s st1 e j :
  simulates mandel_area at0 st s st1 -> s_kreg s !! 1 = Some e -> 0 <= j < 16 -> mandel_inv i st ->
  Z.testbit (kreg st1 1) j = negb (eval at0 st j e =? 0).
Proof. intros Hs He Hj _. by apply (sim_kreg _ _ _ s st1 Hs). Qed.

(** [zr2 + zi2 < 4] of a lane. *)
Lemma less_value i st j :
  mandel_inv i st -> 0 <= j < 8 ->
  f64_lt (eval64 at0 st j (Pd Vaddpd (Old 0) (Old 4) (Old 5))) (eval64 at0 st j (Old 8)) = bounded (orbit i j).
Proof.
  intros Hi Hj. rewrite (eval64_pd at0 st Vaddpd _ _ _ j _ eq_refl) by (intros; apply f64_add_uint).
  rewrite !eval64_old. destruct (mi_consts i st Hi j Hj) as (_ & -> & _).
  by rewrite <- (mi_orbit i st Hi j Hj).
Qed.

(** The test: the mask is now the lanes that have not escaped, and the jump
    is taken when there is none. *)
Lemma test_run i st :
  mandel_inv i st ->
  exists st1, exec_lines symbol mandel_test st = Some st1 /\ mandel_inv i st1 /\
    (forall j, 0 <= j < 8 -> Z.testbit (kreg st1 1) j = bounded (orbit i j)) /\
    (holds Jz st1 = true -> forall j, 0 <= j < 8 -> bounded (orbit i j) = false).
Proof.
  intros Hi. destruct (segment_run i st _ _ _ Hi test_checked) as (s & st1 & Hs & He & Hsim & Hg & Hx).
  { intros s Hs. unfold test_post in Hs. rewrite !andb_true_iff in Hs. by destruct Hs as [[[? _] _] ?]. }
  unfold test_post in Hs. rewrite !andb_true_iff in Hs. destruct Hs as (((_ & Hk) & Hm%bool_decide_eq_true) & _).
  assert (Hbit : forall j, 0 <= j < 8 -> Z.testbit (kreg st1 1) j = bounded (orbit i j)).
  { intros j Hj. rewrite (mask_bit_at i st s st1 _ j Hsim Hm) by (done || lia). unfold test_mask.
    rewrite eval_both, eval_less, eval_oldk, !b2z_zero, !negb_involutive, (proj2 (Z.ltb_lt j 8)) by lia.
    rewrite (less_value i) by done. cbn [andb]. destruct (Z.testbit (kreg st 1) j) eqn:E; [done|].
    by rewrite (mi_mask i st Hi j Hj E). }
  set (st2 := sem_k (KTest 1 1) st1).
  exists st2. split_and!; [| | |].
  - change mandel_test with (take 2 mandel_test ++ [KInsn (kortest (mkK 1) (mkK 1))]).
    rewrite exec_lines_app, He. cbn [mbind option_bind exec_lines exec_line].
    destruct (kortest (mkK 1) (mkK 1)) as [ik|] eqn:Ek; [|discriminate Ek].
    rewrite (exec_mask ik (KTest 1 1)); [done|]. injection Ek as <-. reflexivity.
  - assert (Hlane : forall r j, r ∈ range 0 10 -> 0 <= j < 8 ->
      lane64 (zmm st2 r) j = lane64 (zmm st r) j).
    { intros r j Hr Hj. by apply (lane_unchanged s st st1 (range 0 10)). }
    assert (Hin : forall r, 0 <= r < 10 -> r ∈ range 0 10).
    { intros r Hr. by apply list_elem_of_In, in_range. }
    split.
    + intros g Hin'. cbn. rewrite Hg. by apply (mi_args i st Hi).
    + cbn. rewrite Hg. apply (mi_count i st Hi).
    + intros j Hj. unfold orbit_in. rewrite !Hlane by (done || by apply Hin). by apply (mi_orbit i st Hi).
    + intros j Hj. rewrite !Hlane by (done || by apply Hin). by apply (mi_point i st Hi).
    + intros j Hj. rewrite !Hlane by (done || by apply Hin). by apply (mi_consts i st Hi).
    + intros j Hj Hb. cbn in Hb. by rewrite Hbit in Hb.
    + intros x. cbn. apply Hx.
  - intros j Hj. cbn. by apply Hbit.
  - cbn. rewrite Z.lor_diag. intros Hz j Hj. rewrite <- Hbit by done.
    assert (kreg st1 1 = 0) as -> by lia. apply Z.testbit_0_l.
Qed.

(** A lane after the vector part of the iteration. *)
Lemma step_value i s st st1 j :
  simulates mandel_area at0 st s st1 -> step_post s = true -> mandel_inv i st ->
  (forall j, 0 <= j < 8 -> Z.testbit (kreg st 1) j = bounded (orbit i j)) -> 0 <= j < 8 ->
  orbit_in st1 j = orbit (S i) j.
Proof.
  intros Hs Hp Hi Hbits Hj. unfold step_post in Hp. rewrite !andb_true_iff in Hp.
  destruct Hp as (((_ & Hk) & _) & _). pose proof (Hbits j Hj) as Hb.
  destruct (mi_point i st Hi j Hj) as [P0 P1]. destruct (mi_consts i st Hi j Hj) as (C7 & _ & C9).
  pose proof (mi_orbit i st Hi j Hj) as Ho. unfold orbit_in in Ho.
  assert (Hl : forall r e, (r, e) ∈ [(2, next_zr); (3, next_zi); (4, next_zr2); (5, next_zi2); (6, next_n)] ->
    lane64 (zmm st1 r) j = eval64 at0 st j e).
  { intros r e Hr. apply (kept_lane s); [done| |done]. apply (keeps_all_at s _ _ _ Hk).
    apply elem_of_app. by left. }
  unfold orbit_in. rewrite (Hl 2 next_zr), (Hl 3 next_zi), (Hl 4 next_zr2), (Hl 5 next_zi2), (Hl 6 next_n) by listed.
  unfold orbit in *. rewrite escape_S.
  unfold next_zr2, next_zi2, next_n, next_zr, next_zi, next_t, masked.
  destruct (bounded (escape i (point_re j) (point_im j) origin)) eqn:E.
  all: eval64_tac; rewrite !eval_oldk, !b2z_zero, Hb; cbn [negb]; rewrite !eval64_old.
  - rewrite <- Ho. rewrite P0, P1, C7, C9. reflexivity.
  - apply Ho.
Qed.

(** The iteration: one step of every lane that has not escaped, and the
    jump is taken while the count is below [maxiter]. *)
Lemma step_run i st :
  mandel_inv i st -> Z.of_nat i + 1 < 2 ^ 31 ->
  (forall j, 0 <= j < 8 -> Z.testbit (kreg st 1) j = bounded (orbit i j)) ->
  exists st1, exec_lines symbol mandel_step st = Some st1 /\ mandel_inv (S i) st1 /\
    holds Jl st1 = (Z.of_nat (S i) <? signed 32 (gpr st0 Rdx)).
Proof.
  intros Hi Hsmall Hbits.
  destruct (segment_run i st _ _ _ Hi step_checked) as (s & st1 & Hs & He & Hsim & Hg & Hx).
  { intros s Hs. unfold step_post in Hs. rewrite !andb_true_iff in Hs. by destruct Hs as [[[? _] _] ?]. }
  set (n := Z.of_nat (S i)).
  assert (Hn : wrap 32 (gpr st1 R8 + 1) = n).
  { rewrite Hg, (mi_count i st Hi). rewrite wrap_small by (unfold uint; lia). lia. }
  exists (flags_sub 32 n (gpr st1 Rdx)
    (set_flags (n =? 0) (cf st1) (signed 32 (gpr st1 R8) + 1 <? 0) (set_gpr R8 n st1))).
  split_and!.
  - change mandel_step with (take 7 mandel_step ++ [Scal (Incl R8); Scal (CmplReg Rdx R8)]).
    rewrite exec_lines_app, He. cbn [mbind option_bind exec_lines exec_line exec_scalar]. rewrite Hn.
    cbn [set_flags set_gpr gpr mbind option_bind]. by rewrite fn_lookup_insert, fn_lookup_insert_ne by done.
  - assert (Hu : forall r j, r ∈ [0; 1; 7; 8; 9] -> 0 <= j < 8 -> lane64 (zmm st1 r) j = lane64 (zmm st r) j).
    { intros r j Hr Hj. apply (lane_unchanged s st st1 [0; 1; 7; 8; 9]); [done| |done..].
      pose proof Hs as Hs'. unfold step_post in Hs'. rewrite !andb_true_iff in Hs'.
      destruct Hs' as [[[_ Hk] _] _]. unfold keeps_all in *. rewrite forallb_app in Hk.
      by apply andb_true_iff in Hk as [_ Hk]. }
    split.
    + intros g Hin. cbn. rewrite fn_lookup_insert_ne.
      * rewrite Hg. by apply (mi_args i st Hi).
      * intros <-. revert Hin. change (R8 ∉ args). concrete.
    + cbn. by rewrite fn_lookup_insert.
    + intros j Hj. change (orbit_in st1 j = orbit (S i) j). by apply (step_value i s st).
    + intros j Hj. cbn. rewrite !Hu by (done || listed). by apply (mi_point i st Hi).
    + intros j Hj. cbn. rewrite !Hu by (done || listed). by apply (mi_consts i st Hi).
    + intros j Hj Hb. cbn in Hb. unfold step_post in Hs. rewrite !andb_true_iff in Hs.
      destruct Hs as [[_ Hm%bool_decide_eq_true] _].
      rewrite (mask_bit_at i st s st1 _ j Hsim Hm), eval_oldk, b2z_zero, negb_involutive in Hb by (done || lia).
      rewrite Hbits in Hb by done. unfold orbit in *. by rewrite escape_S, Hb.
    + intros x. cbn. apply Hx.
  - cbn [holds flags_sub set_flags less]. rewrite Hg.
    assert (signed 32 n = n) as -> by (apply signed_small; lia).
    by rewrite (mi_args i st Hi Rdx) by listed.
Qed.
(** What the kernel leaves after [n] iterations at most. *)
Definition mandel_out (n : nat) (st' : State) : Prop :=
  (forall j, 0 <= j < 8 ->
     double_at (ram st') (gpr st0 Rsi) j = o_n (orbit n j) /\
     double_at (ram st') (gpr st0 Rsi + 64) j = magnitude (orbit n j)) /\
  (forall x, ~ (gpr st0 Rsi <= x < gpr st0 Rsi + 128) -> ram st' x = ram st0 x).

Lemma mandel_out_more i n st' :
  (forall j, 0 <= j < 8 -> bounded (orbit i j) = false) -> (i <= n)%nat -> mandel_out i st' -> mandel_out n st'.
Proof.
  intros Hb Hn [Ho Hf]. split; [|done]. intros j Hj. unfold orbit in *.
  rewrite (escape_more i n) by auto. by apply Ho.
Qed.

(** A stored row, by its doubles. *)
Lemma stored_double s st st1 d e j :
  simulates mandel_area at0 st s st1 -> stores_exactly s tail_stores = true -> (d, e) ∈ tail_stores ->
  0 <= j < 8 -> double_at (ram st1) (gpr st0 Rsi + d) j = eval64 at0 st j e.
Proof.
  intros Hs Hx Hd Hj. unfold double_at, eval64, lane64.
  rewrite <- !(stored_at _ _ s _ st st1 d e _ Hs Hx Hd) by (unfold LANES; lia).
  cbn [writes mandel_area locate]. do 2 f_equal; f_equal; lia.
Qed.

(** The tail writes the counts and the magnitudes. *)
Lemma tail_run i st :
  mandel_inv i st -> exists st1, exec_lines symbol mandel_tail st = Some st1 /\ mandel_out i st1.
Proof.
  intros Hi. destruct (checked_inv _ _ _ _ tail_checked) as (s & Hsym & Hc).
  destruct (segment symbol mandel_area at0 st args (range 0 10) mandel_tail s Harea (mi_args i st Hi) Hsym)
    as (st1 & He & Hs).
  exists st1. split; [done|]. split.
  - intros j Hj. pose proof (mi_orbit i st Hi j Hj) as <-. split.
    + pose proof (stored_double s st st1 0 (Old 6) j Hs Hc) as Hd. rewrite Z.add_0_r in Hd.
      rewrite Hd by (done || listed). apply eval64_old.
    + rewrite (stored_double s st st1 64 (Pd Vaddpd (Old 0) (Old 4) (Old 5)) j Hs Hc) by (done || listed).
      by eval64_tac.
  - intros x Hx. rewrite <- (mi_frame i st Hi). by apply (sim_outside mandel_area at0 st s st1 x Hs).
Qed.

(** The lines by their numbers: the loop is lines 15 to 29. *)
Lemma loop_ends n i st :
  mandel_inv i st -> (i < n)%nat -> Z.of_nat n < 2 ^ 31 ->
  n = Z.to_nat (Z.max 1 (signed 32 (gpr st0 Rdx))) ->
  exists st', ends symbol mandel_prog 15 st (Returned st') /\ mandel_out n st'.
Proof.
  intros Hi Hlt Hmax Hn. remember (n - i)%nat as k eqn:Hk. revert i st Hi Hlt Hk.
  induction k as [|k IH]; intros i st Hi Hlt Hk; [lia|].
  destruct (test_run i st Hi) as (st1 & He1 & Hi1 & Hbits & Hjz).
  assert (Htail : forall m st2, mandel_inv m st2 -> exists st', mandel_out m st' /\
    ends symbol mandel_prog 30 st2 (Returned st')).
  { intros m st2 Hm. destruct (tail_run m st2 Hm) as (st' & He & Ho). exists st'. split; [done|].
    eapply ends_line; [reflexivity..|]. eapply (ends_lines symbol 3); [exact He|vm_compute; lia|].
    by apply ends_ret. }
  assert (Hloop : forall st', ends symbol mandel_prog 19 st1 (Returned st') ->
    ends symbol mandel_prog 15 st (Returned st')).
  { intros st' He. eapply ends_line; [reflexivity..|].
    eapply (ends_lines symbol 3); [exact He1|vm_compute; lia|exact He]. }
  destruct (holds Jz st1) eqn:Ez.
  - destruct (Htail i st1 Hi1) as (st' & Ho & He). exists st'. split.
    + apply Hloop. eapply ends_jump; [reflexivity..|]. by rewrite Ez.
    + apply (mandel_out_more i); [by apply Hjz|lia|done].
  - destruct (step_run i st1 Hi1) as (st2 & He2 & Hi2 & Hl); [lia|done|].
    assert (Hstep : forall st', ends symbol mandel_prog 29 st2 (Returned st') ->
      ends symbol mandel_prog 15 st (Returned st')).
    { intros st' He. apply Hloop. eapply ends_jump; [reflexivity..|]. rewrite Ez.
      eapply (ends_lines symbol 9); [exact He2|vm_compute; lia|exact He]. }
    destruct (Z.of_nat (S i) <? signed 32 (gpr st0 Rdx)) eqn:El.
    + destruct (IH (S i) st2 Hi2) as (st' & He & Ho); [lia..|]. exists st'. split; [|done].
      apply Hstep. eapply ends_jump; [reflexivity..|]. by rewrite Hl.
    + destruct (Htail (S i) st2 Hi2) as (st' & Ho & He). exists st'. split.
      * apply Hstep. eapply ends_jump; [reflexivity..|]. by rewrite Hl.
      * replace n with (S i) by lia. done.
Qed.
End Loop.

(** C7: [mandel8_vpu] always returns, whatever the point, the count limit and
    the floating-point unit, when its buffers are mapped: after [max 1 maxiter] iterations at most, each
    lane's count and [|z|^2] are those of the scalar loop run on that lane's
    point alone, stopping when it has escaped; nothing outside the 128 bytes
    of the output changes. *)
Theorem mandel_correct `{Vpu} symbol st :
  area_ok symbol mandel_area (locate symbol st) -> mandel_consts_loaded symbol st ->
  let n := Z.to_nat (Z.max 1 (signed 32 (gpr st Rdx))) in
  exists st', ends symbol (called mandel_body "mandel8_vpu" mandel_sig) 0 st (Returned st') /\
    mandel_out st n st'.
Proof.
  intros Ha Hc n.
  destruct (head_run symbol st Ha Hc) as (st1 & He & Hi); [by intros g _|].
  assert (signed 32 (gpr st Rdx) < 2 ^ 31) by (apply (signed_sint 32); lia).
  destruct (loop_ends symbol st Ha n 0 st1 Hi) as (st' & Hl & Ho); [lia..|done|].
  exists st'. split; [|done]. eapply ends_line; [reflexivity..|].
  eapply (ends_lines symbol 14); [exact He|vm_compute; lia|exact Hl].
Qed.

(** Two points: the even lanes at 2, which escapes at once, the odd lanes at
    0, which never does. *)
Definition point_state : State :=
  mkState (fun _ _ => 0) (fun g => match g with Rdi => 65536 | Rsi => 131072 | Rdx => 3 | _ => 0 end)
    (fun a => if a =? 65540 then 0x40000000
              else if (262144 <=? a) && (a <? 262144 + 192) && (a mod 8 =? 4)
              then nth (Z.to_nat ((a - 262144) / 64)) [0x40000000; 0x40100000; 0x3ff00000] 0
              else 0) (fun _ => 0) false false false.

Definition point_symbol : string -> Z := fun _ => 262144.

Lemma mandel_correct_witness :
  exists st', @ends reference_vpu point_symbol (called mandel_body "mandel8_vpu" mandel_sig) 0 point_state
      (Returned st') /\
    double_at (ram st') 131072 0 = one /\ double_at (ram st') 131072 1 = 0x4008000000000000.
Proof.
  destruct (@mandel_correct reference_vpu point_symbol point_state) as (st' & He & Ho & _).
  - split; [concrete|]. split; [|split; [intros x; done|done]].
    intros b m Hb. assert (m = 128 /\ b = Arg Rdi \/ m = 256 /\ b = Sym "mandel8_consts") as Hbm.
    { apply elem_of_cons in Hb as [[= -> ->]|[= -> ->]%list_elem_of_singleton]; auto. }
    destruct Hbm as [[-> ->]|[-> ->]]; concrete.
  - assert (forallb (fun i => forallb (fun j =>
      double_at (ram point_state) (point_symbol "" + 64 * i) j =? nth (Z.to_nat i) mandel_consts.*2 0)
      (range 0 8)) (range 0 4) = true) as Hall by (vm_compute; reflexivity).
    intros i t v j Hi Hj. rewrite forallb_forall in Hall.
    specialize (Hall (Z.of_nat i)). rewrite forallb_forall in Hall.
    pose proof (lookup_lt_Some _ _ _ Hi) as Hlt. cbn in Hlt.
    pose proof (proj1 (Z.eqb_eq _ _) (Hall ltac:(apply in_range; lia) j ltac:(apply in_range; lia))) as E.
    etransitivity; [exact E|]. rewrite Nat2Z.id.
    do 4 (destruct i as [|i]; [injection Hi as <- <-; reflexivity|]). done.
  - exists st'. split; [done|]. split.
    + etransitivity; [apply (Ho 0); lia|]. vm_compute. reflexivity.
    + etransitivity; [apply (Ho 1); lia|]. vm_compute. reflexivity.
Defined.
