(* ===== verification/Fls.v ===== *)
(** The FastLanes kernels are right: every width from 0 to 32 of
    [fls_unffor_kernel], from input at any multiple of four, and the entry
    point [knc_fls_unffor] that dispatches on the width at run time. *)

From stdpp Require Import functions.
From S2P Require Import Prelude Bytes Mvex MvexDis MvexCalls Codegen CodegenFls Layout Fpu Vpu VpuCalls Symbolic Kernels KernelsPack Blocks Knc.

Local Open Scope Z_scope.

(** ** What a group stores, symbolically *)

Definition fls_area (bits : Z) : Area :=
  mkArea (if (0 <? bits) && (bits <? 32) then [(Sym (fls_mask_name bits), 64)] else [])
    (Arg Rsi) 4096
    ((Arg Rdx, 4) :: (if 0 <? bits then [(Arg Rdi, 128 * bits)] else [])).

(** Word [w] of the sixteen lanes of a half. *)
Definition fls_word (half w : Z) : Expr := Ld (Arg Rdi) (128 * w + 64 * half).

Definition fls_out (bits half v : Z) : Expr := Op Vpaddd (Old 26) (value_of (fls_word half) bits v).

Definition fls_group_area (bits : Z) : Area := mkArea [] (Arg Rsi) 4096 [(Arg Rdi, 128 * bits)].

Definition fls_group_stores (bits half start : Z) : list (Z * Expr) :=
  (fun v => (128 * v + 64 * half, fls_out bits half v)) <$> range start (start + GROUP).

Definition fls_group_state (bits half start : Z) : option (list Line * SymState) :=
  ls ← fls_group bits half start;
  s ← sym_lines (fls_group_area bits) ls (entry args (range 0 10 ++ [26; 30]));
  Some (ls, s).

Definition fls_group_ok (bits half start : Z) : bool :=
  match fls_group_state bits half start with
  | Some (_, s) =>
      keeps_arguments args s && stores_exactly s (fls_group_stores bits half start)
      && keeps s 26 (Old 26) && keeps s 30 (Old 30)
  | None => false
  end.

(** Every group of every kernel. *)
Lemma fls_groups_ok :
  forallb (fun half => forallb (fun bits => forallb (fls_group_ok bits half) fls_starts)
    (range 1 33)) (range 0 2) = true.
Proof. vm_cast_no_check (eq_refl true). Qed.

Lemma fls_group_ok_at bits half start :
  1 <= bits <= 32 -> 0 <= half < 2 -> start ∈ fls_starts -> fls_group_ok bits half start = true.
Proof.
  intros Hb Hh Hs. pose proof fls_groups_ok as H. rewrite forallb_forall in H.
  specialize (H half ltac:(by apply in_range)). rewrite forallb_forall in H.
  specialize (H bits ltac:(apply in_range; lia)). rewrite forallb_forall in H.
  by apply H, list_elem_of_In.
Qed.

(** The stores of a column of no bits. *)
Definition fls_zero_stores : list (Z * Expr) :=
  (fun j => (64 * j, Old 26)) <$> range 0 64.

Definition fls_zero_ok : bool :=
  match sym_lines (fls_area 0) fls_zero (entry args [26]) with
  | Some s => stores_exactly s fls_zero_stores
  | None => false
  end.

Lemma fls_zero_checked : fls_zero_ok = true.
Proof. vm_cast_no_check (eq_refl true). Qed.

(** ** The layout *)

(** FastLanes' layout has 32 lanes: word [w] of lane [i] of the input at
    [p]. *)
Definition fls_words (m : Z -> Z) (p i w : Z) : Z := m (p + 128 * w + 4 * i).

(** Value [v] of a lane: the base plus the packed bits. *)
Definition unffor (bits b : Z) (W : Z -> Z) (v : Z) : Z := wrap 32 (b + lane_value bits W v).

Definition fls_constants_loaded (symbol : string -> Z) (st : State) (bits : Z) : Prop :=
  forall name ws i x, (name, ws) ∈ fls_mask_rows [bits] -> ws !! i = Some x ->
    ram st (symbol name + 4 * Z.of_nat i) = x.

Lemma fls_constants_mask symbol st bits l :
  fls_constants_loaded symbol st bits -> 1 <= bits < 32 -> 0 <= l < LANES ->
  ram st (symbol (fls_mask_name bits) + 4 * l) = low_mask bits.
Proof.
  unfold LANES. intros Hc Hb Hl. replace l with (Z.of_nat (Z.to_nat l)) by lia.
  rewrite low_mask_ones, <- mask_value_ones by lia.
  eapply Hc; [|apply lookup_replicate_2 with (n := 16%nat); lia].
  unfold fls_mask_rows. cbn. rewrite !(proj2 (Z.eqb_neq bits _)) by lia. cbn. by left.
Qed.

(** ** The kernels *)

Section FlsRun.
Context `{Vpu} (symbol : string -> Z) (bits : Z) (st0 : State).
Context (Hram : words_ok st0).

Abbreviation at0 := (locate symbol st0).

Context (Harea : area_ok symbol (fls_area bits) at0).

Definition fls_base : Z := ram st0 (gpr st0 Rdx).
Definition fls_entry (i : Z) : Z -> Z := fls_words (ram st0) (gpr st0 Rdi) i.

(** After [k] groups, of four for each half: the base and the mask are in
    their registers, the values of those groups are in the output, and
    nothing outside the output has changed. *)
Record fls_inv (k : Z) (st : State) : Prop := {
  fls_inv_args : arguments at0 st args;
  fls_inv_base l : 0 <= l < LANES -> zmm st 26 l = fls_base;
  fls_inv_mask l : 1 <= bits < 32 -> 0 <= l < LANES -> zmm st 30 l = low_mask bits;
  fls_inv_out v half l : 0 <= v < 32 -> 0 <= half < 2 -> 0 <= l < LANES -> 32 * half + v < 8 * k ->
    ram st (gpr st0 Rsi + 128 * v + 64 * half + 4 * l) =
    unffor bits fls_base (fls_entry (16 * half + l)) v;
  fls_inv_frame x : ~ (gpr st0 Rsi <= x < gpr st0 Rsi + 4096) -> ram st x = ram st0 x
}.

Lemma fls_loose b n : (b, n) ∈ loose (fls_area bits) ->
  at0 b mod 4 = 0 /\ 0 <= at0 b /\ at0 b + n < 2 ^ 64 /\ mapped_range (at0 b) n /\ apart (fls_area bits) at0 b n.
Proof. apply (loose_elem symbol (fls_area bits) at0 b n Harea). Qed.

Lemma fls_group_area_ok : 0 < bits -> area_ok symbol (fls_group_area bits) at0.
Proof.
  intros Hb. pose proof (fls_loose (Arg Rdi) (128 * bits)) as Hl.
  destruct Harea as (Hw & _ & Hs & _). split; [done|]. split; [by intros b n ?%not_elem_of_nil|].
  split; [done|]. split; [|done]. apply Hl. cbn. rewrite (proj2 (Z.ltb_lt 0 bits)) by done. right. by left.
Qed.

(** The words of the input are as they were, and are words. *)
Lemma fls_words_kept k st i w :
  1 <= bits -> fls_inv k st -> 0 <= i < 32 -> 0 <= w < bits ->
  fls_words (ram st) (gpr st0 Rdi) i w = fls_entry i w /\ uint 32 (fls_entry i w).
Proof.
  intros Hb Hi Hil Hw. destruct (fls_loose (Arg Rdi) (128 * bits)) as (Ha & _ & _ & _ & Hap).
  { cbn. rewrite (proj2 (Z.ltb_lt 0 bits)) by lia. right. by left. }
  unfold apart in Hap. cbn [locate writes room fls_area] in *. unfold fls_entry, fls_words. split.
  - apply (fls_inv_frame k st Hi). lia.
  - apply Hram. Z.to_euclidean_division_equations. lia.
Qed.

Lemma fls_value k st v half l :
  1 <= bits <= 32 -> fls_inv k st -> 0 <= v < 32 -> 0 <= half < 2 -> 0 <= l < LANES ->
  eval at0 st l (fls_out bits half v) = unffor bits fls_base (fls_entry (16 * half + l)) v.
Proof.
  intros Hb Hi Hv Hh Hl. unfold fls_out, unffor. cbn [eval lane_op].
  rewrite (fls_inv_base k st Hi) by done. do 2 f_equal. apply eval_value_of with (n := bits); [lia..|nia| |].
  - intros. apply (fls_inv_mask k st Hi); [lia|done].
  - intros w Hw. destruct (fls_words_kept k st (16 * half + l) w) as [He Hu]; [lia|done|unfold LANES in *; lia|done|].
    split; [|done]. rewrite <- He. cbn [fls_word eval locate]. unfold fls_words. f_equal. lia.
Qed.

Lemma fls_group_step half j st :
  1 <= bits <= 32 -> 0 <= half < 2 -> 0 <= j < 4 -> fls_inv (4 * half + j) st ->
  exists ls st', fls_group bits half (GROUP * j) = Some ls /\
    exec_lines symbol ls st = Some st' /\ fls_inv (4 * half + j + 1) st'.
Proof.
  intros Hb Hh Hj Hi.
  assert (Hstart : GROUP * j ∈ fls_starts).
  { apply list_elem_of_fmap. exists j. split; [done|]. apply list_elem_of_In, in_range. 
    change (FLS_POSITIONS / GROUP) with 4. lia. }
  pose proof (fls_group_ok_at bits half (GROUP * j) Hb Hh Hstart) as Hk. unfold fls_group_ok in Hk.
  destruct (fls_group_state bits half (GROUP * j)) as [[ls s]|] eqn:E; [|done].
  unfold fls_group_state in E. apply bind_Some in E as (ls' & Hls & E).
  apply bind_Some in E as (s' & Hsym & [= -> ->]).
  rewrite !andb_true_iff in Hk. destruct Hk as (((Hka & Hst) & Hk26) & Hk30).
  destruct (segment symbol (fls_group_area bits) at0 st _ _ ls s (fls_group_area_ok ltac:(lia))
    (fls_inv_args _ st Hi) Hsym) as (st' & He & Hs).
  exists ls, st'. split_and!; [done..|]. unfold GROUP in *. split.
  - intros r Hr. by apply (sim_arguments _ _ _ _ _ _ Hs Hka).
  - intros l Hl. rewrite (kept_at _ _ _ _ _ _ _ _ Hs Hk26 Hl). by apply (fls_inv_base _ st Hi).
  - intros l Hb' Hl. rewrite (kept_at _ _ _ _ _ _ _ _ Hs Hk30 Hl). by apply (fls_inv_mask _ st Hi).
  - intros v half' l Hv Hh' Hl Hlt. destruct (decide (32 * half' + v < 8 * (4 * half + j))) as [Hbef|Hnow].
    + rewrite (stored_frame _ _ s _ st st' _ Hs (exactly_only _ _ Hst)); [by apply (fls_inv_out _ st Hi)|].
      intros d Hd. unfold fls_group_stores in Hd. rewrite <- list_fmap_compose in Hd.
      apply list_elem_of_fmap in Hd as (v' & -> & Hv'%list_elem_of_In%in_range).
      unfold GROUP in Hv'. cbn. unfold in_vector, LANES in *. lia.
    + assert (half' = half) as -> by lia.
      assert (Hin : (128 * v + 64 * half, fls_out bits half v) ∈ fls_group_stores bits half (8 * j)).
      { apply list_elem_of_fmap. exists v. split; [done|]. apply list_elem_of_In, in_range. unfold GROUP. lia. }
      pose proof (stored_at _ _ s _ st st' _ _ l Hs Hst Hin Hl) as Ho.
      cbn [writes fls_group_area locate] in Ho. rewrite Z.add_assoc in Ho. rewrite Ho.
      by apply (fls_value (4 * half + j)).
  - intros x Hx. rewrite (sim_outside _ _ _ s st' x Hs); [by apply (fls_inv_frame _ st Hi)|done].
Qed.

(** The eight groups. *)
Lemma fls_groups_run st :
  1 <= bits <= 32 -> fls_inv 0 st ->
  exists ls st', fls_groups bits = Some ls /\ exec_lines symbol ls st = Some st' /\ fls_inv 8 st'.
Proof.
  intros Hb Hi. unfold fls_groups.
  apply (collect_runs symbol _ (fun h st => fls_inv (4 * Z.of_nat h) st) (range 0 2)); [|done].
  intros h half st1 [Hh ?]%range_at Hi1. replace (Z.of_nat h) with half in Hi1 by lia.
  replace (4 * Z.of_nat (S h)) with (4 * half + Z.of_nat (length fls_starts)) by (change (length fls_starts) with 4%nat; lia).
  apply (collect_runs symbol _ (fun j st => fls_inv (4 * half + Z.of_nat j) st) fls_starts);
    [|by replace (4 * half + Z.of_nat 0) with (4 * half) by lia].
  intros j start st2 Hj Hi2. apply list_lookup_fmap_Some in Hj as (j' & -> & [Hj ?]%range_at).
  change (FLS_POSITIONS / GROUP) with 4 in *.
  replace (4 * half + Z.of_nat (S j)) with (4 * half + j' + 1) by lia.
  apply fls_group_step; [done|lia|lia|]. by replace j' with (Z.of_nat j) by lia.
Qed.

(** The base is splatted into its register, and nothing else changes. *)
Lemma fls_splat :
  exists st1, exec_line symbol (zloadu Vpbroadcastd 26 (mem Rdx 0)) st0 = Some st1 /\
    ram st1 = ram st0 /\ gpr st1 = gpr st0 /\ (forall l, zmm st1 26 l = fls_base).
Proof.
  destruct (fls_loose (Arg Rdx) 4) as (Ha & H0 & H1 & Hmp & _); [by left|]. cbn [locate] in *.
  assert (Haddr : address st0 (mem Rdx 0) = gpr st0 Rdx).
  { unfold address. cbn. rewrite Z.add_0_r. apply wrap_small. unfold uint. lia. }
  eexists. split.
  - apply exec_loads; [by right; right|done..|]. unfold sem_load. rewrite Haddr, word_mapped by done. reflexivity.
  - by split_and!.
Qed.

(** What a kernel leaves behind. *)
Definition fls_result (st' : State) : Prop :=
  (forall v i, 0 <= v < 32 -> 0 <= i < 32 ->
    ram st' (gpr st0 Rsi + 128 * v + 4 * i) = unffor bits fls_base (fls_entry i) v) /\
  (forall x, ~ (gpr st0 Rsi <= x < gpr st0 Rsi + 4096) -> ram st' x = ram st0 x).

Lemma fls_inv_result st' : fls_inv 8 st' -> fls_result st'.
Proof.
  intros Hi. split; [|apply (fls_inv_frame _ _ Hi)]. intros v i Hv Hiv.
  pose proof (Z.div_mod i 16). pose proof (Z.mod_pos_bound i 16).
  replace (gpr st0 Rsi + 128 * v + 4 * i) with (gpr st0 Rsi + 128 * v + 64 * (i / 16) + 4 * (i mod 16)) by lia.
  replace i with (16 * (i / 16) + i mod 16) at 3 by lia.
  apply (fls_inv_out _ _ Hi); unfold LANES; lia.
Qed.

Lemma fls_zero_run st1 :
  bits = 0 -> ram st1 = ram st0 -> gpr st1 = gpr st0 -> (forall l, zmm st1 26 l = fls_base) ->
  exists st', exec_lines symbol fls_zero st1 = Some st' /\ fls_result st'.
Proof.
  intros Hb Hm Hg H26. pose proof fls_zero_checked as Hk. unfold fls_zero_ok in Hk.
  destruct (sym_lines _ _ _) as [s|] eqn:Hsym; [|done].
  pose proof Harea as Ha. rewrite Hb in Ha.
  destruct (segment symbol (fls_area 0) at0 st1 args [26] fls_zero s Ha) as (st' & He & Hs);
    [by intros g _; cbn; rewrite Hg|done|].
  exists st'. split; [done|]. split.
  - intros v i Hv Hi. pose proof (Z.div_mod i 16). pose proof (Z.mod_pos_bound i 16).
    assert (Hin : (64 * (2 * v + i / 16), Old 26) ∈ fls_zero_stores).
    { apply list_elem_of_fmap. eexists. split; [done|]. apply list_elem_of_In, in_range. lia. }
    pose proof (stored_at _ _ s _ st1 st' _ _ (i mod 16) Hs Hk Hin ltac:(unfold LANES; lia)) as Ho.
    cbn [writes fls_area locate eval] in Ho. rewrite H26 in Ho.
    replace (gpr st0 Rsi + 128 * v + 4 * i)
      with (gpr st0 Rsi + 64 * (2 * v + i / 16) + 4 * (i mod 16)) by lia.
    rewrite Ho. unfold unffor. rewrite Hb. unfold lane_value. cbn [place].
    change (low_mask 0) with 0. cbn [Z.mul Z.div Z.modulo]. 
    rewrite Z.land_0_r, Z.add_0_r, wrap_small; [done|]. apply Hram.
    destruct (fls_loose (Arg Rdx) 4) as (Hal & _); [by left|done].
  - intros x Hx. rewrite (sim_outside _ _ _ s st' x Hs); [by rewrite Hm|done].
Qed.

Lemma fls_mask_run st1 :
  1 <= bits <= 32 -> fls_constants_loaded symbol st0 bits ->
  ram st1 = ram st0 -> gpr st1 = gpr st0 -> (forall l, zmm st1 26 l = fls_base) ->
  exists st', exec_lines symbol (fls_load_mask bits) st1 = Some st' /\ fls_inv 0 st'.
Proof.
  intros Hb Hc Hm Hg H26. unfold fls_load_mask. destruct (bits <? 32) eqn:E.
  - destruct Harea as (_ & Hr & _). destruct (Hr (Sym (fls_mask_name bits)) 64) as [Ha _].
    { cbn. rewrite E, (proj2 (Z.ltb_lt 0 bits)) by lia. by left. }
    destruct (exec_constant symbol st1 (fls_mask_name bits) 30 eq_refl Ha)
      as (st' & He & Hm' & Hg' & Hz & H30).
    exists st'. split; [done|]. split.
    + intros g Hin. rewrite Hg' by (intros ->; set_solver). by rewrite Hg.
    + intros l _. by rewrite Hz.
    + intros l Hl' Hl. rewrite H30, Hm. by apply fls_constants_mask.
    + lia.
    + intros x _. by rewrite Hm', Hm.
  - exists st1. split; [done|]. split; [|by auto|lia|lia|by rewrite Hm].
    intros g _. by rewrite Hg.
Qed.

(** The whole body of a kernel. *)
Lemma fls_body_run :
  0 <= bits <= 32 -> fls_constants_loaded symbol st0 bits ->
  exists body st', fls_body bits = Some body /\ exec_lines symbol body st0 = Some st' /\ fls_result st'.
Proof.
  intros Hb Hc. destruct fls_splat as (st1 & H1 & Hm & Hg & H26). unfold fls_body.
  destruct (bits =? 0) eqn:E.
  - destruct (fls_zero_run st1) as (st' & He & Hr); [lia|done..|].
    do 2 eexists. split; [reflexivity|]. cbn [exec_lines]. rewrite H1. cbn [mbind option_bind]. by split.
  - destruct (fls_mask_run st1) as (st2 & H2 & Hi); [lia|done..|].
    destruct (fls_groups_run st2) as (ls & st' & Hls & He & Hi'); [lia|done|].
    rewrite Hls. cbn [mbind option_bind]. do 2 eexists. split; [reflexivity|].
    cbn [exec_lines]. rewrite H1. cbn [mbind option_bind]. rewrite exec_lines_app, H2.
    split; [done|by apply fls_inv_result].
Qed.
End FlsRun.

(** ** The kernels of every width *)

(** What the caller guarantees: words in memory; output that is aligned,
    input and base at multiples of 4, apart from the output; and the masks. *)
Definition fls_ready `{Space} (symbol : string -> Z) (bits : Z) (st : State) : Prop :=
  0 <= bits <= 32 /\ words_ok st /\
  area_ok symbol (fls_area bits) (locate symbol st) /\ fls_constants_loaded symbol st bits.

Lemma fls_runs `{Vpu} symbol bits st :
  fls_ready symbol bits st ->
  exists prog st', fls_unffor_kernel bits = Some prog /\
    ends symbol prog 0 st (Returned st') /\ fls_result bits st st'.
Proof.
  intros (Hb & Hu & Ha & Hc).
  destruct (fls_body_run symbol bits st Hu Ha Hb Hc) as (body & st' & Hbody & He & Hr).
  unfold fls_unffor_kernel. rewrite Hbody. cbn [mbind option_bind].
  do 2 eexists. split; [reflexivity|]. split; [by apply called_returns|done].
Qed.

(** ** The entry point *)

Definition fls_thunk : list Line := called fls_thunk_body "knc_fls_unffor" fls_thunk_sig.

Definition fls_table : string := "knc_fls_unffor_table".

(** The FastLanes object in an image: the code of the kernel of one width and
    of the entry point, and the table entry of that width. *)
Record fls_linked `{Vpu} (symbol : string -> Z) (code : Z -> option (list Line)) (bits : Z) : Prop := {
  fls_link_kernel prog : fls_unffor_kernel bits = Some prog -> code (symbol (fls_name bits)) = Some prog;
  fls_link_thunk : code (symbol "knc_fls_unffor") = Some fls_thunk
}.

Record fls_table_loaded `{Space} (symbol : string -> Z) (st : State) (bits : Z) : Prop := {
  fls_table_placed : symbol fls_table mod 8 = 0 /\ 0 <= symbol fls_table /\ symbol fls_table + 264 <= 2 ^ 64 /\
    mapped_range (symbol fls_table) 264;
  fls_table_entry name : fls_table_entries (range 0 33) !! Z.to_nat bits = Some name ->
    qword st (symbol fls_table + 8 * bits) = symbol name
}.

Section FlsEntry.
Context `{Vpu} (symbol : string -> Z) (code : Z -> option (list Line)).

(** The width goes to [rax] and is compared: the jump is taken above 32. *)
Lemma fls_thunk_test st :
  exists st', exec_lines symbol [Scal (Movl Rdx Rax); Scal (Cmpl 32 Rax)] st = Some st' /\
    holds Ja st' = (32 <? width st) /\ gpr st' Rax = width st /\
    ram st' = ram st /\ zmm st' = zmm st /\ (forall g, g <> Rax -> gpr st' g = gpr st g).
Proof.
  eexists. split; [reflexivity|]. split_and!; try done.
  - cbn [holds flags_sub set_flags set_gpr cf zf gpr]. rewrite fn_lookup_insert.
    change (wrap 32 (gpr st Rdx)) with (width st). change (wrap 32 32) with 32.
    rewrite (wrap_small 32 (width st)) by (apply wrap_uint; lia). lia.
  - intros g Hg. cbn [gpr flags_sub set_flags set_gpr]. by rewrite fn_lookup_insert_ne.
Qed.

Lemma fls_thunk_load st :
  exists st', exec_lines symbol [Scal (Movq Rcx Rdx); Scal (Leaq fls_table R9)] st = Some st' /\
    dispatched true st st' /\ gpr st' R9 = symbol fls_table /\ gpr st' Rax = gpr st Rax.
Proof. eexists. by (split; [reflexivity|]). Qed.

Lemma fls_thunk_jumps st :
  fls_table_loaded symbol st (width st) -> width st <= 32 ->
  exists st', dispatched true st st' /\
    ends symbol fls_thunk 0 st (Left (qword st (symbol fls_table + 8 * width st)) st').
Proof.
  intros [(Hal & Hlo & Hhi & Hmp) _] Hw.
  destruct (fls_thunk_test st) as (st1 & H1 & Hj & Ha & Hm & Hz & Hg).
  destruct (fls_thunk_load st1) as (st2 & H2 & (Hm2 & Hz2 & Hd & Hs & Hx) & H9 & Ha2).
  exists st2. split; [unfold dispatched; by rewrite Hm2, Hz2, Hd, Hs, Hx, !Hg|].
  assert (0 <= width st) by (apply wrap_uint; lia).
  replace (qword st _) with (qword st2 (symbol fls_table + 8 * width st)) by (unfold qword; by rewrite Hm2, Hm).
  eapply ends_line; [reflexivity|reflexivity|].
  eapply (ends_lines symbol 2); [exact H1|cbn; lia|].
  eapply ends_jump; [reflexivity|reflexivity|]. rewrite Hj, (proj2 (Z.ltb_ge _ _)) by done.
  eapply (ends_lines symbol 2); [exact H2|cbn; lia|]. eapply ends_table; [reflexivity| |].
  - rewrite H9, Ha2, Ha. rewrite wrap_small by (unfold uint; lia). lia.
  - apply qword_mapped; [Z.to_euclidean_division_equations; lia|apply (mapped_sub _ _ _ _ Hmp); lia].
Qed.

Lemma fls_thunk_refuses st :
  32 < width st -> exists st', ram st' = ram st /\ ends symbol fls_thunk 0 st (Returned st').
Proof.
  intros Hw. destruct (fls_thunk_test st) as (st1 & H1 & Hj & _ & Hm & _).
  exists st1. split; [done|].
  eapply ends_line; [reflexivity|reflexivity|].
  eapply (ends_lines symbol 2); [exact H1|cbn; lia|].
  eapply ends_jump; [reflexivity|reflexivity|]. rewrite Hj, (proj2 (Z.ltb_lt _ _)) by done.
  eapply ends_line; [reflexivity|reflexivity|]. by apply ends_ret.
Qed.

Lemma fls_ready_dispatched bits st st1 :
  dispatched true st st1 -> fls_ready symbol bits (with_base true st) -> fls_ready symbol bits st1.
Proof.
  intros (Hm & Hz & Hd & Hs & Hx) (Hb & Hu & Ha & Hc). split; [done|]. split; [|split].
  - intros x Hx4. rewrite Hm. by apply Hu.
  - apply (area_ok_ext _ _ (with_base true st)); [|done]. intros b n Hin.
    assert (b = Arg Rdi \/ b = Arg Rsi \/ b = Arg Rdx \/ exists x, b = Sym x) as Hcase.
    { cbn in Hin. repeat case_match; set_solver. }
    by destruct Hcase as [->|[->|[->|[x ->]]]].
  - intros name ws i x Hn Hi. rewrite Hm. by eapply (Hc name).
Qed.

Lemma fls_entry_name bits :
  0 <= bits <= 32 -> fls_table_entries (range 0 33) !! Z.to_nat bits = Some (fls_name bits).
Proof.
  intros Hb. unfold fls_table_entries, range. rewrite list_lookup_fmap, lookup_seqZ_lt by lia.
  cbn [fmap option_fmap option_map]. by replace (0 + Z.of_nat (Z.to_nat bits)) with bits by lia.
Qed.

(** C13: [knc_fls_unffor] decodes the FastLanes layout at every width from 0 to
    32, from mapped input and base at any multiple of four: value [v] of lane [i] of
    the 32 is the base plus the bits the layout has for it, modulo [2 ^ 32];
    nothing else in memory has changed, and no access faults.  A width above
    32 returns with nothing written. *)
Theorem fls_correct st :
  fls_linked symbol code (width st) -> fls_table_loaded symbol st (width st) ->
  (width st <= 32 -> fls_ready symbol (width st) (with_base true st) ->
   exists st', call symbol code (symbol "knc_fls_unffor") st st' /\
     fls_result (width st) (with_base true st) st') /\
  (32 < width st ->
   exists st', call symbol code (symbol "knc_fls_unffor") st st' /\ ram st' = ram st).
Proof.
  intros Hl Ht. split.
  - intros Hw Hr. destruct (fls_thunk_jumps st Ht Hw) as (st1 & Hd & He).
    destruct (fls_runs symbol (width st) st1) as (prog & st' & Hk & Hend & Ho & Hf);
      [by apply (fls_ready_dispatched _ st)|].
    rewrite (fls_table_entry _ _ _ Ht (fls_name (width st))) in He
      by (apply fls_entry_name; split; [apply wrap_uint; lia|done]).
    destruct Hd as (Hm & _ & Hd & Hs & Hx). exists st'. split.
    + eapply call_leaves; [apply (fls_link_thunk _ _ _ Hl)|exact He|].
      eapply call_returns; [by apply (fls_link_kernel _ _ _ Hl)|done].
    + unfold fls_result, fls_entry, fls_base in *. rewrite Hs, Hm, Hx, Hd in Ho. rewrite Hs, Hm in Hf. by split.
  - intros Hw. destruct (fls_thunk_refuses st Hw) as (st' & Hm & He).
    exists st'. split; [|done]. eapply call_returns; [apply (fls_link_thunk _ _ _ Hl)|exact He].
Qed.
End FlsEntry.

(** ** An image: width 11, with input 20 bytes past a line. *)

Definition fls_image_symbol (s : string) : Z :=
  if String.eqb s "knc_fls_mask_b11" then 262144
  else if String.eqb s "knc_fls_unffor_table" then 524288
  else if String.eqb s "knc_fls_unffor" then 1048576
  else if String.eqb s "knc_fls_unffor_b11" then 2097152 else 0.

Definition fls_image_code (a : Z) : option (list Line) :=
  if a =? 1048576 then Some fls_thunk else if a =? 2097152 then fls_unffor_kernel 11 else None.

Definition fls_image : State :=
  mkState (fun _ _ => 0)
    (fun g => match g with Rdi => 131092 | Rsi => 65536 | Rdx => 11 | Rcx => 196612 | _ => 0 end)
    (fun a => if a =? 524376 then 2097152 else if a =? 524380 then 0
              else if (262144 <=? a) && (a <? 262208) then mask_value 11 else 3000000001)
    (fun _ => 0) false false false.

Lemma fls_image_linked : @fls_linked reference_vpu fls_image_symbol fls_image_code 11.
Proof.
  split.
  - intros prog Hk. assert (fls_image_symbol (fls_name 11) = 2097152) as -> by (vm_compute; reflexivity).
    exact Hk.
  - reflexivity.
Qed.

Lemma fls_image_table : @fls_table_loaded demo_space fls_image_symbol fls_image 11.
Proof.
  split; [concrete|]. intros name Hn. rewrite fls_entry_name in Hn by lia. injection Hn as <-.
  vm_compute. reflexivity.
Qed.

Lemma fls_image_ready : @fls_ready demo_space fls_image_symbol 11 (with_base true fls_image).
Proof.
  split; [lia|]. split; [|split].
  - intros x _. cbn [with_base set_gpr ram fls_image]. repeat case_match; concrete.
  - split; [concrete|]. split; [|split; [done|]].
    2: change (loose (fls_area 11)) with [(Arg Rdx, 4); (Arg Rdi, 1408)]; cbn [foldr fst snd]; concrete.
    intros b n Hb. cbn in Hb. apply list_elem_of_singleton in Hb as [= -> ->]. concrete.
  - intros name ws i x Hr Hx. cbn in Hr. apply list_elem_of_singleton in Hr as [= -> ->].
    apply (lookup_replicate 16 (mask_value 11)) in Hx as [-> Hi].
    assert (fls_image_symbol (fls_mask_name 11) = 262144) as -> by (vm_compute; reflexivity).
    cbn [with_base set_gpr ram fls_image].
    rewrite !(proj2 (Z.eqb_neq _ _)) by lia.
    by rewrite (proj2 (Z.leb_le _ _)), (proj2 (Z.ltb_lt _ _)) by lia.
Qed.

Lemma fls_correct_witness :
  exists st', @call reference_vpu fls_image_symbol fls_image_code
      (fls_image_symbol "knc_fls_unffor") fls_image st' /\
    fls_result 11 (with_base true fls_image) st'.
Proof.
  apply (@fls_correct reference_vpu fls_image_symbol fls_image_code fls_image);
    [exact fls_image_linked|exact fls_image_table|vm_compute; discriminate|exact fls_image_ready].
Defined.
