(* ===== verification/Abi.v ===== *)
(** The calling convention (System V, x86-64), which the callers of the
    generated functions rely on (the [extern] block of
    card/lib/knc-rs/src/lib.rs, knc.h): a function gives back the general
    registers it must save as it found them, the stack pointer among them.
    The generated functions never write them, on any path; the inline
    assembly of the kernel header writes the one register its clobber list
    names.  The machine is the reference one, in any address space: an
    instruction does what is documented or faults. *)

From stdpp Require Import functions.
From S2P Require Import Prelude Bytes Mvex MvexDis MvexCalls Codegen CodegenFls CodegenProbe Files Layout Fpu Vpu Symbolic Knc Blocks.

Local Open Scope Z_scope.
Local Open Scope phi_scope.

(** The registers that belong to the caller. *)
Definition callee_saved : list Gpr := [Rbx; Rbp; Rsp; R12; R13; R14; R15].

(** ** What a line writes *)

(** The general registers a scalar instruction writes. *)
Definition scalar_writes (s : Scalar) : list Gpr :=
  match s with
  | Movq _ r | Addq _ r | Subq _ r | Decq r | Movl _ r | Decl r | Leaq _ r | MovlImm _ r
  | Movzwl _ _ r | Xorl r | Incl r => [r]
  | Cmpq _ _ | Testq _ | Cmpl _ _ | CmplReg _ _ | LockAdd | MovlTo _ _ | Movw _ _ _
  | JmpTable _ _ _ | Ret => []
  end.

(** Those a line writes: a vector instruction none, a mask move its
    destination. *)
Definition line_writes (l : Line) : list Gpr :=
  match l with
  | Scal s => scalar_writes s
  | KInsn (Some i) => match decode_k (bytes i) with Some (KFrom g _) => [g] | _ => [] end
  | _ => []
  end.

Definition leaves (r : Gpr) (ls : list Line) : Prop := forall l, l ∈ ls -> r ∉ line_writes l.

(** ** Runs keep what their lines do not write *)

Section Keeps.
Context (sp : Space) (symbol : string -> Z) (r : Gpr).
#[local] Instance machine : Vpu := reference_vpu_in sp.

Lemma set_gpr_other g v st : r <> g -> gpr (set_gpr g v st) r = gpr st r.
Proof. intros Hr. cbn [set_gpr gpr]. by rewrite fn_lookup_insert_ne. Qed.

Lemma sem_gpr d st st' : sem d st = Some st' -> gpr st' = gpr st.
Proof.
  unfold sem. destruct (_ =? 0); [|done].
  destruct (r_shape (d_row d)), (f_rm (d_fields d)); try done; intros Hs;
    repeat (apply bind_Some in Hs as (? & _ & Hs)); repeat case_match; simplify_eq; try done;
    repeat (match goal with H : mbind _ _ = Some _ |- _ => apply bind_Some in H as (? & _ & H) end);
    repeat case_match; by simplify_eq.
Qed.

Lemma exec_keeps bs st st' :
  vexec bs st = Some st' ->
  (forall g k, decode_k bs = Some (KFrom g k) -> r <> g) -> gpr st' r = gpr st r.
Proof.
  cbn [vexec machine reference_vpu_in]. unfold reference_exec. intros Hs Hg.
  destruct (decode_k bs) as [[k g|g k|a b]|].
  - by injection Hs as <-.
  - injection Hs as <-. cbn [sem_k]. apply set_gpr_other. by apply (Hg g k).
  - by injection Hs as <-.
  - destruct (decode_mvex bs) as [[d [|]]|]; try done. by rewrite (sem_gpr d st st').
Qed.

Lemma scalar_keeps s st st' :
  exec_scalar symbol s st = Some st' -> r ∉ scalar_writes s -> gpr st' r = gpr st r.
Proof.
  destruct s; cbn [exec_scalar scalar_writes]; intros Hs Hr; repeat case_match; simplify_eq;
    rewrite ?list_elem_of_singleton in Hr; cbn [set_flags flags_sub set_half set_word set_gpr gpr];
    by rewrite ?fn_lookup_insert_ne by congruence.
Qed.

(** The bytes of a vector instruction are no mask move. *)
Lemma call_no_mask c i o : call_ok c -> run_call c = Some i -> decode_k (bytes i) <> Some o.
Proof.
  intros Hok Hc. destruct (call_made c i Hok Hc) as (p & Hm & Hp & Hi).
  by destruct (made_bytes p i Hm Hp Hi) as (p0 & p1 & p2 & modrm & d & -> & _).
Qed.

Lemma line_keeps l st st' :
  exec_line symbol l st = Some st' -> (forall c, l = Vec c -> call_ok c) -> r ∉ line_writes l -> gpr st' r = gpr st r.
Proof.
  destruct l as [c|o|s|c n f|n|s]; cbn [exec_line line_writes]; intros Hs Hc Hr; try by simplify_eq.
  - unfold exec_call in Hs. apply bind_Some in Hs as (i & Hi & Hs). apply (exec_keeps _ _ _ Hs).
    intros g k Hk. exfalso. by apply (call_no_mask c i (KFrom g k) (Hc c eq_refl) Hi).
  - unfold exec_insn in Hs. apply bind_Some in Hs as (i & -> & Hs). apply (exec_keeps _ _ _ Hs).
    intros g k Hk ->. rewrite Hk in Hr. set_solver.
  - by apply (scalar_keeps s).
Qed.

(** A line that may stand in a function that keeps [r]. *)
Definition keeping (l : Line) : Prop := (forall c, l = Vec c -> call_ok c) /\ r ∉ line_writes l.

Lemma lines_keep ls st st' :
  Forall keeping ls -> exec_lines symbol ls st = Some st' -> gpr st' r = gpr st r.
Proof.
  intros Hls. revert st. induction Hls as [|l ls [Hc Hr] Hls IH]; intros st; cbn [exec_lines].
  - by intros [= ->].
  - intros (st1 & H1 & Hs)%bind_Some. rewrite (IH st1 Hs). by apply (line_keeps l).
Qed.

Lemma step_keeps prog pc st x :
  Forall keeping prog -> step symbol prog pc st = Some x ->
  gpr (match x with inl (_, st') => st' | inr o => outcome_state o end) r = gpr st r.
Proof.
  intros Hp Hs. unfold step in Hs. apply bind_Some in Hs as (l & Hl & Hs).
  pose proof (Forall_lookup_1 _ _ _ _ Hp Hl) as [Hc Hr].
  destruct l as [c|o|s|c n f|n|s]; cbn [outcome_state] in *.
  - apply bind_Some in Hs as (st' & H1 & [= <-]). by apply (line_keeps (Vec c)).
  - apply bind_Some in Hs as (st' & H1 & [= <-]). by apply (line_keeps (KInsn o)).
  - destruct s;
      try (apply bind_Some in Hs as (st' & H1 & [= <-]); by apply (scalar_keeps _ _ _ H1)).
    + destruct (qword_ok _); [|done]. by injection Hs as <-.
    + by injection Hs as <-.
  - destruct (holds c st); [apply bind_Some in Hs as (pc' & _ & [= <-])|injection Hs as <-]; done.
  - by injection Hs as <-.
  - by injection Hs as <-.
Qed.

(** So does a run, whatever its path and however it ends. *)
Lemma ends_keep prog pc st o :
  Forall keeping prog -> ends symbol prog pc st o -> gpr (outcome_state o) r = gpr st r.
Proof.
  intros Hp [fuel Hf]. revert pc st Hf. induction fuel as [|fuel IH]; intros pc st; [done|].
  cbn [run]. destruct (step symbol prog pc st) as [[[pc' st']|o']|] eqn:E; intros Hf; [| |done].
  - rewrite (IH pc' st' Hf). exact (step_keeps prog pc st _ Hp E).
  - injection Hf as <-. exact (step_keeps prog pc st _ Hp E).
Qed.

(** And a call, through its tail calls. *)
Lemma call_keeps code a st st' :
  (forall b prog, code b = Some prog -> Forall keeping prog) ->
  call symbol code a st st' -> gpr st' r = gpr st r.
Proof.
  intros Hc Hcall. induction Hcall as [a prog st st' Ha He|a prog st b st1 st' Ha He _ IH].
  - exact (ends_keep prog 0 st (Returned st') (Hc a prog Ha) He).
  - rewrite IH. exact (ends_keep prog 0 st (Left b st1) (Hc a prog Ha) He).
Qed.

End Keeps.

(** ** The generated functions *)

Definition keeps_saved (l : Line) : bool :=
  forallb (fun r => bool_decide (r ∉ callee_saved)) (line_writes l).

Lemma files_keep_saved :
  Forall (fun p => match p.2 with Some ls => forallb keeps_saved ls | None => false end = true) files.
Proof.
  assert (forallb (fun p => match p.2 with Some ls => forallb keeps_saved ls | None => false end) files = true)
    as Hf by vm_cast_no_check (eq_refl true).
  rewrite forallb_forall in Hf. apply Forall_forall. intros p Hp. apply Hf. by apply list_elem_of_In.
Qed.

(** A function of a generated file: lines of it. *)
Definition generated (prog : list Line) : Prop :=
  exists what ls, (what, Some ls) ∈ files /\ prog ⊆ ls.

Lemma generated_keeping prog r : generated prog -> r ∈ callee_saved -> Forall (keeping r) prog.
Proof.
  intros (what & ls & Hf & Hp) Hr.
  pose proof files_calls_ok as Hc. rewrite Forall_forall in Hc. specialize (Hc _ Hf). cbn [snd] in Hc.
  pose proof files_keep_saved as Hk. rewrite Forall_forall in Hk. specialize (Hk _ Hf). cbn [snd] in Hk.
  unfold calls_ok in Hc. rewrite forallb_forall in Hc, Hk.
  apply Forall_forall. intros l Hl%Hp%list_elem_of_In. split.
  - intros c ->. by apply (Hc _), bool_decide_eq_true in Hl.
  - specialize (Hk l Hl). unfold keeps_saved in Hk. rewrite forallb_forall in Hk.
    intros Hw%list_elem_of_In%Hk. by apply bool_decide_eq_true in Hw.
Qed.

(** The inline assembly of the header writes rcx only. *)
Definition clobbers_rcx (l : Line) : bool :=
  forallb (fun r => bool_decide (r = Rcx)) (line_writes l).

Lemma header_clobbers : forallb (fun ls => calls_ok ls && forallb clobbers_rcx ls) [save_body; restore_body] = true.
Proof. vm_cast_no_check (eq_refl true). Qed.

Lemma header_keeping body r : body ∈ [save_body; restore_body] -> r <> Rcx -> Forall (keeping r) body.
Proof.
  intros Hb Hr. pose proof header_clobbers as Hc. rewrite forallb_forall in Hc.
  apply list_elem_of_In, Hc, andb_true_iff in Hb as [Hcalls Hk].
  unfold calls_ok in Hcalls. rewrite forallb_forall in Hcalls, Hk.
  apply Forall_forall. intros l Hl%list_elem_of_In. split.
  - intros c ->. by apply (Hcalls _), bool_decide_eq_true in Hl.
  - specialize (Hk l Hl). unfold clobbers_rcx in Hk. rewrite forallb_forall in Hk.
    intros Hw%list_elem_of_In%Hk. by apply bool_decide_eq_true in Hw.
Qed.

(** C12: the calling convention is kept.  In an image of generated functions,
    placed anywhere and run in any address space, every call that returns,
    from an entry point through its tail calls, gives back rbx, rbp, rsp and
    r12 to r15 as they were, whatever the state it was made in and whatever
    path it took; and the inline assembly of the kernel header leaves every
    general register alone but rcx, the one its clobber list names. *)
Theorem calling_convention sp symbol :
  (forall code a st st' r,
     (forall b prog, code b = Some prog -> generated prog) -> @call (reference_vpu_in sp) symbol code a st st' ->
     r ∈ callee_saved -> gpr st' r = gpr st r) /\
  (forall body st st' r,
     body ∈ [save_body; restore_body] -> @exec_lines (reference_vpu_in sp) symbol body st = Some st' ->
     r <> Rcx -> gpr st' r = gpr st r).
Proof.
  split.
  - intros code a st st' r Hg Hc Hr. apply (call_keeps sp symbol r code a); [|exact Hc].
    intros b prog Hb. exact (generated_keeping prog r (Hg b prog Hb) Hr).
  - intros body st st' r Hb He Hr. exact (lines_keep sp symbol r body st st' (header_keeping body r Hb Hr) He).
Qed.

(** A call of [knc_memcpy64] with no blocks, in the state with [n] in every
    register but the count's. *)
Definition plain_state (n : Z) : State :=
  mkState (fun _ _ => 0) (fun r => if bool_decide (r = Rdx) then 0 else n) (fun _ => 0) (fun _ => 0) false false false.

Definition memcpy_lines : list Line := memcpy_body ++ end_function "knc_memcpy64".

Lemma memcpy_generated : generated memcpy_lines.
Proof.
  exists "memcpy"%string, memcpy_kernel. split; [apply (list_elem_of_lookup_2 files 5); reflexivity|].
  unfold memcpy_lines, memcpy_kernel. intros l [Hl|Hl]%elem_of_app; rewrite !elem_of_app; tauto.
Qed.

Lemma memcpy_none_called :
  exists st', @call reference_vpu (fun _ => 0) (fun _ => Some memcpy_lines) 0 (plain_state 4096) st'.
Proof.
  assert (match @run reference_vpu (fun _ => 0) 12 memcpy_lines 0 (plain_state 4096) with
          | Some (Returned _) => true | _ => false end = true) as Hr by vm_cast_no_check (eq_refl true).
  destruct (@run reference_vpu _ 12 memcpy_lines 0 (plain_state 4096)) as [[st'|]|] eqn:E; try discriminate Hr.
  exists st'. apply (@call_returns reference_vpu _ _ 0 memcpy_lines); [reflexivity|by exists 12%nat].
Qed.

Lemma calling_convention_witness :
  exists st', @call reference_vpu (fun _ => 0) (fun _ => Some memcpy_lines) 0 (plain_state 4096) st' /\
    gpr st' Rbx = 4096 /\ gpr st' Rsp = 4096.
Proof.
  destruct memcpy_none_called as [st' Hc]. exists st'. split; [exact Hc|].
  destruct (calling_convention demo_space (fun _ => 0)) as [Hk _].
  assert (forall b prog, (fun _ : Z => Some memcpy_lines) b = Some prog -> generated prog) as Hg
    by (intros b prog [= <-]; exact memcpy_generated).
  split.
  - rewrite (Hk _ 0 (plain_state 4096) st' Rbx Hg Hc); [reflexivity|by apply (bool_decide_unpack _)].
  - rewrite (Hk _ 0 (plain_state 4096) st' Rsp Hg Hc); [reflexivity|by apply (bool_decide_unpack _)].
Defined.
