(* ===== verification/Ordering.v ===== *)
(** The order in which other cores see the stores of the clear functions
    (host/crates/knc-mvex/src/main.rs, [memset_body]).  The stores of
    [knc_memset64] are [vmovnrngoaps], "not globally ordered": they may become
    visible in any order, and after stores the caller makes later.  A locked
    instruction is a fence.  Here a run gives the stores it makes, in program
    order ([trace]); a global order is any permutation of them that keeps what
    the hardware keeps ([allowed]); and the memory another core sees is that of
    the stores up to the one it has seen ([visible]).  "The kernel fences
    before it returns, so callers need no fence of their own" (knc.h) is
    [memset_published]. *)

From stdpp Require Import functions.
From S2P Require Import Prelude Bytes Mvex MvexDis MvexCalls Codegen Layout Fpu Vpu Symbolic Blocks.

Local Open Scope Z_scope.
Local Open Scope phi_scope.

(** ** Stores and their order *)

(** A store, with the words it writes, ordered as an x86 store is or not; or
    a fence. *)
Inductive Event :=
| Store (ordered : bool) (words : Z -> option Z)
| Fence.

(** The event writes the word at [x]. *)
Definition covers (e : Event) (x : Z) : Prop :=
  match e with Store _ w => is_Some (w x) | Fence => False end.

#[export] Instance covers_dec e x : Decision (covers e x).
Proof. destruct e; cbn; apply _. Defined.

(** The memory after an event. *)
Definition apply_event (m : Z -> Z) (e : Event) (x : Z) : Z :=
  match e with Store _ w => default (m x) (w x) | Fence => m x end.

(** An ordered event: an ordinary store, or a fence. *)
Definition ordered (e : Event) : Prop := match e with Store o _ => o = true | Fence => True end.

(** What keeps two events in program order: a fence, the order of ordinary
    stores among themselves, or a word that both write. *)
Definition kept (e1 e2 : Event) : Prop :=
  e1 = Fence \/ e2 = Fence \/ (ordered e1 /\ ordered e2) \/ exists x, covers e1 x /\ covers e2 x.

(** Position [i] comes before position [j] in a global order. *)
Definition earlier (g : list nat) (i j : nat) : Prop :=
  exists a b, g !! a = Some i /\ g !! b = Some j /\ (a < b)%nat.

(** A global order of the events, by their positions in program order. *)
Record allowed (evs : list Event) (g : list nat) : Prop := {
  al_perm : g ≡ₚ seq 0 (length evs);
  al_kept : forall i j e1 e2, (i < j)%nat -> evs !! i = Some e1 -> evs !! j = Some e2 ->
    kept e1 e2 -> earlier g i j
}.

(** The memory of a core that has seen these events, in this order. *)
Definition visible (evs : list Event) (seen : list nat) (m : Z -> Z) : Z -> Z :=
  foldl (fun m i => match evs !! i with Some e => apply_event m e | None => m end) m seen.

(** ** What decides a word *)

Section Visible.
Context (evs : list Event) (x : Z).

Definition writes_x (i : nat) : Prop := match evs !! i with Some e => covers e x | None => False end.

Lemma visible_app l1 l2 m : visible evs (l1 ++ l2) m = visible evs l2 (visible evs l1 m).
Proof. apply foldl_app. Qed.

Lemma visible_none l m : (forall i, i ∈ l -> ~ writes_x i) -> visible evs l m x = m x.
Proof.
  revert m. induction l as [|i l IH]; intros m Hl; [done|]. cbn [visible foldl]. fold (visible evs l).
  unfold visible in IH. rewrite IH by set_solver.
  specialize (Hl i ltac:(set_solver)). unfold writes_x in Hl. destruct (evs !! i) as [[o w|]|]; [|done..].
  cbn in *. destruct (w x); [|done]. exfalso. apply Hl. by eexists.
Qed.

(** The last store of the word. *)
Lemma visible_last l1 i l2 o w v m :
  evs !! i = Some (Store o w) -> w x = Some v -> (forall j, j ∈ l2 -> ~ writes_x j) ->
  visible evs (l1 ++ i :: l2) m x = v.
Proof.
  intros Hi Hw Hl. rewrite visible_app. cbn [visible foldl]. fold (visible evs l1 m).
  change (visible evs l2 (match evs !! i with Some e => apply_event (visible evs l1 m) e | None => visible evs l1 m end) x = v).
  rewrite visible_none by done. rewrite Hi. cbn. by rewrite Hw.
Qed.

End Visible.

Lemma visible_prefix evs later l m x :
  (forall i, i ∈ l -> (i < length evs)%nat) -> visible (evs ++ later) l m x = visible evs l m x.
Proof.
  revert m. induction l as [|i l IH]; intros m Hl; [done|]. cbn [visible foldl].
  rewrite lookup_app_l by (apply Hl; left). apply IH. intros j Hj. apply Hl. by right.
Qed.

(** The last position that satisfies a decidable property. *)
Lemma last_such (P : nat -> Prop) `{!forall i, Decision (P i)} n :
  (forall i, (i < n)%nat -> ~ P i) \/
  exists i, (i < n)%nat /\ P i /\ forall j, (i < j < n)%nat -> ~ P j.
Proof.
  induction n as [|n IH]; [left; lia|]. destruct (decide (P n)) as [Hp|Hp].
  - right. exists n. split_and!; [lia|done|lia].
  - destruct IH as [IH|(i & Hi & Hp' & IH)].
    + left. intros i Hi. destruct (decide (i = n)) as [->|]; [done|]. apply IH. lia.
    + right. exists i. split_and!; [lia|done|]. intros j Hj.
      destruct (decide (j = n)) as [->|]; [done|]. apply IH. lia.
Qed.

Lemma earlier_split g1 p g2 i :
  NoDup (g1 ++ p :: g2) -> earlier (g1 ++ p :: g2) i p -> i ∈ g1.
Proof.
  intros Hnd (a & b & Ha & Hb & Hab).
  assert (b = length g1) as ->.
  { eapply NoDup_lookup; [exact Hnd|exact Hb|]. by rewrite lookup_app_r, Nat.sub_diag by lia. }
  rewrite lookup_app_l in Ha by lia. by eapply list_elem_of_lookup_2.
Qed.

(** A core that has seen an ordered event the caller made after the [evs],
    every one of which comes before it, sees each word as the [evs] left it,
    unless the caller has stored to it since. *)
Lemma published evs later g g1 p g2 m x :
  allowed (evs ++ later) g -> g = g1 ++ p :: g2 -> (length evs <= p)%nat ->
  (forall i, (i < length evs)%nat -> earlier g i p) ->
  (forall e, e ∈ later -> ~ covers e x) ->
  visible (evs ++ later) (g1 ++ [p]) m x = visible evs (seq 0 (length evs)) m x.
Proof.
  intros [Hperm Hkept] -> Hp Hall Hlater.
  assert (NoDup (g1 ++ p :: g2)) as Hnd by (rewrite Hperm; apply NoDup_seq).
  assert (Hlt : forall i, writes_x (evs ++ later) x i -> (i < length evs)%nat).
  { intros i Hi. unfold writes_x in Hi. destruct ((evs ++ later) !! i) as [e|] eqn:E; [|done].
    destruct (decide (i < length evs)%nat); [done|]. rewrite lookup_app_r in E by lia.
    by apply list_elem_of_lookup_2, Hlater in E. }
  assert (Hw : forall i, Decision (writes_x (evs ++ later) x i))
    by (intros i; unfold writes_x; destruct (_ !! _); apply _).
  rewrite <- (visible_prefix evs later) by (intros i Hi%elem_of_seq; lia).
  destruct (last_such (writes_x (evs ++ later) x) (length evs)) as [Hn|(i & Hi & Hwi & Hlast)].
  - transitivity (m x); [|symmetry]; apply visible_none; intros i Hi Hc; by apply (Hn i (Hlt i Hc)).
  - pose proof Hwi as He. unfold writes_x in He.
    destruct ((evs ++ later) !! i) as [[o w|]|] eqn:Ei; [|done..]. destruct He as [v Hv].
    assert (seq 0 (length evs) = seq 0 i ++ i :: seq (S i) (length evs - S i)) as ->.
    { replace (length evs) with (i + S (length evs - S i))%nat at 1 by lia. by rewrite seq_app. }
    rewrite (visible_last _ x (seq 0 i) i _ o w v m Ei Hv).
    2: { intros j Hj%elem_of_seq. apply Hlast. lia. }
    pose proof (earlier_split g1 p g2 i Hnd (Hall i Hi)) as (h1 & h2 & ->)%list_elem_of_split.
    rewrite <- app_assoc. cbn [app].
    apply (visible_last _ x h1 i (h2 ++ [p]) o w v m Ei Hv).
    intros j Hj Hwj. pose proof (Hlt j Hwj) as Hjl.
    assert (j <> p) by lia. assert (j ∈ h2) as Hj2 by set_solver. clear Hj.
    assert (j <> i) as Hne.
    { intros ->. rewrite <- app_assoc in Hnd. cbn [app] in Hnd. apply NoDup_app in Hnd as (_ & _ & Hnd).
      apply NoDup_cons in Hnd as [Hni _]. apply Hni. set_solver. }
    destruct (decide (i < j)%nat) as [Hij|]; [by apply (Hlast j)|].
    pose proof Hwj as Hcj. unfold writes_x in Hcj. destruct ((evs ++ later) !! j) as [ej|] eqn:Ej; [|done].
    assert (earlier ((h1 ++ i :: h2) ++ p :: g2) j i) as Hearly.
    { apply (Hkept j i ej (Store o w)); [lia|done..|]. right; right; right. exists x. split; [done|by exists v]. }
    rewrite <- app_assoc in Hearly, Hnd. cbn [app] in Hearly, Hnd.
    apply (earlier_split h1 i _ j Hnd) in Hearly. apply NoDup_app in Hnd as (_ & Hd & _).
    apply (Hd j Hearly). set_solver.
Qed.

(** ** The stores of a run *)

Section Trace.
Context (sp : Space) (symbol : string -> Z).
#[local] Instance machine : Vpu := reference_vpu_in sp.

Definition vector_words (a : Z) (v : Z -> Z) (x : Z) : option Z :=
  if in_vector a x then Some (v ((x - a) / 4)) else None.

(** What a vector instruction stores: only the unordered form is not ordered. *)
Definition vec_events (bs : list Z) (st : State) : list Event :=
  match decode_k bs, decode_mvex bs with
  | None, Some (d, []) =>
      match r_shape (d_row d), f_rm (d_fields d) with
      | SStore, RmMem x =>
          [Store (negb (bool_decide (r_mnem (d_row d) = Vmovnrngoaps)))
             (vector_words (address st x) (zmm st (f_reg (d_fields d))))]
      | _, _ => []
      end
  | _, _ => []
  end.

Definition word_at (a v x : Z) : option Z := if x =? a then Some v else None.

(** What a line stores; a locked instruction is a fence, and writes back the
    value it read. *)
Definition line_events (l : Line) (st : State) : list Event :=
  match l with
  | Vec c => match run_call c with Some i => vec_events (bytes i) st | None => [] end
  | KInsn (Some i) => vec_events (bytes i) st
  | Scal LockAdd => [Fence]
  | Scal (MovlTo r b) => [Store true (word_at (gpr st b) (wrap 32 (gpr st r)))]
  | Scal (Movw r d b) =>
      let a := wrap 64 (gpr st b + d) in
      [Store true (word_at (a - a mod 4) (ram (set_half a (gpr st r) st) (a - a mod 4)))]
  | _ => []
  end.

(** [run], with the stores it makes. *)
Fixpoint trace (fuel : nat) (prog : list Line) (pc : nat) (st : State) : option (list Event * Outcome) :=
  match fuel with
  | O => None
  | S fuel =>
      let es := match prog !! pc with Some l => line_events l st | None => [] end in
      match step symbol prog pc st with
      | Some (inl (pc, st)) => '(es', o) ← trace fuel prog pc st; Some (es ++ es', o)
      | Some (inr o) => Some (es, o)
      | None => None
      end
  end.

Definition traced (prog : list Line) (st : State) (es : list Event) (o : Outcome) : Prop :=
  exists fuel, trace fuel prog 0 st = Some (es, o).

Lemma ends_traced prog st o : ends symbol prog 0 st o -> exists es, traced prog st es o.
Proof.
  intros [fuel Hr].
  enough (exists es, trace fuel prog 0 st = Some (es, o)) as [es He] by (by exists es, fuel).
  revert Hr. generalize 0%nat as pc. revert st. induction fuel as [|fuel IH]; intros st pc; [done|].
  cbn [run trace]. destruct (step symbol prog pc st) as [[[pc' st']|o']|]; intros Hr; [| |done].
  - destruct (IH st' pc' Hr) as [es ->]. by eexists.
  - injection Hr as ->. by eexists.
Qed.

(** *** The stores are all that changes memory *)

Lemma sem_ram d st st' :
  sem d st = Some st' ->
  ram st' = match r_shape (d_row d), f_rm (d_fields d) with
            | SStore, RmMem x => ram (set_vector (address st x) (zmm st (f_reg (d_fields d))) st)
            | _, _ => ram st
            end.
Proof.
  unfold sem. destruct (_ =? 0); [|done].
  destruct (r_shape (d_row d)), (f_rm (d_fields d)); try done; intros Hs;
    repeat (apply bind_Some in Hs as (? & _ & Hs)); repeat case_match; simplify_eq; try done;
    repeat (match goal with H : mbind _ _ = Some _ |- _ => apply bind_Some in H as (? & _ & H) end);
    repeat case_match; by simplify_eq.
Qed.

Lemma exec_memory bs st st' x :
  vexec bs st = Some st' -> ram st' x = foldl apply_event (ram st) (vec_events bs st) x.
Proof.
  cbn [vexec machine reference_vpu_in]. unfold reference_exec, vec_events. intros Hs.
  destruct (decode_k bs) as [[| |]|]; [by injection Hs as <-..|].
  destruct (decode_mvex bs) as [[d [|]]|]; try done. rewrite (sem_ram d st st' Hs).
  destruct (r_shape (d_row d)), (f_rm (d_fields d)); try done.
  cbn. unfold vector_words. by destruct (in_vector _ x).
Qed.

Lemma scalar_memory s st st' x :
  exec_scalar symbol s st = Some st' -> ram st' x = foldl apply_event (ram st) (line_events (Scal s) st) x.
Proof.
  destruct s; cbn [exec_scalar line_events]; intros Hs; repeat case_match; simplify_eq; try done;
    cbn [foldl apply_event]; unfold word_at.
  - cbn [set_word ram]. destruct (Z.eqb_spec x (gpr st base)) as [->|Hx]; cbn.
    + by rewrite fn_lookup_insert.
    + by rewrite fn_lookup_insert_ne.
  - set (a := wrap 64 (gpr st base + disp)). destruct (Z.eqb_spec x (a - a mod 4)) as [->|Hx]; [done|].
    cbn. unfold set_half. cbn [set_word ram]. by rewrite fn_lookup_insert_ne.
Qed.

Lemma step_memory prog pc l st x y :
  prog !! pc = Some l -> step symbol prog pc st = Some y ->
  ram (match y with inl (_, st') => st' | inr o => outcome_state o end) x =
  foldl apply_event (ram st) (line_events l st) x.
Proof.
  intros Hl Hs. unfold step in Hs. rewrite Hl in Hs. cbn [mbind option_bind] in Hs.
  destruct l as [c|o|s|c n f|n|s]; cbn [outcome_state] in *.
  - apply bind_Some in Hs as (st' & (i & Hi & Hv)%bind_Some & [= <-]). cbn [line_events]. rewrite Hi.
    by apply exec_memory.
  - apply bind_Some in Hs as (st' & (i & -> & Hv)%bind_Some & [= <-]). by apply exec_memory.
  - destruct s; try (apply bind_Some in Hs as (st' & Hv & [= <-]); by apply scalar_memory).
    + destruct (qword_ok _); [|done]. by injection Hs as <-.
    + by injection Hs as <-.
  - destruct (holds c st); [apply bind_Some in Hs as (pc' & _ & [= <-])|injection Hs as <-]; done.
  - by injection Hs as <-.
  - by injection Hs as <-.
Qed.

Lemma step_at prog pc st y : step symbol prog pc st = Some y -> exists l, prog !! pc = Some l.
Proof. unfold step. intros (l & Hl & _)%bind_Some. by exists l. Qed.

Lemma apply_ext es m1 m2 x : (forall y, m1 y = m2 y) -> foldl apply_event m1 es x = foldl apply_event m2 es x.
Proof.
  revert m1 m2. induction es as [|e es IH]; intros m1 m2 Hm; [apply Hm|]. cbn [foldl]. apply IH.
  intros y. destruct e as [o w|]; cbn; by rewrite Hm.
Qed.

Lemma trace_memory fuel prog pc st es o x :
  trace fuel prog pc st = Some (es, o) -> ram (outcome_state o) x = foldl apply_event (ram st) es x.
Proof.
  revert pc st es. induction fuel as [|fuel IH]; intros pc st es; [done|]. cbn [trace].
  destruct (step symbol prog pc st) as [[[pc' st']|o']|] eqn:E; intros Ht; [| |done];
    destruct (step_at _ _ _ _ E) as [l Hl]; rewrite Hl in Ht.
  - apply bind_Some in Ht as ([es' o''] & Ht & [= <- ->]). rewrite foldl_app, (IH _ _ _ Ht).
    apply apply_ext. intros y. exact (step_memory _ _ _ _ _ _ Hl E).
  - injection Ht as <- <-. exact (step_memory _ _ _ _ _ _ Hl E).
Qed.

End Trace.

(** The program order is what the memory of the core itself follows. *)
Lemma visible_program es m x : visible es (seq 0 (length es)) m x = foldl apply_event m es x.
Proof.
  enough (forall pre m, visible (pre ++ es) (seq (length pre) (length es)) m x = foldl apply_event m es x) as H
    by apply (H []).
  clear m. induction es as [|e es IH]; intros pre m; [done|]. cbn [length seq visible foldl].
  rewrite lookup_app_r, Nat.sub_diag by lia. cbn [lookup list_lookup].
  specialize (IH (pre ++ [e]) (apply_event m e)). rewrite <- app_assoc, length_app in IH. cbn [length app] in IH.
  rewrite Nat.add_1_r in IH. exact IH.
Qed.

(** ** The clear functions *)

Section Memset.
Context (sp : Space) (symbol : string -> Z) (name sig : string).
#[local] Instance vpu : Vpu := reference_vpu_in sp.

Lemma target_label prog pc l n f pc' :
  prog !! pc = Some l -> target prog pc n f = Some pc' -> exists m, prog !! pc' = Some (Label m).
Proof.
  unfold target. intros Hpc%lookup_lt_Some Ht. assert (exists l', prog !! pc' = Some l' /\ is_label n l' = true) as (l' & Hl & Hn).
  { destruct f; apply bind_Some in Ht as ([i l'] & Hf & [= <-]);
      apply list_find_Some in Hf as (Hi & Hn & _); exists l'; (split; [|done]).
    - by rewrite lookup_drop in Hi.
    - pose proof (lookup_lt_Some _ _ _ Hi) as Hlt. rewrite length_reverse, length_take in Hlt.
      rewrite reverse_lookup in Hi by (rewrite length_take; lia). rewrite length_take in Hi.
      apply lookup_take_Some in Hi as [Hi _]. rewrite <- Hi. f_equal. lia. }
  destruct l'; try done. by eexists.
Qed.

(** A program that returns right behind a fence, and nowhere else. *)
Record fenced (prog : list Line) (r : nat) : Prop := {
  fenced_fence : prog !! r = Some (Scal LockAdd);
  fenced_ret : prog !! S r = Some (Scal Ret);
  fenced_only i : prog !! i = Some (Scal Ret) -> i = S r;
  fenced_table i d b x : prog !! i <> Some (Scal (JmpTable d b x))
}.

(** However it gets there, the last thing it does is the fence. *)
Lemma fenced_trace prog r fuel pc st es o :
  fenced prog r -> pc <> S r -> trace sp symbol fuel prog pc st = Some (es, o) ->
  exists es', es = es' ++ [Fence].
Proof.
  intros [Hf Hr Ho Ht]. revert pc st es. induction fuel as [|fuel IH]; intros pc st es Hpc; [done|].
  cbn [trace]. destruct (step symbol prog pc st) as [[[pc' st']|o']|] eqn:E; intros Hs; [| |done].
  - destruct (step_at _ _ _ _ _ _ E) as [l Hl]. rewrite Hl in Hs.
    apply bind_Some in Hs as ([es' o''] & Hs & [= <- ->]).
    destruct (decide (pc' = S r)) as [->|Hne].
    + assert (l = Scal LockAdd) as ->.
      { unfold step in E. rewrite Hl in E. cbn [mbind option_bind] in E.
        destruct l as [c|o1|s|c n f|n|s]; try (destruct s);
          try (apply bind_Some in E as (? & _ & [= E _])); try (injection E as E _);
          try (destruct (holds c st); [apply bind_Some in E as (? & Ht' & [= -> _]);
             apply (target_label _ _ _ _ _ _ Hl) in Ht' as [m Hm]; congruence|injection E as E _]);
          try (assert (pc = r) as -> by lia); try congruence.
        - destruct (qword_ok _); discriminate E. }
      destruct fuel as [|fuel]; [done|]. cbn [trace] in Hs. unfold step in Hs. rewrite Hr in Hs.
      cbn in Hs. injection Hs as <- _. by exists [].
    + destruct (IH pc' st' es' Hne Hs) as [es'' ->]. exists (line_events l st ++ es''). by rewrite app_assoc.
  - exfalso. unfold step in E. destruct (prog !! pc) as [l|] eqn:Hl; [|done]. cbn [mbind option_bind] in E.
    destruct l as [c|o1|s|c n f|n|s]; try (apply bind_Some in E as (? & _ & [=])); try discriminate E.
    + destruct s; try (apply bind_Some in E as (? & _ & [=])); [by apply (Ht pc) in Hl|].
      by apply Ho in Hl.
    + destruct (holds c st); [by apply bind_Some in E as (? & _ & [=])|discriminate E].
Qed.

(** The instruction is not the unordered store. *)
Definition orders_bytes (bs : list Z) : bool :=
  match decode_mvex bs with
  | Some (d, []) => negb (bool_decide (r_mnem (d_row d) = Vmovnrngoaps))
  | _ => true
  end.

Definition orders (l : Line) : bool :=
  match l with
  | Vec c => match run_call c with Some i => orders_bytes (bytes i) | None => true end
  | KInsn (Some i) => orders_bytes (bytes i)
  | _ => true
  end.

Lemma bytes_ordered bs st : orders_bytes bs = true -> Forall ordered (vec_events bs st).
Proof.
  unfold orders_bytes, vec_events. intros Hb. destruct (decode_k bs); [done|].
  destruct (decode_mvex bs) as [[d [|]]|]; [|done..].
  destruct (r_shape (d_row d)), (f_rm (d_fields d)); try done. by apply Forall_singleton.
Qed.

Lemma line_ordered l st : orders l = true -> Forall ordered (line_events l st).
Proof.
  destruct l as [c|[i|]|s|c n f|n|s]; cbn [orders line_events]; intros Hl; try done.
  - destruct (run_call c); [by apply bytes_ordered|done].
  - by apply bytes_ordered.
  - destruct s; repeat constructor.
Qed.

Lemma trace_ordered prog fuel pc st es o :
  forallb orders prog = true -> trace sp symbol fuel prog pc st = Some (es, o) -> Forall ordered es.
Proof.
  intros Hp. rewrite forallb_forall in Hp. revert pc st es.
  induction fuel as [|fuel IH]; intros pc st es; [done|]. cbn [trace].
  destruct (step symbol prog pc st) as [[[pc' st']|o']|] eqn:E; intros Ht; [| |done];
    destruct (step_at _ _ _ _ _ _ E) as [l Hl]; rewrite Hl in Ht;
    pose proof (line_ordered l st (Hp l (proj1 (list_elem_of_In _ _) (list_elem_of_lookup_2 _ _ _ Hl)))) as Hord.
  - apply bind_Some in Ht as ([es' o''] & Ht & [= <- ->]). apply Forall_app. split; [done|by eapply IH].
  - by injection Ht as <- _.
Qed.

Lemma memset_fenced : fenced (memset_prog true name sig) 23.
Proof.
  split; [reflexivity|reflexivity| |].
  - intros i. do 26 (destruct i as [|i]; [intros Hi; (discriminate Hi || reflexivity)|]). intros Hi. discriminate Hi.
  - intros i d b x. do 26 (destruct i as [|i]; [intros Hi; discriminate Hi|]). intros Hi. discriminate Hi.
Qed.

Lemma memset_orders : forallb orders (memset_prog false name sig) = true.
Proof.
  unfold memset_prog, called. rewrite !forallb_app, !andb_true_iff.
  split_and!; [reflexivity|vm_cast_no_check (eq_refl true)|reflexivity].
Qed.

(** Every store of a clear comes before a later ordered event. *)
Lemma memset_before ngo st es o later g p e :
  traced sp symbol (memset_prog ngo name sig) st es o -> allowed (es ++ later) g ->
  (es ++ later) !! p = Some e -> (length es <= p)%nat -> ordered e ->
  forall i, (i < length es)%nat -> earlier g i p.
Proof.
  intros [fuel Ht] [Hperm Hkept] He Hp Ho i Hi.
  destruct (lookup_lt_is_Some_2 es i Hi) as [ei Hei].
  pose proof (lookup_app_l_Some es later i ei Hei) as Hei'.
  destruct ngo.
  - destruct (fenced_trace _ _ _ 0 st es o memset_fenced ltac:(lia) Ht) as [es' ->].
    rewrite length_app in *. cbn [length] in *.
    assert (((es' ++ [Fence]) ++ later) !! length es' = Some Fence) as Hf
      by (by rewrite <- app_assoc, lookup_app_r, Nat.sub_diag by lia).
    assert (earlier g (length es') p) as (a & b & Ha & Hb & Hab)
      by (apply (Hkept _ _ Fence e); [lia|done..|by left]).
    destruct (decide (i = length es')) as [->|Hne]; [by exists a, b|].
    assert (earlier g i (length es')) as (a' & b' & Ha' & Hb' & Hab')
      by (apply (Hkept _ _ ei Fence); [lia|done..|by right; left]).
    assert (NoDup g) as Hnd by (rewrite Hperm; apply NoDup_seq).
    assert (b' = a) as -> by (by eapply NoDup_lookup). exists a', b. split_and!; [done..|lia].
  - apply (Hkept i p ei e); [lia|done..|]. right; right; left. split; [|done].
    pose proof (trace_ordered _ _ _ _ _ _ memset_orders Ht) as Hall. by eapply Forall_lookup_1.
Qed.

End Memset.

(** C29: callers of the clears need no fence of their own.  Called on aligned,
    mapped blocks, [knc_memset64] and [knc_memset64_ord] return; and in every
    global order of their stores and the caller's later ones that the
    hardware may choose (the stores of [knc_memset64] are free but for its
    fence), a core that has seen any later ordinary store or fence of the
    caller sees every word of the blocks zero, and every other word as it was
    before the call, unless the caller has stored to it since. *)
Theorem memset_published sp symbol ngo name sig st :
  @blocks_at sp (gpr st Rdi) (gpr st Rsi) -> (ngo = true -> @stack_ok sp st) ->
  exists es st', traced sp symbol (memset_prog ngo name sig) st es (Returned st') /\
    forall later g before p after e,
      allowed (es ++ later) g -> g = before ++ p :: after ->
      (es ++ later) !! p = Some e -> (length es <= p)%nat -> ordered e ->
      forall x, (forall e', e' ∈ later -> ~ covers e' x) ->
        let seen := visible (es ++ later) (before ++ [p]) (ram st) x in
        (gpr st Rdi <= x < gpr st Rdi + 64 * gpr st Rsi -> x mod 4 = 0 -> seen = 0) /\
        (~ (gpr st Rdi <= x < gpr st Rdi + 64 * gpr st Rsi) -> seen = ram st x).
Proof.
  intros Hb Hst. destruct (memset_returns (reference_vpu_in sp) symbol ngo name sig st Hb Hst) as (st' & He & _ & Hz & Hfr).
  destruct (ends_traced sp symbol _ _ _ He) as [es Hes]. exists es, st'. split; [exact Hes|].
  intros later g before p after e Ha Hg Hep Hp Ho x Hx seen.
  pose proof (memset_before sp symbol name sig ngo st es _ later g p e Hes Ha Hep Hp Ho) as Hall.
  assert (seen = ram st' x) as ->.
  { subst seen. rewrite (published es later g before p after (ram st) x Ha Hg Hp Hall Hx), visible_program.
    destruct Hes as [fuel Ht]. symmetry. exact (trace_memory sp symbol _ _ _ _ _ _ x Ht). }
  split; [|apply Hfr]. intros Hx1 Hx2. replace x with (gpr st Rdi + (x - gpr st Rdi)) by lia.
  apply Hz; [lia|]. destruct Hb as (HD & _). rewrite Zminus_mod, Hx2.
  assert (gpr st Rdi mod 4 = 0) as ->; [|done].
  clear -HD. Z.to_euclidean_division_equations. lia.
Qed.

(** The program order is a global order. *)
Lemma allowed_program evs : allowed evs (seq 0 (length evs)).
Proof.
  split; [done|]. intros i j e1 e2 Hij Hi%lookup_lt_Some Hj%lookup_lt_Some _.
  exists i, j. split_and!; [by apply lookup_seq_lt..|done].
Qed.

(** Another core polls the flag that the caller sets after the clear. *)
Lemma memset_published_witness :
  let st := set_gpr Rsi 9 (demo_blocks 0) in
  exists es st', traced demo_space (fun _ => 0) (memset_prog true "knc_memset64" "") st es (Returned st') /\
    let evs := es ++ [Store true (word_at 4096 1)] in
    visible evs (seq 0 (length es) ++ [length es]) (ram st) (65536 + 572) = 0.
Proof.
  intros st.
  destruct (memset_published demo_space (fun _ => 0) true "knc_memset64" "" st) as (es & st' & Ht & Hp).
  - concrete.
  - intros _. concrete.
  - exists es, st'. split; [exact Ht|]. cbn zeta.
    refine (proj1 (Hp [Store true (word_at 4096 1)] _ _ _ [] (Store true (word_at 4096 1))
      (allowed_program _) _ _ _ _ (65536 + 572) _) _ _).
    + by rewrite length_app, seq_app.
    + by rewrite lookup_app_r, Nat.sub_diag.
    + done.
    + done.
    + intros e' ->%list_elem_of_singleton [v Hv]. discriminate Hv.
    + concrete.
    + concrete.
Defined.

(** The fence is needed: a bare unordered store may become visible after the
    flag, and a core that has seen the flag then reads the old word. *)
Example fence_needed :
  let evs := [Store false (word_at 64 0); Store true (word_at 4096 1)] in
  allowed evs ([] ++ 1%nat :: [0%nat]) /\ visible evs [1%nat] (fun _ => 7) 64 = 7 /\
  visible evs [1%nat] (fun _ => 7) 4096 = 1.
Proof.
  split_and!; [|done..]. split; [apply Permutation_swap|].
  intros i j e1 e2 Hij Hi Hj Hk. exfalso.
  assert (i = 0 /\ j = 1)%nat as [-> ->] by (apply lookup_lt_Some in Hj; cbn in Hj; lia).
  injection Hi as <-. injection Hj as <-.
  destruct Hk as [[=]|[[=]|[[[=] _]|(x & [v Hv] & [v' Hv'])]]].
  unfold word_at in *. destruct (Z.eqb_spec x 64), (Z.eqb_spec x 4096); congruence.
Qed.
