(* ===== verification/LibkncAudit.v ===== *)
(** The generator under the audit (card/lib/knc/build.sh runs
    phi-isa-audit on the libknc.a it assembles from the generator's codec,
    fastlanes and memcpy files; "The audit must come back clean", knc.md).
    The assembler and the x86 decoder are third-party programs.  The bytes of
    a scalar instruction are whatever the assembler made of it, as long as
    the decoder reads them as that instruction of the base architecture; the
    bytes of a vector or mask instruction are the generator's own.  The audit
    then counts every instruction of the files, the vector instructions
    apart, and reports nothing. *)

From S2P Require Import Prelude Bytes Mvex MvexDis MvexCalls IsaAudit AuditProofs Reads Codegen CodegenFls CodegenProbe Files.

Local Open Scope Z_scope.
Local Open Scope phi_scope.

(** ** The code of a file *)

(** The name iced-x86 has for a scalar instruction. *)
Definition scalar_mnemonic (s : Scalar) : string :=
  match s with
  | Movq _ _ | Movl _ _ | MovlImm _ _ | MovlTo _ _ | Movw _ _ _ => "Mov"
  | Cmpq _ _ | Cmpl _ _ | CmplReg _ _ => "Cmp"
  | Testq _ => "Test"
  | Addq _ _ | LockAdd => "Add"
  | Subq _ _ => "Sub"
  | Decq _ | Decl _ => "Dec"
  | Leaq _ _ => "Lea"
  | JmpTable _ _ _ => "Jmp"
  | Movzwl _ _ _ => "Movzx"
  | Xorl _ => "Xor"
  | Incl _ => "Inc"
  | Ret => "Ret"
  end.

Definition cond_mnemonic (c : Cond) : string :=
  match c with Jb => "Jb" | Jae => "Jae" | Jz => "Je" | Jnz => "Jne" | Ja => "Ja" | Jl => "Jl" end.

(** The name of a mask instruction, by its opcode after the VEX prefix. *)
Definition mask_mnemonic (bs : list Z) : option string :=
  match bs with
  | [0xc5; 0xf8; op; _] =>
      if (op =? 0x90) || (op =? 0x92) || (op =? 0x93) then Some "Kmovw"%string
      else if op =? 0x98 then Some "Kortestw"%string
      else None
  | _ => None
  end.

(** The features of the base architecture. *)
Definition base_features : list string := ["INTEL8086"; "INTEL386"; "X64"]%string.

Definition is_insn (l : Line) : bool :=
  match l with Vec _ | KInsn _ | Scal _ | Jump _ _ _ => true | Label _ | Text _ => false end.
Definition is_vector (l : Line) : bool := match l with Vec _ => true | _ => false end.

(** The lines that go to the text section: those before the first directive
    that selects another one. *)
Fixpoint text_lines (ls : list Line) : list Line :=
  match ls with
  | [] => []
  | l :: ls =>
      match l with
      | Text s => if str_contains s ".section" then [] else l :: text_lines ls
      | _ => l :: text_lines ls
      end
  end.

(** What a line becomes in the text section: the generator's bytes for the
    vector and mask instructions, some encoding of a scalar instruction, and
    nothing for labels and directives. *)
Inductive assembled : Line -> list Part -> Prop :=
| assembled_vec c i : run_call c = Some i -> assembled (Vec c) [PVec (bytes i)]
| assembled_mask i m :
    mask_mnemonic (bytes i) = Some m ->
    assembled (KInsn (Some i)) [PKnown (mkKnown (bytes i) m ["AVX512F"%string])]
| assembled_scalar s k :
    k_mnemonic k = scalar_mnemonic s -> k_features k ⊆ base_features ->
    assembled (Scal s) [PKnown k]
| assembled_jump c n f k :
    k_mnemonic k = cond_mnemonic c -> k_features k ⊆ base_features ->
    assembled (Jump c n f) [PKnown k]
| assembled_label n : assembled (Label n) []
| assembled_text s : assembled (Text s) [].

(** The instructions the decoder has to read. *)
Definition known_of (p : Part) : option Known := match p with PVec _ => None | PKnown k => Some k end.

(** Some bytes are the text section of a file of the generator, with this
    many instructions and vector instructions. *)
Definition code_of (I : Iced) (ls : list Line) (code : list Z) : Prop :=
  exists pss, Forall2 assembled (text_lines ls) pss /\
    code = concat (part_bytes <$> concat pss) /\
    Forall (reads I) (omap known_of (concat pss)).

Definition insn_count (ls : list Line) : Z := len (List.filter is_insn ls).
Definition vector_count (ls : list Line) : Z := len (List.filter is_vector ls).

(** ** The scan of a file's code *)

Lemma calls_ok_text ls : calls_ok ls = true -> calls_ok (text_lines ls) = true.
Proof.
  unfold calls_ok. induction ls as [|l ls IH]; [done|]. cbn [forallb text_lines]. intros [Hl Hls]%andb_true_iff.
  destruct l; try case_match; cbn [forallb]; try done; rewrite IH by done; by rewrite ?Hl.
Qed.

Lemma base_clean fs : fs ⊆ base_features -> worst_feature fs = None.
Proof.
  unfold worst_feature. induction fs as [|f fs IH] using rev_ind; [done|]. intros Hfs.
  rewrite foldl_app, IH by set_solver. cbn.
  assert (f ∈ base_features) as Hf by set_solver. unfold base_features in Hf.
  rewrite !elem_of_cons, elem_of_nil in Hf. by destruct Hf as [->|[->|[->|[]]]].
Qed.

Lemma scalar_clean s fs : fs ⊆ base_features -> verdict (scalar_mnemonic s) fs = None.
Proof. intros Hfs. unfold verdict. rewrite base_clean by done. by destruct s. Qed.

Lemma cond_clean c fs : fs ⊆ base_features -> verdict (cond_mnemonic c) fs = None.
Proof. intros Hfs. unfold verdict. rewrite base_clean by done. by destruct c. Qed.

(** The mask instructions are exceptions by name, not by feature. *)
Lemma mask_clean bs m fs : mask_mnemonic bs = Some m -> verdict m fs = None.
Proof. unfold mask_mnemonic. repeat case_match; by intros [= <-]. Qed.

Section Scan.
Context (I : Iced).

(** The parts of a line are read as themselves and are not reported. *)
Lemma assembled_ok l ps :
  assembled l ps -> (forall c, l = Vec c -> call_ok c) -> Forall (reads I) (omap known_of ps) ->
  Forall (part_ok I) ps /\
  Forall (fun p => match p with PVec _ => True | PKnown k => verdict (k_mnemonic k) (k_features k) = None end) ps /\
  len ps = (if is_insn l then 1 else 0) /\ len (List.filter is_pvec ps) = (if is_vector l then 1 else 0).
Proof.
  intros Ha Hc Hr. destruct Ha; cbn [omap list_omap known_of] in Hr; rewrite ?Forall_singleton in *;
    try (split_and!; done).
  - split_and!; try done. cbn [part_ok].
    rewrite <- (app_nil_r (bytes i)) at 1. by apply (encoder_length_aux c); [apply Hc|].
  - split_and!; try done. by apply (mask_clean (bytes i)).
  - split_and!; try done. rewrite H. by apply scalar_clean.
  - split_and!; try done. rewrite H. by apply cond_clean.
Qed.

Lemma code_parts ls pss :
  Forall2 assembled ls pss -> calls_ok ls = true -> Forall (reads I) (omap known_of (concat pss)) ->
  Forall (part_ok I) (concat pss) /\
  Forall (fun p => match p with PVec _ => True | PKnown k => verdict (k_mnemonic k) (k_features k) = None end)
    (concat pss) /\
  len (concat pss) = insn_count ls /\ len (List.filter is_pvec (concat pss)) = vector_count ls.
Proof.
  unfold insn_count, vector_count, calls_ok.
  induction 1 as [|l ps ls pss Ha Hls IH]; [by repeat constructor|]. cbn [forallb concat].
  rewrite omap_app, Forall_app. intros [Hl Hc]%andb_true_iff [Hr Hrs].
  destruct (IH Hc Hrs) as (H1 & H2 & H3 & H4).
  destruct (assembled_ok l ps Ha) as (G1 & G2 & G3 & G4); [|done|].
  { intros c ->. by apply bool_decide_eq_true in Hl. }
  rewrite !Forall_app, List.filter_app, !len_app, H3, H4, G3, G4. cbn [List.filter].
  split_and!; try done; [destruct (is_insn l)|destruct (is_vector l)]; rewrite ?len_cons; lia.
Qed.

(** The code of a file is scanned exactly and without a hit. *)
Lemma code_scan ls code base section symbols out :
  code_of I ls code -> calls_ok ls = true ->
  scan_bytes_counting I code base section symbols out =
  (insn_count (text_lines ls), vector_count (text_lines ls), out).
Proof.
  intros (pss & Ha & -> & Hr) Hc%calls_ok_text.
  destruct (code_parts _ _ Ha Hc Hr) as (Hok & Hclean & <- & <-).
  destruct (scan_parts I _ base section symbols out Hok) as (hs & -> & Hb).
  rewrite part_hits_clean in Hb by done. destruct hs; [|done]. by rewrite app_nil_r.
Qed.

(** ** An archive of objects *)

(** An object made of the file: its one section of code is the file's. *)
Definition object_of (ls : list Line) (o : Obj) : Prop :=
  o_x86_64 o = true /\
  exists before text after code,
    o_sections o = before ++ text :: after /\
    Forall (fun s => s_text s = false) (before ++ after) /\
    s_text text = true /\ s_name text = Some ".text"%string /\
    s_data text = Some code /\ code_of I ls code.

Lemma no_text_sections prefix symbols report ss :
  Forall (fun s => s_text s = false) ss -> foldl (audit_section I prefix symbols) report ss = report.
Proof.
  intros Hs. revert report. induction Hs as [|s ss Hs Hss IH]; intros report; [done|]. cbn [foldl].
  unfold audit_section at 2. rewrite Hs. cbn [negb]. apply IH.
Qed.

Lemma object_audit parse bytes o ls prefix :
  parse bytes = Ok o -> object_of ls o -> calls_ok ls = true ->
  exists r, audit_one I parse bytes prefix = Ok r /\ hits r = [] /\
    instructions r = insn_count (text_lines ls) /\ vector r = vector_count (text_lines ls).
Proof.
  intros Hp (Hx & before & text & after & code & Hs & Ht%Forall_app & Htt & Hn & Hd & Hcode) Hc.
  destruct Ht as [Hb Ha]. unfold audit_one. rewrite Hp, Hx. cbn [negb]. cbn zeta.
  rewrite Hs, foldl_app. cbn [foldl]. rewrite (no_text_sections _ _ _ before Hb), (no_text_sections _ _ _ after Ha).
  unfold audit_section. rewrite Htt, Hn, Hd. cbn [negb]. rewrite bool_decide_false by done.
  destruct code as [|b code].
  - destruct Hcode as (pss & Hpss & Hnil & Hr).
    pose proof (code_scan ls [] 0 "" [] [] (ex_intro _ pss (conj Hpss (conj Hnil Hr))) Hc) as [= <- <-].
    eexists. by split_and!.
  - rewrite (code_scan ls) by done. cbn [hits instructions vector empty_report].
    eexists. split_and!; [reflexivity|done|cbn; lia|cbn; lia].
Qed.

(** A member of an archive that is an object made of the file. *)
Definition member_of (parse : list Z -> result string Obj) (m : Member) (ls : list Line) : Prop :=
  exists name bytes o, m = Some (name, Ok bytes) /\ starts_with_bytes bytes elf_magic = true /\
    parse bytes = Ok o /\ object_of ls o.

Definition total (count : list Line -> Z) (fs : list (list Line)) : Z :=
  foldr (fun ls n => count (text_lines ls) + n) 0 fs.

Lemma members_audit parse ms fs r :
  Forall2 (member_of parse) ms fs -> Forall (fun ls => calls_ok ls = true) fs ->
  exists r', audit_members I parse ms r = Ok r' /\ hits r' = hits r /\
    instructions r' = instructions r + total insn_count fs /\ vector r' = vector r + total vector_count fs.
Proof.
  intros Hm. revert r. induction Hm as [|m ls ms fs (name & bytes & o & -> & He & Hp & Ho) Hms IH]; intros r Hc.
  - exists r. cbn. by rewrite !Z.add_0_r.
  - apply Forall_cons in Hc as [Hc Hcs]. cbn [audit_members]. rewrite He. cbn [negb].
    destruct (object_audit parse bytes o ls (name +:+ ":") Hp Ho Hc) as (r1 & -> & Hh1 & Hi1 & Hv1).
    match goal with |- context [audit_members I parse ms ?r0] => destruct (IH r0 Hcs) as (r' & -> & Hh & Hi & Hv) end.
    cbn [hits instructions vector] in *. exists r'. split; [done|]. cbn [total foldr].
    fold (total insn_count fs) (total vector_count fs). rewrite Hh, Hi, Hv, Hh1, Hi1, Hv1, app_nil_r.
    split_and!; [done|lia|lia].
Qed.

End Scan.

(** ** An assembler *)

Definition mod_rm (r m : Z) : Z := 0xc0 + 8 * r + m.

(** The encodings an assembler gives the scalar instructions of the three
    files; the displacements of symbols and jumps are left at zero. *)
Definition gas_bytes (l : Line) : list Z :=
  match l with
  | Scal s =>
      match s with
      | Movq a b => [0x48; 0x89; mod_rm (gpr_n a) (gpr_n b)]
      | Cmpq n r => [0x48; 0x83; mod_rm 7 (gpr_n r); n]
      | Testq r => [0x48; 0x85; mod_rm (gpr_n r) (gpr_n r)]
      | Addq n r => [0x48; 0x81; mod_rm 0 (gpr_n r)] ++ to_le_bytes 4 n
      | Subq n r => [0x48; 0x83; mod_rm 5 (gpr_n r); n]
      | Decq r => [0x48; 0xff; mod_rm 1 (gpr_n r)]
      | Movl a b => [0x89; mod_rm (gpr_n a) (gpr_n b)]
      | Decl r => [0xff; mod_rm 1 (gpr_n r)]
      | Cmpl n r => [0x83; mod_rm 7 (gpr_n r); n]
      | Leaq _ r =>
          (if gpr_n r <? 8 then [0x48; 0x8d; 0x05 + 8 * gpr_n r] else [0x4c; 0x8d; 0x05 + 8 * (gpr_n r - 8)])
          ++ to_le_bytes 4 0
      | JmpTable d _ _ => if d =? 0 then [0x41; 0xff; 0x24; 0xc1] else [0x41; 0xff; 0x64; 0xc1; d]
      | LockAdd => [0xf0; 0x48; 0x83; 0x04; 0x24; 0x00]
      | Ret => [0xc3]
      | _ => []
      end
  | Jump c _ _ =>
      [match c with Jb => 0x72 | Jae => 0x73 | Jz => 0x74 | Jnz => 0x75 | Ja => 0x77 | Jl => 0x7c end; 0]
  | _ => []
  end.

Definition gas_known (l : Line) : option Known :=
  match l with
  | Scal s => Some (mkKnown (gas_bytes l) (scalar_mnemonic s) ["X64"%string])
  | Jump c _ _ => Some (mkKnown (gas_bytes l) (cond_mnemonic c) ["INTEL8086"%string])
  | _ => None
  end.

Definition gas_parts (l : Line) : list Part :=
  match l with
  | Vec c => match run_call c with Some i => [PVec (bytes i)] | None => [] end
  | _ => match gas_known l with Some k => [PKnown k] | None => [] end
  end.

(** The scalar instructions of the three files, up to the symbols. *)
Definition gas_lines : list Line := [
  Scal (Leaq "knc_mask" Rax); Scal (Leaq "knc_unpack_table" R9); Scal (Movl Rdx Rax); Scal (Decl Rax);
  Scal (Cmpl 31 Rax); Scal (Cmpl 32 Rax); Jump Ja 1 true; Scal (Movq Rcx Rdx); Scal (JmpTable 8 R9 Rax);
  Scal (JmpTable 0 R9 Rax); Scal (Movq Rdi Rax); Scal (Cmpq 4 Rdx); Scal (Cmpq 4 Rsi); Jump Jb 2 true;
  Jump Jae 1 false; Jump Jz 4 true; Jump Jnz 3 false; Scal (Testq Rdx); Scal (Testq Rsi);
  Scal (Addq 256 Rsi); Scal (Addq 256 Rdi); Scal (Addq 64 Rsi); Scal (Addq 64 Rdi);
  Scal (Subq 4 Rdx); Scal (Subq 4 Rsi); Scal (Decq Rdx); Scal (Decq Rsi); Scal LockAdd; Scal Ret].

Definition gas_table : list Known := omap gas_known gas_lines.

#[export] Instance Known_eq_dec : EqDecision Known.
Proof. solve_decision. Defined.

Definition gas_line_ok (l : Line) : bool :=
  match l with
  | KInsn _ => false
  | _ => match gas_known l with Some k => bool_decide (k ∈ gas_table) | None => true end
  end.

(** ** libknc.a *)

(** The files build.sh assembles. *)
Definition libknc_files : option (list (list Line)) :=
  c ← codec; f ← fastlanes; Some [c; f; memcpy_kernel].

(** What is computed of them. *)
Definition libknc_totals (fs : list (list Line)) : bool :=
  (total insn_count fs =? 53921) && (total vector_count fs =? 53524).

(** Each is a file the generator prints, in full and with arguments in range. *)
Lemma libknc_lines fs :
  libknc_files = Some fs -> Forall (fun ls => calls_ok ls = true /\ forallb line_ok ls = true) fs.
Proof.
  assert (Hok : forall what ls, (what, Some ls) ∈ files -> calls_ok ls = true /\ forallb line_ok ls = true).
  { intros what ls Hls. pose proof files_calls_ok as Hc. pose proof files_lines_ok as Hl.
    rewrite Forall_forall in Hc, Hl. exact (conj (Hc _ Hls) (Hl _ Hls)). }
  unfold libknc_files. destruct codec as [c|] eqn:Ec; [|done]. destruct fastlanes as [f|] eqn:Ef; [|done].
  cbn [mbind option_bind]. intros [= <-].
  repeat (apply Forall_cons; split); [apply (Hok "codec"%string)|apply (Hok "fastlanes"%string)|
    apply (Hok "memcpy"%string)|apply Forall_nil_2]; unfold files; rewrite ?Ec, ?Ef, !elem_of_cons; tauto.
Qed.

(** One evaluation of the files: the counts, and that [gas_lines] has all
    their scalar instructions. *)
Lemma libknc_evaluated :
  match libknc_files with
  | Some fs => libknc_totals fs && forallb (forallb gas_line_ok) fs
  | None => false
  end = true.
Proof. vm_cast_no_check (eq_refl true). Qed.

(** The count build.md gives, 19848, is that of the library as it was before
    the framed modes, the FastLanes kernels and the clears: the plain unpack
    kernels, the pack kernels and the copy. *)
Lemma documented_count :
  match collect (fun bits => unpack_kernel bits Plain) (range 1 33) with
  | Some us => vector_count us + vector_count (concat (pack_kernel <$> range 1 33)) + vector_count memcpy_body =? 19848
  | None => false
  end = true.
Proof. vm_cast_no_check (eq_refl true). Qed.

Lemma clean_exit args r : hits r = [] -> exit_code args (Ok r) = 0.
Proof. destruct r as [s i v h]. cbn [hits]. intros ->. unfold exit_code, split_ignored. by destruct (ignore args). Qed.

(** C11: the audit of libknc.a comes back clean.  An archive of the three objects
    made of the generator's codec, fastlanes and memcpy files, assembled by
    any assembler and read by any decoder that reads the assembler's encoding
    of each scalar instruction as that instruction of the base architecture
    and the mask moves as what they are, is audited without a hit: all 53921
    instructions are counted, 53524 of them vector instructions, and the exit
    status is 0 whatever the options. *)
Theorem libknc_audit_clean I parse parse_archive data members files args :
  libknc_files = Some files ->
  starts_with_bytes data arch_magic = true -> parse_archive data = Ok members ->
  Forall2 (member_of I parse) members files ->
  exists report, audit_elf I parse parse_archive data = Ok report /\
    hits report = [] /\ instructions report = 53921 /\ vector report = 53524 /\
    exit_code args (audit_elf I parse parse_archive data) = 0.
Proof.
  intros Hf Hm Ha Hms. pose proof libknc_evaluated as Hc. rewrite Hf in Hc.
  apply andb_true_iff in Hc as [[Hi%Z.eqb_eq Hv%Z.eqb_eq]%andb_true_iff _].
  destruct (members_audit I parse members files empty_report Hms) as (r & Hr & Hh & Hri & Hrv).
  { apply (Forall_impl _ _ _ (libknc_lines files Hf)). by intros ls []. }
  unfold audit_elf, audit_archive. rewrite Hm, Ha, Hr. exists r. split; [reflexivity|].
  rewrite Hri, Hrv, Hi, Hv, (clean_exit args r Hh). by split_and!.
Qed.

(** ** A closed example *)

Lemma gas_assembled l : line_ok l = true -> gas_line_ok l = true ->
  assembled l (gas_parts l) /\ Forall (reads (table gas_table)) (omap known_of (gas_parts l)).
Proof.
  pose proof (table_reads gas_table eq_refl) as Hr. rewrite Forall_forall in Hr.
  destruct l as [c|i|s|c n f|n|s]; cbn [line_ok gas_line_ok gas_known gas_parts]; intros Hl Hk;
    try (split; [constructor|apply Forall_nil_2]); try done.
  - destruct (run_call_returns c Hl) as [i Hi]. rewrite Hi. split; [exact (assembled_vec c i Hi)|apply Forall_nil_2].
  - apply bool_decide_eq_true in Hk. split; [apply assembled_scalar; [done|]|by apply Forall_singleton, Hr].
    by apply (bool_decide_unpack _).
  - apply bool_decide_eq_true in Hk. split; [apply assembled_jump; [done|]|by apply Forall_singleton, Hr].
    by apply (bool_decide_unpack _).
Qed.

Definition gas_code (ls : list Line) : list Z := concat (part_bytes <$> concat (gas_parts <$> text_lines ls)).

Lemma gas_code_of ls :
  forallb line_ok ls = true -> forallb gas_line_ok ls = true -> code_of (table gas_table) ls (gas_code ls).
Proof.
  intros Hl Hk. exists (gas_parts <$> text_lines ls).
  assert (Forall2 assembled (text_lines ls) (gas_parts <$> text_lines ls) /\
    Forall (reads (table gas_table)) (omap known_of (concat (gas_parts <$> text_lines ls)))) as [H1 H2]; [|by split_and!].
  revert Hl Hk. induction ls as [|l ls IH]; [by repeat constructor|]. cbn [forallb].
  intros [Hl Hls]%andb_true_iff [Hk Hks]%andb_true_iff. destruct (IH Hls Hks) as [IH1 IH2].
  destruct (gas_assembled l Hl Hk) as [Ha Hr].
  assert (Forall2 assembled (l :: text_lines ls) (gas_parts <$> l :: text_lines ls) /\
    Forall (reads (table gas_table)) (omap known_of (concat (gas_parts <$> l :: text_lines ls)))) as Hc.
  { cbn [fmap list_fmap concat]. rewrite omap_app. split; [by constructor|by apply Forall_app]. }
  cbn [text_lines]. destruct l; try done. case_match; [by repeat constructor|done].
Qed.

(** The object of a file, and an archive whose member [n] is the file [n]. *)
Definition gas_object (ls : list Line) : Obj :=
  mkObj true [] [mkSection false (Some ".note.GNU-stack"%string) (Some []) 0;
                 mkSection true (Some ".text"%string) (Some (gas_code ls)) 0].

Definition gas_parse (fs : list (list Line)) (bytes : list Z) : result string Obj :=
  match drop 4 bytes with
  | n :: _ => match fs !! Z.to_nat n with Some ls => Ok (gas_object ls) | None => Err "member"%string end
  | [] => Err "member"%string
  end.

Definition gas_members (fs : list (list Line)) : list Member :=
  imap (fun n _ => Some ("knc.o"%string, Ok (elf_magic ++ [Z.of_nat n]))) fs.

Lemma gas_members_of fs fs' k :
  forallb (forallb gas_line_ok) fs = true -> Forall (fun ls => forallb line_ok ls = true) fs -> drop k fs' = fs ->
  Forall2 (member_of (table gas_table) (gas_parse fs'))
    (imap (fun n _ => Some ("knc.o"%string, Ok (elf_magic ++ [Z.of_nat (k + n)]))) fs) fs.
Proof.
  revert k. induction fs as [|ls fs IH]; intros k; [constructor|]. cbn [forallb imap].
  intros [Hg Hfs]%andb_true_iff [Hl Hls]%Forall_cons Hd. constructor.
  - exists "knc.o"%string, (elf_magic ++ [Z.of_nat k]), (gas_object ls).
    rewrite Nat.add_0_r. split; [done|]. split; [done|]. split.
    + unfold gas_parse. cbn [drop elf_magic app]. rewrite Nat2Z.id.
      assert (fs' !! k = Some ls) as ->; [|done].
      rewrite <- (Nat.add_0_r k), <- lookup_drop, Hd. done.
    + split; [done|]. exists [mkSection false (Some ".note.GNU-stack"%string) (Some []) 0], 
        (mkSection true (Some ".text"%string) (Some (gas_code ls)) 0), [], (gas_code ls).
      split_and!; try done; [by repeat constructor|by apply gas_code_of].
  - assert (drop (S k) fs' = fs) as Hd'.
    { replace (S k) with (k + 1)%nat by lia. rewrite <- drop_drop, Hd. done. }
    specialize (IH (S k) Hfs Hls Hd').
    rewrite (imap_ext _ (fun n (_ : list Line) => Some ("knc.o"%string, Ok (elf_magic ++ [Z.of_nat (S k + n)]))));
      [exact IH|].
    intros n x _. cbn. by rewrite Nat.add_succ_r.
Qed.

Lemma libknc_audit_clean_witness :
  exists files report,
    libknc_files = Some files /\
    audit_elf (table gas_table) (gas_parse files) (fun _ => Ok (gas_members files)) arch_magic = Ok report /\
    instructions report = 53921 /\ hits report = [].
Proof.
  pose proof libknc_evaluated as Hg. destruct libknc_files as [files|] eqn:Hf; [|discriminate Hg].
  apply andb_true_iff in Hg as [_ Hg].
  assert (Forall (fun ls => forallb line_ok ls = true) files) as Hl
    by (apply (Forall_impl _ _ _ (libknc_lines files Hf)); by intros ls []).
  destruct (libknc_audit_clean (table gas_table) (gas_parse files) (fun _ => Ok (gas_members files)) arch_magic
    (gas_members files) files (mkArgs "libknc.a" false 0 false []) Hf eq_refl eq_refl
    (gas_members_of files files 0 Hg Hl eq_refl)) as (report & Hr & Hh & Hi & _).
  exists files, report. by split_and!.
Defined.
