(* ===== verification/Committed.v ===== *)
(** The generated files that are committed, and the generator's tests that
    they are current (host/crates/knc-mvex/src/main.rs, [mod tests]).  The
    texts are those of card/examples/vpu_probe.S, vpu_int.S, mandel_vpu.S and
    vpu_memcpy.S and of the kernel patch 0024, line by line; a tab stands as
    itself in a string, a quotation mark between the pieces of [quoted].  The
    tests compare them with what the model of the generator prints, byte for
    byte: the bytes of every instruction, its text, and the directives. *)

From S2P Require Import Prelude Bytes Mvex MvexDis MvexCalls Codegen CodegenProbe Files.

Local Open Scope Z_scope.
Local Open Scope phi_scope.

(** ** The string functions of the second test *)

(** [str::split] with a string pattern that is not empty: the pieces between
    its occurrences, found from left to right; [skip] counts the characters of
    an occurrence that are still to be passed over. *)
Fixpoint split_from (pat s : string) (skip : nat) : list string :=
  match s with
  | EmptyString => [""%string]
  | String a s' =>
      match skip with
      | S k => split_from pat s' k
      | O =>
          if String.prefix pat s then ""%string :: split_from pat s' (String.length pat - 1)
          else match split_from pat s' 0 with
               | p :: ps => String a p :: ps
               | [] => []
               end
      end
  end.

Definition split (pat s : string) : list string := split_from pat s 0.

Definition cr_char : Ascii.ascii := Ascii.ascii_of_nat 13.
Definition nl_char : Ascii.ascii := Ascii.ascii_of_nat 10.
Definition plus_char : Ascii.ascii := Ascii.ascii_of_nat 43.

(** [str::lines]: a line ends at a line feed, with the carriage return before
    it, or at the end of the text. *)
Fixpoint str_lines (s : string) : list string :=
  match s with
  | EmptyString => []
  | String a s' =>
      if Ascii.eqb a nl_char then ""%string :: str_lines s'
      else
        match str_lines s' with
        | [] => [String a ""]
        | l :: ls =>
            match s' with
            | String b _ =>
                if Ascii.eqb a cr_char && Ascii.eqb b nl_char then ""%string :: ls
                else String a l :: ls
            | EmptyString => String a l :: ls
            end
        end
  end.

(** [Iterator::take_while]. *)
Fixpoint take_while {A} (p : A -> bool) (l : list A) : list A :=
  match l with
  | [] => []
  | x :: l => if p x then x :: take_while p l else []
  end.

(** [str::strip_prefix] with a character. *)
Definition strip_prefix (c : Ascii.ascii) (s : string) : option string :=
  match s with
  | String a s => if Ascii.eqb a c then Some s else None
  | EmptyString => None
  end.

(** What the second test takes from a patch: the [+] lines of its hunk for
    knc_vpu.h, less the marker; [None] is the failure of its [expect]. *)
Definition header_of_patch (patch : string) : option string :=
  hunk ← split ("+++ b/arch/x86/include/asm/knc_vpu.h" +:+ nl) patch !! 1%nat;
  Some (lines_of (omap (strip_prefix plus_char)
    (take_while (fun l => negb (String.prefix "diff --git" l)) (str_lines hunk)))).

(** ** The files *)

(** The pieces with a quotation mark between each two. *)
Definition quoted (pieces : list string) : string := String.concat quote pieces.

(** card/examples/vpu_probe.S. *)
Definition vpu_probe_S : string := lines_of [
"# vpu_probe.S: generated by knc-mvex-gen (host/crates/knc-mvex). Do not edit by hand;";
"# see vpu_probe.md. Vector instructions are .byte sequences because no assembler in";
"# the stack knows the Knights Corner MVEX encoding.";
"	.text";
"";
"	.globl vpu_probe";
"	.type vpu_probe, @function";
"# void vpu_probe(const double *in, double *out, unsigned *mask): rdi = in (a at 0, b at 64), rsi = out, rdx = mask";
"vpu_probe:";
"	.byte 0x62, 0xf1, 0xf9, 0x08, 0x28, 0x87, 0x00, 0x00, 0x00, 0x00	# vmovapd zmm0, [rdi+0]";
"	.byte 0x62, 0xf1, 0xf9, 0x08, 0x28, 0x8f, 0x40, 0x00, 0x00, 0x00	# vmovapd zmm1, [rdi+64]";
"	.byte 0x62, 0xf1, 0xf9, 0x08, 0x58, 0xd1	# vaddpd zmm2, zmm0, zmm1";
"	.byte 0x62, 0xf1, 0xf9, 0x08, 0x29, 0x96, 0x00, 0x00, 0x00, 0x00	# vmovapd [rsi+0], zmm2";
"	.byte 0x62, 0xf1, 0xf9, 0x08, 0x59, 0xd9	# vmulpd zmm3, zmm0, zmm1";
"	.byte 0x62, 0xf1, 0xf9, 0x08, 0x29, 0x9e, 0x40, 0x00, 0x00, 0x00	# vmovapd [rsi+64], zmm3";
"	.byte 0x62, 0xf1, 0xf9, 0x08, 0x28, 0xe0	# vmovapd zmm4, zmm0";
"	.byte 0x62, 0xf2, 0xf1, 0x08, 0xa8, 0xe0	# vfmadd213pd zmm4, zmm1, zmm0";
"	.byte 0x62, 0xf1, 0xf9, 0x08, 0x29, 0xa6, 0x80, 0x00, 0x00, 0x00	# vmovapd [rsi+128], zmm4";
"	.byte 0x62, 0xf1, 0xf9, 0x08, 0x5c, 0xe9	# vsubpd zmm5, zmm0, zmm1";
"	.byte 0x62, 0xf1, 0xf9, 0x08, 0x29, 0xae, 0xc0, 0x00, 0x00, 0x00	# vmovapd [rsi+192], zmm5";
"	.byte 0x62, 0x61, 0xf9, 0x08, 0x28, 0xfa	# vmovapd zmm31, zmm2";
"	.byte 0x62, 0x61, 0xf9, 0x08, 0x29, 0xbe, 0x00, 0x01, 0x00, 0x00	# vmovapd [rsi+256], zmm31";
"	movl $15, %eax";
"	.byte 0xc5, 0xf8, 0x92, 0xd8	# kmov k3, eax";
"	.byte 0x62, 0xf1, 0xf9, 0x08, 0x28, 0xf1	# vmovapd zmm6, zmm1";
"	.byte 0x62, 0xf1, 0xf9, 0x0b, 0x58, 0xf0	# vaddpd zmm6 {k3}, zmm0, zmm0";
"	.byte 0x62, 0xf1, 0xf9, 0x08, 0x29, 0xb6, 0x40, 0x01, 0x00, 0x00	# vmovapd [rsi+320], zmm6";
"	.byte 0x62, 0xf1, 0xf9, 0x08, 0xc2, 0xd1, 0x01	# vcmppd k2, zmm0, zmm1, 1";
"	.byte 0xc5, 0xf8, 0x93, 0xc2	# kmov eax, k2";
"	movl %eax, (%rdx)";
"	ret";
"	.size vpu_probe, .-vpu_probe";
"";
"	.globl vpu_set";
"	.type vpu_set, @function";
"# void vpu_set(const void *area): rdi = 64-byte aligned area, 32 x 64 bytes of zmm then 8 x u16 masks at 2048";
"vpu_set:";
"	.byte 0x62, 0xf1, 0xf9, 0x08, 0x28, 0x87, 0x00, 0x00, 0x00, 0x00	# vmovapd zmm0, [rdi+0]";
"	.byte 0x62, 0xf1, 0xf9, 0x08, 0x28, 0x8f, 0x40, 0x00, 0x00, 0x00	# vmovapd zmm1, [rdi+64]";
"	.byte 0x62, 0xf1, 0xf9, 0x08, 0x28, 0x97, 0x80, 0x00, 0x00, 0x00	# vmovapd zmm2, [rdi+128]";
"	.byte 0x62, 0xf1, 0xf9, 0x08, 0x28, 0x9f, 0xc0, 0x00, 0x00, 0x00	# vmovapd zmm3, [rdi+192]";
"	.byte 0x62, 0xf1, 0xf9, 0x08, 0x28, 0xa7, 0x00, 0x01, 0x00, 0x00	# vmovapd zmm4, [rdi+256]";
"	.byte 0x62, 0xf1, 0xf9, 0x08, 0x28, 0xaf, 0x40, 0x01, 0x00, 0x00	# vmovapd zmm5, [rdi+320]";
"	.byte 0x62, 0xf1, 0xf9, 0x08, 0x28, 0xb7, 0x80, 0x01, 0x00, 0x00	# vmovapd zmm6, [rdi+384]";
"	.byte 0x62, 0xf1, 0xf9, 0x08, 0x28, 0xbf, 0xc0, 0x01, 0x00, 0x00	# vmovapd zmm7, [rdi+448]";
"	.byte 0x62, 0x71, 0xf9, 0x08, 0x28, 0x87, 0x00, 0x02, 0x00, 0x00	# vmovapd zmm8, [rdi+512]";
"	.byte 0x62, 0x71, 0xf9, 0x08, 0x28, 0x8f, 0x40, 0x02, 0x00, 0x00	# vmovapd zmm9, [rdi+576]";
"	.byte 0x62, 0x71, 0xf9, 0x08, 0x28, 0x97, 0x80, 0x02, 0x00, 0x00	# vmovapd zmm10, [rdi+640]";
"	.byte 0x62, 0x71, 0xf9, 0x08, 0x28, 0x9f, 0xc0, 0x02, 0x00, 0x00	# vmovapd zmm11, [rdi+704]";
"	.byte 0x62, 0x71, 0xf9, 0x08, 0x28, 0xa7, 0x00, 0x03, 0x00, 0x00	# vmovapd zmm12, [rdi+768]";
"	.byte 0x62, 0x71, 0xf9, 0x08, 0x28, 0xaf, 0x40, 0x03, 0x00, 0x00	# vmovapd zmm13, [rdi+832]";
"	.byte 0x62, 0x71, 0xf9, 0x08, 0x28, 0xb7, 0x80, 0x03, 0x00, 0x00	# vmovapd zmm14, [rdi+896]";
"	.byte 0x62, 0x71, 0xf9, 0x08, 0x28, 0xbf, 0xc0, 0x03, 0x00, 0x00	# vmovapd zmm15, [rdi+960]";
"	.byte 0x62, 0xe1, 0xf9, 0x08, 0x28, 0x87, 0x00, 0x04, 0x00, 0x00	# vmovapd zmm16, [rdi+1024]";
"	.byte 0x62, 0xe1, 0xf9, 0x08, 0x28, 0x8f, 0x40, 0x04, 0x00, 0x00	# vmovapd zmm17, [rdi+1088]";
"	.byte 0x62, 0xe1, 0xf9, 0x08, 0x28, 0x97, 0x80, 0x04, 0x00, 0x00	# vmovapd zmm18, [rdi+1152]";
"	.byte 0x62, 0xe1, 0xf9, 0x08, 0x28, 0x9f, 0xc0, 0x04, 0x00, 0x00	# vmovapd zmm19, [rdi+1216]";
"	.byte 0x62, 0xe1, 0xf9, 0x08, 0x28, 0xa7, 0x00, 0x05, 0x00, 0x00	# vmovapd zmm20, [rdi+1280]";
"	.byte 0x62, 0xe1, 0xf9, 0x08, 0x28, 0xaf, 0x40, 0x05, 0x00, 0x00	# vmovapd zmm21, [rdi+1344]";
"	.byte 0x62, 0xe1, 0xf9, 0x08, 0x28, 0xb7, 0x80, 0x05, 0x00, 0x00	# vmovapd zmm22, [rdi+1408]";
"	.byte 0x62, 0xe1, 0xf9, 0x08, 0x28, 0xbf, 0xc0, 0x05, 0x00, 0x00	# vmovapd zmm23, [rdi+1472]";
"	.byte 0x62, 0x61, 0xf9, 0x08, 0x28, 0x87, 0x00, 0x06, 0x00, 0x00	# vmovapd zmm24, [rdi+1536]";
"	.byte 0x62, 0x61, 0xf9, 0x08, 0x28, 0x8f, 0x40, 0x06, 0x00, 0x00	# vmovapd zmm25, [rdi+1600]";
"	.byte 0x62, 0x61, 0xf9, 0x08, 0x28, 0x97, 0x80, 0x06, 0x00, 0x00	# vmovapd zmm26, [rdi+1664]";
"	.byte 0x62, 0x61, 0xf9, 0x08, 0x28, 0x9f, 0xc0, 0x06, 0x00, 0x00	# vmovapd zmm27, [rdi+1728]";
"	.byte 0x62, 0x61, 0xf9, 0x08, 0x28, 0xa7, 0x00, 0x07, 0x00, 0x00	# vmovapd zmm28, [rdi+1792]";
"	.byte 0x62, 0x61, 0xf9, 0x08, 0x28, 0xaf, 0x40, 0x07, 0x00, 0x00	# vmovapd zmm29, [rdi+1856]";
"	.byte 0x62, 0x61, 0xf9, 0x08, 0x28, 0xb7, 0x80, 0x07, 0x00, 0x00	# vmovapd zmm30, [rdi+1920]";
"	.byte 0x62, 0x61, 0xf9, 0x08, 0x28, 0xbf, 0xc0, 0x07, 0x00, 0x00	# vmovapd zmm31, [rdi+1984]";
"	movzwl 2048(%rdi), %eax";
"	.byte 0xc5, 0xf8, 0x92, 0xc0	# kmov k0, eax";
"	movzwl 2050(%rdi), %eax";
"	.byte 0xc5, 0xf8, 0x92, 0xc8	# kmov k1, eax";
"	movzwl 2052(%rdi), %eax";
"	.byte 0xc5, 0xf8, 0x92, 0xd0	# kmov k2, eax";
"	movzwl 2054(%rdi), %eax";
"	.byte 0xc5, 0xf8, 0x92, 0xd8	# kmov k3, eax";
"	movzwl 2056(%rdi), %eax";
"	.byte 0xc5, 0xf8, 0x92, 0xe0	# kmov k4, eax";
"	movzwl 2058(%rdi), %eax";
"	.byte 0xc5, 0xf8, 0x92, 0xe8	# kmov k5, eax";
"	movzwl 2060(%rdi), %eax";
"	.byte 0xc5, 0xf8, 0x92, 0xf0	# kmov k6, eax";
"	movzwl 2062(%rdi), %eax";
"	.byte 0xc5, 0xf8, 0x92, 0xf8	# kmov k7, eax";
"	ret";
"	.size vpu_set, .-vpu_set";
"";
"	.globl vpu_get";
"	.type vpu_get, @function";
"# void vpu_get(void *area): the same layout, stored";
"vpu_get:";
"	.byte 0x62, 0xf1, 0xf9, 0x08, 0x29, 0x87, 0x00, 0x00, 0x00, 0x00	# vmovapd [rdi+0], zmm0";
"	.byte 0x62, 0xf1, 0xf9, 0x08, 0x29, 0x8f, 0x40, 0x00, 0x00, 0x00	# vmovapd [rdi+64], zmm1";
"	.byte 0x62, 0xf1, 0xf9, 0x08, 0x29, 0x97, 0x80, 0x00, 0x00, 0x00	# vmovapd [rdi+128], zmm2";
"	.byte 0x62, 0xf1, 0xf9, 0x08, 0x29, 0x9f, 0xc0, 0x00, 0x00, 0x00	# vmovapd [rdi+192], zmm3";
"	.byte 0x62, 0xf1, 0xf9, 0x08, 0x29, 0xa7, 0x00, 0x01, 0x00, 0x00	# vmovapd [rdi+256], zmm4";
"	.byte 0x62, 0xf1, 0xf9, 0x08, 0x29, 0xaf, 0x40, 0x01, 0x00, 0x00	# vmovapd [rdi+320], zmm5";
"	.byte 0x62, 0xf1, 0xf9, 0x08, 0x29, 0xb7, 0x80, 0x01, 0x00, 0x00	# vmovapd [rdi+384], zmm6";
"	.byte 0x62, 0xf1, 0xf9, 0x08, 0x29, 0xbf, 0xc0, 0x01, 0x00, 0x00	# vmovapd [rdi+448], zmm7";
"	.byte 0x62, 0x71, 0xf9, 0x08, 0x29, 0x87, 0x00, 0x02, 0x00, 0x00	# vmovapd [rdi+512], zmm8";
"	.byte 0x62, 0x71, 0xf9, 0x08, 0x29, 0x8f, 0x40, 0x02, 0x00, 0x00	# vmovapd [rdi+576], zmm9";
"	.byte 0x62, 0x71, 0xf9, 0x08, 0x29, 0x97, 0x80, 0x02, 0x00, 0x00	# vmovapd [rdi+640], zmm10";
"	.byte 0x62, 0x71, 0xf9, 0x08, 0x29, 0x9f, 0xc0, 0x02, 0x00, 0x00	# vmovapd [rdi+704], zmm11";
"	.byte 0x62, 0x71, 0xf9, 0x08, 0x29, 0xa7, 0x00, 0x03, 0x00, 0x00	# vmovapd [rdi+768], zmm12";
"	.byte 0x62, 0x71, 0xf9, 0x08, 0x29, 0xaf, 0x40, 0x03, 0x00, 0x00	# vmovapd [rdi+832], zmm13";
"	.byte 0x62, 0x71, 0xf9, 0x08, 0x29, 0xb7, 0x80, 0x03, 0x00, 0x00	# vmovapd [rdi+896], zmm14";
"	.byte 0x62, 0x71, 0xf9, 0x08, 0x29, 0xbf, 0xc0, 0x03, 0x00, 0x00	# vmovapd [rdi+960], zmm15";
"	.byte 0x62, 0xe1, 0xf9, 0x08, 0x29, 0x87, 0x00, 0x04, 0x00, 0x00	# vmovapd [rdi+1024], zmm16";
"	.byte 0x62, 0xe1, 0xf9, 0x08, 0x29, 0x8f, 0x40, 0x04, 0x00, 0x00	# vmovapd [rdi+1088], zmm17";
"	.byte 0x62, 0xe1, 0xf9, 0x08, 0x29, 0x97, 0x80, 0x04, 0x00, 0x00	# vmovapd [rdi+1152], zmm18";
"	.byte 0x62, 0xe1, 0xf9, 0x08, 0x29, 0x9f, 0xc0, 0x04, 0x00, 0x00	# vmovapd [rdi+1216], zmm19";
"	.byte 0x62, 0xe1, 0xf9, 0x08, 0x29, 0xa7, 0x00, 0x05, 0x00, 0x00	# vmovapd [rdi+1280], zmm20";
"	.byte 0x62, 0xe1, 0xf9, 0x08, 0x29, 0xaf, 0x40, 0x05, 0x00, 0x00	# vmovapd [rdi+1344], zmm21";
"	.byte 0x62, 0xe1, 0xf9, 0x08, 0x29, 0xb7, 0x80, 0x05, 0x00, 0x00	# vmovapd [rdi+1408], zmm22";
"	.byte 0x62, 0xe1, 0xf9, 0x08, 0x29, 0xbf, 0xc0, 0x05, 0x00, 0x00	# vmovapd [rdi+1472], zmm23";
"	.byte 0x62, 0x61, 0xf9, 0x08, 0x29, 0x87, 0x00, 0x06, 0x00, 0x00	# vmovapd [rdi+1536], zmm24";
"	.byte 0x62, 0x61, 0xf9, 0x08, 0x29, 0x8f, 0x40, 0x06, 0x00, 0x00	# vmovapd [rdi+1600], zmm25";
"	.byte 0x62, 0x61, 0xf9, 0x08, 0x29, 0x97, 0x80, 0x06, 0x00, 0x00	# vmovapd [rdi+1664], zmm26";
"	.byte 0x62, 0x61, 0xf9, 0x08, 0x29, 0x9f, 0xc0, 0x06, 0x00, 0x00	# vmovapd [rdi+1728], zmm27";
"	.byte 0x62, 0x61, 0xf9, 0x08, 0x29, 0xa7, 0x00, 0x07, 0x00, 0x00	# vmovapd [rdi+1792], zmm28";
"	.byte 0x62, 0x61, 0xf9, 0x08, 0x29, 0xaf, 0x40, 0x07, 0x00, 0x00	# vmovapd [rdi+1856], zmm29";
"	.byte 0x62, 0x61, 0xf9, 0x08, 0x29, 0xb7, 0x80, 0x07, 0x00, 0x00	# vmovapd [rdi+1920], zmm30";
"	.byte 0x62, 0x61, 0xf9, 0x08, 0x29, 0xbf, 0xc0, 0x07, 0x00, 0x00	# vmovapd [rdi+1984], zmm31";
"	.byte 0xc5, 0xf8, 0x93, 0xc0	# kmov eax, k0";
"	movw %ax, 2048(%rdi)";
"	.byte 0xc5, 0xf8, 0x93, 0xc1	# kmov eax, k1";
"	movw %ax, 2050(%rdi)";
"	.byte 0xc5, 0xf8, 0x93, 0xc2	# kmov eax, k2";
"	movw %ax, 2052(%rdi)";
"	.byte 0xc5, 0xf8, 0x93, 0xc3	# kmov eax, k3";
"	movw %ax, 2054(%rdi)";
"	.byte 0xc5, 0xf8, 0x93, 0xc4	# kmov eax, k4";
"	movw %ax, 2056(%rdi)";
"	.byte 0xc5, 0xf8, 0x93, 0xc5	# kmov eax, k5";
"	movw %ax, 2058(%rdi)";
"	.byte 0xc5, 0xf8, 0x93, 0xc6	# kmov eax, k6";
"	movw %ax, 2060(%rdi)";
"	.byte 0xc5, 0xf8, 0x93, 0xc7	# kmov eax, k7";
"	movw %ax, 2062(%rdi)";
"	ret";
"	.size vpu_get, .-vpu_get";
"";
quoted ["	.section .note.GNU-stack,"; ""; ",@progbits"]]%string.

(** card/examples/vpu_int.S. *)
Definition vpu_int_S : string := lines_of [
"# vpu_int.S: generated by knc-mvex-gen (host/crates/knc-mvex). Do not edit by hand;";
"# see vpu_int.md. Vector instructions are .byte sequences because no assembler in";
"# the stack knows the Knights Corner MVEX encoding.";
"	.text";
"";
"	.globl vpu_int_probe";
"	.type vpu_int_probe, @function";
"# void vpu_int_probe(const int *in, int *out): rdi = in (16 int32 a at 0, 16 int32 b at 64, both 64-byte aligned), rsi = out (16 slots of 16 int32)";
"vpu_int_probe:";
"	.byte 0x62, 0xf1, 0x78, 0x08, 0x28, 0x87, 0x00, 0x00, 0x00, 0x00	# vmovaps zmm0, [rdi+0]";
"	.byte 0x62, 0xf1, 0x78, 0x08, 0x28, 0x8f, 0x40, 0x00, 0x00, 0x00	# vmovaps zmm1, [rdi+64]";
"	.byte 0x62, 0xf1, 0x79, 0x08, 0xfe, 0xd1	# vpaddd zmm2, zmm0, zmm1";
"	.byte 0x62, 0xf1, 0x78, 0x08, 0x29, 0x96, 0x00, 0x00, 0x00, 0x00	# vmovaps [rsi+0], zmm2";
"	.byte 0x62, 0xf1, 0x79, 0x08, 0xfa, 0xd1	# vpsubd zmm2, zmm0, zmm1";
"	.byte 0x62, 0xf1, 0x78, 0x08, 0x29, 0x96, 0x40, 0x00, 0x00, 0x00	# vmovaps [rsi+64], zmm2";
"	.byte 0x62, 0xf1, 0x79, 0x08, 0xdb, 0xd1	# vpandd zmm2, zmm0, zmm1";
"	.byte 0x62, 0xf1, 0x78, 0x08, 0x29, 0x96, 0x80, 0x00, 0x00, 0x00	# vmovaps [rsi+128], zmm2";
"	.byte 0x62, 0xf1, 0x79, 0x08, 0xdf, 0xd1	# vpandnd zmm2, zmm0, zmm1";
"	.byte 0x62, 0xf1, 0x78, 0x08, 0x29, 0x96, 0xc0, 0x00, 0x00, 0x00	# vmovaps [rsi+192], zmm2";
"	.byte 0x62, 0xf1, 0x79, 0x08, 0xeb, 0xd1	# vpord zmm2, zmm0, zmm1";
"	.byte 0x62, 0xf1, 0x78, 0x08, 0x29, 0x96, 0x00, 0x01, 0x00, 0x00	# vmovaps [rsi+256], zmm2";
"	.byte 0x62, 0xf1, 0x79, 0x08, 0xef, 0xd1	# vpxord zmm2, zmm0, zmm1";
"	.byte 0x62, 0xf1, 0x78, 0x08, 0x29, 0x96, 0x40, 0x01, 0x00, 0x00	# vmovaps [rsi+320], zmm2";
"	.byte 0x62, 0xf1, 0x69, 0x08, 0x72, 0xf0, 0x01	# vpslld zmm2, zmm0, 1";
"	.byte 0x62, 0xf1, 0x78, 0x08, 0x29, 0x96, 0x80, 0x01, 0x00, 0x00	# vmovaps [rsi+384], zmm2";
"	.byte 0x62, 0xf1, 0x69, 0x08, 0x72, 0xf0, 0x0b	# vpslld zmm2, zmm0, 11";
"	.byte 0x62, 0xf1, 0x78, 0x08, 0x29, 0x96, 0xc0, 0x01, 0x00, 0x00	# vmovaps [rsi+448], zmm2";
"	.byte 0x62, 0xf1, 0x69, 0x08, 0x72, 0xd0, 0x0b	# vpsrld zmm2, zmm0, 11";
"	.byte 0x62, 0xf1, 0x78, 0x08, 0x29, 0x96, 0x00, 0x02, 0x00, 0x00	# vmovaps [rsi+512], zmm2";
"	.byte 0x62, 0xf1, 0x69, 0x08, 0x72, 0xe0, 0x0b	# vpsrad zmm2, zmm0, 11";
"	.byte 0x62, 0xf1, 0x78, 0x08, 0x29, 0x96, 0x40, 0x02, 0x00, 0x00	# vmovaps [rsi+576], zmm2";
"	.byte 0x62, 0xf1, 0x69, 0x08, 0x72, 0xe0, 0x1f	# vpsrad zmm2, zmm0, 31";
"	.byte 0x62, 0xf1, 0x78, 0x08, 0x29, 0x96, 0x80, 0x02, 0x00, 0x00	# vmovaps [rsi+640], zmm2";
"	.byte 0x62, 0xf1, 0x69, 0x08, 0x72, 0xb7, 0x00, 0x00, 0x00, 0x00, 0x0b	# vpslld zmm2, [rdi+0], 11";
"	.byte 0x62, 0xf1, 0x78, 0x08, 0x29, 0x96, 0xc0, 0x02, 0x00, 0x00	# vmovaps [rsi+704], zmm2";
"	.byte 0x62, 0xf2, 0x79, 0x08, 0x47, 0xd1	# vpsllvd zmm2, zmm0, zmm1";
"	.byte 0x62, 0xf1, 0x78, 0x08, 0x29, 0x96, 0x00, 0x03, 0x00, 0x00	# vmovaps [rsi+768], zmm2";
"	.byte 0x62, 0xf2, 0x79, 0x08, 0x45, 0x97, 0x40, 0x00, 0x00, 0x00	# vpsrlvd zmm2, zmm0, [rdi+64]";
"	.byte 0x62, 0xf1, 0x78, 0x08, 0x29, 0x96, 0x40, 0x03, 0x00, 0x00	# vmovaps [rsi+832], zmm2";
"	movl $255, %eax";
"	.byte 0xc5, 0xf8, 0x92, 0xc8	# kmov k1, eax";
"	.byte 0x62, 0xf1, 0x78, 0x08, 0x28, 0x97, 0x00, 0x00, 0x00, 0x00	# vmovaps zmm2, [rdi+0]";
"	.byte 0x62, 0xf1, 0x79, 0x09, 0xfe, 0xd1	# vpaddd zmm2 {k1}, zmm0, zmm1";
"	.byte 0x62, 0xf1, 0x78, 0x08, 0x29, 0x96, 0x80, 0x03, 0x00, 0x00	# vmovaps [rsi+896], zmm2";
"	movl $3855, %eax";
"	.byte 0xc5, 0xf8, 0x92, 0xd0	# kmov k2, eax";
"	.byte 0x62, 0xe1, 0x78, 0x08, 0x28, 0x8f, 0x00, 0x00, 0x00, 0x00	# vmovaps zmm17, [rdi+0]";
"	.byte 0x62, 0xf1, 0x71, 0x02, 0x72, 0xf1, 0x03	# vpslld zmm17 {k2}, zmm1, 3";
"	.byte 0x62, 0xe1, 0x78, 0x08, 0x29, 0x8e, 0xc0, 0x03, 0x00, 0x00	# vmovaps [rsi+960], zmm17";
"	.byte 0x62, 0xf2, 0x79, 0x08, 0x58, 0x9f, 0x44, 0x00, 0x00, 0x00	# vpbroadcastd zmm3, [rdi+68]";
"	.byte 0x62, 0xf1, 0x78, 0x08, 0x29, 0x9e, 0x00, 0x04, 0x00, 0x00	# vmovaps [rsi+1024], zmm3";
"	.byte 0x62, 0xf2, 0x78, 0x08, 0xd0, 0x9f, 0x00, 0x00, 0x00, 0x00	# vloadunpackld zmm3, [rdi+0]";
"	.byte 0x62, 0xf2, 0x78, 0x08, 0xd4, 0x9f, 0x40, 0x00, 0x00, 0x00	# vloadunpackhd zmm3, [rdi+64]";
"	.byte 0x62, 0xf1, 0x78, 0x08, 0x29, 0x9e, 0x40, 0x04, 0x00, 0x00	# vmovaps [rsi+1088], zmm3";
"	ret";
"	.size vpu_int_probe, .-vpu_int_probe";
"";
"	.globl vpu_int_unaligned";
"	.type vpu_int_unaligned, @function";
"# void vpu_int_unaligned(const int *un, int *out): rdi = un (any multiple of 4), rsi = out (64-byte aligned, 16 int32)";
"vpu_int_unaligned:";
"	.byte 0x62, 0xf2, 0x78, 0x08, 0xd0, 0x87, 0x00, 0x00, 0x00, 0x00	# vloadunpackld zmm0, [rdi+0]";
"	.byte 0x62, 0xf2, 0x78, 0x08, 0xd4, 0x87, 0x40, 0x00, 0x00, 0x00	# vloadunpackhd zmm0, [rdi+64]";
"	.byte 0x62, 0xf1, 0x78, 0x08, 0x29, 0x86, 0x00, 0x00, 0x00, 0x00	# vmovaps [rsi+0], zmm0";
"	ret";
"	.size vpu_int_unaligned, .-vpu_int_unaligned";
"";
quoted ["	.section .note.GNU-stack,"; ""; ",@progbits"]]%string.

(** card/examples/mandel_vpu.S. *)
Definition mandel_vpu_S : string := lines_of [
"# mandel_vpu.S: generated by knc-mvex-gen (host/crates/knc-mvex). Do not edit by hand;";
"# see mandel_vpu.md. Vector instructions are .byte sequences because no assembler in";
"# the stack knows the Knights Corner MVEX encoding.";
"	.text";
"";
"	.globl mandel8_vpu";
"	.type mandel8_vpu, @function";
"# void mandel8_vpu(const double *c, double *out, int maxiter): rdi = c (cr at 0, ci at 64), rsi = out (iteration counts at 0, |z|^2 at 64), edx = maxiter";
"mandel8_vpu:";
"	leaq mandel8_consts(%rip), %rcx";
"	.byte 0x62, 0xf1, 0xf9, 0x08, 0x28, 0x87, 0x00, 0x00, 0x00, 0x00	# vmovapd zmm0, [rdi+0]";
"	.byte 0x62, 0xf1, 0xf9, 0x08, 0x28, 0x8f, 0x40, 0x00, 0x00, 0x00	# vmovapd zmm1, [rdi+64]";
"	.byte 0x62, 0xf1, 0xf9, 0x08, 0x28, 0x91, 0xc0, 0x00, 0x00, 0x00	# vmovapd zmm2, [rcx+192]";
"	.byte 0x62, 0xf1, 0xf9, 0x08, 0x28, 0x99, 0xc0, 0x00, 0x00, 0x00	# vmovapd zmm3, [rcx+192]";
"	.byte 0x62, 0xf1, 0xf9, 0x08, 0x28, 0xa1, 0xc0, 0x00, 0x00, 0x00	# vmovapd zmm4, [rcx+192]";
"	.byte 0x62, 0xf1, 0xf9, 0x08, 0x28, 0xa9, 0xc0, 0x00, 0x00, 0x00	# vmovapd zmm5, [rcx+192]";
"	.byte 0x62, 0xf1, 0xf9, 0x08, 0x28, 0xb1, 0xc0, 0x00, 0x00, 0x00	# vmovapd zmm6, [rcx+192]";
"	.byte 0x62, 0xf1, 0xf9, 0x08, 0x28, 0xb9, 0x00, 0x00, 0x00, 0x00	# vmovapd zmm7, [rcx+0]";
"	.byte 0x62, 0x71, 0xf9, 0x08, 0x28, 0x81, 0x40, 0x00, 0x00, 0x00	# vmovapd zmm8, [rcx+64]";
"	.byte 0x62, 0x71, 0xf9, 0x08, 0x28, 0x89, 0x80, 0x00, 0x00, 0x00	# vmovapd zmm9, [rcx+128]";
"	movl $255, %eax";
"	.byte 0xc5, 0xf8, 0x92, 0xc8	# kmov k1, eax";
"	xorl %r8d, %r8d";
"1:";
"	.byte 0x62, 0x71, 0xd9, 0x08, 0x58, 0xd5	# vaddpd zmm10, zmm4, zmm5";
"	.byte 0x62, 0xd1, 0xa9, 0x09, 0xc2, 0xc8, 0x01	# vcmppd k1 {k1}, zmm10, zmm8, 1";
"	.byte 0xc5, 0xf8, 0x98, 0xc9	# kortest k1, k1";
"	jz 2f";
"	.byte 0x62, 0x71, 0xe9, 0x09, 0x59, 0xdf	# vmulpd zmm11 {k1}, zmm2, zmm7";
"	.byte 0x62, 0xf2, 0xa1, 0x09, 0xa8, 0xd9	# vfmadd213pd zmm3 {k1}, zmm11, zmm1";
"	.byte 0x62, 0xf1, 0xd9, 0x09, 0x5c, 0xd5	# vsubpd zmm2 {k1}, zmm4, zmm5";
"	.byte 0x62, 0xf1, 0xe9, 0x09, 0x58, 0xd0	# vaddpd zmm2 {k1}, zmm2, zmm0";
"	.byte 0x62, 0xf1, 0xe9, 0x09, 0x59, 0xe2	# vmulpd zmm4 {k1}, zmm2, zmm2";
"	.byte 0x62, 0xf1, 0xe1, 0x09, 0x59, 0xeb	# vmulpd zmm5 {k1}, zmm3, zmm3";
"	.byte 0x62, 0xd1, 0xc9, 0x09, 0x58, 0xf1	# vaddpd zmm6 {k1}, zmm6, zmm9";
"	incl %r8d";
"	cmpl %edx, %r8d";
"	jl 1b";
"2:";
"	.byte 0x62, 0xf1, 0xf9, 0x08, 0x29, 0xb6, 0x00, 0x00, 0x00, 0x00	# vmovapd [rsi+0], zmm6";
"	.byte 0x62, 0x71, 0xd9, 0x08, 0x58, 0xd5	# vaddpd zmm10, zmm4, zmm5";
"	.byte 0x62, 0x71, 0xf9, 0x08, 0x29, 0x96, 0x40, 0x00, 0x00, 0x00	# vmovapd [rsi+64], zmm10";
"	ret";
"	.size mandel8_vpu, .-mandel8_vpu";
"";
"	.section .rodata";
"	.balign 64";
"mandel8_consts:";
"	.double 2.0, 2.0, 2.0, 2.0, 2.0, 2.0, 2.0, 2.0";
"	.double 4.0, 4.0, 4.0, 4.0, 4.0, 4.0, 4.0, 4.0";
"	.double 1.0, 1.0, 1.0, 1.0, 1.0, 1.0, 1.0, 1.0";
"	.double 0.0, 0.0, 0.0, 0.0, 0.0, 0.0, 0.0, 0.0";
"";
quoted ["	.section .note.GNU-stack,"; ""; ",@progbits"]]%string.

(** card/examples/vpu_memcpy.S. *)
Definition vpu_memcpy_S : string := lines_of [
"# vpu_memcpy.S: generated by knc-mvex-gen (host/crates/knc-mvex). Do not edit by hand;";
"# see vpu_memcpy.md. Vector instructions are .byte sequences because no assembler in";
"# the stack knows the Knights Corner MVEX encoding.";
"	.text";
"";
"	.globl knc_memcpy64";
"	.type knc_memcpy64, @function";
"# void *knc_memcpy64(void *dst, const void *src, size_t blocks): rdi = dst (64-byte aligned), rsi = src (64-byte aligned), rdx = count of 64-byte blocks. Returns dst.";
"knc_memcpy64:";
"	movq %rdi, %rax";
"	cmpq $4, %rdx";
"	jb 2f";
"1:";
"	.byte 0x62, 0xf1, 0x78, 0x08, 0x28, 0x86, 0x00, 0x00, 0x00, 0x00	# vmovaps zmm0, [rsi+0]";
"	.byte 0x62, 0xf1, 0x78, 0x08, 0x28, 0x8e, 0x40, 0x00, 0x00, 0x00	# vmovaps zmm1, [rsi+64]";
"	.byte 0x62, 0xf1, 0x78, 0x08, 0x28, 0x96, 0x80, 0x00, 0x00, 0x00	# vmovaps zmm2, [rsi+128]";
"	.byte 0x62, 0xf1, 0x78, 0x08, 0x28, 0x9e, 0xc0, 0x00, 0x00, 0x00	# vmovaps zmm3, [rsi+192]";
"	.byte 0x62, 0xf1, 0x78, 0x08, 0x29, 0x87, 0x00, 0x00, 0x00, 0x00	# vmovaps [rdi+0], zmm0";
"	.byte 0x62, 0xf1, 0x78, 0x08, 0x29, 0x8f, 0x40, 0x00, 0x00, 0x00	# vmovaps [rdi+64], zmm1";
"	.byte 0x62, 0xf1, 0x78, 0x08, 0x29, 0x97, 0x80, 0x00, 0x00, 0x00	# vmovaps [rdi+128], zmm2";
"	.byte 0x62, 0xf1, 0x78, 0x08, 0x29, 0x9f, 0xc0, 0x00, 0x00, 0x00	# vmovaps [rdi+192], zmm3";
"	addq $256, %rsi";
"	addq $256, %rdi";
"	subq $4, %rdx";
"	cmpq $4, %rdx";
"	jae 1b";
"2:";
"	testq %rdx, %rdx";
"	jz 4f";
"3:";
"	.byte 0x62, 0xf1, 0x78, 0x08, 0x28, 0x86, 0x00, 0x00, 0x00, 0x00	# vmovaps zmm0, [rsi+0]";
"	.byte 0x62, 0xf1, 0x78, 0x08, 0x29, 0x87, 0x00, 0x00, 0x00, 0x00	# vmovaps [rdi+0], zmm0";
"	addq $64, %rsi";
"	addq $64, %rdi";
"	decq %rdx";
"	jnz 3b";
"4:";
"	ret";
"	.size knc_memcpy64, .-knc_memcpy64";
"";
"	.globl knc_memset64_ord";
"	.type knc_memset64_ord, @function";
"# void *knc_memset64_ord(void *dst, size_t blocks): rdi = dst (64-byte aligned), rsi = count of 64-byte blocks. Returns dst.";
"knc_memset64_ord:";
"	movq %rdi, %rax";
"	.byte 0x62, 0xf1, 0x79, 0x08, 0xef, 0xc0	# vpxord zmm0, zmm0, zmm0";
"	cmpq $4, %rsi";
"	jb 2f";
"1:";
"	.byte 0x62, 0xf1, 0x78, 0x08, 0x29, 0x87, 0x00, 0x00, 0x00, 0x00	# vmovaps [rdi+0], zmm0";
"	.byte 0x62, 0xf1, 0x78, 0x08, 0x29, 0x87, 0x40, 0x00, 0x00, 0x00	# vmovaps [rdi+64], zmm0";
"	.byte 0x62, 0xf1, 0x78, 0x08, 0x29, 0x87, 0x80, 0x00, 0x00, 0x00	# vmovaps [rdi+128], zmm0";
"	.byte 0x62, 0xf1, 0x78, 0x08, 0x29, 0x87, 0xc0, 0x00, 0x00, 0x00	# vmovaps [rdi+192], zmm0";
"	addq $256, %rdi";
"	subq $4, %rsi";
"	cmpq $4, %rsi";
"	jae 1b";
"2:";
"	testq %rsi, %rsi";
"	jz 4f";
"3:";
"	.byte 0x62, 0xf1, 0x78, 0x08, 0x29, 0x87, 0x00, 0x00, 0x00, 0x00	# vmovaps [rdi+0], zmm0";
"	addq $64, %rdi";
"	decq %rsi";
"	jnz 3b";
"4:";
"	ret";
"	.size knc_memset64_ord, .-knc_memset64_ord";
"";
"	.globl knc_memset64";
"	.type knc_memset64, @function";
"# void *knc_memset64(void *dst, size_t blocks): rdi = dst (64-byte aligned), rsi = count of 64-byte blocks. Returns dst.";
"knc_memset64:";
"	movq %rdi, %rax";
"	.byte 0x62, 0xf1, 0x79, 0x08, 0xef, 0xc0	# vpxord zmm0, zmm0, zmm0";
"	cmpq $4, %rsi";
"	jb 2f";
"1:";
"	.byte 0x62, 0xf1, 0x7b, 0x88, 0x29, 0x87, 0x00, 0x00, 0x00, 0x00	# vmovnrngoaps [rdi+0], zmm0";
"	.byte 0x62, 0xf1, 0x7b, 0x88, 0x29, 0x87, 0x40, 0x00, 0x00, 0x00	# vmovnrngoaps [rdi+64], zmm0";
"	.byte 0x62, 0xf1, 0x7b, 0x88, 0x29, 0x87, 0x80, 0x00, 0x00, 0x00	# vmovnrngoaps [rdi+128], zmm0";
"	.byte 0x62, 0xf1, 0x7b, 0x88, 0x29, 0x87, 0xc0, 0x00, 0x00, 0x00	# vmovnrngoaps [rdi+192], zmm0";
"	addq $256, %rdi";
"	subq $4, %rsi";
"	cmpq $4, %rsi";
"	jae 1b";
"2:";
"	testq %rsi, %rsi";
"	jz 4f";
"3:";
"	.byte 0x62, 0xf1, 0x7b, 0x88, 0x29, 0x87, 0x00, 0x00, 0x00, 0x00	# vmovnrngoaps [rdi+0], zmm0";
"	addq $64, %rdi";
"	decq %rsi";
"	jnz 3b";
"4:";
"	lock addq $0, (%rsp)	# fence: vmovnrngoaps is not globally ordered";
"	ret";
"	.size knc_memset64, .-knc_memset64";
"";
quoted ["	.section .note.GNU-stack,"; ""; ",@progbits"]]%string.

(** The kernel patch 0024 of card/kernel/patches. *)
Definition patch_0024 : string := lines_of [
"From 0000000000000000000000000000000000000000 Mon Sep 17 00:00:00 2001";
"From: Lasimeri <217267696+Lasimeri@users.noreply.github.com>";
"Date: Tue, 15 Sep 2026 15:02:27 -0500";
"Subject: [PATCH] x86/knc: save and restore the vector unit state on context";
" switch";
"";
"Knights Corner keeps its 512-bit vector unit outside the FXSAVE image:";
"FXSAVE stores nothing of the 32 zmm registers and FXRSTOR clears bits";
"0:127 of every one of them (ISA reference 327364-001, appendix B.5 and";
"B.4). Without help from the kernel a user task using the vector unit";
"loses its registers at every context switch, which vpu_state.c in the";
"project tree measured as one mismatch in five checks with one thread per";
"CPU and four in five with two.";
"";
"Add asm/knc_vpu.h with knc_vpu_save() and knc_vpu_restore(), inline";
"assembly of byte-encoded vector stores, loads and mask register moves";
"(no assembler in the stack knows the MVEX prefix; the header is generated";
"by knc-mvex-gen from the project's encoder, whose tests pin the bytes to";
"Intel's k1om kernel macros), and keep 2112 bytes of vector state after";
"the 512-byte FXSAVE image in every task's fpstate. save_fpregs_to_fpstate";
"stores the vector state after fxsave; restore_fpregs_from_fpstate loads";
"it after fxrstor, which is the order the B.4 note requires. The user ABI";
"(signal frames, ptrace) keeps the FXSAVE image only: a signal handler";
"that used the vector unit would clobber the interrupted code's registers,";
"as on Intel's k1om tree before its xsave emulation.";
"";
"Co-Authored-By: Claude Fable 5.1 <noreply@anthropic.com>";
"---";
" arch/x86/include/asm/knc_vpu.h | 135 +++++++++++++++++++++++++++++++++";
" arch/x86/kernel/fpu/core.c     |  15 +++-";
" arch/x86/kernel/fpu/init.c     |  14 ++++";
" 3 files changed, 162 insertions(+), 2 deletions(-)";
" create mode 100644 arch/x86/include/asm/knc_vpu.h";
"";
"diff --git a/arch/x86/include/asm/knc_vpu.h b/arch/x86/include/asm/knc_vpu.h";
"new file mode 100644";
"index 000000000..77c5d7a9d";
"--- /dev/null";
"+++ b/arch/x86/include/asm/knc_vpu.h";
"@@ -0,0 +1,135 @@";
"+/* SPDX-License-Identifier: GPL-2.0 */";
"+/*";
"+ * Knights Corner vector unit state: 32 zmm registers of 64 bytes and 8";
"+ * mask registers of 16 bits, kept after the FXSAVE image in the task's";
"+ * fpstate. FXSAVE does not store the zmm registers and FXRSTOR clears";
"+ * bits 0:127 of every one of them (ISA reference 327364-001, B.5 and";
"+ * B.4), so the restore has to run after fxrstor.";
"+ *";
"+ * Generated by knc-mvex-gen kernel-header (host/crates/knc-mvex in the";
"+ * project tree), whose tests pin the encodings to Intel's k1om kernel";
"+ * macros. Vector instructions are byte sequences because the assembler";
"+ * does not know the MVEX prefix.";
"+ */";
"+#ifndef _ASM_X86_KNC_VPU_H";
"+#define _ASM_X86_KNC_VPU_H";
"+";
"+#define KNC_VPU_STATE_OFFSET	512	/* right after the FXSAVE image */";
"+#define KNC_VPU_K_OFFSET	2048	/* the mask registers, after the zmm registers */";
"+#define KNC_VPU_STATE_SIZE	2112	/* zmm and masks, rounded up to 64 bytes */";
"+#define KNC_FPSTATE_SIZE	(KNC_VPU_STATE_OFFSET + KNC_VPU_STATE_SIZE)";
"+";
"+#ifndef __ASSEMBLY__";
"+";
"+/* Store zmm0..31 and k0..k7 into a 64-byte aligned area of KNC_VPU_STATE_SIZE bytes. */";
"+static inline void knc_vpu_save(void *area)";
"+{";
"+	asm volatile(";
quoted ["+		"; ".byte 0x62,0xf1,0x78,0x08,0x29,0x80,0x00,0x00,0x00,0x00\n\t"; " /* vmovaps [rax+0], zmm0 */"];
quoted ["+		"; ".byte 0x62,0xf1,0x78,0x08,0x29,0x88,0x40,0x00,0x00,0x00\n\t"; " /* vmovaps [rax+64], zmm1 */"];
quoted ["+		"; ".byte 0x62,0xf1,0x78,0x08,0x29,0x90,0x80,0x00,0x00,0x00\n\t"; " /* vmovaps [rax+128], zmm2 */"];
quoted ["+		"; ".byte 0x62,0xf1,0x78,0x08,0x29,0x98,0xc0,0x00,0x00,0x00\n\t"; " /* vmovaps [rax+192], zmm3 */"];
quoted ["+		"; ".byte 0x62,0xf1,0x78,0x08,0x29,0xa0,0x00,0x01,0x00,0x00\n\t"; " /* vmovaps [rax+256], zmm4 */"];
quoted ["+		"; ".byte 0x62,0xf1,0x78,0x08,0x29,0xa8,0x40,0x01,0x00,0x00\n\t"; " /* vmovaps [rax+320], zmm5 */"];
quoted ["+		"; ".byte 0x62,0xf1,0x78,0x08,0x29,0xb0,0x80,0x01,0x00,0x00\n\t"; " /* vmovaps [rax+384], zmm6 */"];
quoted ["+		"; ".byte 0x62,0xf1,0x78,0x08,0x29,0xb8,0xc0,0x01,0x00,0x00\n\t"; " /* vmovaps [rax+448], zmm7 */"];
quoted ["+		"; ".byte 0x62,0x71,0x78,0x08,0x29,0x80,0x00,0x02,0x00,0x00\n\t"; " /* vmovaps [rax+512], zmm8 */"];
quoted ["+		"; ".byte 0x62,0x71,0x78,0x08,0x29,0x88,0x40,0x02,0x00,0x00\n\t"; " /* vmovaps [rax+576], zmm9 */"];
quoted ["+		"; ".byte 0x62,0x71,0x78,0x08,0x29,0x90,0x80,0x02,0x00,0x00\n\t"; " /* vmovaps [rax+640], zmm10 */"];
quoted ["+		"; ".byte 0x62,0x71,0x78,0x08,0x29,0x98,0xc0,0x02,0x00,0x00\n\t"; " /* vmovaps [rax+704], zmm11 */"];
quoted ["+		"; ".byte 0x62,0x71,0x78,0x08,0x29,0xa0,0x00,0x03,0x00,0x00\n\t"; " /* vmovaps [rax+768], zmm12 */"];
quoted ["+		"; ".byte 0x62,0x71,0x78,0x08,0x29,0xa8,0x40,0x03,0x00,0x00\n\t"; " /* vmovaps [rax+832], zmm13 */"];
quoted ["+		"; ".byte 0x62,0x71,0x78,0x08,0x29,0xb0,0x80,0x03,0x00,0x00\n\t"; " /* vmovaps [rax+896], zmm14 */"];
quoted ["+		"; ".byte 0x62,0x71,0x78,0x08,0x29,0xb8,0xc0,0x03,0x00,0x00\n\t"; " /* vmovaps [rax+960], zmm15 */"];
quoted ["+		"; ".byte 0x62,0xe1,0x78,0x08,0x29,0x80,0x00,0x04,0x00,0x00\n\t"; " /* vmovaps [rax+1024], zmm16 */"];
quoted ["+		"; ".byte 0x62,0xe1,0x78,0x08,0x29,0x88,0x40,0x04,0x00,0x00\n\t"; " /* vmovaps [rax+1088], zmm17 */"];
quoted ["+		"; ".byte 0x62,0xe1,0x78,0x08,0x29,0x90,0x80,0x04,0x00,0x00\n\t"; " /* vmovaps [rax+1152], zmm18 */"];
quoted ["+		"; ".byte 0x62,0xe1,0x78,0x08,0x29,0x98,0xc0,0x04,0x00,0x00\n\t"; " /* vmovaps [rax+1216], zmm19 */"];
quoted ["+		"; ".byte 0x62,0xe1,0x78,0x08,0x29,0xa0,0x00,0x05,0x00,0x00\n\t"; " /* vmovaps [rax+1280], zmm20 */"];
quoted ["+		"; ".byte 0x62,0xe1,0x78,0x08,0x29,0xa8,0x40,0x05,0x00,0x00\n\t"; " /* vmovaps [rax+1344], zmm21 */"];
quoted ["+		"; ".byte 0x62,0xe1,0x78,0x08,0x29,0xb0,0x80,0x05,0x00,0x00\n\t"; " /* vmovaps [rax+1408], zmm22 */"];
quoted ["+		"; ".byte 0x62,0xe1,0x78,0x08,0x29,0xb8,0xc0,0x05,0x00,0x00\n\t"; " /* vmovaps [rax+1472], zmm23 */"];
quoted ["+		"; ".byte 0x62,0x61,0x78,0x08,0x29,0x80,0x00,0x06,0x00,0x00\n\t"; " /* vmovaps [rax+1536], zmm24 */"];
quoted ["+		"; ".byte 0x62,0x61,0x78,0x08,0x29,0x88,0x40,0x06,0x00,0x00\n\t"; " /* vmovaps [rax+1600], zmm25 */"];
quoted ["+		"; ".byte 0x62,0x61,0x78,0x08,0x29,0x90,0x80,0x06,0x00,0x00\n\t"; " /* vmovaps [rax+1664], zmm26 */"];
quoted ["+		"; ".byte 0x62,0x61,0x78,0x08,0x29,0x98,0xc0,0x06,0x00,0x00\n\t"; " /* vmovaps [rax+1728], zmm27 */"];
quoted ["+		"; ".byte 0x62,0x61,0x78,0x08,0x29,0xa0,0x00,0x07,0x00,0x00\n\t"; " /* vmovaps [rax+1792], zmm28 */"];
quoted ["+		"; ".byte 0x62,0x61,0x78,0x08,0x29,0xa8,0x40,0x07,0x00,0x00\n\t"; " /* vmovaps [rax+1856], zmm29 */"];
quoted ["+		"; ".byte 0x62,0x61,0x78,0x08,0x29,0xb0,0x80,0x07,0x00,0x00\n\t"; " /* vmovaps [rax+1920], zmm30 */"];
quoted ["+		"; ".byte 0x62,0x61,0x78,0x08,0x29,0xb8,0xc0,0x07,0x00,0x00\n\t"; " /* vmovaps [rax+1984], zmm31 */"];
quoted ["+		"; ".byte 0xc5,0xf8,0x93,0xc8\n\t"; " /* kmov ecx, k0 */"];
quoted ["+		"; "movw %%cx, 2048(%%rax)\n\t"; ""];
quoted ["+		"; ".byte 0xc5,0xf8,0x93,0xc9\n\t"; " /* kmov ecx, k1 */"];
quoted ["+		"; "movw %%cx, 2050(%%rax)\n\t"; ""];
quoted ["+		"; ".byte 0xc5,0xf8,0x93,0xca\n\t"; " /* kmov ecx, k2 */"];
quoted ["+		"; "movw %%cx, 2052(%%rax)\n\t"; ""];
quoted ["+		"; ".byte 0xc5,0xf8,0x93,0xcb\n\t"; " /* kmov ecx, k3 */"];
quoted ["+		"; "movw %%cx, 2054(%%rax)\n\t"; ""];
quoted ["+		"; ".byte 0xc5,0xf8,0x93,0xcc\n\t"; " /* kmov ecx, k4 */"];
quoted ["+		"; "movw %%cx, 2056(%%rax)\n\t"; ""];
quoted ["+		"; ".byte 0xc5,0xf8,0x93,0xcd\n\t"; " /* kmov ecx, k5 */"];
quoted ["+		"; "movw %%cx, 2058(%%rax)\n\t"; ""];
quoted ["+		"; ".byte 0xc5,0xf8,0x93,0xce\n\t"; " /* kmov ecx, k6 */"];
quoted ["+		"; "movw %%cx, 2060(%%rax)\n\t"; ""];
quoted ["+		"; ".byte 0xc5,0xf8,0x93,0xcf\n\t"; " /* kmov ecx, k7 */"];
quoted ["+		"; "movw %%cx, 2062(%%rax)\n\t"; ""];
quoted ["+		: : "; "a"; " (area) : "; "rcx"; ", "; "memory"; ");"];
"+}";
"+";
"+/* Load them back; call after fxrstor, which zeroes the low 128 bits of each zmm. */";
"+static inline void knc_vpu_restore(const void *area)";
"+{";
"+	asm volatile(";
quoted ["+		"; ".byte 0x62,0xf1,0x78,0x08,0x28,0x80,0x00,0x00,0x00,0x00\n\t"; " /* vmovaps zmm0, [rax+0] */"];
quoted ["+		"; ".byte 0x62,0xf1,0x78,0x08,0x28,0x88,0x40,0x00,0x00,0x00\n\t"; " /* vmovaps zmm1, [rax+64] */"];
quoted ["+		"; ".byte 0x62,0xf1,0x78,0x08,0x28,0x90,0x80,0x00,0x00,0x00\n\t"; " /* vmovaps zmm2, [rax+128] */"];
quoted ["+		"; ".byte 0x62,0xf1,0x78,0x08,0x28,0x98,0xc0,0x00,0x00,0x00\n\t"; " /* vmovaps zmm3, [rax+192] */"];
quoted ["+		"; ".byte 0x62,0xf1,0x78,0x08,0x28,0xa0,0x00,0x01,0x00,0x00\n\t"; " /* vmovaps zmm4, [rax+256] */"];
quoted ["+		"; ".byte 0x62,0xf1,0x78,0x08,0x28,0xa8,0x40,0x01,0x00,0x00\n\t"; " /* vmovaps zmm5, [rax+320] */"];
quoted ["+		"; ".byte 0x62,0xf1,0x78,0x08,0x28,0xb0,0x80,0x01,0x00,0x00\n\t"; " /* vmovaps zmm6, [rax+384] */"];
quoted ["+		"; ".byte 0x62,0xf1,0x78,0x08,0x28,0xb8,0xc0,0x01,0x00,0x00\n\t"; " /* vmovaps zmm7, [rax+448] */"];
quoted ["+		"; ".byte 0x62,0x71,0x78,0x08,0x28,0x80,0x00,0x02,0x00,0x00\n\t"; " /* vmovaps zmm8, [rax+512] */"];
quoted ["+		"; ".byte 0x62,0x71,0x78,0x08,0x28,0x88,0x40,0x02,0x00,0x00\n\t"; " /* vmovaps zmm9, [rax+576] */"];
quoted ["+		"; ".byte 0x62,0x71,0x78,0x08,0x28,0x90,0x80,0x02,0x00,0x00\n\t"; " /* vmovaps zmm10, [rax+640] */"];
quoted ["+		"; ".byte 0x62,0x71,0x78,0x08,0x28,0x98,0xc0,0x02,0x00,0x00\n\t"; " /* vmovaps zmm11, [rax+704] */"];
quoted ["+		"; ".byte 0x62,0x71,0x78,0x08,0x28,0xa0,0x00,0x03,0x00,0x00\n\t"; " /* vmovaps zmm12, [rax+768] */"];
quoted ["+		"; ".byte 0x62,0x71,0x78,0x08,0x28,0xa8,0x40,0x03,0x00,0x00\n\t"; " /* vmovaps zmm13, [rax+832] */"];
quoted ["+		"; ".byte 0x62,0x71,0x78,0x08,0x28,0xb0,0x80,0x03,0x00,0x00\n\t"; " /* vmovaps zmm14, [rax+896] */"];
quoted ["+		"; ".byte 0x62,0x71,0x78,0x08,0x28,0xb8,0xc0,0x03,0x00,0x00\n\t"; " /* vmovaps zmm15, [rax+960] */"];
quoted ["+		"; ".byte 0x62,0xe1,0x78,0x08,0x28,0x80,0x00,0x04,0x00,0x00\n\t"; " /* vmovaps zmm16, [rax+1024] */"];
quoted ["+		"; ".byte 0x62,0xe1,0x78,0x08,0x28,0x88,0x40,0x04,0x00,0x00\n\t"; " /* vmovaps zmm17, [rax+1088] */"];
quoted ["+		"; ".byte 0x62,0xe1,0x78,0x08,0x28,0x90,0x80,0x04,0x00,0x00\n\t"; " /* vmovaps zmm18, [rax+1152] */"];
quoted ["+		"; ".byte 0x62,0xe1,0x78,0x08,0x28,0x98,0xc0,0x04,0x00,0x00\n\t"; " /* vmovaps zmm19, [rax+1216] */"];
quoted ["+		"; ".byte 0x62,0xe1,0x78,0x08,0x28,0xa0,0x00,0x05,0x00,0x00\n\t"; " /* vmovaps zmm20, [rax+1280] */"];
quoted ["+		"; ".byte 0x62,0xe1,0x78,0x08,0x28,0xa8,0x40,0x05,0x00,0x00\n\t"; " /* vmovaps zmm21, [rax+1344] */"];
quoted ["+		"; ".byte 0x62,0xe1,0x78,0x08,0x28,0xb0,0x80,0x05,0x00,0x00\n\t"; " /* vmovaps zmm22, [rax+1408] */"];
quoted ["+		"; ".byte 0x62,0xe1,0x78,0x08,0x28,0xb8,0xc0,0x05,0x00,0x00\n\t"; " /* vmovaps zmm23, [rax+1472] */"];
quoted ["+		"; ".byte 0x62,0x61,0x78,0x08,0x28,0x80,0x00,0x06,0x00,0x00\n\t"; " /* vmovaps zmm24, [rax+1536] */"];
quoted ["+		"; ".byte 0x62,0x61,0x78,0x08,0x28,0x88,0x40,0x06,0x00,0x00\n\t"; " /* vmovaps zmm25, [rax+1600] */"];
quoted ["+		"; ".byte 0x62,0x61,0x78,0x08,0x28,0x90,0x80,0x06,0x00,0x00\n\t"; " /* vmovaps zmm26, [rax+1664] */"];
quoted ["+		"; ".byte 0x62,0x61,0x78,0x08,0x28,0x98,0xc0,0x06,0x00,0x00\n\t"; " /* vmovaps zmm27, [rax+1728] */"];
quoted ["+		"; ".byte 0x62,0x61,0x78,0x08,0x28,0xa0,0x00,0x07,0x00,0x00\n\t"; " /* vmovaps zmm28, [rax+1792] */"];
quoted ["+		"; ".byte 0x62,0x61,0x78,0x08,0x28,0xa8,0x40,0x07,0x00,0x00\n\t"; " /* vmovaps zmm29, [rax+1856] */"];
quoted ["+		"; ".byte 0x62,0x61,0x78,0x08,0x28,0xb0,0x80,0x07,0x00,0x00\n\t"; " /* vmovaps zmm30, [rax+1920] */"];
quoted ["+		"; ".byte 0x62,0x61,0x78,0x08,0x28,0xb8,0xc0,0x07,0x00,0x00\n\t"; " /* vmovaps zmm31, [rax+1984] */"];
quoted ["+		"; "movzwl 2048(%%rax), %%ecx\n\t"; ""];
quoted ["+		"; ".byte 0xc5,0xf8,0x92,0xc1\n\t"; " /* kmov k0, ecx */"];
quoted ["+		"; "movzwl 2050(%%rax), %%ecx\n\t"; ""];
quoted ["+		"; ".byte 0xc5,0xf8,0x92,0xc9\n\t"; " /* kmov k1, ecx */"];
quoted ["+		"; "movzwl 2052(%%rax), %%ecx\n\t"; ""];
quoted ["+		"; ".byte 0xc5,0xf8,0x92,0xd1\n\t"; " /* kmov k2, ecx */"];
quoted ["+		"; "movzwl 2054(%%rax), %%ecx\n\t"; ""];
quoted ["+		"; ".byte 0xc5,0xf8,0x92,0xd9\n\t"; " /* kmov k3, ecx */"];
quoted ["+		"; "movzwl 2056(%%rax), %%ecx\n\t"; ""];
quoted ["+		"; ".byte 0xc5,0xf8,0x92,0xe1\n\t"; " /* kmov k4, ecx */"];
quoted ["+		"; "movzwl 2058(%%rax), %%ecx\n\t"; ""];
quoted ["+		"; ".byte 0xc5,0xf8,0x92,0xe9\n\t"; " /* kmov k5, ecx */"];
quoted ["+		"; "movzwl 2060(%%rax), %%ecx\n\t"; ""];
quoted ["+		"; ".byte 0xc5,0xf8,0x92,0xf1\n\t"; " /* kmov k6, ecx */"];
quoted ["+		"; "movzwl 2062(%%rax), %%ecx\n\t"; ""];
quoted ["+		"; ".byte 0xc5,0xf8,0x92,0xf9\n\t"; " /* kmov k7, ecx */"];
quoted ["+		: : "; "a"; " (area) : "; "rcx"; ", "; "memory"; ");"];
"+}";
"+";
"+#endif /* __ASSEMBLY__ */";
"+#endif /* _ASM_X86_KNC_VPU_H */";
"diff --git a/arch/x86/kernel/fpu/core.c b/arch/x86/kernel/fpu/core.c";
"index 30435ae0f..b902881aa 100644";
"--- a/arch/x86/kernel/fpu/core.c";
"+++ b/arch/x86/kernel/fpu/core.c";
"@@ -7,6 +7,7 @@";
"  *	Gareth Hughes <gareth@valinux.com>, May 2000";
"  */";
" #include <asm/fpu/api.h>";
"+#include <asm/knc_vpu.h>";
" #include <asm/fpu/regset.h>";
" #include <asm/fpu/sched.h>";
" #include <asm/fpu/signal.h>";
"@@ -148,6 +149,9 @@ void save_fpregs_to_fpstate(struct fpu *fpu)";
" ";
" 	if (likely(use_fxsr())) {";
" 		fxsave(&fpu->fpstate->regs.fxsave);";
"+		/* Knights Corner: FXSAVE leaves the vector unit out (327364-001, B.5). */";
"+		if (IS_ENABLED(CONFIG_X86_KNC))";
"+			knc_vpu_save((void *" +:+ ")&fpu->fpstate->regs + KNC_VPU_STATE_OFFSET);";
" 		return;";
" 	}";
" ";
"@@ -206,10 +210,17 @@ void restore_fpregs_from_fpstate(struct fpstate *fpstate, u64 mask)";
" ";
" 		os_xrstor(fpstate, mask);";
" 	} else {";
"-		if (use_fxsr())";
"+		if (use_fxsr()) {";
" 			fxrstor(&fpstate->regs.fxsave);";
"-		else";
"+			/*";
"+			 * Knights Corner: FXRSTOR clears bits 0:127 of every zmm";
"+			 * (327364-001, B.4), so the vector unit is restored after it.";
"+			 */";
"+			if (IS_ENABLED(CONFIG_X86_KNC))";
"+				knc_vpu_restore((const void *" +:+ ")&fpstate->regs + KNC_VPU_STATE_OFFSET);";
"+		} else {";
" 			frstor(&fpstate->regs.fsave);";
"+		}";
" 	}";
" }";
" ";
"diff --git a/arch/x86/kernel/fpu/init.c b/arch/x86/kernel/fpu/init.c";
"index a82825467..cd76b03ce 100644";
"--- a/arch/x86/kernel/fpu/init.c";
"+++ b/arch/x86/kernel/fpu/init.c";
"@@ -3,6 +3,7 @@";
"  * x86 FPU boot time init code:";
"  */";
" #include <asm/fpu/api.h>";
"+#include <asm/knc_vpu.h>";
" #include <asm/tlbflush.h>";
" #include <asm/setup.h>";
" ";
"@@ -248,5 +249,18 @@ void __init fpu__init_system(void)";
" 	fpu__init_system_generic();";
" 	fpu__init_system_xstate_size_legacy();";
" 	fpu__init_system_xstate(fpu_kernel_cfg.max_size);";
"+";
"+	/*";
"+	 * Knights Corner: the vector unit state lives after the FXSAVE image in";
"+	 * every task's fpstate (asm/knc_vpu.h). The user ABI (signal frames,";
"+	 * ptrace) keeps the 512-byte FXSAVE image and never sees the zmm state.";
"+	 */";
"+	if (IS_ENABLED(CONFIG_X86_KNC)) {";
"+		fpu_kernel_cfg.max_size = KNC_FPSTATE_SIZE;";
"+		fpu_kernel_cfg.default_size = KNC_FPSTATE_SIZE;";
"+		init_fpstate.size = KNC_FPSTATE_SIZE;";
quoted ["+		pr_info("; "x86/fpu: KNC: vector unit state (%u bytes) saved with the FPU state\n"; ","];
"+			KNC_VPU_STATE_SIZE);";
"+	}";
" 	fpu__init_task_struct_size();";
" }"]%string.

(** ** The tests *)

(** [probe()] and the like are texts: a writer that cannot be rendered would
    be a panic. *)
Definition committed_assembly_is_current : Prop :=
  render probe = Some vpu_probe_S /\
  render int_probe = Some vpu_int_S /\
  render mandel = Some mandel_vpu_S /\
  render memcpy_kernel = Some vpu_memcpy_S.

Definition kernel_header_matches_patch_0024 : Prop :=
  exists header, header_of_patch patch_0024 = Some header /\ kernel_header = Some header.

(** The first test passes. *)
Lemma assembly_is_current : committed_assembly_is_current.
Proof.
  unfold committed_assembly_is_current. do 3 (split; [vm_compute; reflexivity|]). vm_compute; reflexivity.
Qed.

(** So does the second. *)
Lemma header_is_current : kernel_header_matches_patch_0024.
Proof.
  assert (header_of_patch patch_0024 = kernel_header) as Heq by (vm_compute; reflexivity).
  unfold kernel_header_matches_patch_0024. rewrite Heq.
  pose proof header_ok as [t Ht]%bool_decide_eq_true. exists t. by split.
Qed.

(** A file of the generator, at its place in the list. *)
Ltac by_index i := apply (list_elem_of_lookup_2 files i); reflexivity.

(** C25: the committed files are the generator's output, byte for byte: asked for
    the probe, the integer probe, the Mandelbrot kernel or the copy kernel it
    prints the file committed under card/examples, and asked for the kernel
    header the [+] lines of the hunk of kernel patch 0024. *)
Theorem committed_files_are_current :
  committed_assembly_is_current /\ kernel_header_matches_patch_0024 /\
  main "probe" = Some (Ok vpu_probe_S) /\ main "int-probe" = Some (Ok vpu_int_S) /\
  main "mandel" = Some (Ok mandel_vpu_S) /\ main "memcpy" = Some (Ok vpu_memcpy_S) /\
  exists header, header_of_patch patch_0024 = Some header /\ main "kernel-header" = Some (Ok header).
Proof.
  split; [exact assembly_is_current|]. split; [exact header_is_current|].
  destruct assembly_is_current as (Hp & Hi & Hm & Hc), header_is_current as (h & Hh & Hk).
  rewrite (main_file "probe" (Some probe)) by by_index 0%nat.
  rewrite (main_file "int-probe" (Some int_probe)) by by_index 1%nat.
  rewrite (main_file "mandel" (Some mandel)) by by_index 6%nat.
  rewrite (main_file "memcpy" (Some memcpy_kernel)) by by_index 5%nat.
  cbn [mbind option_bind]. rewrite Hp, Hi, Hm, Hc. cbn [mbind option_bind].
  do 4 (split; [reflexivity|]). exists h. split; [exact Hh|].
  unfold main. cbv zeta. compare_names. by rewrite Hk.
Qed.
